(* ===== verification/_CoqProject ===== *)
-Q . S2P
Prelude.v
Encoding.v
Clock.v
Decimal.v
Json.v
Scanner.v
Sql.v
Schema.v
Migrate.v
Restart.v
Upgrade.v
StoreM.v
Crypto.v
Sigauth.v
Accounts.v
Devices.v
Queues.v
Blobs.v
Steps.v
Invariants.v
Evolution.v
Refine.v
Store.v
Demo.v
Sqlite.v
SqlStore.v
Rows.v
Represent.v
Simulation.v
Faithful.v
Catalog.v
Persist.v
Reopen.v
Capacity.v
Safety.v
Enrolment.v
Delivery.v
Journal.v
Reread.v
Isolation.v
World.v
Grain.v
Ceilings.v
Url.v
Http.v
Decoder.v
Reply.v
Auth.v
Push.v
Management.v
Transport.v
Router.v
Client.v
DemoServer.v
Gate.v
Planes.v
Promise.v
Recovery.v
FileServer.v
QueueKeys.v
Protocol.v
EndToEnd.v
Replay.v
Tenancy.v
Wire.v
Host.v
X509.v
Tlsid.v
Identity.v
Duration.v
Flags.v
Command.v
Operator.v
Deploy.v
Admin.v
Netaddr.v
Address.v
Conn.v
Lifecycle.v
