(* ===== verification/Prelude.v ===== *)
(** * Sund, a blind store-and-forward relay: verification development

    Sund is a relay server written in Go. Devices of an account register with an
    invitation token, authenticate every management request with an Ed25519
    signature, and exchange opaque messages through queues whose two ends are known
    only by two unlinked identifiers and two keys. The server keeps everything in one
    SQLite database.

    ** The program and its parts

    - [internal/store] ([store.go], [queue.go], [bundle.go], [quota.go]): the methods
      of [*store.Store], each one or more SQL statements, some in a transaction.
    - [internal/sigauth]: the canonical byte string a request signature covers, shared
      by client and server.
    - [internal/server]: the router ([server.go]), authentication and the replay cache
      ([auth.go]), the management plane ([devices.go], [bundles.go], [statements.go],
      [push.go]) and the transport plane ([transport.go]). A handler calls the store,
      the replay cache and, for wake-ups, [internal/push].
    - [internal/push]: content-free pings to device endpoints.
    - [client]: the Go client library, which signs requests and reads replies.
    - [internal/tlsid]: the pinned CA and the leaf certificate of the server on disk, and
      the client's check of a presented chain against the pin.
    - [main.go]: the command line: [serve], which opens the database, loads the identity
      and runs the server, the operator's commands on accounts and devices, which work on
      the database file directly, [cert fingerprint] and [health].

    ** How the code is modelled

    Foundations:
    - [Prelude]: machine integers, lists, tactics and hint databases.
    - [Encoding]: hexadecimal, base64 and byte conversions, with round trips.
    - [Clock]: Go's instants and durations, and the RFC3339 text format.
    - [Decimal]: reading and printing decimal numbers. [Duration]: reading integers with
      base prefixes, reading and printing durations, as the flags of the command line do.
    - [Json], [Scanner]: JSON trees and the text [encoding/json] prints for them; its
      scanner, state by state, and [Unmarshal] and [Decoder.Decode] of one value.
    - [Sql]: tables as lists of rows, and the statements on them.
    - [Crypto]: SHA-256 and Ed25519 as the class [Crypto], and what the code relies
      on as the class [CryptoLaws]. [Crypto.Toy] is a concrete instance.

    The store:
    - [Schema]: the rows of the seven tables, the database [DB] as a record of tables,
      the sentinel errors, and the declared constraints [integrity].
    - [Migrate]: what [Open] does to a file: the catalog of tables, columns, rows and
      indexes, the schema's statements, [migrate] and its helpers. [Restart] and
      [Upgrade] are its theorems.
    - [StoreM]: the computations of the store. They read the clock, take random bytes,
      send statements to a driver that may fail any of them (a schedule of failures is
      part of the environment), and run transactions ([tx]) that roll back on error.
    - [Accounts], [Devices], [Queues], [Blobs]: one definition per method, under the
      method's own name, with every statement it sends and every early return.
    - [Steps]: the abstract specification: the events that change the database, each
      with its guard, as the relation [db_step].
    - [Invariants], [Evolution]: what each event preserves ([db_ok]) and what never
      changes back, by rule induction.
    - [Refine]: every method implements its event, proved with the [wp] calculus.
    - [Store]: all methods as one typed interface ([store_op]); a caller is a list of
      calls, each with its own clock, random bytes and driver failures.

    The database file:
    - [Sqlite]: a file as a catalog of tables whose rows are maps from columns to values;
      the statements the program uses (inserts, upserts, updates, deletes, selects with
      joins, aggregates and orders) as data, what they do and return, the constraints they
      fail on, and scanning a result into Go values.
    - [SqlStore]: every store method once more, as the statements it sends, named
      [Store_...] after the methods.
    - [Rows]: the row of each record, column by column, and when a file [represents] a
      [DB]. [Represent]: every statement on the rows is the corresponding function on
      records. [Simulation]: the relation of the two kinds of computation ([sim]).
      [Faithful]: every method of [SqlStore] simulates the method on records.
    - [Catalog]: reading a file as a [DB] and writing it, what is read of an older file.
      [Persist]: the two stores side by side, call by call, from a fresh file on.
      [Reopen]: opening a file of the binary itself again, with any statement failing.

    The server:
    - [World]: the server's state (database, clock, replay cache, pings sent) and
      handlers as programs over its effects; [run] executes one handler alone, [step]
      interleaves any number of them, one effect at a time. [checkAndAdd] of [auth.go]
      is here. [Grain]: the same at the grain of statements ([fine]), of which [step] is a
      special case, and what no such interleaving can break, crashes included: [life] is a
      run in which the process may stop at any moment and be started again on its database,
      without the requests in progress and with an empty replay cache ([restarted]).
    - [Sigauth]: [SigningString].
    - [Http]: requests, responses and the structures of the API. [Decoder]: decoding a
      tree into a structure, and the decoder of every request body. [Reply]: the JSON text
      of every response body ([json_of_body], [print]).
    - [Auth]: [extractSignature], [verifyAndRecord], [requireSignature].
    - [Push], [Management], [Transport]: the handlers, under their own names.
    - [Router]: the route table of [New], [ServeHTTP], one turn of the purge loop.
    - [FileServer]: the same server with its store calls carried out on the database file,
      restarts included.
    - [Promise]: what a handler has been told by the store when it answers. [Recovery]: runs
      with all they go through ([path]), and what becomes of a stored message along them.
    - [Lifecycle]: [serve], [RunPurgeLoop] and the end of [main] as a transition system of
      goroutines ([happen]): requests arrive, wait for their bodies and are moved on, the
      purge loop's ticker ticks, the context is cancelled, the listener fails, [Shutdown] is
      called, [Serve] returns, the process exits.

    The client library:
    - [Url]: reading a request path; a path of plain segments reads back as written.
    - [Client]: signing ([sign]), [Conn.do] ([new_request], [exchange], [do],
      [read_reply]), the errors it reports, and every call of a device, a recipient and a
      sender, named [Device_...], [Recipient_...] and [Sender_...] after the methods. The
      network ([net]) is any computation from a request to a response or a failed round
      trip; [direct] is a run of [ServeHTTP].
    - [Netaddr]: [url.Parse], [net.JoinHostPort] and [net.ParseIP], as far as addresses use
      them. [Address]: [ParseAddress], [String], [BaseURL] and the trust mode's TLS
      configuration.
    - [Conn]: [Connect] and [NewConn], the handshake as far as it decides whom the client
      talks to, and a network whose round trips may be lost before or after the server.

    The host:
    - [Host]: computations over a directory of files, the clock and random draws, whose
      calls may fail, a write after some bytes.
    - [X509]: certificates, keys and PEM as the class [X509], and what the code relies on
      as [X509Laws]; [ToyX509] is a concrete instance.
    - [Tlsid]: [Load] and all it calls, [verifyPinned], the two TLS configurations.
    - [Flags]: the [flag] package's reading of arguments. [Command]: [Open] and every
      subcommand over a machine ([OS]) with its environment, database files, identity
      files, failures, output, pings and listeners, up to [main]. [serve] ends there with a
      listener ([serve_on]); what the process then does is [Router] and [Lifecycle].

    [Demo] and [DemoServer] build a small deployment through the same definitions; the
    non-vacuity witnesses evaluate the theorems on it.

    ** What the theorems show

    - [Safety]: every database that any sequence of calls can produce is well formed;
      every method does one abstract event or nothing, and nothing when it fails -
      whichever statement the driver failed, but for a drain, whose purge of the expired
      stands when its SELECT fails; the store only moves forward.
    - [Persist]: the methods as SQL statements on a file answer what the methods on records
      answer, and leave the file representing what those leave; so what is shown of
      records is true of the file.
    - [Reread]: what the statements of a method wrote, those of another read back as it was
      given. [Catalog]: an older file, once opened, is the database it held, with the
      behaviour it had.
    - [Capacity]: exactly when a message is admitted, with which error it is refused
      otherwise, and that an account never holds more live bytes than its quota.
    - [Enrolment]: invitations enrol once, revocation of an invitation or a device is
      effective and permanent, an account does not lose its last admin to somebody
      else's call.
    - [Delivery]: the sender key is bound once, a message stays retrievable and
      unaltered until something that may remove it does, acknowledgements are confined
      to their queue, purging is unobservable.
    - [Journal]: the statement log is contiguous, and a reader misses nothing.
    - [Isolation], [Tenancy]: a management request changes nothing outside the account
      of the device that signed it, and administrative acts take an admin.
    - [Gate]: the gate runs a handler only for a live device's signature on exactly
      that request; an accepted request is not accepted again inside its window,
      however requests interleave. [Replay]: when it is accepted again: with its body held
      back past the window, or after a restart.
    - [Grain], [Ceilings]: the store's invariants, and the account's quota, hold when requests
      interleave statement by statement, a send waits after it has read the time, and the
      process crashes and is started again.
    - [Recovery]: a send that was answered has stored its message, and the message outlives
      crashes until it expires, is acknowledged, or its queue is retired.
    - [FileServer]: however requests interleave and however often the process is started
      again, the server on its file answers, remembers and pings what the server on records
      does.
    - [Planes], [QueueKeys]: the invariants hold for the interleaved server; unsigned
      requests change nothing but by registering; queue routes need the queue's keys;
      the message lifetime is clamped.
    - [EndToEnd]: a request the client signs is admitted, a message sent with one client
      is received with another byte for byte, and how much a receive can carry.
    - [Protocol]: every request the client builds is decoded by its handler as what was
      asked, every response as the client reads it is what was answered.
    - [Conn]: a client of a pinned address talks only to a host with that identity.
    - [Restart], [Upgrade]: an interrupted migration can be repeated; a file of any older
      version is brought to the current schema with its rows kept and filled in.
    - [Identity]: the pin check accepts only a chain to the pinned key; the fingerprint is
      the same over any restarts, rotations and interrupted renewals, and what is served
      is accepted by every client that pinned it.
    - [Operator], [Admin], [Deploy]: no command does to a database what the store's events
      do not do; what each command line asks for ([ask]) is exactly what it does, and the
      others change nothing; the printed founding token makes an admin; a promotion is
      announced to every device; [cert fingerprint] prints what the server presents.
    - [Address]: what is accepted is well formed, and survives printing and parsing.
    - [Lifecycle]: the process exits when its context is cancelled or its listener fails,
      with the code that says which, and not otherwise; a request whose body has arrived
      waits for nothing but its turns, and one whose body does not come waits for ever.
    - [Wire]: text formats order and read back as the values they denote, what a
      receive answers, who is woken, the routes are unambiguous, and what the purge
      loop removes.

    Some theorems record behaviour at the edges which the code's comments do not
    describe: a request whose body is held back past its window can be replayed
    ([Replay.slow_body_passes_again], on the small deployment [Gate.slow_body_replay]), a
    captured request passes again after a restart ([Replay.restart_admits_replay],
    [Recovery.restart_forgets_nonces]), a request in flight outlives a revocation or a
    retirement ([Tenancy.queue_created_after_revocation],
    [Planes.send_outlives_retirement]), an over-long lifetime wraps around
    ([Planes.clamp_message_ttl_overflows]), a queue with more waiting than the client
    reads of a reply cannot be received ([EndToEnd.oversized_receive_fails]), two admins can revoke each other
    ([Enrolment.mutual_revocation_succeeds]), a refused send still binds its key
    ([Planes.refused_send_binds]), a CA file that cannot be looked at is replaced
    ([Identity.unfound_ca_replaces_identity]), a renewal interrupted between its two files
    leaves a key that does not fit its certificate
    ([Identity.interrupted_renewal_serves_wrong_key]), the two commands' default
    directories differ ([Deploy.cert_fingerprint_default_directory]), flags after the
    first argument are not read ([Operator.promote_ignores_trailing_arguments],
    [Operator.quota_refuses_bad_count]), some addresses are printed as others or not
    refused as they should be ([Address.reprinted_address_differs],
    [Address.zoned_address_accepted]), a shutdown does not wait for requests
    ([Lifecycle.shutdown_abandons_requests]), a request whose body stalls is never given up
    ([Lifecycle.stalled_request_waits]), invitations of an older file say another
    role than they give ([Catalog.upgraded_invitation_misdescribes]), a promotion can reach
    a device revoked since it was looked at ([Grain.promotion_outlives_revocation]), and a client that sends again after a lost
    response sends twice ([Conn.lost_response_repeats_message]).

    ** Choices and bounds

    - Fuel is used once, in [Duration.read_terms], with the length of the text, which is
      enough ([Duration.read_terms_enough]): the store's loops are over lists, and a handler
      is a finite program. Time and interleaving are explicit: a schedule is a list of turns
      and of passages of time.
    - Stored times are RFC3339 text at second precision, compared as text by SQLite. The
      methods on records keep the number of seconds; [SqlStore] keeps the text, and
      [Persist.sql_store_implements_records] relates the two for clocks before the year 9575
      ([Simulation.sane_clock]): with the longest [time.Duration], 292 years, added, the
      year still has four digits, and text order is the order of times.
    - Integers are unbounded where the code's values are far from the ends of [int64]
      (sequence numbers, byte totals) and wrap where a request can reach the ends
      ([wrap64] in the message lifetime).
    - In [World] a store method is one step of the interleaving. SQLite's transactions are
      serialisable, so for methods of one statement or one transaction this is what runs;
      an error of a busy database is a failed statement. [DrainMessages] (delete the
      expired, then read), [CreateInvitation] and [PromoteDevice] (read the account's mode,
      which never changes, then write) are two statements; [Grain] interleaves these too,
      and lets a statement carry a time that was read before it waited for its turn.
    - A crash falls between two indivisible statements or transactions: a transaction that
      was not committed leaves nothing behind, one that was is not lost. On the file a
      restart runs the migration again, perhaps several times, as a driver failure during
      it ends the process ([Reopen.reopens]); in [FileServer] a crash falls between two
      store calls.
    - Hash collisions and forged signatures are not excluded by assumption. A theorem
      says what a signature verified under, and equality of digests where the code
      compares digests.
    - JSON is text on both sides. The model's strings are Go's: sequences of bytes. What is
      printed is taken to be UTF-8 where it has to be read back ([utf8]); a reply longer
      than the client reads is cut off, and does not decode. The HTTP client of a ping is
      an effect.
    - A migration works on a catalog with rows as finite maps; a driver failure stops it at
      any statement. [Command.Open] gives the database of the file, or fails;
      [Catalog.older_file_keeps_its_behaviour] says what that database is.
    - [Sqlite] has the statements and conditions the program uses and no others. Sorting is
      stable on the order of rows where SQLite promises none; the orders the program
      asks for end in an identifier or a sequence number.
    - The host's failures are schedules: each call works, fails, or, a write, fails after
      some bytes. One [Load] sees one time. The identity directory is named by a clean
      path, and no one else writes it during a [Load].
    - The certificate library is a class ([X509]); [url.Parse] is that of Go 1.25.0, and
      [time.ParseDuration] computes its fractions in the standard's binary64 arithmetic.
    - Liveness ([Lifecycle.server_stops_when_told]) is stated for runs in which the main
      goroutine and the one of [serve] get their turns again and again
      ([Lifecycle.recurs]); there is no other fairness assumption.

    ** Not modelled

    Sockets and the TLS records ([serve] is modelled from the listener on); damage to the
    database file by a failing disk; the wording of errors, warnings and usage texts; the
    redirects an HTTP client may follow. *)

From stdpp Require Export base option list strings gmap sorting.
From Stdlib Require Export ZArith Lia.
From Stdlib Require Export Strings.Byte Strings.Ascii.

(** ** Notations and scopes *)

Declare Scope sund_scope.
Delimit Scope sund_scope with sund.
Open Scope sund_scope.

(** A Go [[]byte]. A Go [string] is a [string] of eight-bit characters. *)
Abbreviation bytes := (list byte).

#[export] Instance byte_eq_dec : EqDecision byte := Byte.byte_eq_dec.

(** ** Machine integers *)

(** Two's complement wrap-around of a 64-bit signed integer: what Go's [int64],
    [int] and [time.Duration] arithmetic computes. *)
Definition wrap64 (z : Z) : Z := ((z + 2 ^ 63) mod 2 ^ 64 - 2 ^ 63)%Z.

(** The values an [int64] holds. *)
Definition is_int64 (z : Z) : Prop := (- 2 ^ 63 <= z < 2 ^ 63)%Z.

Lemma wrap64_id (z : Z) : is_int64 z -> wrap64 z = z.
Proof.
  unfold is_int64, wrap64. intros H. rewrite Z.mod_small; lia.
Qed.

Lemma wrap64_range (z : Z) : is_int64 (wrap64 z).
Proof.
  unfold is_int64, wrap64.
  pose proof (Z.mod_pos_bound (z + 2 ^ 63) (2 ^ 64)). lia.
Qed.

(** ** Lists *)

(** Sum of a list of integers. *)
Definition sumZ (l : list Z) : Z := foldr Z.add 0%Z l.

Lemma sumZ_app (l k : list Z) : sumZ (l ++ k) = (sumZ l + sumZ k)%Z.
Proof. induction l as [|x l IH]; simpl; lia. Qed.

Lemma sumZ_nonneg (l : list Z) : Forall (fun z => 0 <= z)%Z l -> (0 <= sumZ l)%Z.
Proof. induction 1; simpl; lia. Qed.

(** Two members of a list with pairwise distinct keys that share a key are the
    same member. *)
Lemma NoDup_fmap_inj {A K : Type} (k : A -> K) (l : list A) (x y : A) :
  NoDup (k <$> l) -> x ∈ l -> y ∈ l -> k x = k y -> x = y.
Proof.
  induction l as [|z l IH]; intros Hnd Hx Hy Hk; [by apply not_elem_of_nil in Hx|].
  rewrite fmap_cons, NoDup_cons in Hnd. destruct Hnd as [Hz Hnd].
  rewrite elem_of_cons in Hx, Hy.
  destruct Hx as [->|Hx], Hy as [->|Hy]; auto.
  - destruct Hz. rewrite Hk. by apply list_elem_of_fmap_2.
  - destruct Hz. rewrite <- Hk. by apply list_elem_of_fmap_2.
Qed.

Lemma head_elem_of {A : Type} (l : list A) (x : A) : head l = Some x -> x ∈ l.
Proof. destruct l; simpl; [done|]. intros [= ->]. left. Qed.

Section filter.
Context {A : Type} (P Q : A -> Prop) `{!forall x, Decision (P x), !forall x, Decision (Q x)}.
Implicit Types l : list A.

Lemma filter_all l : Forall P l -> filter P l = l.
Proof. induction 1 as [|x l Hx _ IH]; [done|]. by rewrite filter_cons, decide_True, IH. Qed.

Lemma filter_none l : Forall (fun x => ~ P x) l -> filter P l = [].
Proof. induction 1 as [|x l Hx _ IH]; [done|]. by rewrite filter_cons, decide_False. Qed.

Lemma filter_ext_in l :
  (forall x, x ∈ l -> P x <-> Q x) -> filter P l = filter Q l.
Proof.
  induction l as [|x l IH]; intros Hpq; [done|]. rewrite !filter_cons.
  assert (P x <-> Q x) by (apply Hpq; left).
  rewrite IH by (intros y Hy; apply Hpq; by right). do 2 case_decide; tauto || done.
Qed.

Lemma filter_comm l : filter P (filter Q l) = filter Q (filter P l).
Proof.
  induction l as [|x l IH]; [done|].
  rewrite !filter_cons. repeat case_decide; rewrite ?filter_cons;
    repeat case_decide; simplify_eq; by rewrite ?IH.
Qed.
End filter.

Lemma filter_fmap {A B : Type} (f : A -> B) (P : B -> Prop) `{!forall x, Decision (P x)}
    (l : list A) : filter P (f <$> l) = f <$> filter (fun x => P (f x)) l.
Proof.
  induction l as [|x l IH]; [done|]. rewrite fmap_cons, !filter_cons.
  case_decide; rewrite IH; done.
Qed.

(** ** Strings *)

Lemma str_app_assoc (s t u : string) : (s +:+ t) +:+ u = s +:+ (t +:+ u).
Proof. induction s as [|c s IH]; [done|]. exact (f_equal (String c) IH). Qed.

Lemma str_app_nil_r (s : string) : s +:+ "" = s.
Proof. induction s as [|c s IH]; [done|]. exact (f_equal (String c) IH). Qed.

Lemma str_length_app (s t : string) :
  String.length (s +:+ t) = (String.length s + String.length t)%nat.
Proof. induction s as [|c s IH]; [done|]. exact (f_equal S IH). Qed.

(** The characters of a string. *)
Abbreviation chars := String.list_ascii_of_string.

Lemma chars_app (s t : string) : chars (s +:+ t) = chars s ++ chars t.
Proof. induction s as [|c s IH]; [done|]. exact (f_equal (cons c) IH). Qed.

Fixpoint str_take (n : nat) (s : string) : string :=
  match n, s with
  | S n, String c s => String c (str_take n s)
  | _, _ => EmptyString
  end.

Lemma str_take_whole (n : nat) (s : string) : (String.length s <= n)%nat -> str_take n s = s.
Proof.
  revert n. induction s as [|c s IH]; intros n Hn; [by destruct n|]. destruct n as [|n]; cbn in *; [lia|].
  by rewrite IH by lia.
Qed.

Lemma str_take_short (n : nat) (s : string) :
  (n < String.length s)%nat -> exists t, s = str_take n s +:+ t /\ t <> ""%string.
Proof.
  revert n. induction s as [|c s IH]; intros n Hn; cbn in Hn; [lia|].
  destruct n as [|n]; [by exists (String c s)|]. destruct (IH n) as (t & E & Ht); [lia|]. exists t.
  split; [exact (f_equal (String c) E)|done].
Qed.

Lemma str_take_app_le (n : nat) (s t : string) :
  (n <= String.length s)%nat -> str_take n (s +:+ t) = str_take n s.
Proof.
  revert n. induction s as [|c s IH]; intros n Hn; cbn in Hn; [by destruct n; [destruct t|lia]|].
  destruct n as [|n]; [done|]. change (String c s +:+ t) with (String c (s +:+ t)). cbn [str_take].
  by rewrite IH by lia.
Qed.

Lemma str_take_app_ge (n : nat) (s t : string) :
  (String.length s <= n)%nat -> str_take n (s +:+ t) = s +:+ str_take (n - String.length s) t.
Proof.
  revert n. induction s as [|c s IH]; intros n Hn; cbn in Hn; [by rewrite Nat.sub_0_r|].
  destruct n as [|n]; [lia|]. change (String c s +:+ t) with (String c (s +:+ t)). cbn [str_take String.length].
  rewrite Nat.sub_succ, IH by lia. done.
Qed.

(** ** Automation *)

(** The hint database of the development. *)
Create HintDb sund discriminated.

(** Case analysis on a decision of the goal, whole. *)
Ltac decide_goal Hd :=
  match goal with |- context [if @decide ?P ?i then _ else _] => destruct (@decide P i) as [Hd|Hd] end.

(** [lia] on goals with division and modulo by constants. *)
Ltac dmlia := Z.div_mod_to_equations; lia.

(** Split conjunctions and existentials of the context. *)
Ltac destr :=
  repeat match goal with
  | H : _ /\ _ |- _ => destruct H
  | H : exists _, _ |- _ => destruct H
  | H : (_, _) = (_, _) |- _ => injection H as; subst
  end.

(** Case analysis on every [decide], boolean and [match] of the goal, closing
    what arithmetic or congruence closes. *)
Ltac cases :=
  repeat (case_decide || case_match); simplify_eq; try done; try lia.
