(* ===== verification/Encoding.v ===== *)
(** * Text encodings

    What the source uses of [encoding/hex], [encoding/base64] and of Go's
    conversions between strings and byte slices, with their round trips. *)

From S2P Require Import Prelude.

Local Open Scope Z_scope.

(** ** Bytes as numbers *)

Definition byte_val (b : byte) : Z := Z.of_N (Byte.to_N b).
Definition byte_of (z : Z) : byte := default x00 (Byte.of_N (Z.to_N z)).

Lemma byte_val_range (b : byte) : 0 <= byte_val b < 256.
Proof. destruct b; by vm_compute. Qed.

Lemma byte_of_val (b : byte) : byte_of (byte_val b) = b.
Proof. by destruct b. Qed.

(** [[]byte(s)] and [string(b)]. *)
Definition bytes_of_string (s : string) : bytes := String.list_byte_of_string s.
Definition string_of_bytes (b : bytes) : string := String.string_of_list_byte b.

Lemma string_of_bytes_of_string (s : string) :
  string_of_bytes (bytes_of_string s) = s.
Proof. apply String.string_of_list_byte_of_string. Qed.

Lemma bytes_of_string_of_bytes (b : bytes) :
  bytes_of_string (string_of_bytes b) = b.
Proof. apply String.list_byte_of_string_of_list_byte. Qed.

#[export] Instance bytes_of_string_inj : Inj (=) (=) bytes_of_string.
Proof.
  intros s t H. rewrite <- (string_of_bytes_of_string s), H.
  apply string_of_bytes_of_string.
Qed.

(** ** Alphabets *)

(** The character of a digit in an alphabet, and the digit of a character. *)
Definition digit_char (alphabet : list ascii) (v : Z) : ascii :=
  nth (Z.to_nat v) alphabet "000"%char.

Definition char_digit (alphabet : list ascii) (c : ascii) : option Z :=
  '(i, _) ← list_find (fun x => x = c) alphabet; Some (Z.of_nat i).

#[global] Arguments digit_char : simpl never.
#[global] Arguments char_digit : simpl never.

Lemma char_digit_char (alphabet : list ascii) (v : Z) :
  NoDup alphabet -> 0 <= v < Z.of_nat (length alphabet) ->
  char_digit alphabet (digit_char alphabet v) = Some v.
Proof.
  intros Hnd Hv. unfold char_digit, digit_char.
  assert (alphabet !! Z.to_nat v = Some (nth (Z.to_nat v) alphabet "000"%char)) as Hl.
  { destruct (nth_lookup_or_length alphabet (Z.to_nat v) "000"%char); [done|lia]. }
  assert (list_find (fun x => x = nth (Z.to_nat v) alphabet "000"%char) alphabet
          = Some (Z.to_nat v, nth (Z.to_nat v) alphabet "000"%char)) as ->.
  { apply list_find_Some. split_and!; [done|done|].
    intros j y Hj Hlt ->. assert (j = Z.to_nat v) by (eapply NoDup_lookup; eauto). lia. }
  simpl. f_equal. lia.
Qed.

Lemma digit_char_in (alphabet : list ascii) (v : Z) :
  0 <= v < Z.of_nat (length alphabet) -> digit_char alphabet v ∈ alphabet.
Proof.
  intros Hv. unfold digit_char.
  destruct (nth_lookup_or_length alphabet (Z.to_nat v) "000"%char) as [E|];
    [by eapply list_elem_of_lookup_2|lia].
Qed.

(** ** Hexadecimal *)

Definition hex_alphabet : list ascii := String.list_ascii_of_string "0123456789abcdef".
Definition upper_hex_alphabet : list ascii := String.list_ascii_of_string "0123456789ABCDEF".

(** The value of a digit, in either case. *)
Definition unhex (c : ascii) : option Z :=
  match char_digit hex_alphabet c with
  | Some v => Some v
  | None => char_digit upper_hex_alphabet c
  end.

(** [hex.EncodeToString]. *)
Fixpoint hex_encode (b : bytes) : string :=
  match b with
  | [] => ""
  | x :: b => String (digit_char hex_alphabet (byte_val x / 16))
                (String (digit_char hex_alphabet (byte_val x mod 16)) (hex_encode b))
  end.

Lemma hex_alphabet_NoDup : NoDup hex_alphabet.
Proof. apply (bool_decide_unpack _). by vm_compute. Qed.

#[export] Instance hex_encode_inj : Inj (=) (=) hex_encode.
Proof.
  intros b. induction b as [|x b IH]; intros [|y c] H; [done..|]. simpl in H.
  assert (forall v w, 0 <= v < 16 -> 0 <= w < 16 ->
    digit_char hex_alphabet v = digit_char hex_alphabet w -> v = w) as Hd.
  { intros v w Hv Hw E. apply (f_equal (char_digit hex_alphabet)) in E.
    rewrite !char_digit_char in E by (exact hex_alphabet_NoDup || done). congruence. }
  pose proof (byte_val_range x). pose proof (byte_val_range y).
  injection H as E1 E2 E3. f_equal; [|by apply IH].
  pose proof (Hd (byte_val x / 16) (byte_val y / 16) ltac:(dmlia) ltac:(dmlia) E1) as D1.
  pose proof (Hd (byte_val x mod 16) (byte_val y mod 16) ltac:(dmlia) ltac:(dmlia) E2) as D2.
  rewrite <- (byte_of_val x), <- (byte_of_val y). f_equal. dmlia.
Qed.

Lemma hex_encode_length (b : bytes) : String.length (hex_encode b) = (2 * length b)%nat.
Proof. induction b as [|x b IH]; simpl; [done|]. rewrite IH. lia. Qed.

(** A digit of the alphabet is [0-9a-f]. *)
Definition is_hex_char (c : ascii) : Prop := c ∈ hex_alphabet.

Lemma hex_encode_chars (b : bytes) :
  Forall is_hex_char (String.list_ascii_of_string (hex_encode b)).
Proof.
  induction b as [|x b IH]; simpl; [constructor|]. pose proof (byte_val_range x).
  rewrite !Forall_cons. split_and!; [apply digit_char_in; simpl; dmlia..|done].
Qed.

(** ** Base64 *)

Definition base64_std_alphabet : list ascii := String.list_ascii_of_string
  "ABCDEFGHIJKLMNOPQRSTUVWXYZabcdefghijklmnopqrstuvwxyz0123456789+/".
Definition base64_url_alphabet : list ascii := String.list_ascii_of_string
  "ABCDEFGHIJKLMNOPQRSTUVWXYZabcdefghijklmnopqrstuvwxyz0123456789-_".

(** The six-bit groups of one, two or three bytes. *)
Definition group1 (x : Z) : Z := x / 4.
Definition group2 (x y : Z) : Z := (x mod 4) * 16 + y / 16.
Definition group3 (y z : Z) : Z := (y mod 16) * 4 + z / 64.
Definition group4 (z : Z) : Z := z mod 64.

(** [EncodeToString] of an encoding with the given alphabet; [pad] is the
    padding of a final partial group, one string per missing character. *)
Fixpoint base64_encode (alphabet : list ascii) (pad : string) (b : bytes) : string :=
  let ch v rest := String (digit_char alphabet v) rest in
  match b with
  | [] => ""
  | [x] => let x := byte_val x in
           ch (group1 x) (ch (group2 x 0) (pad +:+ pad))
  | [x; y] => let x := byte_val x in let y := byte_val y in
           ch (group1 x) (ch (group2 x y) (ch (group3 y 0) pad))
  | x :: y :: z :: b =>
           let x := byte_val x in let y := byte_val y in let z := byte_val z in
           ch (group1 x) (ch (group2 x y) (ch (group3 y z) (ch (group4 z)
             (base64_encode alphabet pad b))))
  end.

(** [base64.StdEncoding.EncodeToString] and [base64.RawURLEncoding.EncodeToString]. *)
Definition base64_std_encode : bytes -> string := base64_encode base64_std_alphabet "=".
Definition base64_rawurl_encode : bytes -> string := base64_encode base64_url_alphabet "".

(** The bytes of two, three or four six-bit groups. *)
Definition join1 (v w : Z) : byte := byte_of (v * 4 + w / 16).
Definition join2 (w u : Z) : byte := byte_of ((w mod 16) * 16 + u / 4).
Definition join3 (u t : Z) : byte := byte_of ((u mod 4) * 64 + t).

(** [base64.StdEncoding.DecodeString] on text without line breaks: full groups,
    the last of which may be padded. Bits a padded group leaves over are ignored
    (the encoding is not [Strict]). *)
Fixpoint base64_quads (s : list ascii) : option bytes :=
  let dig := char_digit base64_std_alphabet in
  match s with
  | [] => Some []
  | c0 :: c1 :: c2 :: c3 :: rest =>
      v ← dig c0;
      w ← dig c1;
      if decide (c2 = "="%char) then
        if decide (c3 = "="%char /\ rest = []) then Some [join1 v w] else None
      else
        u ← dig c2;
        if decide (c3 = "="%char) then
          if decide (rest = []) then Some [join1 v w; join2 w u] else None
        else
          t ← dig c3;
          tl ← base64_quads rest;
          Some (join1 v w :: join2 w u :: join3 u t :: tl)
  | _ => None
  end.

(** [base64.StdEncoding.DecodeString]: carriage returns and line feeds are
    skipped. *)
Definition base64_std_decode (s : string) : option bytes :=
  base64_quads (filter (fun c => c <> "010"%char /\ c <> "013"%char)
                  (String.list_ascii_of_string s)).

Definition is_base64_char (c : ascii) : Prop := c ∈ "="%char :: base64_std_alphabet.

Lemma base64_std_alphabet_NoDup : NoDup base64_std_alphabet.
Proof. apply (bool_decide_unpack _). by vm_compute. Qed.

Lemma group_range (x y z : byte) :
  0 <= group1 (byte_val x) < 64 /\ 0 <= group2 (byte_val x) (byte_val y) < 64 /\
  0 <= group2 (byte_val x) 0 < 64 /\ 0 <= group3 (byte_val y) 0 < 64 /\
  0 <= group3 (byte_val y) (byte_val z) < 64 /\ 0 <= group4 (byte_val z) < 64.
Proof.
  pose proof (byte_val_range x). pose proof (byte_val_range y).
  pose proof (byte_val_range z). unfold group1, group2, group3, group4. split_and!; dmlia.
Qed.

Lemma join_group (x y z : byte) (y' z' : Z) :
  0 <= y' < 256 -> 0 <= z' < 256 ->
  join1 (group1 (byte_val x)) (group2 (byte_val x) y') = x /\
  join2 (group2 (byte_val x) (byte_val y)) (group3 (byte_val y) z') = y /\
  join3 (group3 (byte_val y) (byte_val z)) (group4 (byte_val z)) = z.
Proof.
  intros Hy' Hz'.
  pose proof (byte_val_range x). pose proof (byte_val_range y).
  pose proof (byte_val_range z). unfold join1, join2, join3, group1, group2, group3, group4.
  split_and!; match goal with |- _ = ?b => transitivity (byte_of (byte_val b)); [f_equal; dmlia|apply byte_of_val] end.
Qed.

Lemma char_digit_pad : char_digit base64_std_alphabet "="%char = None.
Proof. by vm_compute. Qed.

Lemma digit_char_not_pad (v : Z) :
  0 <= v < 64 -> digit_char base64_std_alphabet v <> "="%char.
Proof.
  intros Hv E. pose proof (char_digit_char base64_std_alphabet v base64_std_alphabet_NoDup Hv) as H.
  rewrite E, char_digit_pad in H. done.
Qed.

(** Decoding consumes a full group. *)
Lemma base64_quads_full (v w u t : Z) (rest : list ascii) :
  0 <= v < 64 -> 0 <= w < 64 -> 0 <= u < 64 -> 0 <= t < 64 ->
  base64_quads (digit_char base64_std_alphabet v :: digit_char base64_std_alphabet w ::
                digit_char base64_std_alphabet u :: digit_char base64_std_alphabet t :: rest)
  = tl ← base64_quads rest; Some (join1 v w :: join2 w u :: join3 u t :: tl).
Proof.
  intros Hv Hw Hu Ht. simpl.
  rewrite !char_digit_char by (exact base64_std_alphabet_NoDup || done). simpl.
  by rewrite !decide_False by by apply digit_char_not_pad.
Qed.

(** Induction on a list three elements at a time, as the encoder consumes it. *)
Lemma list_ind3 {A} (P : list A -> Prop) :
  P [] -> (forall x, P [x]) -> (forall x y, P [x; y]) ->
  (forall x y z l, P l -> P (x :: y :: z :: l)) -> forall l, P l.
Proof.
  intros H0 H1 H2 H3 l.
  enough (P l /\ (forall x, P (x :: l)) /\ (forall x y, P (x :: y :: l))) by tauto.
  induction l as [|a l (IH0 & IH1 & IH2)]; eauto.
Qed.

Lemma base64_encode_chars (b : bytes) :
  Forall is_base64_char (String.list_ascii_of_string (base64_std_encode b)).
Proof.
  assert (forall v, 0 <= v < 64 -> is_base64_char (digit_char base64_std_alphabet v)) as Hd.
  { intros v Hv. right. by apply digit_char_in. }
  assert (is_base64_char "="%char) as Hp by left.
  unfold base64_std_encode. induction b as [|x|x y|x y z b IH] using list_ind3; simpl.
  - constructor.
  - destruct (group_range x x x) as (? & ? & ? & ? & ? & ?).
    rewrite !Forall_cons. split_and!; auto.
  - destruct (group_range x y x) as (? & ? & ? & ? & ? & ?).
    rewrite !Forall_cons. split_and!; auto.
  - destruct (group_range x y z) as (? & ? & ? & ? & ? & ?).
    rewrite !Forall_cons. split_and!; auto.
Qed.

Lemma base64_filter_id (b : bytes) :
  filter (fun c => c <> "010"%char /\ c <> "013"%char)
    (String.list_ascii_of_string (base64_std_encode b))
  = String.list_ascii_of_string (base64_std_encode b).
Proof.
  pose proof (base64_encode_chars b) as H.
  induction H as [|c l Hc _ IH]; [done|].
  rewrite filter_cons, decide_True, IH; [done|].
  split; intros ->; revert Hc; unfold is_base64_char; apply (bool_decide_unpack _); by vm_compute.
Qed.

(** Standard base64 decodes what it encodes. *)
Lemma base64_std_decode_encode (b : bytes) :
  base64_std_decode (base64_std_encode b) = Some b.
Proof.
  unfold base64_std_decode. rewrite base64_filter_id. unfold base64_std_encode.
  induction b as [|x|x y|x y z b IH] using list_ind3.
  - done.
  - destruct (group_range x x x) as (? & ? & ? & ? & ? & ?). simpl.
    rewrite !char_digit_char by (exact base64_std_alphabet_NoDup || done). simpl.
    rewrite ?decide_True by done. do 2 f_equal.
    by apply (join_group x x x 0 0).
  - destruct (group_range x y x) as (? & ? & ? & ? & ? & ?). simpl.
    rewrite !char_digit_char by (exact base64_std_alphabet_NoDup || done). simpl.
    rewrite decide_False by by apply digit_char_not_pad.
    rewrite ?decide_True by done.
    pose proof (byte_val_range y). destruct (join_group x y x (byte_val y) 0) as (-> & -> & _); done.
  - destruct (group_range x y z) as (? & ? & ? & ? & ? & ?).
    cbn [base64_encode String.list_ascii_of_string]. rewrite base64_quads_full, IH by done. simpl.
    pose proof (byte_val_range y). pose proof (byte_val_range z).
    destruct (join_group x y z (byte_val y) (byte_val z)) as (-> & -> & ->); done.
Qed.

#[export] Instance base64_std_encode_inj : Inj (=) (=) base64_std_encode.
Proof.
  intros b c H. apply (f_equal base64_std_decode) in H.
  rewrite !base64_std_decode_encode in H. by injection H.
Qed.

#[global] Arguments hex_encode b : simpl never.
#[global] Arguments base64_std_encode b : simpl never.
#[global] Arguments base64_rawurl_encode b : simpl never.
#[global] Arguments base64_std_decode s : simpl never.
