(* ===== verification/Clock.v ===== *)
(** * Time

    What the source uses of Go's [time]: instants as nanoseconds since the Unix
    epoch, [time.Duration] as a 64-bit count of nanoseconds, and the RFC3339
    layout in UTC at second precision, in which the store keeps every timestamp
    and which requests carry. The section on order shows that comparing the text,
    as SQLite does, compares the instants. *)

From S2P Require Import Prelude.

Local Open Scope Z_scope.

(** ** Durations and instants *)

Definition Second : Z := 1000000000.
Definition Minute : Z := 60 * Second.
Definition Hour : Z := 60 * Minute.

(** The second an instant falls in: what [Format(time.RFC3339)] keeps of it. *)
Definition sec (ns : Z) : Z := ns / Second.

Lemma sec_mono (t u : Z) : t <= u -> sec t <= sec u.
Proof. intros H. apply Z.div_le_mono; [done|lia]. Qed.

(** ** The civil calendar *)

Definition is_leap (y : Z) : bool :=
  (y mod 4 =? 0) && (negb (y mod 100 =? 0) || (y mod 400 =? 0)).

(** Days from 0001-01-01 to the first of January of year [y]. *)
Definition days_to_year (y : Z) : Z :=
  let p := y - 1 in 365 * p + p / 4 - p / 100 + p / 400.

(** The year of a day counted from 0001-01-01, and the day within the year. *)
Definition year_yday (d : Z) : Z * Z :=
  let n400 := d / 146097 in let d := d mod 146097 in
  let n100 := Z.min 3 (d / 36524) in let d := d - 36524 * n100 in
  let n4 := d / 1461 in let d := d - 1461 * n4 in
  let n1 := Z.min 3 (d / 365) in
  (1 + 400 * n400 + 100 * n100 + 4 * n4 + n1, d - 365 * n1).

Definition leap_days (y : Z) : Z := if is_leap y then 1 else 0.

Lemma days_to_year_split (a b c e : Z) :
  0 <= b <= 3 -> 0 <= c <= 24 -> 0 <= e <= 3 ->
  days_to_year (1 + 400 * a + 100 * b + 4 * c + e)
  = 146097 * a + 36524 * b + 1461 * c + 365 * e.
Proof.
  intros. unfold days_to_year.
  replace (1 + 400 * a + 100 * b + 4 * c + e - 1) with (400 * a + 100 * b + 4 * c + e) by lia.
  assert ((400 * a + 100 * b + 4 * c + e) / 4 = 100 * a + 25 * b + c) as -> by dmlia.
  assert ((400 * a + 100 * b + 4 * c + e) / 100 = 4 * a + b) as -> by dmlia.
  assert ((400 * a + 100 * b + 4 * c + e) / 400 = a) as -> by dmlia.
  lia.
Qed.

Lemma days_to_year_succ (y : Z) :
  days_to_year (y + 1) = days_to_year y + 365 + leap_days y.
Proof.
  unfold days_to_year, leap_days, is_leap.
  destruct (Z.eqb_spec (y mod 4) 0), (Z.eqb_spec (y mod 100) 0),
    (Z.eqb_spec (y mod 400) 0); simpl; dmlia.
Qed.

Lemma days_to_year_mono (y y' : Z) : y <= y' -> days_to_year y <= days_to_year y'.
Proof.
  intros H. replace y' with (y + Z.of_nat (Z.to_nat (y' - y))) by lia.
  induction (Z.to_nat (y' - y)) as [|n IH]; [by rewrite Z.add_0_r|].
  rewrite Nat2Z.inj_succ, Z.add_succ_r, <- Z.add_1_r, days_to_year_succ.
  unfold leap_days. destruct (is_leap _); lia.
Qed.

(** The decomposition is exact: the day is in the year. *)
Lemma year_yday_spec (d y yd : Z) :
  year_yday d = (y, yd) -> d = days_to_year y + yd /\ 0 <= yd < 365 + leap_days y.
Proof.
  unfold year_yday. intros [= <- <-].
  pose proof (Z.div_mod d 146097 ltac:(lia)) as Hd.
  pose proof (Z.mod_pos_bound d 146097 ltac:(lia)) as Hr.
  set (a := d / 146097) in *. set (r := d mod 146097) in *. clearbody a r.
  set (b := Z.min 3 (r / 36524)).
  assert (0 <= b <= 3 /\ 0 <= r - 36524 * b <= 36524 /\ (b < 3 -> r - 36524 * b < 36524)) as (? & ? & ?)
    by (subst b; dmlia).
  clearbody b. remember (r - 36524 * b) as r2 eqn:Er2.
  assert (0 <= r2 / 1461 <= 24 /\ 0 <= r2 - 1461 * (r2 / 1461) < 1461 /\
          (b < 3 -> r2 / 1461 = 24 -> r2 - 1461 * (r2 / 1461) < 1460)) as (? & ? & ?)
    by (split_and!; dmlia).
  set (c := r2 / 1461) in *. clearbody c. remember (r2 - 1461 * c) as r3 eqn:Er3.
  set (e := Z.min 3 (r3 / 365)).
  assert (0 <= e <= 3 /\ 0 <= r3 - 365 * e <= 365 /\ (e < 3 -> r3 - 365 * e < 365)) as (? & ? & ?)
    by (subst e; dmlia).
  rewrite days_to_year_split by lia. split; [lia|]. split; [lia|].
  unfold leap_days, is_leap. clearbody e.
  destruct (Z.eqb_spec ((1 + 400 * a + 100 * b + 4 * c + e) mod 4) 0),
    (Z.eqb_spec ((1 + 400 * a + 100 * b + 4 * c + e) mod 100) 0),
    (Z.eqb_spec ((1 + 400 * a + 100 * b + 4 * c + e) mod 400) 0); simpl; try lia; dmlia.
Qed.

(** The year and the day within it determine the day, in order. *)
Lemma year_yday_lt (d d' y yd y' yd' : Z) :
  year_yday d = (y, yd) -> year_yday d' = (y', yd') ->
  d < d' <-> y < y' \/ (y = y' /\ yd < yd').
Proof.
  intros [Hd Hyd]%year_yday_spec [Hd' Hyd']%year_yday_spec.
  destruct (Z.lt_trichotomy y y') as [Hlt|[->|Hlt]]; [|lia|].
  - pose proof (days_to_year_mono (y + 1) y' ltac:(lia)) as Hm.
    rewrite days_to_year_succ in Hm. lia.
  - pose proof (days_to_year_mono (y' + 1) y ltac:(lia)) as Hm.
    rewrite days_to_year_succ in Hm. lia.
Qed.

(** ** Months *)

Definition month_lengths (y : Z) : list Z :=
  [31; 28 + leap_days y; 31; 30; 31; 30; 31; 31; 30; 31; 30; 31].

#[global] Arguments month_lengths : simpl never.

(** Month and day of month of a day of the year, and back. *)
Fixpoint month_day (m : Z) (lens : list Z) (yd : Z) : Z * Z :=
  match lens with
  | [] => (m, yd + 1)
  | n :: lens => if yd <? n then (m, yd + 1) else month_day (m + 1) lens (yd - n)
  end.

Definition month_length (y m : Z) : Z := nth (Z.to_nat (m - 1)) (month_lengths y) 0.
Definition month_offset (y m : Z) : Z := sumZ (take (Z.to_nat (m - 1)) (month_lengths y)).

Lemma month_day_lt (lens : list Z) (m yd yd' a b a' b' : Z) :
  month_day m lens yd = (a, b) -> month_day m lens yd' = (a', b') ->
  m <= a /\ (yd < yd' -> a < a' \/ (a = a' /\ b < b')).
Proof.
  revert m yd yd' a b a' b'.
  induction lens as [|n lens IH]; intros m yd yd' a b a' b'; simpl.
  - intros. simplify_eq. lia.
  - destruct (Z.ltb_spec yd n), (Z.ltb_spec yd' n); intros E E'.
    + injection E as <- <-. injection E' as <- <-. lia.
    + injection E as <- <-. destruct (IH _ _ _ _ _ _ _ E' E'). lia.
    + injection E' as <- <-. destruct (IH _ _ _ _ _ _ _ E E). lia.
    + destruct (IH _ _ _ _ _ _ _ E E') as [? Hlt]. split; [lia|]. intros. apply Hlt. lia.
Qed.

Lemma month_day_spec (lens : list Z) (m yd a b : Z) :
  0 <= yd < sumZ lens -> month_day m lens yd = (a, b) ->
  m <= a < m + Z.of_nat (length lens) /\
  1 <= b <= nth (Z.to_nat (a - m)) lens 0 /\
  yd = sumZ (take (Z.to_nat (a - m)) lens) + b - 1.
Proof.
  revert m yd. induction lens as [|n lens IH]; intros m yd Hyd; simpl in *; [lia|].
  destruct (Z.ltb_spec yd n); intros.
  - simplify_eq. rewrite Z.sub_diag. simpl. lia.
  - edestruct (IH (m + 1) (yd - n)) as (? & ? & ?); [unfold sumZ in *; lia|done|].
    replace (Z.to_nat (a - m)) with (S (Z.to_nat (a - (m + 1)))) by lia.
    simpl. unfold sumZ in *. lia.
Qed.

(** ** Broken-down times *)

Record Civil := mkCivil {
  c_year : Z; c_month : Z; c_day : Z; c_hour : Z; c_min : Z; c_sec : Z;
}.

(** Days from 0001-01-01 to the Unix epoch. *)
Definition epoch_days : Z := 719162.

(** The UTC date and time of day of a Unix time in seconds, and back. *)
Definition civil_of (s : Z) : Civil :=
  let '(y, yd) := year_yday (s / 86400 + epoch_days) in
  let '(m, d) := month_day 1 (month_lengths y) yd in
  let t := s mod 86400 in
  mkCivil y m d (t / 3600) (t mod 3600 / 60) (t mod 60).

Definition unix_of (c : Civil) : Z :=
  (days_to_year (c_year c) + month_offset (c_year c) (c_month c) + c_day c - 1 - epoch_days)
    * 86400 + c_hour c * 3600 + c_min c * 60 + c_sec c.

(** A date of the calendar and a time of day. *)
Definition civil_ok (c : Civil) : Prop :=
  1 <= c_month c <= 12 /\ 1 <= c_day c <= month_length (c_year c) (c_month c) /\
  0 <= c_hour c <= 23 /\ 0 <= c_min c <= 59 /\ 0 <= c_sec c <= 59.

#[export] Instance civil_ok_dec (c : Civil) : Decision (civil_ok c).
Proof. unfold civil_ok. apply _. Defined.

Lemma sumZ_month_lengths (y : Z) : sumZ (month_lengths y) = 365 + leap_days y.
Proof. unfold month_lengths. cbn. lia. Qed.

(** Breaking a Unix time down is exact and yields a valid date. *)
Lemma civil_of_spec (s : Z) : civil_ok (civil_of s) /\ unix_of (civil_of s) = s.
Proof.
  unfold civil_of. destruct (year_yday _) as [y yd] eqn:Ey.
  apply year_yday_spec in Ey as [Hd Hyd].
  rewrite <- sumZ_month_lengths in Hyd.
  destruct (month_day _ _ _) as [m d] eqn:Em.
  apply month_day_spec in Em as (Hm & Hday & Hoff); [|done].
  change (length (month_lengths y)) with 12%nat in Hm.
  unfold civil_ok, unix_of, month_length, month_offset.
  cbn [c_year c_month c_day c_hour c_min c_sec]. repeat split; dmlia.
Qed.

Lemma month_length_le (y m : Z) : month_length y m <= 31.
Proof.
  unfold month_length, month_lengths. destruct (Z.to_nat (m - 1)) as [|n]; simpl; [lia|].
  assert (leap_days y <= 1) by (unfold leap_days; case_match; lia).
  do 12 (destruct n as [|n]; simpl; [lia|]). lia.
Qed.

(** ** Comparing text *)

(** The order of SQLite's [BINARY] collation, and of Go strings. *)
Definition text_lt (s t : string) : Prop := String.ltb s t = true.

#[export] Instance text_lt_dec (s t : string) : Decision (text_lt s t).
Proof. unfold text_lt. apply _. Defined.

Lemma text_lt_cons (a b : ascii) (s t : string) :
  text_lt (String a s) (String b t) <->
  (N_of_ascii a < N_of_ascii b)%N \/ (a = b /\ text_lt s t).
Proof.
  unfold text_lt, String.ltb. simpl. unfold Ascii.compare.
  destruct (N.compare_spec (N_of_ascii a) (N_of_ascii b)) as [E|E|E].
  - assert (a = b) as -> by (by apply (f_equal ascii_of_N) in E; rewrite !ascii_N_embedding in E).
    intuition lia.
  - split; [by left|done].
  - split; [done|]. intros [?|[-> _]]; lia.
Qed.

Lemma text_lt_same (a : ascii) (s t : string) :
  text_lt (String a s) (String a t) <-> text_lt s t.
Proof. rewrite text_lt_cons. intuition lia. Qed.

Lemma text_lt_irrefl (s : string) : ~ text_lt s s.
Proof.
  induction s as [|a s IH]; [done|]. by rewrite text_lt_same.
Qed.

(** ** Fixed-width decimal numbers *)

Definition dec_char (v : Z) : ascii := ascii_of_N (Z.to_N (48 + v)).
Definition dec_digit (c : ascii) : option Z :=
  let n := Z.of_N (N_of_ascii c) - 48 in
  if decide (0 <= n <= 9) then Some n else None.

Lemma dec_char_code (v : Z) : 0 <= v <= 9 -> N_of_ascii (dec_char v) = Z.to_N (48 + v).
Proof. intros. unfold dec_char. apply N_ascii_embedding. lia. Qed.

Lemma dec_digit_char (v : Z) : 0 <= v <= 9 -> dec_digit (dec_char v) = Some v.
Proof.
  intros H. unfold dec_digit. rewrite dec_char_code by done.
  rewrite Z2N.id by lia. rewrite decide_True by lia. f_equal. lia.
Qed.

(** [v] in [n] decimal digits, followed by [rest]. *)
Fixpoint digits (n : nat) (v : Z) (rest : string) : string :=
  match n with
  | O => rest
  | S n => String (dec_char (v / 10 ^ Z.of_nat n)) (digits n (v mod 10 ^ Z.of_nat n) rest)
  end.

Lemma digit_split (n : nat) (v : Z) :
  0 <= v < 10 ^ Z.of_nat (S n) ->
  0 <= v / 10 ^ Z.of_nat n <= 9 /\ 0 <= v mod 10 ^ Z.of_nat n < 10 ^ Z.of_nat n /\
  v = 10 ^ Z.of_nat n * (v / 10 ^ Z.of_nat n) + v mod 10 ^ Z.of_nat n.
Proof.
  intros H. rewrite Nat2Z.inj_succ, Z.pow_succ_r in H by lia.
  assert (0 < 10 ^ Z.of_nat n) as Hp by (apply Z.pow_pos_nonneg; lia).
  pose proof (Z.div_mod v (10 ^ Z.of_nat n) ltac:(lia)).
  pose proof (Z.mod_pos_bound v (10 ^ Z.of_nat n) Hp).
  split_and!; [by apply Z.div_pos; lia| |lia..].
  enough (v / 10 ^ Z.of_nat n < 10) by lia. apply Z.div_lt_upper_bound; lia.
Qed.

(** Fixed-width numbers compare as text the way they compare as numbers. *)
Lemma text_lt_digits (n : nat) (v w : Z) (s t : string) :
  0 <= v < 10 ^ Z.of_nat n -> 0 <= w < 10 ^ Z.of_nat n ->
  text_lt (digits n v s) (digits n w t) <-> v < w \/ (v = w /\ text_lt s t).
Proof.
  revert v w. induction n as [|n IH]; intros v w Hv Hw.
  - simpl. assert (v = 0 /\ w = 0) as [-> ->] by (simpl in *; lia).
    split; [by right|intros [|[_ ?]]; [lia|done]].
  - cbn [digits].
    destruct (digit_split n v Hv) as (Hv1 & Hv2 & Ev), (digit_split n w Hw) as (Hw1 & Hw2 & Ew).
    set (a := v / 10 ^ Z.of_nat n) in *. set (b := w / 10 ^ Z.of_nat n) in *.
    set (c := v mod 10 ^ Z.of_nat n) in *. set (d := w mod 10 ^ Z.of_nat n) in *.
    clearbody a b c d. rewrite text_lt_cons, !dec_char_code, IH by done.
    assert (dec_char a = dec_char b <-> a = b) as ->.
    { split; [|by intros ->]. intros E. apply (f_equal dec_digit) in E.
      rewrite !dec_digit_char in E by done. congruence. }
    split.
    + intros [Hlt|[-> [Hlt|[-> Hst]]]]; [left; nia|left; lia|right; split; [lia|done]].
    + destruct (Z.lt_trichotomy a b) as [|[->|]]; [left; lia| |intros [|[]]; nia].
      intros [|[? ?]]; right; split; [done|left; lia|done|right; split; [lia|done]].
Qed.

(** Read exactly [n] digits. *)
Fixpoint read_digits (n : nat) (acc : Z) (s : string) : option (Z * string) :=
  match n with
  | O => Some (acc, s)
  | S n => match s with
           | EmptyString => None
           | String c s => d ← dec_digit c; read_digits n (10 * acc + d) s
           end
  end.

Lemma read_digits_digits (n : nat) (acc v : Z) (s : string) :
  0 <= v < 10 ^ Z.of_nat n ->
  read_digits n acc (digits n v s) = Some (acc * 10 ^ Z.of_nat n + v, s).
Proof.
  revert acc v. induction n as [|n IH]; intros acc v Hv.
  - simpl in *. do 2 f_equal. lia.
  - destruct (digit_split n v Hv) as (Hv1 & Hv2 & Ev).
    cbn [digits read_digits]. rewrite dec_digit_char by done. simpl.
    rewrite IH by done. do 2 f_equal.
    rewrite Nat2Z.inj_succ, Z.pow_succ_r by lia. lia.
Qed.

(** ** The RFC3339 layout *)

(** [t.UTC().Format(time.RFC3339)] of a Unix time in seconds. *)
Definition rfc3339 (s : Z) : string :=
  let c := civil_of s in
  digits 4 (c_year c) (String "-" (digits 2 (c_month c) (String "-" (digits 2 (c_day c)
    (String "T" (digits 2 (c_hour c) (String ":" (digits 2 (c_min c)
      (String ":" (digits 2 (c_sec c) "Z")))))))))).

(** The years the layout writes in four digits: 0000 to 9999. *)
Definition four_digit_year (s : Z) : Prop := -62167219200 <= s < 253402300800.

Lemma civil_of_year (s : Z) : four_digit_year s -> 0 <= c_year (civil_of s) < 10000.
Proof.
  unfold four_digit_year, civil_of. intros Hs.
  destruct (year_yday _) as [y yd] eqn:Ey. destruct (month_day _ _ _) as [m d].
  cbn [c_year]. apply year_yday_spec in Ey as [Hd Hyd].
  assert (leap_days y <= 1) by (unfold leap_days; case_match; lia).
  unfold epoch_days in Hd. split.
  - destruct (Z.le_gt_cases 0 y) as [|Hy]; [done|exfalso].
    pose proof (days_to_year_mono (y + 1) 0 ltac:(lia)) as Hm.
    rewrite days_to_year_succ in Hm. change (days_to_year 0) with (-366) in Hm. dmlia.
  - destruct (Z.lt_ge_cases y 10000) as [|Hy]; [done|exfalso].
    pose proof (days_to_year_mono 10000 y Hy) as Hm.
    change (days_to_year 10000) with 3652059 in Hm. dmlia.
Qed.

(** Earlier instants have lexicographically smaller civil times. *)
Lemma civil_of_lt (s t : Z) :
  let c := civil_of s in let d := civil_of t in
  s < t <->
  c_year c < c_year d \/ (c_year c = c_year d /\
  (c_month c < c_month d \/ (c_month c = c_month d /\
  (c_day c < c_day d \/ (c_day c = c_day d /\
  (c_hour c < c_hour d \/ (c_hour c = c_hour d /\
  (c_min c < c_min d \/ (c_min c = c_min d /\ c_sec c < c_sec d))))))))).
Proof.
  unfold civil_of.
  destruct (year_yday (s / 86400 + epoch_days)) as [y yd] eqn:Ey.
  destruct (year_yday (t / 86400 + epoch_days)) as [y' yd'] eqn:Ey'.
  destruct (month_day 1 (month_lengths y) yd) as [m d] eqn:Em.
  destruct (month_day 1 (month_lengths y') yd') as [m' d'] eqn:Em'.
  cbn [c_year c_month c_day c_hour c_min c_sec].
  pose proof (year_yday_lt _ _ _ _ _ _ Ey Ey') as H1.
  pose proof (year_yday_lt _ _ _ _ _ _ Ey' Ey) as H2.
  assert (s < t <-> s / 86400 < t / 86400 \/
            (s / 86400 = t / 86400 /\ s mod 86400 < t mod 86400)) as -> by dmlia.
  assert (forall u v, 0 <= u < 86400 -> 0 <= v < 86400 -> u < v <->
     u / 3600 < v / 3600 \/ (u / 3600 = v / 3600 /\
     (u mod 3600 / 60 < v mod 3600 / 60 \/ (u mod 3600 / 60 = v mod 3600 / 60 /\
      u mod 60 < v mod 60)))) as Ht by (intros; dmlia).
  rewrite <- Ht by (apply Z.mod_pos_bound; lia). clear Ht.
  set (a := s / 86400) in *. set (b := t / 86400) in *. clearbody a b.
  set (u := s mod 86400). set (v := t mod 86400). clearbody u v.
  destruct (Z.eq_dec y y') as [<-|Hy]; [|lia].
  destruct (month_day_lt _ _ _ _ _ _ _ _ Em Em') as [_ H3].
  destruct (month_day_lt _ _ _ _ _ _ _ _ Em' Em) as [_ H4].
  assert (yd = yd' -> m = m' /\ d = d') as H5 by (intros ->; rewrite Em in Em'; by simplify_eq).
  lia.
Qed.

Lemma text_lt_rfc3339 (s t : Z) :
  four_digit_year s -> four_digit_year t ->
  text_lt (rfc3339 s) (rfc3339 t) <-> s < t.
Proof.
  intros Hs Ht. unfold rfc3339. rewrite (civil_of_lt s t).
  destruct (civil_of_spec s) as [(? & ? & ? & ? & ?) _].
  destruct (civil_of_spec t) as [(? & ? & ? & ? & ?) _].
  pose proof (civil_of_year s Hs). pose proof (civil_of_year t Ht).
  pose proof (month_length_le (c_year (civil_of s)) (c_month (civil_of s))).
  pose proof (month_length_le (c_year (civil_of t)) (c_month (civil_of t))).
  set (c := civil_of s) in *. set (d := civil_of t) in *. clearbody c d.
  do 6 (rewrite text_lt_digits by (simpl; lia); rewrite ?text_lt_same).
  assert (text_lt "" "" <-> False) as -> by done. lia.
Qed.

Lemma rfc3339_inj (s t : Z) :
  four_digit_year s -> four_digit_year t -> rfc3339 s = rfc3339 t -> s = t.
Proof.
  intros Hs Ht E.
  destruct (Z.lt_trichotomy s t) as [Hlt|[Heq|Hlt]]; [|exact Heq|];
    exfalso; revert Hlt; rewrite <- text_lt_rfc3339 by done; rewrite E;
    apply text_lt_irrefl.
Qed.

(** ** Parsing *)

(** A literal character. *)
Definition lit (c : ascii) (s : string) : option string :=
  match s with
  | String a s => if decide (a = c) then Some s else None
  | EmptyString => None
  end.

(** A two-digit number that may be written with one digit (Go's lenient [15]). *)
Definition read_hour (s : string) : option (Z * string) :=
  match read_digits 2 0 s with
  | Some r => Some r
  | None => read_digits 1 0 s
  end.

(** The digits a string starts with. *)
Fixpoint span_digits (s : string) : list Z * string :=
  match s with
  | String c s' => match dec_digit c with
                   | Some d => let '(ds, r) := span_digits s' in (d :: ds, r)
                   | None => ([], s)
                   end
  | EmptyString => ([], s)
  end.

(** An optional fraction of a second after a dot or a comma, in nanoseconds;
    digits after the ninth are dropped. *)
Definition read_fraction (s : string) : Z * string :=
  match s with
  | String c s' =>
      if decide (c = "."%char \/ c = ","%char) then
        match span_digits s' with
        | ([], _) => (0, s)
        | (ds, r) =>
            let ds := take 9 ds in
            (foldl (fun acc d => 10 * acc + d) 0 ds * 10 ^ (9 - Z.of_nat (length ds)), r)
        end
      else (0, s)
  | EmptyString => (0, s)
  end.

(** The zone: [Z] or a signed [hh:mm], in seconds east of UTC. *)
Definition read_zone (s : string) : option (Z * string) :=
  match s with
  | String "Z" r => Some (0, r)
  | String c r =>
      if decide (c = "+"%char \/ c = "-"%char) then
        '(h, r) ← read_digits 2 0 r;
        r ← lit ":" r;
        '(m, r) ← read_digits 2 0 r;
        if decide (h <= 24 /\ m <= 60) then
          let o := (h * 60 + m) * 60 in
          Some (if decide (c = "-"%char) then - o else o, r)
        else None
      else None
  | EmptyString => None
  end.

(** [time.Parse(time.RFC3339, s)], in nanoseconds since the epoch. *)
Definition parse_rfc3339 (s : string) : option Z :=
  '(y, s) ← read_digits 4 0 s; s ← lit "-" s;
  '(mo, s) ← read_digits 2 0 s; s ← lit "-" s;
  '(d, s) ← read_digits 2 0 s; s ← lit "T" s;
  '(h, s) ← read_hour s; s ← lit ":" s;
  '(mi, s) ← read_digits 2 0 s; s ← lit ":" s;
  '(se, s) ← read_digits 2 0 s;
  let '(frac, s) := read_fraction s in
  '(off, s) ← read_zone s;
  let c := mkCivil y mo d h mi se in
  if decide (s = EmptyString /\ civil_ok c)
  then Some ((unix_of c - off) * Second + frac) else None.

Lemma lit_cons (c : ascii) (s : string) : lit c (String c s) = Some s.
Proof. unfold lit. by rewrite decide_True. Qed.

Lemma read_field (n : nat) (v : Z) (s : string) :
  0 <= v < 10 ^ Z.of_nat n -> read_digits n 0 (digits n v s) = Some (v, s).
Proof. intros H. rewrite read_digits_digits by exact H. by rewrite Z.mul_0_l, Z.add_0_l. Qed.

Lemma read_hour_field (v : Z) (s : string) :
  0 <= v < 100 -> read_hour (digits 2 v s) = Some (v, s).
Proof. intros H. unfold read_hour. by rewrite read_field. Qed.

Lemma bind_Some_l {A B} (a : A) (f : A -> option B) : Some a ≫= f = f a.
Proof. done. Qed.

(** What is written is read back, to the second. *)
Lemma parse_rfc3339_format (s : Z) :
  four_digit_year s -> parse_rfc3339 (rfc3339 s) = Some (s * Second).
Proof.
  intros Hs. unfold parse_rfc3339, rfc3339.
  destruct (civil_of_spec s) as [Hok Hu]. pose proof Hok as (? & ? & ? & ? & ?).
  pose proof (civil_of_year s Hs).
  pose proof (month_length_le (c_year (civil_of s)) (c_month (civil_of s))).
  destruct (civil_of s) as [y mo d h mi se].
  unfold c_year, c_month, c_day, c_hour, c_min, c_sec in *.
  repeat first [rewrite bind_Some_l | rewrite lit_cons | rewrite read_hour_field by lia
               | rewrite read_field by (simpl; lia)].
  assert (read_fraction "Z" = (0, "Z"%string)) as -> by done.
  assert (read_zone "Z" = Some (0, ""%string)) as -> by done.
  rewrite bind_Some_l, decide_True by done. f_equal. rewrite Hu. lia.
Qed.

Example rfc3339_example : rfc3339 1700000000 = "2023-11-14T22:13:20Z".
Proof. by vm_compute. Qed.

Example parse_rfc3339_example :
  parse_rfc3339 "2023-11-14T23:13:20.5+01:00" = Some (1700000000500000000).
Proof. by vm_compute. Qed.

#[global] Arguments rfc3339 s : simpl never.
#[global] Arguments parse_rfc3339 s : simpl never.
