(* ===== verification/Decimal.v ===== *)
(** * Decimal numbers ([strconv])

    Reading and printing integers in base ten, and that one inverts the other. *)

From S2P Require Import Prelude Encoding Clock.

Local Open Scope Z_scope.

(** [strconv.ParseInt(s, 10, 64)]. *)
Fixpoint read_decimal (acc : Z) (s : string) : option Z :=
  match s with
  | EmptyString => Some acc
  | String c s => d ← dec_digit c; read_decimal (10 * acc + d) s
  end.

Definition ParseInt (s : string) : option Z :=
  let '(sign, digits) := match s with
                         | String "+" s => (1, s)
                         | String "-" s => (-1, s)
                         | s => (1, s)
                         end in
  if decide (digits = ""%string) then None else
  v ← read_decimal 0 digits;
  if decide (- 2 ^ 63 <= sign * v < 2 ^ 63) then Some (sign * v) else None.

(** The decimal digits of a number of at most [fuel] digits, before [rest]. *)
Fixpoint print_nat (fuel : nat) (v : Z) (rest : string) : string :=
  match fuel with
  | O => rest
  | S fuel =>
      let rest := String (dec_char (v mod 10)) rest in
      if decide (v / 10 = 0) then rest else print_nat fuel (v / 10) rest
  end.

(** [strconv.AppendInt] in base ten; 19 digits are enough for an [int64]. *)
Definition print_int (z : Z) : string :=
  if decide (z < 0) then "-" +:+ print_nat 19 (- z) "" else print_nat 19 z "".

(** ** Round trip *)

Lemma read_print_nat (fuel : nat) (v : Z) (rest : string) :
  0 <= v < 10 ^ Z.of_nat fuel ->
  exists k, forall acc, read_decimal acc (print_nat fuel v rest) = read_decimal (acc * k + v) rest.
Proof.
  revert v rest. induction fuel as [|fuel IH]; intros v rest Hv.
  { exists 1. intros acc. cbn [print_nat]. f_equal. cbn in Hv. lia. }
  rewrite Nat2Z.inj_succ, Z.pow_succ_r in Hv by lia.
  assert (forall acc, read_decimal acc (String (dec_char (v mod 10)) rest) =
    read_decimal (acc * 10 + v mod 10) rest) as Hd.
  { intros acc. cbn [read_decimal]. rewrite dec_digit_char by dmlia. cbn. f_equal. lia. }
  cbn [print_nat]. case_decide as Hz.
  - exists 10. intros acc. rewrite Hd. f_equal. dmlia.
  - destruct (IH (v / 10) (String (dec_char (v mod 10)) rest)) as [k Hk]; [dmlia|].
    exists (k * 10). intros acc. rewrite Hk, Hd. f_equal. dmlia.
Qed.

Definition digit_char_ascii (c : ascii) : Prop := is_Some (dec_digit c).

Lemma print_nat_digits (fuel : nat) (v : Z) (rest : string) :
  0 <= v -> Forall digit_char_ascii (String.list_ascii_of_string rest) ->
  Forall digit_char_ascii (String.list_ascii_of_string (print_nat fuel v rest)).
Proof.
  revert v rest. induction fuel as [|fuel IH]; intros v rest Hv Hr; [done|]. cbn [print_nat].
  assert (Forall digit_char_ascii (String.list_ascii_of_string (String (dec_char (v mod 10)) rest))) as Hr'.
  { constructor; [|done]. unfold digit_char_ascii. rewrite dec_digit_char by dmlia. done. }
  case_decide; [done|]. apply IH; [dmlia|done].
Qed.

Lemma print_nat_nonempty (fuel : nat) (v : Z) (rest : string) :
  rest <> ""%string -> print_nat fuel v rest <> ""%string.
Proof.
  revert v rest. induction fuel as [|fuel IH]; intros v rest Hr; [done|]. cbn [print_nat].
  case_decide; [done|]. by apply IH.
Qed.

Lemma print_int_nonneg (z : Z) : 0 <= z -> print_int z = print_nat 19 z "".
Proof. intros Hz. unfold print_int. by rewrite decide_False by lia. Qed.

Lemma print_nat_S_nonempty (fuel : nat) (v : Z) (rest : string) : print_nat (S fuel) v rest <> ""%string.
Proof. cbn [print_nat]. case_decide; [done|]. by apply print_nat_nonempty. Qed.

Lemma print_int_digits (z : Z) :
  0 <= z -> Forall digit_char_ascii (String.list_ascii_of_string (print_int z)) /\ print_int z <> ""%string.
Proof.
  intros Hz. rewrite print_int_nonneg by done. split; [by apply print_nat_digits|apply print_nat_S_nonempty].
Qed.

(** Text of digits has no sign. *)
Lemma ParseInt_digits (s : string) (z : Z) :
  Forall digit_char_ascii (String.list_ascii_of_string s) -> s <> ""%string ->
  read_decimal 0 s = Some z -> 0 <= z < 2 ^ 63 -> ParseInt s = Some z.
Proof.
  intros Hd Hne Hr Hz. destruct s as [|c s]; [done|]. apply Forall_cons in Hd as [Hc _].
  assert (ParseInt (String c s) = (v ← read_decimal 0 (String c s);
    if decide (- 2 ^ 63 <= 1 * v < 2 ^ 63) then Some (1 * v) else None)) as ->.
  { destruct (decide (c = "+"%char)) as [->|Hp]; [destruct Hc as [? Hc]; by vm_compute in Hc|].
    destruct (decide (c = "-"%char)) as [->|Hm]; [destruct Hc as [? Hc]; by vm_compute in Hc|].
    clear -Hp Hm. destruct c as [[] [] [] [] [] [] [] []]; first [reflexivity|done]. }
  rewrite Hr. cbn [mbind option_bind]. by rewrite Z.mul_1_l, decide_True by lia.
Qed.

(** A number that fits in an [int64] and is not negative reads back. *)
Lemma ParseInt_print_int (z : Z) : 0 <= z < 2 ^ 63 -> ParseInt (print_int z) = Some z.
Proof.
  intros Hz. destruct (print_int_digits z) as [Hd Hne]; [lia|]. apply ParseInt_digits; [done|done| |done].
  rewrite print_int_nonneg by lia. destruct (read_print_nat 19 z "") as [k Hk]; [lia|].
  specialize (Hk 0). rewrite Hk, Z.mul_0_l, Z.add_0_l. done.
Qed.

(** So does any [int64]. *)
Lemma ParseInt_print_int64 (z : Z) : is_int64 z -> ParseInt (print_int z) = Some z.
Proof.
  intros Hz. unfold is_int64 in Hz. destruct (decide (0 <= z)) as [Hp|Hn]; [apply ParseInt_print_int; lia|].
  unfold print_int. rewrite decide_True by lia. destruct (read_print_nat 19 (- z) "") as [k Hk]; [lia|].
  pose proof (print_nat_S_nonempty 18 (- z) "") as Hne. specialize (Hk 0).
  change ("-" +:+ ?s) with (String "-" s). unfold ParseInt. rewrite decide_False by done. rewrite Hk.
  cbn [read_decimal mbind option_bind]. rewrite decide_True by lia. f_equal. lia.
Qed.
