(* ===== verification/Json.v ===== *)
(** * JSON text ([encoding/json])

    The tree of a JSON text and the text [encoding/json] prints for it. *)

From S2P Require Import Prelude Encoding Clock Decimal.

Local Open Scope Z_scope.

(** A number is kept as it is written. *)
#[warnings="-register-all"]
Inductive json : Type :=
  | JNull
  | JBool (b : bool)
  | JNumber (text : string)
  | JStr (s : string)
  | JArr (l : list json)
  | JObj (fields : list (string * json)).

(** An integer. *)
Abbreviation JInt z := (JNumber (print_int z)).

(** ** Printing *)

(** [\u00xx]. *)
Definition u00 (c : ascii) : string := "\u00" +:+ hex_encode [byte_of_ascii c].

(** One ASCII character of a string, as [encoding/json] writes it with its HTML
    escapes on. *)
Definition escape_ascii (c : ascii) : string :=
  if decide (c = "034"%char) then "\" +:+ String "034"%char "" else
  if decide (c = "\"%char) then "\\" else
  if decide (c = "008"%char) then "\b" else
  if decide (c = "012"%char) then "\f" else
  if decide (c = "010"%char) then "\n" else
  if decide (c = "013"%char) then "\r" else
  if decide (c = "009"%char) then "\t" else
  if decide ((N_of_ascii c < 32)%N \/ c = "<"%char \/ c = ">"%char \/ c = "&"%char)
  then u00 c else String c "".

Definition in_range (lo hi : N) (c : ascii) : bool :=
  bool_decide (lo <= N_of_ascii c)%N && bool_decide (N_of_ascii c <= hi)%N.
Definition is_cont : ascii -> bool := in_range 128 191.

(** The well-formed UTF-8 sequences of two, three and four bytes, which are copied;
    U+2028 and U+2029 are escaped, and a byte that starts no such sequence is written
    as the replacement character. *)
Definition utf8_2 (a b : ascii) : bool := in_range 194 223 a && is_cont b.
Definition utf8_3 (a b c : ascii) : bool :=
  is_cont c &&
  ((in_range 224 224 a && in_range 160 191 b) || (in_range 225 236 a && is_cont b) ||
   (in_range 237 237 a && in_range 128 159 b) || (in_range 238 239 a && is_cont b)).
Definition utf8_4 (a b c d : ascii) : bool :=
  is_cont c && is_cont d &&
  ((in_range 240 240 a && in_range 144 191 b) || (in_range 241 243 a && is_cont b) ||
   (in_range 244 244 a && in_range 128 143 b)).

Definition escape_3 (a b c : ascii) : string :=
  if decide (N_of_ascii a = 226 /\ N_of_ascii b = 128)%N then
    if decide (N_of_ascii c = 168)%N then "\u2028" else
    if decide (N_of_ascii c = 169)%N then "\u2029" else String a (String b (String c ""))
  else String a (String b (String c "")).

Definition replacement : string := "\ufffd".

Fixpoint escape (s : string) : string :=
  match s with
  | EmptyString => ""
  | String a s1 =>
      if decide (N_of_ascii a < 128)%N then escape_ascii a +:+ escape s1 else
      match s1 with
      | String b s2 =>
          if utf8_2 a b then String a (String b (escape s2)) else
          match s2 with
          | String c s3 =>
              if utf8_3 a b c then escape_3 a b c +:+ escape s3 else
              match s3 with
              | String d s4 =>
                  if utf8_4 a b c d then String a (String b (String c (String d (escape s4))))
                  else replacement +:+ escape s1
              | EmptyString => replacement +:+ escape s1
              end
          | EmptyString => replacement +:+ escape s1
          end
      | EmptyString => replacement +:+ escape s1
      end
  end.

Definition quote : string := String "034"%char "".

Definition print_string (s : string) : string := quote +:+ escape s +:+ quote.

Definition print_bool (b : bool) : string := if b then "true" else "false".

Fixpoint print (j : json) : string :=
  match j with
  | JNull => "null"
  | JBool b => print_bool b
  | JNumber text => text
  | JStr s => print_string s
  | JArr l => "[" +:+ String.concat "," (map print l) +:+ "]"
  | JObj fields =>
      "{" +:+ String.concat "," (map (fun kv => print_string kv.1 +:+ ":" +:+ print kv.2) fields) +:+ "}"
  end.

(** Text with its quotes turned into apostrophes, to write examples with. *)
Fixpoint apostrophes (s : string) : string :=
  match s with
  | EmptyString => ""
  | String c s => String (if decide (c = "034"%char) then "'"%char else c) (apostrophes s)
  end.

(** ** Sizes *)

(** A character that is copied. *)
Definition copied (c : ascii) : Prop :=
  (N_of_ascii c < 128)%N /\ escape_ascii c = String c "".

Lemma escape_copied (s : string) :
  Forall copied (String.list_ascii_of_string s) -> escape s = s.
Proof.
  induction s as [|c s IH]; [done|]. cbn [String.list_ascii_of_string].
  rewrite Forall_cons. intros [[Hc He] Hs]. cbn [escape].
  rewrite decide_True by done. rewrite He, IH by done. done.
Qed.

Lemma base64_copied (b : bytes) : escape (base64_std_encode b) = base64_std_encode b.
Proof.
  apply escape_copied. eapply Forall_impl; [apply base64_encode_chars|].
  assert (Forall copied ("="%char :: base64_std_alphabet)) as HF
    by (unfold copied; apply (bool_decide_unpack _); by vm_compute).
  rewrite Forall_forall in HF. exact HF.
Qed.

(** Three bytes become four characters. *)
Lemma base64_length (b : bytes) :
  (3 * String.length (base64_std_encode b) = 4 * length b + 4 * ((3 - length b mod 3) mod 3))%nat.
Proof.
  unfold base64_std_encode. induction b as [|x|x y|x y z b IH] using list_ind3; [done..|].
  cbn [base64_encode String.length length].
  assert (S (S (S (length b))) = length b + 1 * 3)%nat as E by lia.
  rewrite E, Nat.Div0.mod_add. lia.
Qed.

Lemma print_nat_length (fuel : nat) (v : Z) (rest : string) :
  (String.length (print_nat fuel v rest) <= fuel + String.length rest)%nat.
Proof.
  revert v rest. induction fuel as [|fuel IH]; intros v rest; [done|]. cbn [print_nat].
  case_decide; [cbn [String.length]; lia|].
  etrans; [apply IH|]. cbn [String.length]. lia.
Qed.

Lemma print_int_length (z : Z) : (String.length (print_int z) <= 20)%nat.
Proof.
  unfold print_int. case_decide; [rewrite str_length_app|];
    [pose proof (print_nat_length 19 (- z) "")|pose proof (print_nat_length 19 z "")];
    cbn [String.length] in *; lia.
Qed.

Lemma concat_cons_length (s x : string) (l : list string) :
  String.length (String.concat "," (s :: x :: l)) =
  (String.length s + 1 + String.length (String.concat "," (x :: l)))%nat.
Proof.
  change (String.concat "," (s :: x :: l)) with (s +:+ "," +:+ String.concat "," (x :: l)).
  rewrite !str_length_app. cbn [String.length]. lia.
Qed.

Lemma concat_length (l : list string) :
  (sum_list (String.length <$> l) <= String.length (String.concat "," l))%nat.
Proof.
  induction l as [|s [|x l] IH]; [done|simpl; lia|].
  rewrite concat_cons_length, fmap_cons. change (sum_list (String.length s :: ?l)) with
    (String.length s + sum_list l)%nat. lia.
Qed.

Lemma sum_list_mono {A} (f g : A -> nat) (l : list A) :
  Forall (fun x => (f x <= g x)%nat) l -> (sum_list (f <$> l) <= sum_list (g <$> l))%nat.
Proof.
  induction 1 as [|x l Hx _ IH]; [done|]. rewrite !fmap_cons.
  change (sum_list (?n :: ?l)) with (n + sum_list l)%nat. lia.
Qed.
