(* ===== verification/Scanner.v ===== *)
(** * Reading JSON text ([encoding/json])

    The scanner of [encoding/json], state by state - one character at a time, with a
    stack of the arrays and objects that are open - building the tree of what it reads;
    the unquoting of strings; [Unmarshal] and [Decoder.Decode] of one value. What is
    printed reads back, and a text that is cut off does not. *)

From S2P Require Import Prelude Encoding Clock Decimal Json.

Local Open Scope Z_scope.

(** ** Strings *)

(** [utf8.AppendRune]. *)
Definition encode_rune (r : Z) : string :=
  let char v := ascii_of_N (Z.to_N v) in
  let cont v := char (128 + v mod 64) in
  if decide (r < 128) then String (char r) "" else
  if decide (r < 2048) then String (char (192 + r / 64)) (String (cont r) "") else
  if decide (r < 65536) then
    String (char (224 + r / 4096)) (String (cont (r / 64)) (String (cont r) ""))
  else String (char (240 + r / 262144)) (String (cont (r / 4096)) (String (cont (r / 64)) (String (cont r) ""))).

(** U+FFFD, the replacement character. *)
Definition RuneError : string := encode_rune 65533.

(** The value of four hexadecimal digits. *)
Definition hex4 (a b c d : ascii) : option Z :=
  a ← unhex a; b ← unhex b; c ← unhex c; d ← unhex d; Some (4096 * a + 256 * b + 16 * c + d).

(** [utf16.IsSurrogate], and [utf16.DecodeRune] of a pair. *)
Definition is_surrogate (r : Z) : bool := (55296 <=? r) && (r <? 57344).
Definition surrogates (hi lo : Z) : option Z :=
  if decide (55296 <= hi < 56320 /\ 56320 <= lo < 57344)
  then Some (65536 + 1024 * (hi - 55296) + (lo - 56320)) else None.

(** What a backslash and [c] stand for. *)
Definition unescape_char (c : ascii) : ascii :=
  if decide (c = "b"%char) then "008" else
  if decide (c = "f"%char) then "012" else
  if decide (c = "n"%char) then "010" else
  if decide (c = "r"%char) then "013" else
  if decide (c = "t"%char) then "009" else c.

(** [unquote] of the text between the quotes: escapes are replaced, a [\u] escape that is
    half of no pair and a byte that starts no UTF-8 sequence by the replacement character.
    The scanner lets no other escapes through. *)
Fixpoint unquote (s : string) : string :=
  match s with
  | EmptyString => ""
  | String a s1 =>
      if decide (a = "\"%char) then
        match s1 with
        | String e s2 =>
            if decide (e = "u"%char) then
              match s2 with
              | String h1 (String h2 (String h3 (String h4 s6))) =>
                  let r := default 0 (hex4 h1 h2 h3 h4) in
                  if is_surrogate r then
                    match s6 with
                    | String b (String v (String g1 (String g2 (String g3 (String g4 s12))))) =>
                        let pair := if decide (b = "\"%char /\ v = "u"%char)
                                    then lo ← hex4 g1 g2 g3 g4; surrogates r lo else None in
                        match pair with
                        | Some r => encode_rune r +:+ unquote s12
                        | None => RuneError +:+ unquote s6
                        end
                    | _ => RuneError +:+ unquote s6
                    end
                  else encode_rune r +:+ unquote s6
              | _ => ""
              end
            else String (unescape_char e) (unquote s2)
        | EmptyString => ""
        end
      else if decide (N_of_ascii a < 128)%N then String a (unquote s1) else
      match s1 with
      | String b s2 =>
          if utf8_2 a b then String a (String b (unquote s2)) else
          match s2 with
          | String c s3 =>
              if utf8_3 a b c then String a (String b (String c (unquote s3))) else
              match s3 with
              | String d s4 =>
                  if utf8_4 a b c d then String a (String b (String c (String d (unquote s4))))
                  else RuneError +:+ unquote s1
              | EmptyString => RuneError +:+ unquote s1
              end
          | EmptyString => RuneError +:+ unquote s1
          end
      | EmptyString => RuneError +:+ unquote s1
      end
  end.

(** ** The scanner *)

(** Where the scanner is: the names are those of its step functions. [raw] and [t] are the
    characters of the string or number so far, the last one first. *)
Inductive mode : Type :=
  | BeginValue
  | BeginValueOrEmpty
  | BeginString
  | BeginStringOrEmpty
  | InString (raw : list ascii)
  | InStringEsc (raw : list ascii)
  | InStringEscU (digits : nat) (raw : list ascii)
  | InWord (rest : string) (v : json)
  | Neg (t : list ascii)
  | State0 (t : list ascii)
  | State1 (t : list ascii)
  | Dot (t : list ascii)
  | Dot0 (t : list ascii)
  | StateE (t : list ascii)
  | ESign (t : list ascii)
  | E0 (t : list ascii)
  | EndValue (v : json).

(** What is open: an array with its elements so far, an object that waits for a key or its
    colon, an object whose member of that key is being read. *)
Inductive frame : Type :=
  | FArray (l : list json)
  | FKey (ms : list (string * json))
  | FMember (ms : list (string * json)) (key : string).

(** [scanEnd] comes one character after the value. *)
Inductive outcome : Type :=
  | Next (m : mode) (stack : list frame)
  | Ended (v : json)
  | Bad.

Definition is_space (c : ascii) : bool := bool_decide (c ∈ [" "; "009"; "013"; "010"]%char).
Definition digit (c : ascii) : bool := in_range 48 57 c.
Definition digit19 (c : ascii) : bool := in_range 49 57 c.

Definition maxNestingDepth : Z := 10000.

Definition pushParseState (f : frame) (m : mode) (stack : list frame) : outcome :=
  if decide (Z.of_nat (length stack) < maxNestingDepth) then Next m (f :: stack) else Bad.

Definition text_of (raw : list ascii) : string := String.string_of_list_ascii (rev raw).

Definition stateBeginValue (stack : list frame) (c : ascii) : outcome :=
  if is_space c then Next BeginValue stack else
  if decide (c = "{"%char) then pushParseState (FKey []) BeginStringOrEmpty stack else
  if decide (c = "["%char) then pushParseState (FArray []) BeginValueOrEmpty stack else
  if decide (c = "034"%char) then Next (InString []) stack else
  if decide (c = "-"%char) then Next (Neg [c]) stack else
  if decide (c = "0"%char) then Next (State0 [c]) stack else
  if decide (c = "t"%char) then Next (InWord "rue" (JBool true)) stack else
  if decide (c = "f"%char) then Next (InWord "alse" (JBool false)) stack else
  if decide (c = "n"%char) then Next (InWord "ull" JNull) stack else
  if digit19 c then Next (State1 [c]) stack else Bad.

Definition stateEndValue (v : json) (stack : list frame) (c : ascii) : outcome :=
  match stack with
  | [] => Ended v
  | f :: stack' =>
      if is_space c then Next (EndValue v) stack else
      match f with
      | FKey ms =>
          match v with
          | JStr k => if decide (c = ":"%char) then Next BeginValue (FMember ms k :: stack') else Bad
          | _ => Bad
          end
      | FMember ms k =>
          if decide (c = ","%char) then Next BeginString (FKey (ms ++ [(k, v)]) :: stack') else
          if decide (c = "}"%char) then Next (EndValue (JObj (ms ++ [(k, v)]))) stack' else Bad
      | FArray l =>
          if decide (c = ","%char) then Next BeginValue (FArray (l ++ [v]) :: stack') else
          if decide (c = "]"%char) then Next (EndValue (JArr (l ++ [v]))) stack' else Bad
      end
  end.

Definition end_number (t : list ascii) : list frame -> ascii -> outcome :=
  stateEndValue (JNumber (text_of t)).

Definition state_0 (t : list ascii) (stack : list frame) (c : ascii) : outcome :=
  if decide (c = "."%char) then Next (Dot (c :: t)) stack else
  if decide (c = "e"%char \/ c = "E"%char) then Next (StateE (c :: t)) stack else
  end_number t stack c.

Definition state_ESign (t : list ascii) (stack : list frame) (c : ascii) : outcome :=
  if digit c then Next (E0 (c :: t)) stack else Bad.

(** One step of the scanner. *)
Definition scan_step (m : mode) (stack : list frame) (c : ascii) : outcome :=
  match m with
  | BeginValue => stateBeginValue stack c
  | BeginValueOrEmpty =>
      if is_space c then Next m stack else
      if decide (c = "]"%char) then Next (EndValue (JArr [])) (tail stack) else stateBeginValue stack c
  | BeginString =>
      if is_space c then Next m stack else
      if decide (c = "034"%char) then Next (InString []) stack else Bad
  | BeginStringOrEmpty =>
      if is_space c then Next m stack else
      if decide (c = "}"%char) then Next (EndValue (JObj [])) (tail stack) else
      if decide (c = "034"%char) then Next (InString []) stack else Bad
  | InString raw =>
      if decide (c = "034"%char) then Next (EndValue (JStr (unquote (text_of raw)))) stack else
      if decide (c = "\"%char) then Next (InStringEsc (c :: raw)) stack else
      if decide (N_of_ascii c < 32)%N then Bad else Next (InString (c :: raw)) stack
  | InStringEsc raw =>
      if decide (c ∈ ["b"; "f"; "n"; "r"; "t"; "\"; "/"; "034"]%char) then Next (InString (c :: raw)) stack else
      if decide (c = "u"%char) then Next (InStringEscU 3 (c :: raw)) stack else Bad
  | InStringEscU more raw =>
      match unhex c, more with
      | None, _ => Bad
      | Some _, O => Next (InString (c :: raw)) stack
      | Some _, S more => Next (InStringEscU more (c :: raw)) stack
      end
  | InWord rest v =>
      match rest with
      | String a EmptyString => if decide (c = a) then Next (EndValue v) stack else Bad
      | String a rest => if decide (c = a) then Next (InWord rest v) stack else Bad
      | EmptyString => Bad
      end
  | Neg t =>
      if decide (c = "0"%char) then Next (State0 (c :: t)) stack else
      if digit19 c then Next (State1 (c :: t)) stack else Bad
  | State1 t => if digit c then Next (State1 (c :: t)) stack else state_0 t stack c
  | State0 t => state_0 t stack c
  | Dot t => if digit c then Next (Dot0 (c :: t)) stack else Bad
  | Dot0 t =>
      if digit c then Next (Dot0 (c :: t)) stack else
      if decide (c = "e"%char \/ c = "E"%char) then Next (StateE (c :: t)) stack else end_number t stack c
  | StateE t =>
      if decide (c = "+"%char \/ c = "-"%char) then Next (ESign (c :: t)) stack else state_ESign t stack c
  | ESign t => state_ESign t stack c
  | E0 t => if digit c then Next (E0 (c :: t)) stack else end_number t stack c
  | EndValue v => stateEndValue v stack c
  end.

(** Scanning one value: the value and what follows it. At the end of the text a space is
    tried ([scanner.eof]). *)
Fixpoint scan (m : mode) (stack : list frame) (s : string) : option (json * string) :=
  match s with
  | EmptyString =>
      match scan_step m stack " " with
      | Ended v => Some (v, EmptyString)
      | _ => None
      end
  | String c s1 =>
      match scan_step m stack c with
      | Next m stack => scan m stack s1
      | Ended v => Some (v, s)
      | Bad => None
      end
  end.

Definition all_space (s : string) : bool := forallb is_space (String.list_ascii_of_string s).

(** [json.Unmarshal] up to the tree: one value and nothing after it. *)
Definition Unmarshal (s : string) : option json :=
  '(v, rest) ← scan BeginValue [] s;
  if all_space rest then Some v else None.

(** The result of [Decoder.Decode]: a value, [io.EOF] (nothing but white space), or any
    other error. *)
Inductive decoded (A : Type) : Type :=
  | DOk (a : A)
  | DEOF
  | DErr.
#[global] Arguments DOk {A} a.
#[global] Arguments DEOF {A}.
#[global] Arguments DErr {A}.

(** The first [Decoder.Decode] of a text: what follows the value is left alone. *)
Definition Decode (s : string) : decoded json :=
  if all_space s then DEOF else
  match scan BeginValue [] s with
  | Some (v, _) => DOk v
  | None => DErr
  end.

(** Apostrophes turned back into quotes, to write examples with. *)
Fixpoint quotes (s : string) : string :=
  match s with
  | EmptyString => ""
  | String c s => String (if decide (c = "'"%char) then "034"%char else c) (quotes s)
  end.

Example Unmarshal_spaces :
  Unmarshal (quotes " {'a' : [1, -2.5e+3,true ], 'b':'\u0041\ud83d\ude00\ud83d'} ") =
  Some (JObj [("a", JArr [JNumber "1"; JNumber "-2.5e+3"; JBool true]);
              ("b", JStr ("A" +:+ encode_rune 128512 +:+ RuneError))]%string).
Proof. by vm_compute. Qed.

Example Unmarshal_refused :
  Forall (fun s => Unmarshal (quotes s) = None)
    [""; "{"; "[1,]"; "{'a':1,}"; "01"; "1."; "'\x'"; "{} {}"; "nul"; "{'a' 1}"; "[1 2]"]%string.
Proof. apply (bool_decide_unpack _). by vm_compute. Qed.

Example Decode_rest : Decode (quotes "{'a':null}xyz") = DOk (JObj [("a"%string, JNull)]).
Proof. by vm_compute. Qed.

(** ** Text in UTF-8 *)

Inductive utf8 : string -> Prop :=
  | utf8_nil : utf8 ""
  | utf8_one a s : (N_of_ascii a < 128)%N -> utf8 s -> utf8 (String a s)
  | utf8_two a b s : utf8_2 a b = true -> utf8 s -> utf8 (String a (String b s))
  | utf8_three a b c s : utf8_3 a b c = true -> utf8 s -> utf8 (String a (String b (String c s)))
  | utf8_four a b c d s :
      utf8_4 a b c d = true -> utf8 s -> utf8 (String a (String b (String c (String d s)))).

Lemma in_range_spec (lo hi : N) (c : ascii) :
  in_range lo hi c = true <-> (lo <= N_of_ascii c <= hi)%N.
Proof. unfold in_range. rewrite andb_true_iff, !bool_decide_eq_true. done. Qed.

(** The first byte tells the length of a sequence. *)
Lemma utf8_2_lead (a b : ascii) : utf8_2 a b = true -> (194 <= N_of_ascii a <= 223)%N.
Proof. unfold utf8_2. rewrite andb_true_iff, in_range_spec. tauto. Qed.

Lemma utf8_3_lead (a b c : ascii) : utf8_3 a b c = true -> (224 <= N_of_ascii a <= 239)%N.
Proof. unfold utf8_3. rewrite !andb_true_iff, !orb_true_iff, !andb_true_iff, !in_range_spec. lia. Qed.

Lemma utf8_4_lead (a b c d : ascii) : utf8_4 a b c d = true -> (240 <= N_of_ascii a <= 244)%N.
Proof. unfold utf8_4. rewrite !andb_true_iff, !orb_true_iff, !andb_true_iff, !in_range_spec. lia. Qed.

Lemma utf8_2_no (a b : ascii) : ~ (194 <= N_of_ascii a <= 223)%N -> utf8_2 a b = false.
Proof. intros Hn. destruct (utf8_2 a b) eqn:E; [|done]. by apply utf8_2_lead in E. Qed.
Lemma utf8_3_no (a b c : ascii) : ~ (224 <= N_of_ascii a <= 239)%N -> utf8_3 a b c = false.
Proof. intros Hn. destruct (utf8_3 a b c) eqn:E; [|done]. by apply utf8_3_lead in E. Qed.

Lemma above_ascii (a : ascii) : (128 <= N_of_ascii a)%N -> a <> "\"%char.
Proof. intros Ha ->. by vm_compute in Ha. Qed.

(** Reduces [escape] and [unquote] on a sequence of several bytes. *)
Ltac utf8_step :=
  repeat match goal with
  | |- _ => progress cbn [escape unquote]
  | |- context [decide (N_of_ascii ?a < 128)%N] => rewrite (decide_False (P := (N_of_ascii a < 128)%N)) by lia
  | |- context [decide (?a = "\"%char)] => rewrite (decide_False (P := a = "\"%char)) by (apply above_ascii; lia)
  | H : ?x = true |- context [if ?x then _ else _] => rewrite H
  | |- context [if utf8_2 ?a ?b then _ else _] => rewrite (utf8_2_no a b) by lia
  | |- context [if utf8_3 ?a ?b ?c then _ else _] => rewrite (utf8_3_no a b c) by lia
  end.

(** An escaped character reads back. *)
Lemma unquote_escape_ascii (c : ascii) (rest : string) :
  (N_of_ascii c < 128)%N -> unquote (escape_ascii c +:+ rest) = String c (unquote rest).
Proof.
  intros Hc. destruct c as [[] [] [] [] [] [] [] []]; first [reflexivity | by vm_compute in Hc].
Qed.

Lemma unquote_escape_3 (a b c : ascii) (rest : string) :
  utf8_3 a b c = true ->
  unquote (escape_3 a b c +:+ rest) = String a (String b (String c (unquote rest))).
Proof.
  intros Hu. pose proof (utf8_3_lead _ _ _ Hu) as Hl. unfold escape_3.
  assert (forall x n, N_of_ascii x = n -> x = ascii_of_N n) as Hn
    by (intros x n <-; by rewrite ascii_N_embedding).
  assert (unquote (String a (String b (String c "")) +:+ rest) = String a (String b (String c (unquote rest)))) as Hc
    by (change (String a (String b (String c "")) +:+ rest) with (String a (String b (String c rest))); by utf8_step).
  case_decide as E; [|done]. case_decide as E1; [|case_decide as E2; [|done]];
    destruct E as [->%Hn ->%Hn]; [rewrite (Hn _ _ E1)|rewrite (Hn _ _ E2)]; reflexivity.
Qed.

(** What is escaped is unquoted again. *)
Lemma unquote_escape (s : string) : utf8 s -> unquote (escape s) = s.
Proof.
  induction 1 as [|a s Ha _ IH|a b s Hu _ IH|a b c s Hu _ IH|a b c d s Hu _ IH]; [done|..].
  - cbn [escape]. rewrite decide_True by done. by rewrite unquote_escape_ascii, IH.
  - pose proof (utf8_2_lead _ _ Hu). utf8_step. by rewrite IH.
  - pose proof (utf8_3_lead _ _ _ Hu). cbn [escape]. rewrite decide_False by lia.
    rewrite utf8_2_no, Hu by lia. by rewrite unquote_escape_3, IH.
  - pose proof (utf8_4_lead _ _ _ _ Hu). utf8_step. by rewrite IH.
Qed.

(** ** Reading what was printed *)

Lemma text_of_chars (s : string) : text_of (rev (chars s)) = s.
Proof. unfold text_of. by rewrite rev_involutive, String.string_of_list_ascii_of_string. Qed.

Lemma rev_chars_app (s t : string) (raw : list ascii) :
  rev (chars (s +:+ t)) ++ raw = rev (chars t) ++ rev (chars s) ++ raw.
Proof. by rewrite chars_app, rev_app_distr, app_assoc. Qed.

(** A text the scanner takes as part of a string. *)
Definition string_part (t : string) : Prop :=
  forall raw stack rest,
    scan (InString raw) stack (t +:+ rest) = scan (InString (rev (chars t) ++ raw)) stack rest.

Lemma string_part_app (s t : string) : string_part s -> string_part t -> string_part (s +:+ t).
Proof. intros Hs Ht raw stack rest. by rewrite str_app_assoc, Hs, Ht, rev_chars_app. Qed.

Lemma string_part_high (a : ascii) : (128 <= N_of_ascii a)%N -> string_part (String a "").
Proof.
  intros Ha raw stack rest. change (String a "" +:+ rest) with (String a rest). cbn [scan scan_step].
  rewrite decide_False by (intros ->; by vm_compute in Ha). rewrite decide_False by by apply above_ascii.
  by rewrite decide_False by lia.
Qed.

Lemma string_part_cons (a : ascii) (s : string) :
  (128 <= N_of_ascii a)%N -> string_part s -> string_part (String a s).
Proof. intros Ha. exact (string_part_app (String a "") s (string_part_high a Ha)). Qed.

Lemma string_part_ascii (c : ascii) : (N_of_ascii c < 128)%N -> string_part (escape_ascii c).
Proof.
  intros Hc raw stack rest. destruct c as [[] [] [] [] [] [] [] []]; first [reflexivity | by vm_compute in Hc].
Qed.

Lemma utf8_2_high (a b : ascii) : utf8_2 a b = true -> (128 <= N_of_ascii a /\ 128 <= N_of_ascii b)%N.
Proof. unfold utf8_2, is_cont. rewrite andb_true_iff, !in_range_spec. lia. Qed.

Lemma utf8_3_high (a b c : ascii) :
  utf8_3 a b c = true -> (128 <= N_of_ascii a /\ 128 <= N_of_ascii b /\ 128 <= N_of_ascii c)%N.
Proof. unfold utf8_3, is_cont. rewrite !andb_true_iff, !orb_true_iff, !andb_true_iff, !in_range_spec. lia. Qed.

Lemma utf8_4_high (a b c d : ascii) :
  utf8_4 a b c d = true ->
  (128 <= N_of_ascii a /\ 128 <= N_of_ascii b /\ 128 <= N_of_ascii c /\ 128 <= N_of_ascii d)%N.
Proof. unfold utf8_4, is_cont. rewrite !andb_true_iff, !orb_true_iff, !andb_true_iff, !in_range_spec. lia. Qed.

Lemma string_part_escape (s : string) : utf8 s -> string_part (escape s).
Proof.
  induction 1 as [|a s Ha _ IH|a b s Hu _ IH|a b c s Hu _ IH|a b c d s Hu _ IH]; [done|..].
  - cbn [escape]. rewrite decide_True by done. by apply string_part_app; [apply string_part_ascii|].
  - pose proof (utf8_2_lead _ _ Hu). apply utf8_2_high in Hu as Hh. utf8_step.
    by do 2 (apply string_part_cons; [tauto|]).
  - pose proof (utf8_3_lead _ _ _ Hu). apply utf8_3_high in Hu as Hh. cbn [escape].
    rewrite decide_False, utf8_2_no, Hu by lia. apply string_part_app; [|done]. unfold escape_3.
    assert (string_part (String a (String b (String c "")))) by by repeat (apply string_part_cons; [tauto|]).
    repeat case_decide; done.
  - pose proof (utf8_4_lead _ _ _ _ Hu). apply utf8_4_high in Hu as Hh. utf8_step.
    by do 4 (apply string_part_cons; [tauto|]).
Qed.

Lemma scan_string (s rest : string) (stack : list frame) :
  utf8 s -> scan (InString []) stack (escape s +:+ quote +:+ rest) = scan (EndValue (JStr s)) stack rest.
Proof.
  intros Hs. rewrite string_part_escape by done. rewrite app_nil_r. unfold quote.
  change (String "034" "" +:+ rest) with (String "034" rest). cbn [scan scan_step].
  rewrite decide_True by done. by rewrite text_of_chars, unquote_escape.
Qed.

(** ** Numbers *)

(** What follows does not go on a number. *)
Definition delimited (rest : string) : Prop :=
  match rest with
  | EmptyString => True
  | String c _ => digit c = false /\ (c ∉ ["."; "e"; "E"]%char)
  end.

Lemma digit_dec (v : Z) : 0 <= v <= 9 -> digit (dec_char v) = true.
Proof. intros Hv. apply in_range_spec. rewrite dec_char_code by done. lia. Qed.

Lemma digit19_dec (v : Z) : 1 <= v <= 9 -> digit19 (dec_char v) = true.
Proof. intros Hv. apply in_range_spec. rewrite dec_char_code by lia. lia. Qed.

(** The digits of a positive number do not start with a zero. *)
Lemma print_nat_head (fuel : nat) (v : Z) (rest : string) :
  0 < v < 10 ^ Z.of_nat fuel ->
  exists d s, print_nat fuel v rest = String (dec_char d) (s +:+ rest) /\ 1 <= d <= 9 /\
    Forall (fun c => digit c = true) (chars s).
Proof.
  revert v rest. induction fuel as [|fuel IH]; intros v rest Hv; [cbn in Hv; lia|].
  rewrite Nat2Z.inj_succ, Z.pow_succ_r in Hv by lia. cbn [print_nat]. case_decide as Hz.
  - exists (v mod 10), ""%string. split_and!; [done|dmlia..|constructor].
  - destruct (IH (v / 10) (String (dec_char (v mod 10)) rest)) as (d & s & -> & Hd & Hs); [dmlia|].
    exists d, (s +:+ String (dec_char (v mod 10)) ""). split_and!; [by rewrite str_app_assoc|lia..|].
    rewrite chars_app.
    apply Forall_app. split; [done|]. constructor; [|constructor]. apply digit_dec. dmlia.
Qed.

Lemma scan_digits (s : string) (t : list ascii) (stack : list frame) (rest : string) :
  Forall (fun c => digit c = true) (chars s) ->
  scan (State1 t) stack (s +:+ rest) = scan (State1 (rev (chars s) ++ t)) stack rest.
Proof.
  revert t. induction s as [|c s IH]; intros t Hs; [done|]. apply Forall_cons in Hs as [Hc Hs].
  change (String c s +:+ rest) with (String c (s +:+ rest)). cbn [scan scan_step]. rewrite Hc, IH by done.
  cbn [String.list_ascii_of_string rev]. by rewrite <- app_assoc.
Qed.

Lemma number_ends (t : list ascii) (stack : list frame) (rest : string) (m : list ascii -> mode) :
  delimited rest -> m = State0 \/ m = State1 ->
  scan (m t) stack rest = scan (EndValue (JNumber (text_of t))) stack rest.
Proof.
  intros Hd Hm. assert (forall c, digit c = false -> (c ∉ ["."; "e"; "E"]%char) ->
    scan_step (m t) stack c = scan_step (EndValue (JNumber (text_of t))) stack c) as Hstep.
  { intros c Hc Hn. rewrite !not_elem_of_cons in Hn. destruct Hn as (H1 & H2 & H3 & _).
    destruct Hm as [-> | ->]; cbn [scan_step]; [|rewrite Hc]; unfold state_0, end_number;
      by rewrite !decide_False by tauto. }
  destruct rest as [|c rest]; cbn [scan].
  - rewrite Hstep; [done|by vm_compute|]. apply (bool_decide_unpack _). by vm_compute.
  - by rewrite Hstep by apply Hd.
Qed.

Lemma delimited_cons (c : ascii) (rest : string) : c ∈ [","; "]"; "}"; "010"]%char -> delimited (String c rest).
Proof.
  intros Hc. revert c Hc. assert (Forall (fun c => delimited (String c "")) [","; "]"; "}"; "010"]%char) as Hf.
  { repeat apply Forall_cons_2; try apply Forall_nil_2; (split; [done|]);
      apply (bool_decide_unpack _); by vm_compute. }
  rewrite Forall_forall in Hf. exact Hf.
Qed.

(** The modes a value can start in. *)
Definition starts (m : mode) : Prop := m = BeginValue \/ m = BeginValueOrEmpty.

Lemma scan_value (m : mode) (stack : list frame) (c : ascii) (s : string) :
  starts m -> is_space c = false -> c <> "]"%char ->
  scan m stack (String c s) = scan BeginValue stack (String c s).
Proof.
  intros [-> | ->] Hc Hb; [done|]. cbn [scan scan_step]. rewrite Hc. by rewrite decide_False by done.
Qed.

Lemma digit19_begins (c : ascii) (stack : list frame) :
  digit19 c = true -> stateBeginValue stack c = Next (State1 [c]) stack.
Proof.
  intros Hc. destruct c as [[] [] [] [] [] [] [] []]; first [reflexivity | by vm_compute in Hc].
Qed.

Lemma digit19_not (c : ascii) : digit19 c = true -> is_space c = false /\ c <> "]"%char /\ c <> "0"%char.
Proof.
  intros Hc. destruct c as [[] [] [] [] [] [] [] []]; first [by vm_compute | by vm_compute in Hc].
Qed.

Lemma scan_int (z : Z) (m : mode) (stack : list frame) (rest : string) :
  is_int64 z -> starts m -> delimited rest ->
  scan m stack (print_int z +:+ rest) = scan (EndValue (JInt z)) stack rest.
Proof.
  intros Hz Hm Hd. unfold is_int64 in Hz. destruct (decide (z = 0)) as [->|Hne].
  { change (print_int 0) with "0"%string. change ("0" +:+ rest) with (String "0" rest).
    rewrite scan_value by done. cbn [scan]. exact (number_ends ["0"%char] stack rest State0 Hd (or_introl eq_refl)). }
  assert (forall d s t, 1 <= d <= 9 -> Forall (fun c => digit c = true) (chars s) ->
    scan (State1 (dec_char d :: t)) stack (s +:+ rest) =
    scan (EndValue (JNumber (text_of (rev (chars (String (dec_char d) s)) ++ t)))) stack rest) as Hs.
  { intros d s t _ Hs. rewrite scan_digits by done.
    rewrite (number_ends _ stack rest State1) by auto. cbn [String.list_ascii_of_string rev].
    by rewrite <- app_assoc. }
  unfold print_int. case_decide as Hneg.
  - destruct (print_nat_head 19 (- z) "") as (d & s & E & Hdig & Hds); [lia|].
    rewrite E, str_app_nil_r. pose proof (digit19_not _ (digit19_dec d Hdig)) as (_ & _ & Hz0).
    change (("-" +:+ String (dec_char d) s) +:+ rest) with (String "-" (String (dec_char d) (s +:+ rest))).
    rewrite scan_value by done. cbn [scan]. cbn [scan_step].
    change (stateBeginValue stack "-") with (Next (Neg ["-"%char]) stack). cbn [scan scan_step].
    rewrite decide_False, digit19_dec, Hs by done.
    change ("-" +:+ String (dec_char d) s) with (String "-" (String (dec_char d) s)).
    f_equal. f_equal. f_equal. apply (text_of_chars (String "-" (String (dec_char d) s))).
  - destruct (print_nat_head 19 z "") as (d & s & E & Hdig & Hds); [lia|].
    rewrite E, str_app_nil_r. pose proof (digit19_not _ (digit19_dec d Hdig)) as (Hsp & Hbr & _).
    change (String (dec_char d) s +:+ rest) with (String (dec_char d) (s +:+ rest)).
    rewrite scan_value by done. cbn [scan scan_step]. rewrite digit19_begins by by apply digit19_dec.
    rewrite Hs by done. rewrite app_nil_r. by rewrite text_of_chars.
Qed.

(** ** Trees *)

(** A tree the printer's text of can be read: integers fit in 64 bits, strings are UTF-8,
    and no more than [n] arrays and objects are open at a time. *)
Fixpoint readable (n : nat) (j : json) : Prop :=
  match j with
  | JNull | JBool _ => True
  | JNumber text => exists z, is_int64 z /\ text = print_int z
  | JStr s => utf8 s
  | JArr l => match n with O => False | S n => Forall (readable n) l end
  | JObj ms => match n with O => False | S n => Forall (fun kv => utf8 kv.1 /\ readable n kv.2) ms end
  end.

(** The scanner reads what is printed for [j]. *)
Definition scans (j : json) (n : nat) : Prop :=
  forall m stack rest, starts m -> Z.of_nat (length stack + n) <= maxNestingDepth -> delimited rest ->
    scan m stack (print j +:+ rest) = scan (EndValue j) stack rest.

Lemma concat_more (s x : string) (l : list string) :
  String.concat "," (s :: x :: l) = s +:+ String "," (String.concat "," (x :: l)).
Proof. reflexivity. Qed.

Lemma scan_elements (n : nat) (l acc : list json) (m : mode) (stack : list frame) (rest : string) :
  Forall (fun j => scans j n) l -> l <> [] -> starts m ->
  Z.of_nat (S (length stack) + n) <= maxNestingDepth ->
  scan m (FArray acc :: stack) (String.concat "," (map print l) +:+ String "]" rest) =
  scan (EndValue (JArr (acc ++ l))) stack rest.
Proof.
  intros Hl Hne Hm Hd. revert acc m Hm Hne. induction Hl as [|j l Hj _ IH]; [done|]. intros acc m Hm _.
  destruct l as [|j' l].
  - cbn [map String.concat]. rewrite Hj by (done || by apply delimited_cons; set_solver). reflexivity.
  - cbn [map]. rewrite concat_more, str_app_assoc.
    match goal with |- context [String "," ?a +:+ ?b] => change (String "," a +:+ b) with (String "," (a +:+ b)) end.
    rewrite Hj by (done || by apply delimited_cons; set_solver). cbn [scan]. change (scan_step (EndValue j) (FArray acc :: stack) ",") with
      (Next BeginValue (FArray (acc ++ [j]) :: stack)). cbn iota.
    rewrite IH by (done || by left). by rewrite <- app_assoc.
Qed.

(** A key and its colon. *)
Lemma scan_key (k rest : string) (ms : list (string * json)) (m : mode) (stack : list frame) :
  utf8 k -> m = BeginString \/ m = BeginStringOrEmpty ->
  scan m (FKey ms :: stack) (print_string k +:+ String ":" rest) = scan BeginValue (FMember ms k :: stack) rest.
Proof.
  intros Hk Hm. unfold print_string. rewrite !str_app_assoc.
  change (quote +:+ ?t) with (String "034" t). 
  assert (forall t, scan m (FKey ms :: stack) (String "034" t) = scan (InString []) (FKey ms :: stack) t) as ->
    by (intros t; by destruct Hm as [-> | ->]).
  change (String "034" (String ":" rest)) with (quote +:+ String ":" rest). by rewrite scan_string.
Qed.

Definition print_member (kv : string * json) : string := print_string kv.1 +:+ ":" +:+ print kv.2.

Lemma scan_members (n : nat) (l acc : list (string * json)) (m : mode) (stack : list frame) (rest : string) :
  Forall (fun kv => utf8 kv.1 /\ scans kv.2 n) l -> l <> [] -> m = BeginString \/ m = BeginStringOrEmpty ->
  Z.of_nat (S (length stack) + n) <= maxNestingDepth ->
  scan m (FKey acc :: stack) (String.concat "," (map print_member l) +:+ String "}" rest) =
  scan (EndValue (JObj (acc ++ l))) stack rest.
Proof.
  intros Hl Hne Hm Hd. revert acc m Hm Hne. induction Hl as [|[k j] l [Hk Hj] _ IH]; [done|]. intros acc m Hm _.
  cbn [fst snd] in *. destruct l as [|kv l].
  - cbn [map String.concat]. unfold print_member. cbn [fst snd]. rewrite !str_app_assoc.
    change (":" +:+ ?t) with (String ":" t). rewrite scan_key by done. rewrite Hj; [reflexivity|by left|done|apply delimited_cons; set_solver].
  - cbn [map]. rewrite concat_more. unfold print_member at 1. cbn [fst snd]. rewrite !str_app_assoc.
    change (":" +:+ ?t) with (String ":" t). change (String "," ?a +:+ ?b) with (String "," (a +:+ b)).
    rewrite scan_key by done. rewrite Hj; [|by left|done|apply delimited_cons; set_solver]. cbn [scan].
    change (scan_step (EndValue j) (FMember acc k :: stack) ",") with
      (Next BeginString (FKey (acc ++ [(k, j)]) :: stack)). cbn iota.
    rewrite IH by (done || by left). by rewrite <- app_assoc.
Qed.

Lemma scans_leaf (n : nat) (j : json) :
  readable n j -> match j with JArr _ | JObj _ => False | _ => True end -> scans j n.
Proof.
  intros Hr Hj m stack rest Hm _ Hd. unfold starts in Hm. destruct j as [|b|t|s|l|ms]; try done.
  - by destruct Hm as [-> | ->].
  - by destruct b, Hm as [-> | ->].
  - assert (exists z, is_int64 z /\ t = print_int z) as (z & Hz & ->) by by destruct n. by apply scan_int.
  - cbn [print]. unfold print_string. rewrite !str_app_assoc.
    transitivity (scan (InString []) stack (escape s +:+ quote +:+ rest)); [by destruct Hm as [-> | ->]|].
    apply scan_string. by destruct n.
Qed.

(** An opening bracket. *)
Lemma scan_open (c : ascii) (f : frame) (m m' : mode) (stack : list frame) (s : string) (n : nat) :
  (c = "["%char /\ f = FArray [] /\ m' = BeginValueOrEmpty) \/ (c = "{"%char /\ f = FKey [] /\ m' = BeginStringOrEmpty) ->
  starts m -> Z.of_nat (length stack + S n) <= maxNestingDepth ->
  scan m stack (String c s) = scan m' (f :: stack) s.
Proof.
  intros Hc Hm Hn. assert (pushParseState f m' stack = Next m' (f :: stack)) as Hp
    by (unfold pushParseState; by rewrite decide_True by lia).
  destruct Hc as [(-> & -> & ->)|(-> & -> & ->)]; rewrite scan_value by done; cbn [scan scan_step].
  - change (stateBeginValue stack "[") with (pushParseState (FArray []) BeginValueOrEmpty stack). by rewrite Hp.
  - change (stateBeginValue stack "{") with (pushParseState (FKey []) BeginStringOrEmpty stack). by rewrite Hp.
Qed.

Lemma scan_print (n : nat) (j : json) : readable n j -> scans j n.
Proof.
  revert j. induction n as [|n IH]; intros j Hr.
  { destruct j as [|b|t|s|l|ms]; [by apply scans_leaf..|done|done]. }
  destruct j as [|b|t|s|l|ms]; [by apply scans_leaf..| |]; intros m stack rest Hm Hn Hd; cbn [readable] in Hr.
  - change (print (JArr l)) with (String "[" (String.concat "," (map print l) +:+ "]")).
    change (String ?c ?a +:+ ?b) with (String c (a +:+ b)). rewrite str_app_assoc.
    rewrite (scan_open _ (FArray []) _ BeginValueOrEmpty _ _ n) by (done || by left).
    destruct l as [|j l]; [reflexivity|].
    apply (scan_elements n (j :: l) []); [|done|by right|cbn [length] in *; lia].
    eapply Forall_impl; [exact Hr|apply IH].
  - change (print (JObj ms)) with (String "{" (String.concat "," (map print_member ms) +:+ "}")).
    change (String ?c ?a +:+ ?b) with (String c (a +:+ b)). rewrite str_app_assoc.
    rewrite (scan_open _ (FKey []) _ BeginStringOrEmpty _ _ n) by (done || by right).
    destruct ms as [|kv ms]; [reflexivity|].
    apply (scan_members n (kv :: ms) []); [|done|by right|cbn [length] in *; lia].
    eapply Forall_impl; [exact Hr|]. intros x [? ?]. auto.
Qed.

(** What is printed for a tree. *)
Definition printable_json (j : json) : Prop := exists n, Z.of_nat n <= maxNestingDepth /\ readable n j.

Lemma scan_printed (j : json) (rest : string) :
  printable_json j -> delimited rest -> scan BeginValue [] (print j +:+ rest) = scan (EndValue j) [] rest.
Proof.
  intros (n & Hn & Hj) Hd. by apply (scan_print n j Hj); [left| |].
Qed.

Lemma scan_end (j : json) (rest : string) : scan (EndValue j) [] rest = Some (j, rest).
Proof. by destruct rest. Qed.

Lemma scan_spaces (s : string) : all_space s = true -> scan BeginValue [] s = None.
Proof.
  unfold all_space. induction s as [|c s IH]; [reflexivity|]. cbn [String.list_ascii_of_string forallb].
  intros [Hc Hs]%andb_true_iff. cbn [scan scan_step]. unfold stateBeginValue. rewrite Hc. by apply IH.
Qed.

Lemma print_not_space (j : json) : printable_json j -> all_space (print j) = false.
Proof.
  intros Hj. destruct (all_space (print j)) eqn:E; [|done]. apply scan_spaces in E.
  pose proof (scan_printed j "" Hj I) as Hs. by rewrite str_app_nil_r, E, scan_end in Hs.
Qed.

(** What is printed is read back; spaces after it do not matter, and to [Decoder.Decode]
    nothing after it matters. *)
Lemma Unmarshal_printed (j : json) (rest : string) :
  printable_json j -> delimited rest -> all_space rest = true -> Unmarshal (print j +:+ rest) = Some j.
Proof.
  intros Hj Hd Hs. unfold Unmarshal. rewrite scan_printed, scan_end by done. cbn. by rewrite Hs.
Qed.

Lemma Decode_printed (j : json) (rest : string) :
  printable_json j -> delimited rest -> Decode (print j +:+ rest) = DOk j.
Proof.
  intros Hj Hd. unfold Decode. rewrite scan_printed, scan_end by done.
  pose proof (print_not_space j Hj) as Hs. unfold all_space in *. by rewrite chars_app, forallb_app, Hs.
Qed.

(** ** Text that is cut off *)

(** Inside an array or object, or just after the value. *)
Definition inside (m : mode) (stack : list frame) : Prop := stack <> [] \/ exists v, m = EndValue v.

Definition leads (o : outcome) : Prop :=
  match o with
  | Next m stack => inside m stack
  | Ended _ => False
  | Bad => True
  end.

(** Case analysis on what a step does. *)
Ltac leads_cases :=
  repeat match goal with
  | |- leads (if ?b then _ else _) => destruct b
  | |- leads (match ?x with _ => _ end) => destruct x
  | |- leads (Next _ (_ :: _)) => by left
  | |- leads (Next (EndValue _) _) => by right; eexists
  | |- leads Bad => exact I
  end.

Lemma end_leads (v : json) (f : frame) (stack : list frame) (c : ascii) :
  leads (stateEndValue v (f :: stack) c).
Proof. cbn [stateEndValue]. leads_cases. Qed.

Lemma begin_leads (f : frame) (stack : list frame) (c : ascii) : leads (stateBeginValue (f :: stack) c).
Proof. unfold stateBeginValue, pushParseState. leads_cases. Qed.

Lemma step_leads (m : mode) (f : frame) (stack : list frame) (c : ascii) : leads (scan_step m (f :: stack) c).
Proof.
  destruct m; cbn [scan_step]; unfold state_0, state_ESign, end_number; leads_cases;
    first [apply begin_leads | apply end_leads].
Qed.

(** Inside, a value ends only at the top. *)
Lemma step_inside (m : mode) (stack : list frame) (c : ascii) :
  inside m stack ->
  match scan_step m stack c with
  | Next m stack' => inside m stack'
  | Ended v => m = EndValue v /\ stack = []
  | Bad => True
  end.
Proof.
  destruct stack as [|f stack]; [by intros [?|[v ->]]|]. intros _.
  pose proof (step_leads m f stack c) as Hl. by destruct (scan_step m (f :: stack) c).
Qed.

(** What is read of a text is read of a longer one. *)
Lemma scan_longer (s t : string) (m : mode) (stack : list frame) (v : json) (rest : string) :
  inside m stack -> scan m stack s = Some (v, rest) -> scan m stack (s +:+ t) = Some (v, rest +:+ t).
Proof.
  revert m stack. induction s as [|c s IH]; intros m stack Hi Hs.
  - cbn [scan] in Hs. pose proof (step_inside m stack " " Hi) as He.
    destruct (scan_step m stack " ") as [m' stack'|w|]; [done| |done]. injection Hs as <- <-.
    destruct He as [-> ->]. apply scan_end.
  - change (String c s +:+ t) with (String c (s +:+ t)). cbn [scan] in Hs |- *.
    pose proof (step_inside m stack c Hi) as He.
    destruct (scan_step m stack c) as [m' stack'|w|]; [by apply IH| |done]. by injection Hs as <- <-.
Qed.

(** A proper prefix of a printed object is no JSON text. *)
Lemma Unmarshal_cut_off (ms : list (string * json)) (n : nat) :
  printable_json (JObj ms) -> (n < String.length (print (JObj ms)))%nat ->
  Unmarshal (str_take n (print (JObj ms))) = None.
Proof.
  intros Hj Hn. destruct (str_take_short n _ Hn) as (t & E & Ht). destruct n as [|n]; [reflexivity|].
  unfold Unmarshal. destruct (scan BeginValue [] _) as [[v rest]|] eqn:Es; [|done]. exfalso.
  pose proof (scan_printed (JObj ms) "" Hj I) as Hp. rewrite str_app_nil_r, scan_end, E in Hp.
  revert Es Hp. change (print (JObj ms)) with (String "{" (String.concat "," (map print_member ms) +:+ "}")).
  cbn [str_take]. set (s := str_take n _). change (String "{" s +:+ t) with (String "{" (s +:+ t)).
  change (scan BeginValue [] (String "{" s)) with (scan BeginStringOrEmpty [FKey []] s).
  change (scan BeginValue [] (String "{" (s +:+ t))) with (scan BeginStringOrEmpty [FKey []] (s +:+ t)).
  intros Es. rewrite (scan_longer s t _ _ v rest); [|by left|done]. intros [= _ Hr].
  destruct rest; [|done]. by apply Ht.
Qed.
