(* ===== verification/Sql.v ===== *)
(** * SQL tables

    The statements the store issues, over a table represented as the list of its
    rows in insertion order: [SELECT], [COUNT], [SUM], [UPDATE], [DELETE] and
    [ORDER BY], with a [WHERE] clause as a decidable predicate on rows. *)

From S2P Require Import Prelude.

Section tables.
Context {A : Type}.
Implicit Types (t : list A) (x y : A).

(** [SELECT ... WHERE P] read with [QueryRow]: the first row, if any. *)
Definition sql_first (P : A -> Prop) `{!forall x, Decision (P x)} t : option A :=
  head (filter P t).

(** [SELECT COUNT( * ) ... WHERE P], also the number of rows affected. *)
Definition sql_count (P : A -> Prop) `{!forall x, Decision (P x)} t : Z :=
  Z.of_nat (length (filter P t)).

(** [UPDATE ... SET f WHERE P]. *)
Definition sql_update (P : A -> Prop) `{!forall x, Decision (P x)} (f : A -> A) t
  : list A :=
  (fun x => if decide (P x) then f x else x) <$> t.

(** [DELETE ... WHERE P]. *)
Definition sql_delete (P : A -> Prop) `{!forall x, Decision (P x)} t : list A :=
  filter (fun x => ~ P x) t.

(** [COALESCE(SUM(f), 0)] over already selected rows. *)
Definition sql_sum (f : A -> Z) t : Z := sumZ (f <$> t).

(** [INSERT], refused when a row clashes on a primary key or unique column. *)
Definition sql_insert (clash : A -> Prop) `{!forall x, Decision (clash x)} x t
  : option (list A) :=
  if decide (Exists clash t) then None else Some (t ++ [x]).

Lemma elem_of_sql_update (P : A -> Prop) `{!forall x, Decision (P x)} f t y :
  y ∈ sql_update P f t <->
  exists x, x ∈ t /\ y = if decide (P x) then f x else x.
Proof. unfold sql_update. rewrite list_elem_of_fmap. split; intros (x & ? & ?); eauto. Qed.

Lemma elem_of_sql_delete (P : A -> Prop) `{!forall x, Decision (P x)} t y :
  y ∈ sql_delete P t <-> ~ P y /\ y ∈ t.
Proof. unfold sql_delete. by rewrite list_elem_of_filter. Qed.

Lemma sql_first_Some (P : A -> Prop) `{!forall x, Decision (P x)} t x :
  sql_first P t = Some x -> x ∈ t /\ P x.
Proof.
  unfold sql_first. intros Hh.
  assert (x ∈ filter P t) as Hx by (destruct (filter P t); simplify_eq/=; left).
  by apply list_elem_of_filter in Hx as [??].
Qed.

Lemma sql_first_None (P : A -> Prop) `{!forall x, Decision (P x)} t :
  sql_first P t = None <-> Forall (fun x => ~ P x) t.
Proof.
  unfold sql_first. rewrite Forall_forall. split.
  - intros Hh x Hx HP. apply head_None in Hh.
    apply (not_elem_of_nil x). rewrite <- Hh. by apply list_elem_of_filter.
  - intros HF. apply head_None. destruct (filter P t) as [|x l] eqn:E; [done|].
    assert (x ∈ filter P t) as Hx by (rewrite E; left).
    apply list_elem_of_filter in Hx as [HP Hx]. by destruct (HF x).
Qed.

Lemma sql_count_pos (P : A -> Prop) `{!forall x, Decision (P x)} t :
  (0 < sql_count P t)%Z <-> exists x, x ∈ t /\ P x.
Proof.
  unfold sql_count. split.
  - intros Hp. destruct (filter P t) as [|x l] eqn:E; [simpl in Hp; lia|].
    assert (x ∈ filter P t) as Hx by (rewrite E; left).
    apply list_elem_of_filter in Hx as [??]. eauto.
  - intros (x & Hx & HP).
    assert (x ∈ filter P t) as Hf by by apply list_elem_of_filter.
    destruct (filter P t); [by apply not_elem_of_nil in Hf|simpl; lia].
Qed.

Lemma sql_count_zero (P : A -> Prop) `{!forall x, Decision (P x)} t :
  sql_count P t = 0%Z <-> Forall (fun x => ~ P x) t.
Proof.
  pose proof (sql_count_pos P t) as Hp. rewrite Forall_forall.
  assert (0 <= sql_count P t)%Z by (unfold sql_count; lia).
  split; [|intros HF; destruct (decide (sql_count P t = 0%Z)) as [|Hn]; [done|]].
  - intros Hz x Hx HP. assert (0 < sql_count P t)%Z by (apply Hp; eauto). lia.
  - assert (0 < sql_count P t)%Z as Hx by lia. apply Hp in Hx as (x&?&?).
    by destruct (HF x).
Qed.

Lemma sql_update_fmap {K} (k : A -> K) (P : A -> Prop) `{!forall x, Decision (P x)}
    (f : A -> A) t :
  (forall x, P x -> k (f x) = k x) -> k <$> sql_update P f t = k <$> t.
Proof.
  intros Hyp. unfold sql_update. rewrite <- list_fmap_compose.
  apply list_fmap_ext. intros i x _. simpl. case_decide; auto.
Qed.

(** An update that leaves the selected rows unchanged is the identity. *)
Lemma sql_update_id (P : A -> Prop) `{!forall x, Decision (P x)} (f : A -> A) t :
  (forall x, x ∈ t -> P x -> f x = x) -> sql_update P f t = t.
Proof.
  intros Hyp. unfold sql_update. rewrite <- (list_fmap_id t) at 2.
  apply list_fmap_ext. intros i x Hx. simpl. case_decide; [|done].
  apply Hyp; [|done]. by eapply list_elem_of_lookup_2.
Qed.

Lemma sql_update_Forall (P Q : A -> Prop) `{!forall x, Decision (P x)} (f : A -> A) t :
  Forall Q t -> (forall x, Q x -> P x -> Q (f x)) -> Forall Q (sql_update P f t).
Proof.
  rewrite !Forall_forall. intros HQ Hf y [x [Hx ->]]%elem_of_sql_update.
  case_decide; auto.
Qed.

Lemma sql_delete_Forall (P Q : A -> Prop) `{!forall x, Decision (P x)} t :
  Forall Q t -> Forall Q (sql_delete P t).
Proof.
  rewrite !Forall_forall. intros HQ y [_ Hy]%elem_of_sql_delete. auto.
Qed.

Lemma sql_delete_sublist (P : A -> Prop) `{!forall x, Decision (P x)} t :
  sublist (sql_delete P t) t.
Proof.
  unfold sql_delete. induction t as [|x t IH]; [constructor|].
  rewrite filter_cons. case_decide; by constructor.
Qed.

Lemma sql_delete_NoDup {K} (k : A -> K) (P : A -> Prop) `{!forall x, Decision (P x)} t :
  NoDup (k <$> t) -> NoDup (k <$> sql_delete P t).
Proof.
  intros Hyp. eapply sublist_NoDup; [exact Hyp|].
  apply fmap_sublist, sql_delete_sublist.
Qed.

Lemma sql_insert_Some (clash : A -> Prop) `{!forall x, Decision (clash x)} x t t' :
  sql_insert clash x t = Some t' <->
  t' = t ++ [x] /\ Forall (fun y => ~ clash y) t.
Proof.
  unfold sql_insert. rewrite Forall_Exists_neg.
  split.
  - case_decide; intros; simplify_eq; done.
  - intros [-> Hyp]. by rewrite decide_False.
Qed.

(** A lookup by key finds the row when keys are pairwise distinct. *)
Lemma filter_key {K} `{!EqDecision K} (k : A -> K) t x :
  NoDup (k <$> t) -> x ∈ t -> filter (fun y => k y = k x) t = [x].
Proof.
  induction t as [|y t IH]; intros Hnd Hx; [by apply not_elem_of_nil in Hx|].
  rewrite fmap_cons, NoDup_cons in Hnd. destruct Hnd as [Hy Hnd].
  rewrite filter_cons. apply elem_of_cons in Hx as [->|Hx].
  - rewrite decide_True by done. f_equal.
    apply elem_of_nil_inv. intros z [Hk Hz]%list_elem_of_filter. apply Hy.
    rewrite <- Hk. by apply list_elem_of_fmap_2.
  - rewrite decide_False; [by apply IH|].
    intros Hk. apply Hy. rewrite Hk. by apply list_elem_of_fmap_2.
Qed.

Lemma sql_first_key {K} `{!EqDecision K} (k : A -> K) t x :
  NoDup (k <$> t) -> x ∈ t -> sql_first (fun y => k y = k x) t = Some x.
Proof. intros. unfold sql_first. by rewrite filter_key. Qed.

Lemma sql_count_le_one {K} (k : A -> K) (i : K) (P : A -> Prop)
    `{!forall x, Decision (P x)} t :
  NoDup (k <$> t) -> (forall x, P x -> k x = i) ->
  sql_count P t = 0%Z \/ sql_count P t = 1%Z.
Proof.
  intros Hnd HP. unfold sql_count.
  assert (NoDup (filter P t)) as Hf.
  { apply NoDup_filter. by eapply NoDup_fmap_1. }
  destruct (filter P t) as [|x [|y l]] eqn:E; [auto|auto|exfalso].
  assert (x ∈ filter P t /\ y ∈ filter P t) as [Hx Hy].
  { rewrite E. split; repeat constructor. }
  apply list_elem_of_filter in Hx as [HPx Hx], Hy as [HPy Hy].
  assert (x = y) as ->.
  { eapply NoDup_fmap_inj; eauto. by rewrite (HP x), (HP y). }
  apply NoDup_cons in Hf as [Hn _]. apply Hn. left.
Qed.

Lemma sql_sum_cons (f : A -> Z) x t : sql_sum f (x :: t) = (f x + sql_sum f t)%Z.
Proof. done. Qed.

Lemma sql_sum_app (f : A -> Z) t t' :
  sql_sum f (t ++ t') = (sql_sum f t + sql_sum f t')%Z.
Proof. unfold sql_sum. by rewrite fmap_app, sumZ_app. Qed.

Lemma sql_sum_nonneg (f : A -> Z) t :
  (forall x, 0 <= f x)%Z -> (0 <= sql_sum f t)%Z.
Proof. intros Hyp. apply sumZ_nonneg, Forall_fmap, Forall_true. done. Qed.

(** Deleting rows can only lower a sum of non-negative values. *)
Lemma sql_sum_sublist (f : A -> Z) t t' :
  (forall x, 0 <= f x)%Z -> sublist t t' -> (sql_sum f t <= sql_sum f t')%Z.
Proof.
  intros Hf. induction 1 as [|x t t' _ IH|x t t' _ IH];
    rewrite ?sql_sum_cons; [done|lia|]. specialize (Hf x). lia.
Qed.
End tables.

(** [INSERT] keeps a unique column unique. *)
Lemma sql_insert_NoDup {A K : Type} (k : A -> K) (x : A) (t : list A) :
  NoDup (k <$> t) -> Forall (fun y => k y <> k x) t -> NoDup (k <$> (t ++ [x])).
Proof.
  intros Hnd HF. rewrite fmap_app. apply NoDup_app. split; [done|].
  split; [|apply NoDup_singleton].
  intros z Hz Hz'. apply list_elem_of_singleton in Hz' as ->.
  apply list_elem_of_fmap in Hz as (y & Hk & Hy).
  rewrite Forall_forall in HF. by apply (HF y).
Qed.

(** [ORDER BY]: the rows sorted by a total preorder. *)
Definition sql_order {A} (R : relation A) `{!RelDecision R} (t : list A) : list A :=
  merge_sort R t.

Lemma sql_order_Permutation {A} (R : relation A) `{!RelDecision R} (t : list A) :
  sql_order R t ≡ₚ t.
Proof. apply merge_sort_Permutation. Qed.

Lemma elem_of_sql_order {A} (R : relation A) `{!RelDecision R} (t : list A) (x : A) :
  x ∈ sql_order R t <-> x ∈ t.
Proof. by rewrite sql_order_Permutation. Qed.

(** Rows already in increasing order of a key are left alone by [ORDER BY] it. *)
Lemma StronglySorted_key {A} (k : A -> Z) (t : list A) :
  StronglySorted Z.lt (k <$> t) -> StronglySorted (fun x y => k x < k y)%Z t.
Proof.
  induction t as [|x t IH]; intros Hs; [constructor|].
  apply StronglySorted_inv in Hs as [Hs HF]. constructor; [by apply IH|].
  apply (Forall_fmap k) in HF. exact HF.
Qed.

Lemma sql_order_sorted {A} (k : A -> Z) (R : relation A) `{!RelDecision R} (t : list A) :
  (forall x y, R x y <-> k x <= k y)%Z ->
  StronglySorted Z.lt (k <$> t) -> sql_order R t = t.
Proof.
  intros HR Hs. apply StronglySorted_key in Hs.
  apply (StronglySorted_unique_strong R).
  - intros x y Hx Hy Hxy Hyx. rewrite elem_of_sql_order in Hx.
    assert (k x = k y) as Hk by (apply HR in Hxy, Hyx; lia). clear Hxy Hyx.
    induction Hs as [|z t Hs IH HF]; [by apply not_elem_of_nil in Hx|].
    rewrite Forall_forall in HF. apply elem_of_cons in Hx as [->|Hx], Hy as [->|Hy];
      [done| | |by apply IH]; [apply HF in Hy|apply HF in Hx]; lia.
  - apply StronglySorted_merge_sort.
    + intros x y z. rewrite !HR. lia.
    + intros x y. rewrite !HR. lia.
  - clear -HR Hs. induction Hs as [|x t Hs IH HF]; constructor; [done|].
    eapply Forall_impl; [exact HF|]. intros y Hxy. apply HR. simpl in *. lia.
  - apply sql_order_Permutation.
Qed.
