(* ===== verification/Schema.v ===== *)
(** * The database schema of [internal/store]

    The rows of the seven tables of the SQLite schema, the database as their
    product, the sentinel errors of the package, and the integrity constraints
    ([PRIMARY KEY], [UNIQUE], [REFERENCES]) the schema declares. Times are stored
    as RFC3339 UTC text at second precision; a column holds the number of seconds
    since the Unix epoch it denotes, in the order the text has ([Clock]). *)

From S2P Require Import Prelude Sql.

(** ** Constants *)

Definition AdminModeFlat : string := "flat".
Definition AdminModeManaged : string := "managed".
Definition RoleAdmin : string := "admin".
Definition RoleMember : string := "member".

(** The size of an Ed25519 public key. *)
Definition PublicKeySize : nat := 32.

(** ** Errors *)

(** The error values the package returns: its sentinels, [sql.ErrNoRows], a
    constraint the database enforces, any other failure of the driver, a failure
    of the random source, and a formatted message. *)
Inductive error : Type :=
  | ErrInvalidInvitation
  | ErrDeviceNotFound
  | ErrQueueNotFound
  | ErrQuotaExceeded
  | ErrBundleNotFound
  | ErrQuotaNotChanged
  | ErrNotAdmin
  | ErrLastAdmin
  | ErrRoleChangeNotApplicable
  | ErrStatementTooLarge
  | ErrNoRows
  | ErrConstraint
  | ErrDriver
  | ErrRand
  | Errorf (msg : string).

#[export] Instance error_eq_dec : EqDecision error.
Proof. solve_decision. Defined.

(** ** Rows *)

Record Account := mkAccount {
  a_id : string;
  a_created : Z;
  a_quota : string;
  a_status : string;
  a_quota_bytes : Z;
  a_admin_mode : string;
}.

Record InvitationRow := mkInvitationRow {
  i_token_hash : string;
  i_id : string;
  i_account_id : string;
  i_created : Z;
  i_expires : Z;
  i_consumed : bool;
  i_revoked : bool;
  i_grants_role : string;
}.

Record Device := mkDevice {
  d_id : string;
  d_account_id : string;
  d_public_key : bytes;
  d_push_endpoint : string;
  d_capabilities : string;
  d_created : Z;
  d_last_seen : Z;
  d_revoked : bool;
  d_role : string;
  d_quota_bytes : Z;
}.

Record Queue := mkQueue {
  q_recipient_id : string;
  q_sender_id : string;
  q_owner_device : string;
  q_recipient_key : bytes;
  q_sender_key : option bytes;
  q_created : Z;
  q_retired : bool;
  q_quota_bytes : Z;
}.

Record MessageRow := mkMessageRow {
  m_seq : Z;
  m_id : string;
  m_queue_id : string;
  m_payload : bytes;
  m_received_at : Z;
  m_expires : Z;
}.

Record Bundle := mkBundle {
  b_device_id : string;
  b_blob : bytes;
  b_updated : Z;
}.

Record StatementRow := mkStatementRow {
  s_account_id : string;
  s_seq : Z;
  s_blob : bytes;
  s_created : Z;
}.

#[export] Instance account_eq_dec : EqDecision Account.
Proof. solve_decision. Defined.
#[export] Instance invitation_row_eq_dec : EqDecision InvitationRow.
Proof. solve_decision. Defined.
#[export] Instance device_eq_dec : EqDecision Device.
Proof. solve_decision. Defined.
#[export] Instance queue_eq_dec : EqDecision Queue.
Proof. solve_decision. Defined.
#[export] Instance message_row_eq_dec : EqDecision MessageRow.
Proof. solve_decision. Defined.
#[export] Instance bundle_eq_dec : EqDecision Bundle.
Proof. solve_decision. Defined.
#[export] Instance statement_row_eq_dec : EqDecision StatementRow.
Proof. solve_decision. Defined.

(** ** The database *)

(** The tables, and the counter SQLite keeps for the [AUTOINCREMENT] column
    [messages.seq] (the largest value ever assigned). *)
Record DB := mkDB {
  accounts : list Account;
  invitations : list InvitationRow;
  devices : list Device;
  queues : list Queue;
  messages : list MessageRow;
  bundles : list Bundle;
  statements : list StatementRow;
  messages_seq : Z;
}.

(** The database [migrate] leaves when it creates every table. *)
Definition empty_db : DB := mkDB [] [] [] [] [] [] [] 0.

(** Replace one table. *)
Definition set_accounts (t : list Account) (db : DB) : DB :=
  mkDB t db.(invitations) db.(devices) db.(queues) db.(messages) db.(bundles)
    db.(statements) db.(messages_seq).
Definition set_invitations (t : list InvitationRow) (db : DB) : DB :=
  mkDB db.(accounts) t db.(devices) db.(queues) db.(messages) db.(bundles)
    db.(statements) db.(messages_seq).
Definition set_devices (t : list Device) (db : DB) : DB :=
  mkDB db.(accounts) db.(invitations) t db.(queues) db.(messages) db.(bundles)
    db.(statements) db.(messages_seq).
Definition set_queues (t : list Queue) (db : DB) : DB :=
  mkDB db.(accounts) db.(invitations) db.(devices) t db.(messages) db.(bundles)
    db.(statements) db.(messages_seq).
Definition set_messages (t : list MessageRow) (db : DB) : DB :=
  mkDB db.(accounts) db.(invitations) db.(devices) db.(queues) t db.(bundles)
    db.(statements) db.(messages_seq).
Definition set_bundles (t : list Bundle) (db : DB) : DB :=
  mkDB db.(accounts) db.(invitations) db.(devices) db.(queues) db.(messages) t
    db.(statements) db.(messages_seq).
Definition set_statements (t : list StatementRow) (db : DB) : DB :=
  mkDB db.(accounts) db.(invitations) db.(devices) db.(queues) db.(messages)
    db.(bundles) t db.(messages_seq).
Definition set_messages_seq (n : Z) (db : DB) : DB :=
  mkDB db.(accounts) db.(invitations) db.(devices) db.(queues) db.(messages)
    db.(bundles) db.(statements) n.

(** ** Integrity constraints *)

(** The declared constraints, and the two facts SQLite guarantees of an
    [AUTOINCREMENT] column: rows are in [seq] order and below the counter. *)
Record integrity (db : DB) : Prop := mkIntegrity {
  pk_accounts : NoDup (a_id <$> db.(accounts));
  pk_invitations : NoDup (i_token_hash <$> db.(invitations));
  pk_devices : NoDup (d_id <$> db.(devices));
  pk_queues : NoDup (q_recipient_id <$> db.(queues));
  uq_queues_sender : NoDup (q_sender_id <$> db.(queues));
  uq_messages_id : NoDup (m_id <$> db.(messages));
  pk_bundles : NoDup (b_device_id <$> db.(bundles));
  pk_statements : NoDup ((fun s => (s_account_id s, s_seq s)) <$> db.(statements));
  fk_invitations : Forall (fun i => i_account_id i ∈ a_id <$> db.(accounts)) db.(invitations);
  fk_devices : Forall (fun d => d_account_id d ∈ a_id <$> db.(accounts)) db.(devices);
  fk_queues : Forall (fun q => q_owner_device q ∈ d_id <$> db.(devices)) db.(queues);
  fk_messages : Forall (fun m => m_queue_id m ∈ q_recipient_id <$> db.(queues)) db.(messages);
  fk_bundles : Forall (fun b => b_device_id b ∈ d_id <$> db.(devices)) db.(bundles);
  fk_statements : Forall (fun s => s_account_id s ∈ a_id <$> db.(accounts)) db.(statements);
  seq_sorted : StronglySorted Z.lt (m_seq <$> db.(messages));
  seq_bound : Forall (fun m => m_seq m <= db.(messages_seq))%Z db.(messages);
}.
