(* ===== verification/Migrate.v ===== *)
(** * Opening a database file: schema and migration ([internal/store/store.go])

    The catalog of the SQLite file as data - its tables with their columns and rows,
    and its indexes - the statements that change it, and [migrate], which creates what
    is missing, adds the columns that came later and drops the one that went. *)

From S2P Require Import Prelude Encoding Schema.

(** ** The catalog *)

Inductive coltype : Type := TEXT | INTEGER | BLOB.

(** A stored value. *)
Inductive sqlval : Type :=
  | VNull
  | VText (s : string)
  | VInt (z : Z)
  | VBlob (b : bytes).

(** A column definition; [VNull] is no default. *)
Record column := mkColumn {
  col_name : string;
  col_type : coltype;
  col_notnull : bool;
  col_default : sqlval;
}.

(** A row by column name. *)
Abbreviation row := (gmap string sqlval).

Record table := mkTable { t_columns : list column; t_rows : list row }.

(** Tables by name, and indexes by name with the table and columns they cover. *)
Record catalog := mkCatalog {
  c_tables : gmap string table;
  c_indexes : gmap string (string * list string);
}.

#[export] Instance coltype_eq_dec : EqDecision coltype.
Proof. solve_decision. Defined.
#[export] Instance sqlval_eq_dec : EqDecision sqlval.
Proof. solve_decision. Defined.
#[export] Instance column_eq_dec : EqDecision column.
Proof. solve_decision. Defined.

Definition no_catalog : catalog := mkCatalog ∅ ∅.

Definition column_names (t : table) : list string := col_name <$> t_columns t.

Definition with_table (name : string) (t : table) (cat : catalog) : catalog :=
  mkCatalog (<[name := t]> (c_tables cat)) (c_indexes cat).

(** ** Statements *)

Inductive ddl : Type :=
  | CreateTable (name : string) (cols : list column)
  | CreateIndex (name tbl : string) (cols : list string)
  | AddColumn (tbl : string) (col : column)
  | DropColumn (tbl name : string).

(** [ALTER TABLE ... ADD COLUMN]: the rows take the default. *)
Definition add_column (col : column) (t : table) : table :=
  mkTable (t_columns t ++ [col]) (insert (col_name col) (col_default col) <$> t_rows t).

Definition drop_column (name : string) (t : table) : table :=
  mkTable (filter (fun c => col_name c <> name) (t_columns t)) (delete name <$> t_rows t).

(** Some index covers the column. *)
Definition indexed (tbl name : string) (cat : catalog) : Prop :=
  map_Exists (fun _ ix => ix.1 = tbl /\ name ∈ ix.2) (c_indexes cat).

(** One statement, or the error SQLite answers it with. The tables and indexes are
    created [IF NOT EXISTS]; a column that may not be null needs a default to be added;
    an indexed column is not dropped. *)
Definition exec_ddl (s : ddl) (cat : catalog) : option catalog :=
  match s with
  | CreateTable name cols =>
      match c_tables cat !! name with
      | Some _ => Some cat
      | None => Some (with_table name (mkTable cols []) cat)
      end
  | CreateIndex name tbl cols =>
      match c_indexes cat !! name, c_tables cat !! tbl with
      | Some _, _ => Some cat
      | None, Some t =>
          if decide (Forall (fun c => c ∈ column_names t) cols)
          then Some (mkCatalog (c_tables cat) (<[name := (tbl, cols)]> (c_indexes cat))) else None
      | None, None => None
      end
  | AddColumn tbl col =>
      t ← c_tables cat !! tbl;
      if decide (col_name col ∈ column_names t) then None else
      if decide (col_notnull col = true /\ col_default col = VNull) then None else
      Some (with_table tbl (add_column col t) cat)
  | DropColumn tbl name =>
      t ← c_tables cat !! tbl;
      if decide (name ∈ column_names t /\ ~ indexed tbl name cat)
      then Some (with_table tbl (drop_column name t) cat) else None
  end.

(** ** Running statements *)

(** A computation over the catalog and a schedule of driver failures. *)
Definition Mig (A : Type) : Type := catalog * list bool -> (error + A) * (catalog * list bool).

#[export] Instance Mig_ret : MRet Mig := fun A a s => (inr a, s).
#[export] Instance Mig_bind : MBind Mig := fun A B k m s =>
  match m s with
  | (inl e, s') => (inl e, s')
  | (inr a, s') => k a s'
  end.

(** One call of the driver: it may fail, and otherwise is [f]. *)
Definition drive {A} (f : catalog -> (error + A) * catalog) : Mig A := fun s =>
  match s.2 with
  | true :: fs => (inl ErrDriver, (s.1, fs))
  | fs => let '(r, cat) := f s.1 in (r, (cat, tail fs))
  end.

(** [db.Exec] of one statement. *)
Definition exec_stmt (s : ddl) : Mig unit := drive (fun cat =>
  match exec_ddl s cat with
  | Some cat' => (inr tt, cat')
  | None => (inl ErrConstraint, cat)
  end).

(** [db.Exec] of several: one after the other, each on its own, until one fails. *)
Fixpoint exec_script (l : list ddl) : Mig unit :=
  match l with
  | [] => mret tt
  | s :: l => _ ← exec_stmt s; exec_script l
  end.

(** The names [PRAGMA table_info] lists; none for a table that is not there. *)
Definition table_info (tbl : string) (cat : catalog) : list string :=
  match c_tables cat !! tbl with Some t => column_names t | None => [] end.

Definition hasColumn (tbl name : string) : Mig bool :=
  drive (fun cat => (inr (bool_decide (name ∈ table_info tbl cat)), cat)).

Definition ensureColumn (tbl : string) (col : column) : Mig unit :=
  has ← hasColumn tbl (col_name col);
  if has : bool then mret tt else exec_stmt (AddColumn tbl col).

Definition dropColumn (tbl name : string) : Mig unit :=
  has ← hasColumn tbl name;
  if has : bool then exec_stmt (DropColumn tbl name) else mret tt.

(** ** The schema *)

(** [TEXT PRIMARY KEY], and columns that may not be null, with and without default. *)
Definition key (name : string) : column := mkColumn name TEXT false VNull.
Definition text (name : string) : column := mkColumn name TEXT true VNull.
Definition text_or (name d : string) : column := mkColumn name TEXT true (VText d).
Definition int (name : string) : column := mkColumn name INTEGER true VNull.
Definition int_or (name : string) (d : Z) : column := mkColumn name INTEGER true (VInt d).
Definition blob (name : string) : column := mkColumn name BLOB true VNull.

Definition accounts_columns : list column :=
  [key "id"; text "created"; text "quota"; text_or "status" "active"; int_or "quota_bytes" 0;
   text_or "admin_mode" "flat"].
Definition invitations_columns : list column :=
  [key "token_hash"; text_or "id" ""; text "account_id"; text "created"; text "expires";
   int_or "consumed" 0; int_or "revoked" 0; text_or "grants_role" "member"].
Definition devices_columns : list column :=
  [key "id"; text "account_id"; blob "public_key"; text_or "push_endpoint" "";
   text_or "capabilities" ""; text "created"; text "last_seen"; int_or "revoked" 0;
   int_or "quota_bytes" 0; text_or "role" "admin"].
Definition queues_columns : list column :=
  [key "recipient_id"; text "sender_id"; text "owner_device"; blob "recipient_key";
   mkColumn "sender_key" BLOB false VNull; text "created"; int_or "retired" 0; int_or "quota_bytes" 0].
Definition messages_columns : list column :=
  [mkColumn "seq" INTEGER false VNull; text "id"; text "queue_id"; blob "payload";
   text "received_at"; text "expires"].
Definition bundles_columns : list column := [key "device_id"; blob "blob"; text "updated"].
Definition statements_columns : list column :=
  [text "account_id"; int "seq"; blob "blob"; text "created"].

(** The script [schema]. Keys, uniqueness and references are [Schema.integrity]. *)
Definition schema : list ddl := [
  CreateTable "accounts" accounts_columns;
  CreateTable "invitations" invitations_columns;
  CreateIndex "idx_invitations_account" "invitations" ["account_id"];
  CreateTable "devices" devices_columns;
  CreateIndex "idx_devices_account" "devices" ["account_id"];
  CreateTable "queues" queues_columns;
  CreateIndex "idx_queues_sender" "queues" ["sender_id"];
  CreateIndex "idx_queues_owner" "queues" ["owner_device"];
  CreateTable "messages" messages_columns;
  CreateIndex "idx_messages_queue" "messages" ["queue_id"];
  CreateTable "bundles" bundles_columns;
  CreateTable "statements" statements_columns ]%string.

Definition migrate : Mig unit :=
  _ ← exec_script schema;
  _ ← ensureColumn "accounts" (int_or "quota_bytes" 0);
  _ ← ensureColumn "invitations" (text_or "id" "");
  _ ← ensureColumn "invitations" (int_or "revoked" 0);
  _ ← exec_stmt (CreateIndex "idx_invitations_id" "invitations" ["id"%string]);
  _ ← ensureColumn "accounts" (text_or "admin_mode" "flat");
  _ ← ensureColumn "devices" (text_or "role" "admin");
  _ ← ensureColumn "invitations" (text_or "grants_role" "member");
  _ ← ensureColumn "devices" (int_or "quota_bytes" 0);
  _ ← ensureColumn "queues" (int_or "quota_bytes" 0);
  dropColumn "messages" "status".
