(* ===== verification/Restart.v ===== *)
(** * Running the migration again

    [migrate] as a list of guarded statements: it may be interrupted at any of them and
    run again, and it leaves a current database alone. *)

From S2P Require Import Prelude Encoding Schema Migrate.

(** ** The migration as a list of guarded statements *)

(** Whether a statement is looked at first, as [ensureColumn] and [dropColumn] do, or
    carries its own [IF NOT EXISTS]. *)
Inductive item : Type := Plain (s : ddl) | Checked (s : ddl).

Definition item_ddl (i : item) : ddl := match i with Plain s | Checked s => s end.

Definition run_item (i : item) : Mig unit :=
  match i with
  | Plain s => exec_stmt s
  | Checked (AddColumn tbl col) => ensureColumn tbl col
  | Checked (DropColumn tbl name) => dropColumn tbl name
  | Checked s => exec_stmt s
  end.

Fixpoint run_items (l : list item) : Mig unit :=
  match l with
  | [] => mret tt
  | i :: l => _ ← run_item i; run_items l
  end.

Definition items : list item := (Plain <$> schema) ++ [
  Checked (AddColumn "accounts" (int_or "quota_bytes" 0));
  Checked (AddColumn "invitations" (text_or "id" ""));
  Checked (AddColumn "invitations" (int_or "revoked" 0));
  Plain (CreateIndex "idx_invitations_id" "invitations" ["id"%string]);
  Checked (AddColumn "accounts" (text_or "admin_mode" "flat"));
  Checked (AddColumn "devices" (text_or "role" "admin"));
  Checked (AddColumn "invitations" (text_or "grants_role" "member"));
  Checked (AddColumn "devices" (int_or "quota_bytes" 0));
  Checked (AddColumn "queues" (int_or "quota_bytes" 0));
  Checked (DropColumn "messages" "status") ]%string.

Lemma mig_bind_assoc {A B C} (m : Mig A) (f : A -> Mig B) (g : B -> Mig C) (s : catalog * list bool) :
  ((m ≫= f) ≫= g) s = (m ≫= (fun a => f a ≫= g)) s.
Proof. unfold mbind, Mig_bind. by destruct (m s) as [[e|a] s']. Qed.

Lemma mig_bind_ext {A B} (m : Mig A) (f g : A -> Mig B) (s : catalog * list bool) :
  (forall a s', f a s' = g a s') -> (m ≫= f) s = (m ≫= g) s.
Proof. intros E. unfold mbind, Mig_bind. by destruct (m s) as [[e|a] s']. Qed.

Lemma mig_bind_ext_l {A B} (m m' : Mig A) (f : A -> Mig B) (s : catalog * list bool) :
  m s = m' s -> (m ≫= f) s = (m' ≫= f) s.
Proof. intros E. unfold mbind, Mig_bind. by rewrite E. Qed.

Lemma mig_bind_ret_r (m : Mig unit) (s : catalog * list bool) : (m ≫= (fun _ => mret tt)) s = m s.
Proof. unfold mbind, Mig_bind. by destruct (m s) as [[e|[]] s']. Qed.

Lemma run_items_app (l l' : list item) (s : catalog * list bool) :
  run_items (l ++ l') s = (_ ← run_items l; run_items l') s.
Proof.
  revert s. induction l as [|i l IH]; intros s; [done|]. cbn [run_items app].
  rewrite mig_bind_assoc. by apply mig_bind_ext.
Qed.

Lemma exec_script_items (l : list ddl) (s : catalog * list bool) :
  exec_script l s = run_items (Plain <$> l) s.
Proof.
  revert s. induction l as [|x l IH]; intros s; [done|]. cbn [exec_script].
  by apply mig_bind_ext.
Qed.

Lemma migrate_items (s : catalog * list bool) : migrate s = run_items items s.
Proof.
  unfold items. rewrite run_items_app. unfold migrate.
  rewrite (mig_bind_ext_l _ _ _ _ (exec_script_items schema s)).
  apply mig_bind_ext. intros [] s1. cbn [run_items run_item].
  repeat (apply mig_bind_ext; intros [] ?). by rewrite mig_bind_ret_r.
Qed.

(** ** What a statement has left to do *)

(** Nothing. *)
Definition done (s : ddl) (cat : catalog) : bool :=
  match s with
  | CreateTable name _ => bool_decide (is_Some (c_tables cat !! name))
  | CreateIndex name _ _ => bool_decide (is_Some (c_indexes cat !! name))
  | AddColumn tbl col => bool_decide (col_name col ∈ table_info tbl cat)
  | DropColumn tbl name => bool_decide (name ∉ table_info tbl cat)
  end.

Definition ensure (s : ddl) (cat : catalog) : option catalog :=
  if done s cat then Some cat else exec_ddl s cat.

(** The guarded statements of the migration: the plain ones carry their guard. *)
Definition guarded (i : item) : Prop :=
  match i with
  | Plain (CreateTable _ _) | Plain (CreateIndex _ _ _) => True
  | Checked (AddColumn _ _) | Checked (DropColumn _ _) => True
  | _ => False
  end.

Lemma items_guarded : Forall guarded items.
Proof. repeat constructor. Qed.

(** The driver on a statement and on a query, by what the schedule holds. *)
Definition next_fault (fs : list bool) : bool := default false (head fs).

Lemma exec_stmt_eq (s : ddl) (cat : catalog) (fs : list bool) :
  exec_stmt s (cat, fs) =
    if next_fault fs then (inl ErrDriver, (cat, tail fs)) else
    match exec_ddl s cat with
    | Some cat' => (inr tt, (cat', tail fs))
    | None => (inl ErrConstraint, (cat, tail fs))
    end.
Proof.
  unfold exec_stmt, drive, next_fault. cbn [fst snd].
  by destruct fs as [|[] fs]; cbn [head default tail]; destruct (exec_ddl s cat).
Qed.

Lemma hasColumn_eq (tbl name : string) (cat : catalog) (fs : list bool) :
  hasColumn tbl name (cat, fs) =
    if next_fault fs then (inl ErrDriver, (cat, tail fs))
    else (inr (bool_decide (name ∈ table_info tbl cat)), (cat, tail fs)).
Proof. unfold hasColumn, drive, next_fault. cbn [fst snd]. by destruct fs as [|[] fs]. Qed.

(** A plain guarded statement does nothing when it is done. *)
Lemma ensure_plain (s : ddl) (cat : catalog) : guarded (Plain s) -> ensure s cat = exec_ddl s cat.
Proof.
  unfold ensure. destruct s as [n cols|n t cols| |]; try done; intros _; cbn;
    case_bool_decide as Hd; try done; by destruct Hd as [x ->].
Qed.

(** A guarded statement: it has been carried out, or it failed and nothing changed; on
    a working driver it fails only if the statement does. *)
Lemma run_item_spec (i : item) (cat : catalog) (fs : list bool) :
  guarded i ->
  match run_item i (cat, fs) with
  | (inr _, (cat', fs')) => ensure (item_ddl i) cat = Some cat' /\ (fs = [] -> fs' = [])
  | (inl e, (cat', fs')) => cat' = cat /\
      (fs = [] -> fs' = [] /\ e = ErrConstraint /\ ensure (item_ddl i) cat = None)
  end.
Proof.
  intros Hg. assert (forall s, Plain s = i -> match exec_stmt s (cat, fs) with
    | (inr _, (cat', fs')) => ensure s cat = Some cat' /\ (fs = [] -> fs' = [])
    | (inl e, (cat', fs')) => cat' = cat /\
        (fs = [] -> fs' = [] /\ e = ErrConstraint /\ ensure s cat = None)
    end) as Hp.
  { intros s <-. rewrite exec_stmt_eq, ensure_plain by done.
    destruct (next_fault fs) eqn:En; [split; [done|by intros ->]|].
    destruct (exec_ddl s cat); split; try done; by intros ->. }
  destruct i as [s|[| |t c|t n]]; try done; [by apply Hp|..]; clear Hp;
    cbn [item_ddl run_item]; unfold ensureColumn, dropColumn, ensure, mbind, Mig_bind, done;
    rewrite hasColumn_eq; destruct (next_fault fs) eqn:En;
    try (split; [done|by intros ->]).
  - case_bool_decide; [split; [done|by intros ->]|]. rewrite exec_stmt_eq.
    destruct (next_fault (tail fs)) eqn:En'; [split; [done|by intros ->]|].
    destruct (exec_ddl _ cat); split; try done; by intros ->.
  - case_bool_decide as Hd; case_bool_decide as Hd'; try done; [|split; [done|by intros ->]].
    rewrite exec_stmt_eq. destruct (next_fault (tail fs)) eqn:En'; [split; [done|by intros ->]|].
    destruct (exec_ddl _ cat); split; try done; by intros ->.
Qed.

(** ** Running it again *)

(** Carrying out [j] does not undo [i]. *)
Definition keeps (i j : ddl) : bool :=
  match i, j with
  | AddColumn t c, DropColumn t' n => negb (bool_decide (t = t' /\ col_name c = n))
  | DropColumn t n, AddColumn t' c => negb (bool_decide (t = t' /\ col_name c = n))
  | DropColumn t n, CreateTable t' cols => negb (bool_decide (t = t' /\ n ∈ col_name <$> cols))
  | _, _ => true
  end.

Lemma table_info_with (tbl name : string) (t : table) (cat : catalog) :
  table_info tbl (with_table name t cat) =
    if decide (tbl = name) then column_names t else table_info tbl cat.
Proof.
  unfold table_info, with_table. cbn [c_tables]. case_decide as Hd.
  - subst. by rewrite lookup_insert_eq.
  - by rewrite lookup_insert_ne.
Qed.

Lemma column_names_drop (name : string) (t : table) :
  column_names (drop_column name t) = filter (fun n => n <> name) (column_names t).
Proof.
  unfold column_names, drop_column. cbn [t_columns]. induction (t_columns t) as [|c l IH]; [done|].
  rewrite fmap_cons, !filter_cons. repeat case_decide; try done. cbn. by rewrite IH.
Qed.

Lemma table_info_Some (tbl name : string) (cat : catalog) :
  name ∈ table_info tbl cat -> is_Some (c_tables cat !! tbl).
Proof. unfold table_info. destruct (c_tables cat !! tbl); [done|]. by intros ?%not_elem_of_nil. Qed.

(** What a statement does to the columns of the tables. *)
Lemma ensure_table_info (s : ddl) (cat cat' : catalog) (tbl : string) :
  ensure s cat = Some cat' ->
  table_info tbl cat' =
    match s with
    | CreateTable name cols =>
        if decide (tbl = name /\ c_tables cat !! name = None) then col_name <$> cols else table_info tbl cat
    | CreateIndex _ _ _ => table_info tbl cat
    | AddColumn t c =>
        if decide (tbl = t /\ col_name c ∉ table_info t cat)
        then table_info tbl cat ++ [col_name c] else table_info tbl cat
    | DropColumn t n =>
        if decide (tbl = t) then filter (fun x => x <> n) (table_info tbl cat) else table_info tbl cat
    end.
Proof.
  unfold ensure. destruct s as [n cols|n t cols|t c|t n]; cbn [done exec_ddl]; case_bool_decide as Hd;
    intros E; simplify_eq.
  - destruct Hd as [x Hx]. rewrite decide_False; [done|]. intros [-> ?]. congruence.
  - destruct (c_tables cat !! n) as [x|] eqn:En; [by destruct Hd|]. simplify_eq.
    rewrite table_info_with. destruct (decide (tbl = n)) as [->|Hne];
      [by rewrite decide_True|by rewrite decide_False by tauto].
  - done.
  - destruct (c_indexes cat !! n); [by simplify_eq|]. destruct (c_tables cat !! t); [|done].
    case_decide; by simplify_eq.
  - rewrite decide_False; [done|tauto].
  - apply bind_Some in E as (x & Hx & E). repeat case_decide; simplify_eq; rewrite table_info_with.
    + rewrite decide_True by tauto. unfold column_names, add_column. cbn [t_columns].
      rewrite fmap_app. destruct H1 as [-> _]. unfold table_info. by rewrite Hx.
    + rewrite decide_False; [done|]. intros ->. tauto.
  - case_decide; [|done]. subst. symmetry. apply filter_all. apply Forall_forall. intros x Hx ->. done.
  - apply bind_Some in E as (x & Hx & E). case_decide; simplify_eq. rewrite table_info_with.
    case_decide; [|done]. subst. rewrite column_names_drop. unfold table_info. by rewrite Hx.
Qed.

(** No statement removes a table or an index. *)
Lemma ensure_grows (s : ddl) (cat cat' : catalog) (name : string) :
  ensure s cat = Some cat' ->
  (is_Some (c_tables cat !! name) -> is_Some (c_tables cat' !! name)) /\
  (is_Some (c_indexes cat !! name) -> is_Some (c_indexes cat' !! name)).
Proof.
  assert (forall n t, is_Some (c_tables cat !! name) -> is_Some (c_tables (with_table n t cat) !! name)) as Ht.
  { intros n t Hn. cbn. destruct (decide (n = name)) as [->|Hne]; [by rewrite lookup_insert_eq|].
    by rewrite lookup_insert_ne. }
  unfold ensure. destruct (done s cat); [by intros [= ->]|].
  destruct s as [n cols|n t cols|t c|t n]; cbn [exec_ddl]; intros E.
  - destruct (c_tables cat !! n); simplify_eq; split; auto.
  - destruct (c_indexes cat !! n); [by simplify_eq|]. destruct (c_tables cat !! t); [|done].
    case_decide; simplify_eq. split; [done|]. cbn [c_indexes].
    destruct (decide (n = name)) as [->|Hne]; [by rewrite lookup_insert_eq|]. by rewrite lookup_insert_ne.
  - apply bind_Some in E as (x & Hx & E). repeat case_decide; simplify_eq. split; [auto|done].
  - apply bind_Some in E as (x & Hx & E). case_decide; simplify_eq. split; [auto|done].
Qed.

Lemma done_kept (i j : ddl) (cat cat' : catalog) :
  keeps i j = true -> ensure j cat = Some cat' -> done i cat = true -> done i cat' = true.
Proof.
  intros Hk He. pose proof (ensure_table_info j cat cat') as Hi.
  destruct i as [n cols|n t cols|t c|t n]; cbn [done]; rewrite !bool_decide_eq_true.
  - by apply (ensure_grows j).
  - by apply (ensure_grows j).
  - intros Hc. rewrite (Hi t He). destruct j as [n' cols'| |t' c'|t' n']; try done.
    + rewrite decide_False; [done|]. intros [-> E]. apply table_info_Some in Hc as [x Hx]. congruence.
    + decide_goal Hd; [apply elem_of_app; by left|done].
    + decide_goal Hd; [|done]. subst. apply list_elem_of_filter. split; [|done]. intros E.
      cbn in Hk. rewrite bool_decide_true in Hk; done.
  - intros Hc. rewrite (Hi t He). destruct j as [n' cols'| |t' c'|t' n']; try done.
    + decide_goal Hd; [|done]. destruct Hd as [-> _]. intros Hin.
      cbn in Hk. rewrite bool_decide_true in Hk; done.
    + decide_goal Hd; [|done]. destruct Hd as [-> _]. intros [Hin|Hin%list_elem_of_singleton]%elem_of_app;
        [done|]. cbn in Hk. rewrite bool_decide_true in Hk; done.
    + decide_goal Hd; [|done]. intros [_ ?]%list_elem_of_filter. done.
Qed.

(** The statements carried out in order. *)
Inductive carried : list item -> catalog -> catalog -> Prop :=
  | carried_nil cat : carried [] cat cat
  | carried_cons i l cat cat1 cat2 :
      ensure (item_ddl i) cat = Some cat1 -> carried l cat1 cat2 -> carried (i :: l) cat cat2.

Lemma ensure_done (s : ddl) (cat cat' : catalog) : ensure s cat = Some cat' -> done s cat' = true.
Proof.
  intros E. pose proof (ensure_table_info s cat cat') as Hi. unfold ensure in E.
  destruct (done s cat) eqn:Ed; [by simplify_eq|].
  destruct s as [n cols|n t cols|t c|t n]; cbn [done exec_ddl] in *; apply bool_decide_eq_true.
  - destruct (c_tables cat !! n); [by apply bool_decide_eq_false in Ed as []|].
    simplify_eq. cbn. by rewrite lookup_insert_eq.
  - destruct (c_indexes cat !! n); [by apply bool_decide_eq_false in Ed as []|].
    destruct (c_tables cat !! t); [|done]. case_decide; simplify_eq. cbn. by rewrite lookup_insert_eq.
  - apply bool_decide_eq_false in Ed. rewrite (Hi t) by (unfold ensure; cbn [done]; by rewrite bool_decide_false).
    rewrite decide_True by done. apply elem_of_app. right. by apply list_elem_of_singleton.
  - apply bool_decide_eq_false in Ed. rewrite (Hi t) by (unfold ensure; cbn [done]; by rewrite bool_decide_false).
    rewrite decide_True by done. by intros [? _]%list_elem_of_filter.
Qed.

(** Each statement keeps what the earlier ones did. *)
Fixpoint all_keep (l : list item) : bool :=
  match l with
  | [] => true
  | i :: l => forallb (fun j => keeps (item_ddl i) (item_ddl j)) l && all_keep l
  end.

Lemma carried_done (l : list item) (s : ddl) (cat cat' : catalog) :
  carried l cat cat' -> forallb (fun j => keeps s (item_ddl j)) l = true ->
  done s cat = true -> done s cat' = true.
Proof.
  induction 1 as [cat|i l cat cat1 cat2 He _ IH]; [done|]. cbn.
  intros [Hk Hl]%andb_true_iff Hd. apply IH; [done|]. by eapply done_kept.
Qed.

Lemma carried_all_done (l : list item) (cat cat' : catalog) :
  carried l cat cat' -> all_keep l = true -> Forall (fun i => done (item_ddl i) cat' = true) l.
Proof.
  induction 1 as [cat|i l cat cat1 cat2 He Hc IH]; [constructor|]. cbn.
  intros [Hk Hl]%andb_true_iff. constructor; [|by apply IH].
  eapply carried_done; [exact Hc|done|]. by eapply ensure_done.
Qed.

(** However it ends, a run has carried out a first part of its statements, all of them
    if it reports success. *)
Lemma run_items_prefix (l : list item) (cat : catalog) (fs : list bool) :
  Forall guarded l ->
  exists l1 l2, l = l1 ++ l2 /\ carried l1 cat (run_items l (cat, fs)).2.1 /\
    ((run_items l (cat, fs)).1 = inr tt -> l2 = []).
Proof.
  intros Hg. revert cat fs. induction Hg as [|i l Hi _ IH]; intros cat fs.
  { exists [], []. split_and!; [done|constructor|done]. }
  cbn [run_items]. unfold mbind, Mig_bind. pose proof (run_item_spec i cat fs Hi) as Hs.
  destruct (run_item i (cat, fs)) as [[e|[]] [cat1 fs1]].
  - destruct Hs as [-> _]. exists [], (i :: l). split_and!; [done|constructor|done].
  - destruct Hs as [He _]. destruct (IH cat1 fs1) as (l1 & l2 & -> & Hc & Hr).
    exists (i :: l1), l2. split_and!; [done|by econstructor|done].
Qed.

Lemma run_item_clean (i : item) (cat cat' : catalog) :
  guarded i -> ensure (item_ddl i) cat = Some cat' -> run_item i (cat, []) = (inr tt, (cat', [])).
Proof.
  intros Hg He. pose proof (run_item_spec i cat [] Hg) as Hs.
  destruct (run_item i (cat, [])) as [[e|[]] [cat1 fs1]].
  - destruct Hs as [_ Hs]. destruct (Hs eq_refl) as (_ & _ & ?). congruence.
  - destruct Hs as [Hs ->]; [|done]. by simplify_eq.
Qed.

(** On a working driver, statements that were carried out before can be left out. *)
Lemma run_items_carried (l1 l2 : list item) (cat cat' : catalog) :
  Forall guarded l1 -> carried l1 cat cat' ->
  run_items (l1 ++ l2) (cat, []) = run_items l2 (cat', []).
Proof.
  intros Hg Hc. revert Hg. induction Hc as [cat|i l cat cat1 cat2 He _ IH]; [done|].
  intros [Hi Hl]%Forall_cons. cbn [run_items app]. unfold mbind, Mig_bind.
  rewrite (run_item_clean i cat cat1) by done. by apply IH.
Qed.

Lemma carried_again (l : list item) (cat : catalog) :
  Forall (fun i => done (item_ddl i) cat = true) l -> carried l cat cat.
Proof.
  induction 1 as [|i l Hd _ IH]; econstructor; [|done]. unfold ensure. by rewrite Hd.
Qed.

(** C22: the migration can be interrupted and run again: whatever state it finds and
    wherever the driver failed it, running it again on a working driver ends as if it
    had not been interrupted, with the same result and the same catalog. In particular
    migrating twice is migrating once. *)
Theorem migrate_restartable (cat : catalog) (fs : list bool) :
  let cat1 := (migrate (cat, fs)).2.1 in
  migrate (cat1, []) = migrate (cat, []).
Proof.
  cbn zeta. rewrite !migrate_items.
  destruct (run_items_prefix items cat fs items_guarded) as (l1 & l2 & Hl & Hc & _).
  set (cat1 := (run_items items (cat, fs)).2.1) in *.
  assert (all_keep items = true) as Hk by by vm_compute.
  pose proof items_guarded as Hg. rewrite Hl in Hk, Hg |- *. apply Forall_app in Hg as [Hg _].
  assert (all_keep l1 = true) as Hk1.
  { clear -Hk. induction l1 as [|i l1 IH]; [done|]. cbn in *. apply andb_true_iff in Hk as [Hi Hk].
    rewrite forallb_app in Hi. apply andb_true_iff in Hi as [Hi _]. by rewrite Hi, IH. }
  rewrite (run_items_carried l1 l2 cat cat1) by done.
  apply run_items_carried; [done|]. apply carried_again. by eapply carried_all_done.
Qed.
