(* ===== verification/Upgrade.v ===== *)
(** * Upgrading a database file

    [migrate] brings every database an older binary wrote to the current schema, and
    keeps its rows. *)

From S2P Require Import Prelude Encoding Schema Migrate Restart.

(** ** Bringing an older file up to date *)

Definition schema_tables : list (string * list column) :=
  [("accounts", accounts_columns); ("invitations", invitations_columns); ("devices", devices_columns);
   ("queues", queues_columns); ("messages", messages_columns); ("bundles", bundles_columns);
   ("statements", statements_columns)]%string.

(** The columns that came after their table's first schema. *)
Definition later (tbl : string) : list column :=
  if decide (tbl = "accounts"%string) then [int_or "quota_bytes" 0; text_or "admin_mode" "flat"] else
  if decide (tbl = "invitations"%string)
  then [text_or "id" ""; int_or "revoked" 0; text_or "grants_role" "member"] else
  if decide (tbl = "devices"%string) then [int_or "quota_bytes" 0; text_or "role" "admin"] else
  if decide (tbl = "queues"%string) then [int_or "quota_bytes" 0] else [].

(** The one column that went. *)
Definition gone (tbl name : string) : Prop := tbl = "messages"%string /\ name = "status"%string.
#[export] Instance gone_dec (tbl name : string) : Decision (gone tbl name).
Proof. unfold gone. apply _. Defined.

(** A value the column may hold. *)
Definition value_ok (c : column) (v : sqlval) : Prop :=
  match v with
  | VNull => col_notnull c = false
  | VText _ => col_type c = TEXT
  | VInt _ => col_type c = INTEGER
  | VBlob _ => col_type c = BLOB
  end.

(** A row has a value for each column and no other. *)
Definition row_ok (cols : list column) (r : row) : Prop :=
  dom r = list_to_set (col_name <$> cols) /\
  Forall (fun c => from_option (value_ok c) False (r !! col_name c)) cols.

(** A well-typed table. *)
Definition table_ok (t : table) : Prop :=
  NoDup (column_names t) /\ Forall (row_ok (t_columns t)) (t_rows t).

(** A table as some binary up to this one wrote it: its columns are the schema's, some
    later ones perhaps missing, the one that went perhaps there. *)
Definition older_table (name : string) (cols : list column) (t : table) : Prop :=
  table_ok t /\
  Forall (fun c => c ∈ cols \/ gone name (col_name c)) (t_columns t) /\
  Forall (fun c => c ∈ t_columns t \/ c ∈ later name) cols.

Definition older (cat : catalog) : Prop :=
  Forall (fun nc => from_option (older_table nc.1 nc.2) True (c_tables cat !! nc.1)) schema_tables /\
  ~ indexed "messages" "status" cat.

#[export] Instance value_ok_dec (c : column) (v : sqlval) : Decision (value_ok c v).
Proof. unfold value_ok. destruct v; apply _. Defined.
#[export] Instance row_ok_dec (cols : list column) (r : row) : Decision (row_ok cols r).
Proof.
  unfold row_ok. apply and_dec; [apply _|]. apply Forall_dec. intros c.
  destruct (r !! col_name c); cbn; apply _.
Defined.
#[export] Instance older_table_dec (name : string) (cols : list column) (t : table) :
  Decision (older_table name cols t).
Proof. unfold older_table, table_ok. apply _. Defined.
#[export] Instance older_dec (cat : catalog) : Decision (older cat).
Proof.
  unfold older, indexed. apply and_dec; [|apply _]. apply Forall_dec. intros nc.
  destruct (c_tables cat !! nc.1); cbn; apply _.
Defined.

(** What becomes of a row. *)
Definition defaults (tbl : string) : row :=
  list_to_map ((fun c => (col_name c, col_default c)) <$> later tbl).
Definition upgrade_row (tbl : string) (r : row) : row :=
  let r := r ∪ defaults tbl in
  if decide (tbl = "messages"%string) then delete "status"%string r else r.

Definition rows_of (tbl : string) (cat : catalog) : list row :=
  from_option t_rows [] (c_tables cat !! tbl).

(** The statements the invariant is kept by. *)
Definition in_schema (s : ddl) : Prop :=
  match s with
  | CreateTable name cols => (name, cols) ∈ schema_tables
  | CreateIndex _ tbl cols => ~ (tbl = "messages"%string /\ "status"%string ∈ cols)
  | AddColumn tbl col => tbl ∈ schema_tables.*1 /\ col ∈ later tbl
  | DropColumn tbl name => gone tbl name
  end.

#[export] Instance in_schema_dec (s : ddl) : Decision (in_schema s).
Proof. destruct s; cbn; apply _. Defined.

Lemma items_in_schema : Forall (fun i => in_schema (item_ddl i)) items.
Proof.
  apply (bool_decide_unpack _). by vm_compute.
Qed.

(** Facts of the schema itself, by evaluation. *)
Lemma schema_tables_ok :
  NoDup (schema_tables.*1) /\
  Forall (fun nc => NoDup (col_name <$> nc.2) /\ Forall (fun c => c ∈ nc.2) (later nc.1) /\
    Forall (fun c => ~ gone nc.1 (col_name c)) nc.2) schema_tables /\
  Forall (fun nc => Forall (fun c => value_ok c (col_default c) /\
    ~ (col_notnull c = true /\ col_default c = VNull)) (later nc.1)) schema_tables.
Proof. split_and!; apply (bool_decide_unpack _); by vm_compute. Qed.

Lemma schema_tables_fun (name : string) (cols cols' : list column) :
  (name, cols) ∈ schema_tables -> (name, cols') ∈ schema_tables -> cols = cols'.
Proof.
  intros H1 H2. destruct schema_tables_ok as (Hnd & _).
  assert ((name, cols) = (name, cols')) as E by (by eapply (NoDup_fmap_inj fst)). by injection E.
Qed.

Lemma older_lookup (cat : catalog) (name : string) (cols : list column) (t : table) :
  older cat -> (name, cols) ∈ schema_tables -> c_tables cat !! name = Some t -> older_table name cols t.
Proof.
  intros [Ho _] Hin Ht. rewrite Forall_forall in Ho. specialize (Ho _ Hin). cbn in Ho.
  by rewrite Ht in Ho.
Qed.

Lemma older_with_table (cat : catalog) (name : string) (cols : list column) (t : table) :
  older cat -> (name, cols) ∈ schema_tables -> older_table name cols t -> older (with_table name t cat).
Proof.
  intros [Ho Hix] Hin Ht. split; [|exact Hix]. rewrite Forall_forall in Ho |- *.
  intros [n k] Hn. cbn. destruct (decide (name = n)) as [->|Hne].
  - rewrite lookup_insert_eq. cbn. by rewrite (schema_tables_fun n k cols).
  - rewrite lookup_insert_ne by done. exact (Ho _ Hn).
Qed.

Lemma rows_with_table (tbl name : string) (t : table) (cat : catalog) :
  rows_of tbl (with_table name t cat) = if decide (tbl = name) then t_rows t else rows_of tbl cat.
Proof.
  unfold rows_of, with_table. cbn [c_tables]. decide_goal Hd.
  - subst. by rewrite lookup_insert_eq.
  - by rewrite lookup_insert_ne.
Qed.

Lemma row_ok_lookup (cols : list column) (r : row) (name : string) :
  row_ok cols r -> is_Some (r !! name) <-> name ∈ col_name <$> cols.
Proof. intros [Hd _]. by rewrite <- elem_of_dom, Hd, elem_of_list_to_set. Qed.

(** Adding a later column and dropping the one that went keep the table's shape. *)
Lemma older_add (name : string) (cols : list column) (c : column) (t : table) :
  (name, cols) ∈ schema_tables -> c ∈ later name -> col_name c ∉ column_names t ->
  older_table name cols t -> older_table name cols (add_column c t).
Proof.
  intros Hin Hc Hn ((Hnd & Hr) & Hk & Hb). destruct schema_tables_ok as (_ & Hs & Hv).
  rewrite Forall_forall in Hs, Hv. destruct (Hs _ Hin) as (_ & Hlc & _). specialize (Hv _ Hin).
  cbn in Hlc, Hv. rewrite Forall_forall in Hlc, Hv. specialize (Hv c Hc) as [Hv _].
  assert (column_names (add_column c t) = column_names t ++ [col_name c]) as En
    by (unfold column_names, add_column; cbn; by rewrite fmap_app).
  unfold older_table, table_ok. rewrite En. split_and!.
  - apply NoDup_app. split_and!; [done| |apply NoDup_singleton].
    by intros x Hx ->%list_elem_of_singleton.
  - cbn. apply Forall_fmap. eapply Forall_impl; [exact Hr|]. intros r Hrow. split.
    + cbn. rewrite dom_insert_L, fmap_app, list_to_set_app_L. destruct Hrow as [-> _]. cbn. set_solver.
    + apply Forall_app. split; [|apply Forall_singleton; cbn; by rewrite lookup_insert_eq].
      destruct Hrow as [_ Hrow]. rewrite Forall_forall in Hrow |- *. intros d Hd. cbn.
      rewrite lookup_insert_ne; [by apply Hrow|]. intros E. apply Hn. rewrite E.
      by apply list_elem_of_fmap_2.
  - cbn. apply Forall_app. split; [done|]. apply Forall_singleton. left. by apply Hlc.
  - cbn. eapply Forall_impl; [exact Hb|]. intros d [Hd|Hd]; [left; apply elem_of_app; by left|by right].
Qed.

Lemma older_drop (name n : string) (cols : list column) (t : table) :
  (name, cols) ∈ schema_tables -> gone name n ->
  older_table name cols t -> older_table name cols (drop_column n t).
Proof.
  intros Hin Hg ((Hnd & Hr) & Hk & Hb). destruct schema_tables_ok as (_ & Hs & _).
  rewrite Forall_forall in Hs. destruct (Hs _ Hin) as (_ & _ & Hng). cbn in Hng.
  unfold older_table, table_ok. rewrite column_names_drop. split_and!.
  - by apply NoDup_filter.
  - cbn. apply Forall_fmap. eapply Forall_impl; [exact Hr|]. intros r [Hdom Hval]. split.
    + cbn. rewrite dom_delete_L, Hdom. apply set_eq. intros x.
      rewrite elem_of_difference, elem_of_singleton, !elem_of_list_to_set, !list_elem_of_fmap.
      setoid_rewrite list_elem_of_filter. naive_solver.
    + apply Forall_forall. intros d [Hne Hd]%list_elem_of_filter. rewrite Forall_forall in Hval. cbn.
      rewrite lookup_delete_ne by done. by apply Hval.
  - cbn. apply Forall_forall. intros d [_ Hd]%list_elem_of_filter. rewrite Forall_forall in Hk. by apply Hk.
  - cbn. rewrite Forall_forall in Hb, Hng |- *. intros d Hd. destruct (Hb d Hd) as [Ht|Hl]; [left|by right].
    apply list_elem_of_filter. split; [|done]. intros E. apply (Hng d Hd). by rewrite E.
Qed.

Lemma upgrade_row_insert (name : string) (cols : list column) (c : column) (r : row) :
  (name, cols) ∈ schema_tables -> c ∈ later name -> r !! col_name c = None ->
  upgrade_row name (<[col_name c := col_default c]> r) = upgrade_row name r.
Proof.
  intros Hin Hc Hr. destruct schema_tables_ok as (_ & Hs & _). rewrite Forall_forall in Hs.
  destruct (Hs _ Hin) as (Hnd & Hl & _). cbn in Hnd, Hl.
  assert (NoDup (col_name <$> later name)) as Hndl.
  { clear -Hin. revert Hin. unfold schema_tables. rewrite !elem_of_cons, elem_of_nil.
    intros Hin. destruct_or!; simplify_eq; try done; apply (bool_decide_unpack _); by vm_compute. }
  assert (defaults name !! col_name c = Some (col_default c)) as Hd.
  { apply elem_of_list_to_map; [by rewrite <- list_fmap_compose|].
    apply list_elem_of_fmap. by exists c. }
  assert (<[col_name c := col_default c]> r ∪ defaults name = r ∪ defaults name) as E; [|by unfold upgrade_row; rewrite E].
  apply map_eq. intros k. destruct (decide (k = col_name c)) as [->|Hne].
  - rewrite (lookup_union_r r) by done. rewrite Hd. apply lookup_union_Some_l. apply lookup_insert_eq.
  - rewrite !lookup_union, lookup_insert_ne by done. done.
Qed.

Lemma upgrade_row_delete (name n : string) (r : row) :
  gone name n -> upgrade_row name (delete n r) = upgrade_row name r.
Proof.
  intros [-> ->]. unfold upgrade_row. rewrite !decide_True by done. apply map_eq. intros k.
  destruct (decide (k = "status"%string)) as [->|Hne]; [by rewrite !lookup_delete_eq|].
  rewrite !lookup_delete_ne by done. by rewrite !lookup_union, lookup_delete_ne.
Qed.

(** What the statements of the migration keep: the shape of an older file, and what its
    rows become. *)
Definition upgraded_rows (cat : catalog) : list (list row) :=
  (fun nc => upgrade_row nc.1 <$> rows_of nc.1 cat) <$> schema_tables.

Lemma upgraded_rows_with (name : string) (t : table) (cat : catalog) :
  (name ∈ schema_tables.*1 -> upgrade_row name <$> t_rows t = upgrade_row name <$> rows_of name cat) ->
  upgraded_rows (with_table name t cat) = upgraded_rows cat.
Proof.
  intros Ht. unfold upgraded_rows. apply list_fmap_ext. intros i [n cols] Hi. cbn.
  rewrite rows_with_table. decide_goal Hd; [|done]. subst. apply Ht.
  apply list_elem_of_lookup_2 in Hi. by apply (list_elem_of_fmap_2 fst) in Hi.
Qed.

Lemma ensure_older (s : ddl) (cat cat' : catalog) :
  older cat -> in_schema s -> ensure s cat = Some cat' ->
  older cat' /\ upgraded_rows cat' = upgraded_rows cat.
Proof.
  intros Ho Hs. unfold ensure. destruct (done s cat) eqn:Ed; [by intros [= <-]|].
  destruct s as [n cols|n t cols|t c|t n]; cbn [done exec_ddl in_schema] in *;
    apply bool_decide_eq_false in Ed; intros E.
  - destruct (c_tables cat !! n) as [x|] eqn:En; [by destruct Ed|]. simplify_eq.
    destruct schema_tables_ok as (_ & Hst & _). rewrite Forall_forall in Hst.
    destruct (Hst _ Hs) as (Hnd & _). split.
    + apply (older_with_table _ _ cols); [done|done|]. split; [split; [done|constructor]|].
      split; apply Forall_forall; by left.
    + apply upgraded_rows_with. intros _. unfold rows_of. by rewrite En.
  - destruct (c_indexes cat !! n) eqn:En; [by destruct Ed|]. destruct (c_tables cat !! t); [|done].
    case_decide; simplify_eq. split; [|done]. destruct Ho as [Ho Hix]. split; [exact Ho|].
    unfold indexed in *. cbn. rewrite map_Exists_insert by done. cbn. tauto.
  - apply bind_Some in E as (x & Hx & E). repeat case_decide; simplify_eq. destruct Hs as [Hin Hl].
    apply list_elem_of_fmap in Hin as ([n cols] & -> & Hin). cbn [fst] in *.
    pose proof (older_lookup cat n cols x Ho Hin Hx) as Hox. split.
    + apply (older_with_table _ _ cols); [done|done|by apply older_add].
    + apply upgraded_rows_with. intros _. unfold rows_of. rewrite Hx. cbn.
      rewrite <- list_fmap_compose. apply list_fmap_ext. intros i r Hr. cbn.
      apply (upgrade_row_insert n cols); [done|done|]. apply eq_None_not_Some.
      destruct Hox as ((_ & Hrows) & _). rewrite Forall_forall in Hrows.
      apply list_elem_of_lookup_2 in Hr. rewrite (row_ok_lookup (t_columns x)) by by apply Hrows. done.
  - apply bind_Some in E as (x & Hx & E). case_decide; simplify_eq. destruct Hs as [-> ->].
    assert (("messages"%string, messages_columns) ∈ schema_tables) as Hin
      by (apply (bool_decide_unpack _); by vm_compute).
    pose proof (older_lookup cat _ _ x Ho Hin Hx) as Hox. split.
    + apply (older_with_table _ _ messages_columns); [done|done|by apply older_drop].
    + apply upgraded_rows_with. intros _. unfold rows_of. rewrite Hx. cbn.
      rewrite <- list_fmap_compose. apply list_fmap_ext. intros i r _. by apply upgrade_row_delete.
Qed.

Lemma carried_older (l : list item) (cat cat' : catalog) :
  older cat -> Forall (fun i => in_schema (item_ddl i)) l -> carried l cat cat' ->
  older cat' /\ upgraded_rows cat' = upgraded_rows cat.
Proof.
  intros Ho Hl Hc. revert Ho Hl. induction Hc as [cat|i l cat cat1 cat2 He _ IH]; [done|].
  intros Ho [Hi Hl]%Forall_cons. destruct (ensure_older _ _ _ Ho Hi He) as [Ho1 Hr1].
  destruct (IH Ho1 Hl) as [Ho2 Hr2]. split; [done|congruence].
Qed.

(** ** Nothing stops the migration *)

(** What the statements so far have made. *)
Definition created (pre : list item) : list string :=
  omap (fun i => match item_ddl i with CreateTable n _ => Some n | _ => None end) pre.
Definition added (tbl : string) (pre : list item) : list string :=
  omap (fun i => match item_ddl i with
    | AddColumn t c => if decide (t = tbl) then Some (col_name c) else None
    | _ => None end) pre.

(** A column every version of the table has. *)
Definition base (tbl name : string) : Prop :=
  Exists (fun nc => nc.1 = tbl /\ Exists (fun c => col_name c = name /\ c ∉ later tbl) nc.2) schema_tables.
#[export] Instance base_dec (tbl name : string) : Decision (base tbl name).
Proof. unfold base. apply _. Defined.

(** What a statement builds on is there in every version, or was made before it. *)
Definition provided (pre : list item) (s : ddl) : Prop :=
  match s with
  | CreateTable _ _ => True
  | CreateIndex _ t cols => t ∈ created pre /\ Forall (fun n => base t n \/ n ∈ added t pre) cols
  | AddColumn t c => t ∈ created pre /\ ~ (col_notnull c = true /\ col_default c = VNull)
  | DropColumn t n => gone t n
  end.
#[export] Instance provided_dec (pre : list item) (s : ddl) : Decision (provided pre s).
Proof. destruct s; cbn; apply _. Defined.

Fixpoint all_provided (pre l : list item) : Prop :=
  match l with
  | [] => True
  | i :: l => provided pre (item_ddl i) /\ all_provided (pre ++ [i]) l
  end.
#[export] Instance all_provided_dec (pre l : list item) : Decision (all_provided pre l).
Proof. revert pre. induction l; intros pre; cbn; apply _. Defined.

Definition all_done (l : list item) (cat : catalog) : Prop :=
  Forall (fun i => done (item_ddl i) cat = true) l.

Lemma created_there (pre : list item) (cat : catalog) (t : string) :
  all_done pre cat -> t ∈ created pre -> is_Some (c_tables cat !! t).
Proof.
  intros Hd Ht. apply list_elem_of_omap in Ht as (i & Hi & E).
  pose proof (proj1 (Forall_forall _ _) Hd i Hi) as H. cbn in H.
  destruct (item_ddl i) as [n cols| | |]; try done. simplify_eq. by apply bool_decide_eq_true in H.
Qed.

Lemma added_there (pre : list item) (cat : catalog) (t n : string) :
  all_done pre cat -> n ∈ added t pre -> n ∈ table_info t cat.
Proof.
  intros Hd Hn. apply list_elem_of_omap in Hn as (i & Hi & E).
  pose proof (proj1 (Forall_forall _ _) Hd i Hi) as H. cbn in H.
  destruct (item_ddl i) as [| |t' c|]; try done. case_decide; [|done]. simplify_eq.
  by apply bool_decide_eq_true in H.
Qed.

Lemma base_there (cat : catalog) (t n : string) :
  older cat -> is_Some (c_tables cat !! t) -> base t n -> n ∈ table_info t cat.
Proof.
  intros Ho [x Hx] Hb. apply Exists_exists in Hb as ([t' cols] & Hin & E & Hb). cbn [fst snd] in *. subst t'.
  apply Exists_exists in Hb as (c & Hc & <- & Hnl).
  pose proof (older_lookup cat _ cols x Ho Hin Hx) as (_ & _ & Hall).
  rewrite Forall_forall in Hall. destruct (Hall c Hc) as [Hcx|Hl]; [|done].
  unfold table_info. rewrite Hx. by apply list_elem_of_fmap_2.
Qed.

Lemma ensure_provided (pre : list item) (s : ddl) (cat : catalog) :
  older cat -> all_done pre cat -> provided pre s -> is_Some (ensure s cat).
Proof.
  intros Ho Hd Hp. unfold ensure. destruct (done s cat) eqn:Es; [done|].
  destruct s as [n cols|n t cols|t c|t n]; cbn [done provided exec_ddl] in *;
    apply bool_decide_eq_false in Es.
  - by destruct (c_tables cat !! n).
  - destruct Hp as [Ht Hcols]. pose proof (created_there pre cat t Hd Ht) as Hx.
    destruct (c_indexes cat !! n); [done|]. pose proof Hx as [x Hx']. rewrite Hx'.
    rewrite decide_True; [done|]. eapply Forall_impl; [exact Hcols|]. intros m [Hb|Ha].
    + pose proof (base_there cat t m Ho Hx Hb) as Hi. unfold table_info in Hi. by rewrite Hx' in Hi.
    + pose proof (added_there pre cat t m Hd Ha) as Hi. unfold table_info in Hi. by rewrite Hx' in Hi.
  - destruct Hp as [Ht Hdef]. destruct (created_there pre cat t Hd Ht) as [x Hx].
    unfold table_info in Es. rewrite Hx in Es |- *. cbn. by rewrite !decide_False.
  - destruct Hp as [-> ->]. apply dec_stable in Es.
    pose proof (table_info_Some _ _ _ Es) as [x Hx]. unfold table_info in Es. rewrite Hx in Es |- *.
    cbn. destruct Ho as [_ Hix]. by rewrite decide_True.
Qed.

Lemma run_items_total (pre l : list item) (cat : catalog) :
  older cat -> all_done pre cat -> all_provided pre l -> all_keep (pre ++ l) = true ->
  Forall guarded l -> Forall (fun i => in_schema (item_ddl i)) l ->
  exists cat', run_items l (cat, []) = (inr tt, (cat', [])) /\ carried l cat cat'.
Proof.
  revert pre cat. induction l as [|i l IH]; intros pre cat Ho Hd Hp Hk Hg Hs.
  { exists cat. split; [done|constructor]. }
  destruct Hp as [Hi Hp]. apply Forall_cons in Hg as [Hgi Hg]. apply Forall_cons in Hs as [Hsi Hs].
  destruct (ensure_provided pre (item_ddl i) cat Ho Hd Hi) as [cat1 He].
  destruct (ensure_older _ _ _ Ho Hsi He) as [Ho1 _].
  destruct (IH (pre ++ [i]) cat1) as (cat' & Hr & Hc); try done.
  - apply Forall_app. split; [|apply Forall_singleton; by eapply ensure_done].
    apply Forall_forall. intros j Hj. eapply done_kept; [|exact He|by apply (proj1 (Forall_forall _ _) Hd)].
    clear -Hk Hj. induction pre as [|k pre IH]; [by apply not_elem_of_nil in Hj|]. cbn in Hk.
    apply andb_true_iff in Hk as [Hk Hrest]. rewrite forallb_app in Hk. cbn in Hk.
    apply andb_true_iff in Hk as [_ [Hk _]%andb_true_iff].
    apply elem_of_cons in Hj as [->|Hj]; [done|by apply IH].
  - by rewrite <- app_assoc.
  - exists cat'. split; [|by econstructor]. cbn [run_items]. unfold mbind, Mig_bind.
    by rewrite (run_item_clean i cat cat1).
Qed.

Lemma items_ready :
  all_provided [] items /\ all_keep items = true /\
  Forall (fun nc => nc.1 ∈ created items /\
    Forall (fun c => col_name c ∈ added nc.1 items) (later nc.1)) schema_tables /\
  ("messages"%string, "status"%string) ∈
    omap (fun i => match item_ddl i with DropColumn t n => Some (t, n) | _ => None end) items.
Proof. split_and!; apply (bool_decide_unpack _); by vm_compute. Qed.

(** ** The upgraded table *)

Lemma upgraded_row_id (name : string) (cols : list column) (r : row) :
  (name, cols) ∈ schema_tables -> dom r = list_to_set (col_name <$> cols) -> upgrade_row name r = r.
Proof.
  intros Hin Hd. destruct schema_tables_ok as (_ & Hs & _). rewrite Forall_forall in Hs.
  destruct (Hs _ Hin) as (_ & Hl & Hng). cbn in Hl, Hng. rewrite Forall_forall in Hl, Hng.
  assert (r ∪ defaults name = r) as E.
  { apply map_eq. intros k. destruct (r !! k) as [v|] eqn:Ek; [by apply lookup_union_Some_l|].
    rewrite lookup_union_r by done. apply not_elem_of_list_to_map_1.
    rewrite <- list_fmap_compose. cbn. intros (c & -> & Hc)%list_elem_of_fmap.
    apply (not_elem_of_dom r) in Ek. apply Ek. rewrite Hd. apply elem_of_list_to_set. cbn.
    apply list_elem_of_fmap_2. by apply Hl. }
  unfold upgrade_row. rewrite E. case_decide as Hm; [|done]. subst. apply delete_id.
  apply (not_elem_of_dom r). rewrite Hd, elem_of_list_to_set. intros (c & Ec & Hc)%list_elem_of_fmap.
  apply (Hng c Hc). by rewrite <- Ec.
Qed.

(** A table every statement has been carried out on has the schema's columns. *)
Lemma done_columns (name : string) (cols : list column) (t : table) (cat : catalog) :
  older cat -> all_done items cat -> (name, cols) ∈ schema_tables -> c_tables cat !! name = Some t ->
  t_columns t ≡ₚ cols.
Proof.
  intros Ho Hd Hin Ht. pose proof (older_lookup cat name cols t Ho Hin Ht) as ((Hnd & _) & Hk & Hb).
  destruct schema_tables_ok as (_ & Hs & _). rewrite Forall_forall in Hs.
  destruct (Hs _ Hin) as (Hndc & Hl & Hng). cbn in Hndc, Hl, Hng.
  destruct items_ready as (_ & _ & Hadd & Hdrop). rewrite Forall_forall in Hadd; rewrite Forall_forall in Hk; rewrite Forall_forall in Hb;
    rewrite Forall_forall in Hl; rewrite Forall_forall in Hng.
  destruct (Hadd _ Hin) as [_ Hl']. cbn in Hl'. rewrite Forall_forall in Hl'.
  assert (table_info name cat = column_names t) as Hti by (unfold table_info; by rewrite Ht).
  assert (forall c, c ∈ t_columns t -> c ∈ cols) as Hsub.
  { intros c Hc. destruct (Hk c Hc) as [|[-> E]]; [done|]. exfalso.
    apply list_elem_of_omap in Hdrop as (i & Hi & Ei).
    pose proof (proj1 (Forall_forall _ _) Hd i Hi) as H. cbn in H.
    destruct (item_ddl i); try done. simplify_eq. apply bool_decide_eq_true in H. apply H.
    rewrite Hti, <- E. by apply list_elem_of_fmap_2. }
  apply NoDup_Permutation; [by apply (NoDup_fmap_1 col_name)|by apply (NoDup_fmap_1 col_name)|].
  intros c. split; [apply Hsub|]. intros Hc. destruct (Hb c Hc) as [|Hlc]; [done|].
  pose proof (added_there items cat name _ Hd (Hl' c Hlc)) as Hn. rewrite Hti in Hn.
  apply list_elem_of_fmap in Hn as (d & E & Hdt).
  by rewrite (NoDup_fmap_inj col_name cols c d Hndc Hc (Hsub d Hdt) E).
Qed.

Lemma upgraded_rows_lookup (cat cat' : catalog) (name : string) (cols : list column) :
  upgraded_rows cat = upgraded_rows cat' -> (name, cols) ∈ schema_tables ->
  upgrade_row name <$> rows_of name cat = upgrade_row name <$> rows_of name cat'.
Proof.
  intros E Hin. apply list_elem_of_lookup in Hin as [i Hi].
  assert (upgraded_rows cat !! i = upgraded_rows cat' !! i) as Ei by by rewrite E.
  unfold upgraded_rows in Ei. rewrite !list_lookup_fmap, Hi in Ei. by injection Ei.
Qed.

Lemma migrated (cat : catalog) : older cat ->
  exists cat', migrate (cat, []) = (inr tt, (cat', [])) /\
  forall name cols, (name, cols) ∈ schema_tables ->
  exists t, c_tables cat' !! name = Some t /\ t_columns t ≡ₚ cols /\ table_ok t /\
    t_rows t = upgrade_row name <$> rows_of name cat.
Proof.
  intros Ho.
  destruct items_ready as (Hp & Hk & Hadd & _).
  destruct (run_items_total [] items cat) as (cat' & Hr & Hc);
    [done|constructor|done|done|apply items_guarded|apply items_in_schema|].
  exists cat'. rewrite migrate_items. split; [done|]. intros name cols Hin.
  destruct (carried_older _ _ _ Ho items_in_schema Hc) as [Ho' Hrows].
  pose proof (carried_all_done _ _ _ Hc Hk) as Hd.
  rewrite Forall_forall in Hadd. destruct (Hadd _ Hin) as [Hct _].
  destruct (created_there items cat' name Hd Hct) as [t Ht].
  pose proof (done_columns name cols t cat' Ho' Hd Hin Ht) as Hcols.
  pose proof (older_lookup cat' name cols t Ho' Hin Ht) as (Hok & _).
  exists t. split_and!; [done..|].
  rewrite <- (upgraded_rows_lookup cat' cat name cols Hrows Hin). unfold rows_of. rewrite Ht. cbn.
  rewrite <- (list_fmap_id (t_rows t)) at 1. apply list_fmap_ext. intros i r Hi. symmetry.
  apply (upgraded_row_id name cols); [done|]. destruct Hok as [_ Hrs]. rewrite Forall_forall in Hrs.
  destruct (Hrs r) as [Hdom _]; [by apply list_elem_of_lookup_2 in Hi|]. etrans; [exact Hdom|].
  apply set_eq. intros x.
  rewrite !elem_of_list_to_set. by rewrite Hcols.
Qed.

(** C19: opening any file an older binary wrote brings it to the current schema and keeps
    its contents. [older]: each table the file has is well typed - every row has one
    value per column, of the column's type - and has the columns of the schema, of which
    those that came later may be missing and [messages.status] may still be there; any
    tables and indexes may be missing. Then the migration succeeds on a working driver,
    and afterwards every table of the schema is there, has exactly the schema's columns,
    and is well typed; its rows are the old ones in their order, each with the defaults
    of the columns it lacked and without the one that went. *)
Theorem migrate_upgrades (cat : catalog) (Ho : older cat) :
  exists cat', migrate (cat, []) = (inr tt, (cat', [])) /\
  forall name cols, (name, cols) ∈ schema_tables ->
  exists t, c_tables cat' !! name = Some t /\ t_columns t ≡ₚ cols /\ table_ok t /\
    t_rows t = upgrade_row name <$> rows_of name cat.
Proof. by apply migrated. Qed.

(** A file of the first binaries: no later column, a message with its status. *)
Module Old.

Definition accounts : table := mkTable [key "id"; text "created"; text "quota"; text_or "status" "active"]%string
  [list_to_map [("id", VText "acc"); ("created", VText "2025-01-01T00:00:00Z"); ("quota", VText "none");
                ("status", VText "active")]%string].
Definition messages : table := mkTable (messages_columns ++ [text_or "status" "queued"]%string)
  [list_to_map [("seq", VInt 7); ("id", VText "m"); ("queue_id", VText "q"); ("payload", VBlob []);
                ("received_at", VText "2025-01-01T00:00:00Z"); ("expires", VText "2025-02-01T00:00:00Z");
                ("status", VText "queued")]%string].
Definition file : catalog := mkCatalog {["accounts"%string := accounts; "messages"%string := messages]} ∅.

End Old.

Lemma migrate_upgrades_witness :
  older Old.file /\
  exists cat', migrate (Old.file, []) = (inr tt, (cat', [])) /\
  forall name cols, (name, cols) ∈ schema_tables ->
  exists t, c_tables cat' !! name = Some t /\ t_columns t ≡ₚ cols /\ table_ok t /\
    t_rows t = upgrade_row name <$> rows_of name Old.file.
Proof.
  assert (older Old.file) as Ho.
  { apply (bool_decide_unpack _). by vm_compute. }
  split; [exact Ho|exact (migrate_upgrades Old.file Ho)].
Defined.
