(* ===== verification/StoreM.v ===== *)
(** * The store's computations

    A method of [*store.Store] as a computation over the database, the clock, the
    random source and a schedule of driver failures, returning an error or a
    value. [db_call] is one statement sent to the driver, [tx] is
    [BeginTx ... Commit] with the deferred [Rollback]. A weakest-precondition
    calculus ([wp]) runs the computations symbolically. *)

From S2P Require Import Prelude Encoding Clock Sql Schema.

(** What a method reads and writes. [st_clock] is [time.Now()] in nanoseconds
    since the epoch; [st_rnd] is what [crypto/rand] will return; [st_faults] says,
    for each statement to come, whether the driver fails it. An empty schedule is
    a driver that does not fail. *)
Record St := mkSt {
  st_db : DB;
  st_clock : Z;
  st_rnd : bytes;
  st_faults : list bool;
}.

Definition with_db (db : DB) (s : St) : St :=
  mkSt db s.(st_clock) s.(st_rnd) s.(st_faults).
Definition with_rnd (r : bytes) (s : St) : St :=
  mkSt s.(st_db) s.(st_clock) r s.(st_faults).
Definition with_faults (fs : list bool) (s : St) : St :=
  mkSt s.(st_db) s.(st_clock) s.(st_rnd) fs.

Definition M (A : Type) : Type := St -> (error + A) * St.

#[export] Instance M_ret : MRet M := fun A a s => (inr a, s).
#[export] Instance M_bind : MBind M := fun A B k m s =>
  match m s with
  | (inl e, s') => (inl e, s')
  | (inr a, s') => k a s'
  end.

Definition throw {A} (e : error) : M A := fun s => (inl e, s).

(** Run a computation and hand its error, if any, to the continuation: the
    [if err != nil] of a caller that does more than return it. *)
Definition try {A} (m : M A) : M (error + A) := fun s =>
  let '(r, s') := m s in (inr r, s').

(** [time.Now()], in nanoseconds. *)
Definition now_ns : M Z := fun s => (inr s.(st_clock), s).

(** [rand.Read] into a buffer of [n] bytes. *)
Definition rand_read (n : nat) : M bytes := fun s =>
  if decide (n <= length s.(st_rnd))
  then (inr (take n s.(st_rnd)), with_rnd (drop n s.(st_rnd)) s)
  else (inl ErrRand, s).

(** One statement: it may fail in the driver, and otherwise is [f]. *)
Definition db_call {A} (f : DB -> (error + A) * DB) : M A := fun s =>
  match s.(st_faults) with
  | true :: fs => (inl ErrDriver, with_faults fs s)
  | fs => let '(r, db') := f s.(st_db) in
          (r, with_db db' (with_faults (tail fs) s))
  end.

(** [QueryContext]: rows. *)
Definition query {A} (f : DB -> A) : M A := db_call (fun db => (inr (f db), db)).

(** [QueryRowContext(...).Scan]: the first row or [sql.ErrNoRows]. *)
Definition query_row {A} (f : DB -> option A) : M A :=
  db_call (fun db => (match f db with Some a => inr a | None => inl ErrNoRows end, db)).

(** [ExecContext]: the new database and the number of rows affected, or a
    violated constraint. *)
Definition exec (f : DB -> option (DB * Z)) : M Z :=
  db_call (fun db => match f db with
                     | Some (db', n) => (inr n, db')
                     | None => (inl ErrConstraint, db)
                     end).

(** [tx, err := s.db.BeginTx(...); defer tx.Rollback(); ...; tx.Commit()]. *)
Definition tx {A} (body : M A) : M A := fun s =>
  match db_call (fun db => (inr tt, db)) s with
  | (inl e, s1) => (inl e, s1)
  | (inr _, s1) =>
      match (x ← body; _ ← db_call (fun db => (inr tt, db)); mret x) s1 with
      | (inl e, s2) => (inl e, with_db s1.(st_db) s2)
      | (inr a, s2) => (inr a, s2)
      end
  end.

(** [if errors.Is(err, sql.ErrNoRows) { return e }]. *)
Definition on_no_rows {A} (e : error) (m : M A) : M A := fun s =>
  match m s with
  | (inl ErrNoRows, s') => (inl e, s')
  | r => r
  end.

(** [nowStr]: the current time at second precision. *)
Definition nowStr : M Z := t ← now_ns; mret (sec t).

(** [newID]: the prefix followed by 18 hex characters of randomness. *)
Definition newID (prefix : string) : M string :=
  b ← rand_read 9;
  mret (prefix +:+ hex_encode b).

(** ** Weakest preconditions *)

Definition wp {A} (m : M A) (s : St) (Q : error + A -> St -> Prop) : Prop :=
  Q (m s).1 (m s).2.

#[export] Instance wp_proper {A} (m : M A) (s : St) :
  Proper (pointwise_relation _ (pointwise_relation _ impl) ==> impl) (wp m s).
Proof. intros Q Q' HQ. apply HQ. Qed.

Section wp.
Context {A B : Type}.
Implicit Types (s : St) (Q : error + A -> St -> Prop).

Lemma wp_mono (m : M A) s Q Q' :
  wp m s Q -> (forall r s', Q r s' -> Q' r s') -> wp m s Q'.
Proof. unfold wp. auto. Qed.

Lemma wp_run (m : M A) s Q r s' : m s = (r, s') -> wp m s Q -> Q r s'.
Proof. unfold wp. by intros ->. Qed.

Lemma wp_ret (a : A) s Q : Q (inr a) s -> wp (mret a) s Q.
Proof. done. Qed.

Lemma wp_throw e s Q : Q (inl e) s -> wp (throw e) s Q.
Proof. done. Qed.

Lemma wp_bind (m : M B) (k : B -> M A) s Q :
  wp m s (fun r s' => match r with
                      | inl e => Q (inl e) s'
                      | inr b => wp (k b) s' Q
                      end) ->
  wp (m ≫= k) s Q.
Proof. unfold wp, mbind, M_bind. by destruct (m s) as [[e|b] s']. Qed.

Lemma wp_if (P : Prop) `{!Decision P} (m n : M A) s Q :
  (P -> wp m s Q) -> (~ P -> wp n s Q) -> wp (if decide P then m else n) s Q.
Proof. case_decide; auto. Qed.

(** A statement: it fails only if the schedule is not empty, and an empty
    schedule stays empty. *)
Lemma wp_db_call (f : DB -> (error + A) * DB) s Q :
  (st_faults s <> [] -> forall fs, Q (inl ErrDriver) (with_faults fs s)) ->
  (forall fs, (st_faults s = [] -> fs = []) ->
    Q (f (st_db s)).1 (with_db (f (st_db s)).2 (with_faults fs s))) ->
  wp (db_call f) s Q.
Proof.
  intros Hf Hok. unfold wp, db_call.
  destruct (st_faults s) as [|[] fs]; [|by apply Hf|];
    destruct (f (st_db s)) as [r db']; simpl in *; by apply Hok.
Qed.

Lemma wp_query (f : DB -> A) s Q :
  (st_faults s <> [] -> forall fs, Q (inl ErrDriver) (with_faults fs s)) ->
  (forall fs, (st_faults s = [] -> fs = []) ->
    Q (inr (f (st_db s))) (with_faults fs s)) ->
  wp (query f) s Q.
Proof. intros Hf Hok. apply wp_db_call; [done|]. apply Hok. Qed.

Lemma wp_query_row (f : DB -> option A) s Q :
  (st_faults s <> [] -> forall fs, Q (inl ErrDriver) (with_faults fs s)) ->
  (forall fs, (st_faults s = [] -> fs = []) ->
    match f (st_db s) with
    | Some a => Q (inr a) (with_faults fs s)
    | None => Q (inl ErrNoRows) (with_faults fs s)
    end) ->
  wp (query_row f) s Q.
Proof.
  intros Hf Hok. apply wp_db_call; [done|]. intros fs Hfs.
  specialize (Hok fs Hfs). simpl. by destruct (f (st_db s)).
Qed.

Lemma wp_try (m : M B) s (Q : error + (error + B) -> St -> Prop) :
  wp m s (fun r s' => Q (inr r) s') -> wp (try m) s Q.
Proof. unfold wp, try. by destruct (m s). Qed.
End wp.

Lemma wp_on_no_rows {A} (e : error) (m : M A) (s : St) (Q : error + A -> St -> Prop) :
  wp m s (fun r s' => match r with
                      | inl ErrNoRows => Q (inl e) s'
                      | _ => Q r s'
                      end) ->
  wp (on_no_rows e m) s Q.
Proof. unfold wp, on_no_rows. by destruct (m s) as [[[]|] s']. Qed.

Lemma wp_nowStr (s : St) (Q : error + Z -> St -> Prop) :
  Q (inr (sec (st_clock s))) s -> wp nowStr s Q.
Proof. done. Qed.

Lemma wp_now (s : St) (Q : error + Z -> St -> Prop) :
  Q (inr (st_clock s)) s -> wp now_ns s Q.
Proof. done. Qed.

Lemma wp_rand (n : nat) (s : St) (Q : error + bytes -> St -> Prop) :
  ((length (st_rnd s) < n)%nat -> Q (inl ErrRand) s) ->
  ((n <= length (st_rnd s))%nat ->
     Q (inr (take n (st_rnd s))) (with_rnd (drop n (st_rnd s)) s)) ->
  wp (rand_read n) s Q.
Proof. unfold wp, rand_read. intros. case_decide; simpl; auto with lia. Qed.

Lemma wp_exec (f : DB -> option (DB * Z)) (s : St) (Q : error + Z -> St -> Prop) :
  (st_faults s <> [] -> forall fs, Q (inl ErrDriver) (with_faults fs s)) ->
  (forall fs, (st_faults s = [] -> fs = []) ->
    match f (st_db s) with
    | Some (db', n) => Q (inr n) (with_db db' (with_faults fs s))
    | None => Q (inl ErrConstraint) (with_faults fs s)
    end) ->
  wp (exec f) s Q.
Proof.
  intros Hf Hok. apply wp_db_call; [done|]. intros fs Hfs.
  specialize (Hok fs Hfs). simpl. by destruct (f (st_db s)) as [[? ?]|].
Qed.

(** The identifier [newID] draws from the random bytes. *)
Definition fresh_id (prefix : string) (r : bytes) : string := prefix +:+ hex_encode (take 9 r).

Lemma wp_newID (prefix : string) (s : St) (Q : error + string -> St -> Prop) :
  ((length (st_rnd s) < 9)%nat -> Q (inl ErrRand) s) ->
  ((9 <= length (st_rnd s))%nat ->
     Q (inr (fresh_id prefix (st_rnd s))) (with_rnd (drop 9 (st_rnd s)) s)) ->
  wp (newID prefix) s Q.
Proof. intros. apply wp_bind, wp_rand; auto. Qed.

(** What must hold at the end of the body of a transaction started on [db0] for
    [Q] to hold after it: an error or a failed commit restores [db0]. *)
Definition commits {A} (db0 : DB) (Q : error + A -> St -> Prop) (r : error + A) (s' : St) : Prop :=
  match r with
  | inl e => Q (inl e) (with_db db0 s')
  | inr a =>
      (st_faults s' <> [] -> forall fs', Q (inl ErrDriver) (with_db db0 (with_faults fs' s'))) /\
      (forall fs', (st_faults s' = [] -> fs' = []) -> Q (inr a) (with_faults fs' s'))
  end.
#[global] Arguments commits {A} db0 Q !r s' /.

(** A transaction: whatever error its body, [BEGIN] or [COMMIT] meets, the
    database is the one the transaction started from. *)
Lemma wp_tx {A} (body : M A) (s : St) (Q : error + A -> St -> Prop) :
  (st_faults s <> [] -> forall fs, Q (inl ErrDriver) (with_faults fs s)) ->
  (forall fs, (st_faults s = [] -> fs = []) ->
    wp body (with_faults fs s) (commits (st_db s) Q)) ->
  wp (tx body) s Q.
Proof.
  intros Hf Hok. unfold wp, tx.
  pose proof (wp_db_call (fun db => (inr tt, db)) s (fun r s1 =>
    match r with inl e => Q (inl e) s1
    | inr _ => exists fs, (st_faults s = [] -> fs = []) /\ s1 = with_faults fs s end)) as Hb.
  unfold wp in Hb.
  destruct (db_call _ s) as [[e|[]] s1]; simpl in *; [by apply Hb; eauto|].
  destruct Hb as (fs & Hfs & ->); [by eauto|by eauto|].
  specialize (Hok fs Hfs). unfold wp in Hok. unfold mbind, M_bind.
  destruct (body (with_faults fs s)) as [[e|a] s2]; simpl in *; [done|].
  destruct Hok as [Hc Hd]. unfold db_call.
  destruct (st_faults s2) as [|[] fs2]; simpl in *;
    [by apply Hd|by apply Hc|by apply Hd].
Qed.

(** ** Outcomes *)

(** The result of a method that reads the clock but does not move it: the driver
    failed and the database is as it was, or [R] holds of the result and the new
    database. *)
Definition outcome {A} (s : St) (R : error + A -> DB -> Prop) (r : error + A) (s' : St)
  : Prop :=
  st_clock s' = st_clock s /\
  (st_faults s = [] -> st_faults s' = []) /\
  ((r = inl ErrDriver /\ st_faults s <> [] /\ st_db s' = st_db s) \/ R r (st_db s')).

(** A method implements a specification: a function of the database, of the
    clock and of the random bytes to come. *)
Definition implements {A} (m : M A) (spec : DB -> Z -> bytes -> (error + A) * DB) : Prop :=
  forall s, wp m s (outcome s (fun r db' =>
    (r, db') = spec (st_db s) (st_clock s) (st_rnd s))).

Lemma outcome_fault {A} (s s' : St) (R : error + A -> DB -> Prop) :
  st_clock s' = st_clock s -> st_faults s <> [] -> st_db s' = st_db s ->
  outcome s R (inl ErrDriver) s'.
Proof. intros ???. split; [done|]. split; [done|]. by left. Qed.

Lemma outcome_ok {A} (s s' : St) (R : error + A -> DB -> Prop) (r : error + A) :
  st_clock s' = st_clock s -> (st_faults s = [] -> st_faults s' = []) ->
  R r (st_db s') -> outcome s R r s'.
Proof. intros ???. split; [done|]. split; [done|]. by right. Qed.

Lemma outcome_mono {A} (s s' : St) (R R' : error + A -> DB -> Prop) (r : error + A) :
  outcome s R r s' -> (forall db', R r db' -> R' r db') -> outcome s R' r s'.
Proof. unfold outcome. intuition. Qed.

(** Without driver failures a method is exactly its specification. *)
Lemma implements_total {A} (m : M A) spec (s : St) :
  implements m spec -> st_faults s = [] ->
  ((m s).1, st_db (m s).2) = spec (st_db s) (st_clock s) (st_rnd s).
Proof.
  intros Hi Hf. destruct (Hi s) as (_ & _ & [(_ & ? & _)|H]); [done|exact H].
Qed.

(** With any driver failures, a method leaves the database as it was or as the
    specification says. *)
Lemma implements_db {A} (m : M A) spec (s : St) (r : error + A) (s' : St) :
  implements m spec -> m s = (r, s') ->
  (r = inl ErrDriver /\ st_db s' = st_db s) \/
  (r, st_db s') = spec (st_db s) (st_clock s) (st_rnd s).
Proof.
  intros Hi Hr. specialize (Hi s). unfold wp in Hi. rewrite Hr in Hi. simpl in Hi.
  destruct Hi as (_ & _ & [(-> & _ & ?)|H]); auto.
Qed.

(** ** Symbolic execution *)

(** One step of symbolic execution; the branch where the driver fails a statement
    comes with the hypothesis that the schedule was not empty. *)
Ltac wp_step :=
  lazymatch goal with
  | |- wp (mret _) _ _ => apply wp_ret
  | |- wp (throw _) _ _ => apply wp_throw
  | |- wp (mbind _ _) _ _ => apply wp_bind
  | |- wp (try _) _ _ => apply wp_try
  | |- wp (on_no_rows _ _) _ _ => apply wp_on_no_rows
  | |- wp now_ns _ _ => apply wp_now
  | |- wp nowStr _ _ => apply wp_nowStr
  | |- wp (newID _) _ _ => apply wp_newID; [intros ?Hrnd|intros ?Hrnd]
  | |- wp (rand_read _) _ _ => apply wp_rand; [intros ?Hrnd|intros ?Hrnd]
  | |- wp (query _) _ _ => apply wp_query; [intros ?Hnf ?fs|intros ?fs ?Hfs]
  | |- wp (query_row _) _ _ => apply wp_query_row; [intros ?Hnf ?fs|intros ?fs ?Hfs]
  | |- wp (exec _) _ _ => apply wp_exec; [intros ?Hnf ?fs|intros ?fs ?Hfs]
  | |- wp (tx _) _ _ => apply wp_tx; [intros ?Hnf ?fs|intros ?fs ?Hfs]
  | |- wp (if decide _ then _ else _) _ _ => apply wp_if; [intros|intros]
  end; simpl.

(** Close the branch of a failed statement. *)
Ltac wp_fault :=
  apply outcome_fault; simpl;
  [reflexivity | (let E := fresh in intros E; simpl in *; auto 10) | reflexivity].

(** Close a branch that ran to its end, leaving what it established. *)
Ltac wp_done := apply outcome_ok; simpl; [reflexivity | auto 10 | ].
