(* ===== verification/Crypto.v ===== *)
(** * Cryptographic primitives

    [crypto/sha256] and [crypto/ed25519] as an interface: the operations the
    source calls, and as a separate class what it relies on. Nothing below
    assumes that hashes never collide or that signatures cannot be forged. *)

From S2P Require Import Prelude Schema.

Class Crypto := {
  (** [sha256.Sum256]. *)
  sha256 : bytes -> bytes;
  (** [ed25519.PrivateKey.Public], [ed25519.Sign] and [ed25519.Verify]. *)
  ed25519_public : bytes -> bytes;
  ed25519_sign : bytes -> bytes -> bytes;
  ed25519_verify : bytes -> bytes -> bytes -> bool;
}.

Class CryptoLaws `(Crypto) := {
  sha256_length (b : bytes) : length (sha256 b) = 32;
  ed25519_public_length (k : bytes) : length (ed25519_public k) = PublicKeySize;
  ed25519_verify_sign (k msg : bytes) :
    ed25519_verify (ed25519_public k) msg (ed25519_sign k msg) = true;
  ed25519_sign_nonempty (k msg : bytes) : ed25519_sign k msg <> [];
}.

(** A concrete instance, to evaluate the definitions on examples: a digest is
    the first 32 bytes, padded, and a signature is the key and the message. *)
Module Toy.
Definition pad32 (b : bytes) : bytes := take 32 (b ++ replicate 32 x00).

#[export] Instance toy_crypto : Crypto := {|
  sha256 := pad32;
  ed25519_public := pad32;
  ed25519_sign k msg := pad32 k ++ msg;
  ed25519_verify pub msg sig := bool_decide (sig = pub ++ msg);
|}.

#[export] Instance toy_crypto_laws : CryptoLaws toy_crypto.
Proof.
  assert (forall b, length (pad32 b) = 32) as Hl.
  { intros b. unfold pad32. rewrite length_take, length_app, length_replicate. lia. }
  split; [exact Hl|exact Hl|intros k msg; simpl; by apply bool_decide_eq_true|].
  intros k msg E. apply (f_equal length) in E. revert E. simpl. rewrite length_app, Hl. lia.
Qed.
End Toy.
