(* ===== verification/Sigauth.v ===== *)
(** * The canonical form of a signed request ([internal/sigauth])

    The one byte string the client signs and the server verifies, and that it
    determines what was signed. *)

From S2P Require Import Prelude Encoding Schema Crypto.

(** Header names. *)
Definition HeaderDeviceID : string := "Sund-Device-Id".
Definition HeaderTimestamp : string := "Sund-Timestamp".
Definition HeaderNonce : string := "Sund-Nonce".
Definition HeaderSignature : string := "Sund-Signature".
Definition HeaderSenderKey : string := "Sund-Sender-Key".

Definition newline : string := String "010"%char EmptyString.

Definition SigningString `{Crypto} (method path timestamp nonce : string) (body : bytes) : bytes :=
  let sum := sha256 body in
  bytes_of_string (String.concat newline [method; path; timestamp; nonce; hex_encode sum]).

(** ** Reading the fields back *)

(** A field that cannot be confused with the separator. *)
Definition one_line (s : string) : Prop := x0a ∉ bytes_of_string s.

Lemma bytes_of_string_app (s t : string) :
  bytes_of_string (s +:+ t) = bytes_of_string s ++ bytes_of_string t.
Proof.
  unfold bytes_of_string, String.list_byte_of_string. induction s as [|c s IH]; [done|].
  simpl. by rewrite IH.
Qed.

Lemma bytes_of_string_inj (s t : string) : bytes_of_string s = bytes_of_string t -> s = t.
Proof.
  intros E. apply (f_equal string_of_bytes) in E. by rewrite !string_of_bytes_of_string in E.
Qed.

(** The first separator, and the last, are where they are. *)
Lemma split_first (x : byte) (a a' b b' : bytes) :
  x ∉ a -> x ∉ a' -> a ++ x :: b = a' ++ x :: b' -> a = a' /\ b = b'.
Proof.
  revert a'. induction a as [|y a IH]; intros [|y' a'] Ha Ha' E; simpl in E.
  - by injection E.
  - injection E as -> _. destruct Ha'. left.
  - injection E as <- _. destruct Ha. left.
  - injection E as -> E. apply not_elem_of_cons in Ha as [_ Ha], Ha' as [_ Ha'].
    by destruct (IH a' Ha Ha' E) as [-> ->].
Qed.

Lemma split_last (x : byte) (a a' b b' : bytes) :
  x ∉ b -> x ∉ b' -> a ++ x :: b = a' ++ x :: b' -> a = a' /\ b = b'.
Proof.
  intros Hb Hb' E. apply (f_equal reverse) in E. rewrite !reverse_app, !reverse_cons, <- !app_assoc in E.
  apply split_first in E as [E1 E2]; [|by rewrite elem_of_reverse..].
  split; by apply (inj reverse).
Qed.

Lemma SigningString_bytes `{Crypto} (method path timestamp nonce : string) (body : bytes) :
  SigningString method path timestamp nonce body =
  bytes_of_string method ++ x0a :: (((bytes_of_string path ++ x0a :: bytes_of_string timestamp) ++
    x0a :: bytes_of_string nonce) ++ x0a :: bytes_of_string (hex_encode (sha256 body))).
Proof.
  unfold SigningString. simpl. rewrite !bytes_of_string_app.
  change (bytes_of_string newline) with [x0a]. simpl. by rewrite <- !app_assoc.
Qed.

Lemma hex_one_line (b : bytes) : one_line (hex_encode b).
Proof.
  unfold one_line, bytes_of_string, String.list_byte_of_string. intros Hin.
  apply list_elem_of_fmap in Hin as (c & Hc & Hin).
  pose proof (hex_encode_chars b) as Hh. rewrite Forall_forall in Hh. apply Hh in Hin.
  assert (Forall (fun c => x0a <> byte_of_ascii c) hex_alphabet) as Ha
    by (apply (bool_decide_unpack _); by vm_compute).
  rewrite Forall_forall in Ha. by apply (Ha c).
Qed.

(** C33: the signed string determines the request: if the method, timestamp and nonce
    of two requests are single lines (as HTTP methods and headers are), equal
    signing strings mean equal method, path, timestamp, nonce and body digest,
    whatever bytes the paths contain. *)
Theorem signing_string_injective `{Crypto} (m m' p p' t t' n n' : string) (b b' : bytes) :
  one_line m -> one_line m' -> one_line t -> one_line t' -> one_line n -> one_line n' ->
  SigningString m p t n b = SigningString m' p' t' n' b' ->
  m = m' /\ p = p' /\ t = t' /\ n = n' /\ sha256 b = sha256 b'.
Proof.
  intros Hm Hm' Ht Ht' Hn Hn'. rewrite !SigningString_bytes. intros E.
  apply split_first in E as [Em E]; [|done|done].
  apply split_last in E as [E Eh]; [|apply hex_one_line..].
  apply split_last in E as [E En]; [|done|done].
  apply split_last in E as [Ep Et]; [|done|done].
  split_and!; try (by apply bytes_of_string_inj).
  by apply (inj hex_encode), bytes_of_string_inj.
Qed.

Lemma signing_string_injective_witness :
  "GET"%string = "GET"%string /\ "/v1/devices"%string = "/v1/devices"%string /\
  "t"%string = "t"%string /\ "n"%string = "n"%string /\
  sha256 (Crypto := Toy.toy_crypto) [] = sha256 (Crypto := Toy.toy_crypto) [].
Proof.
  apply (signing_string_injective (H := Toy.toy_crypto)); try reflexivity;
    apply (bool_decide_unpack _); by vm_compute.
Defined.
