(* ===== verification/Accounts.v ===== *)
(** * Accounts and invitations ([internal/store])

    Quota classes, provisioning of accounts, and the life of an invitation up to
    its consumption, which is [RegisterDevice] ([Devices]). *)

From S2P Require Import Prelude Encoding Clock Sql Schema StoreM Crypto.

Local Open Scope Z_scope.

(** ** Quota classes ([quota.go]) *)

Definition quotaStandardBytes : Z := Z.shiftl 64 20.
Definition quotaLargeBytes : Z := Z.shiftl 1 30.

Definition quotaClasses : gmap string Z :=
  {[ "standard"%string := quotaStandardBytes; "large"%string := quotaLargeBytes ]}.

Definition QuotaBytesForClass (class : string) : Z :=
  match quotaClasses !! class with
  | Some b => b
  | None => quotaStandardBytes
  end.

(** ** Accounts *)

Definition insert_account (a : Account) (db : DB) : option (DB * Z) :=
  t ← sql_insert (fun x => a_id x = a_id a) a db.(accounts);
  Some (set_accounts t db, 1).

Definition CreateAccount (quotaClass : string) (quotaBytes : Z) (adminMode : string)
  : M Account :=
  let quotaBytes :=
    if decide (quotaBytes <= 0) then QuotaBytesForClass quotaClass else quotaBytes in
  let adminMode := if decide (adminMode = ""%string) then AdminModeFlat else adminMode in
  if decide (adminMode <> AdminModeFlat /\ adminMode <> AdminModeManaged)
  then throw (Errorf "admin mode") else
  id ← newID "acc_";
  created ← nowStr;
  let a := mkAccount id created quotaClass "active" quotaBytes adminMode in
  _ ← exec (insert_account a);
  mret a.

Definition AccountQuotaBytes (accountID : string) : M Z :=
  on_no_rows ErrDeviceNotFound
    (query_row (fun db => a_quota_bytes <$> sql_first (fun a => a_id a = accountID) db.(accounts))).

(** ** Invitations *)

(** The struct the API sees: never the token. *)
Record Invitation := mkInvitation {
  inv_id : string;
  inv_account_id : string;
  inv_created : Z;
  inv_expires : Z;
  inv_grants_role : string;
}.

Definition insert_invitation (i : InvitationRow) (db : DB) : option (DB * Z) :=
  if decide (i_account_id i ∈ a_id <$> db.(accounts)) then
    t ← sql_insert (fun x => i_token_hash x = i_token_hash i) i db.(invitations);
    Some (set_invitations t db, 1)
  else None.

Definition inv_consume (i : InvitationRow) : InvitationRow :=
  mkInvitationRow i.(i_token_hash) i.(i_id) i.(i_account_id) i.(i_created) i.(i_expires)
    true i.(i_revoked) i.(i_grants_role).
Definition inv_revoke (i : InvitationRow) : InvitationRow :=
  mkInvitationRow i.(i_token_hash) i.(i_id) i.(i_account_id) i.(i_created) i.(i_expires)
    i.(i_consumed) true i.(i_grants_role).

(** Rows [ORDER BY created, id]. *)
Definition created_id_le {A} (created : A -> Z) (id : A -> string) (x y : A) : Prop :=
  created x < created y \/ (created x = created y /\ ~ text_lt (id y) (id x)).

#[export] Instance created_id_le_dec {A} (created : A -> Z) (id : A -> string) :
  RelDecision (created_id_le created id).
Proof. intros x y. unfold created_id_le. apply _. Defined.

Section crypto.
Context `{Crypto}.

Definition hashToken (token : string) : string :=
  hex_encode (sha256 (bytes_of_string token)).

Definition CreateInvitation (accountID : string) (ttl : Z) (grantsRole : string)
  : M (string * Invitation) :=
  raw ← rand_read 32;
  let token := base64_rawurl_encode raw in
  id ← newID "inv_";
  let grantsRole := if decide (grantsRole = ""%string) then RoleMember else grantsRole in
  if decide (grantsRole <> RoleAdmin /\ grantsRole <> RoleMember)
  then throw (Errorf "role") else
  mode ← on_no_rows ErrDeviceNotFound
    (query_row (fun db =>
       a_admin_mode <$> sql_first (fun a => a_id a = accountID) db.(accounts)));
  let grantsRole := if decide (mode <> AdminModeManaged) then RoleAdmin else grantsRole in
  now ← now_ns;
  let expires := now + ttl in
  _ ← exec (insert_invitation
              (mkInvitationRow (hashToken token) id accountID (sec now) (sec expires)
                 false false grantsRole));
  mret (token, mkInvitation id accountID (sec now) (sec expires) grantsRole).
End crypto.

(** An invitation a client can still act on at second [now]. *)
Definition outstanding (now : Z) (i : InvitationRow) : Prop :=
  i_consumed i = false /\ i_revoked i = false /\ i_expires i > now.

#[export] Instance outstanding_dec (now : Z) (i : InvitationRow) : Decision (outstanding now i).
Proof. unfold outstanding. apply _. Defined.

Definition ListInvitations (accountID : string) : M (list Invitation) :=
  now ← nowStr;
  query (fun db =>
    (fun i => mkInvitation (i_id i) (i_account_id i) (i_created i) (i_expires i) "") <$>
      sql_order (created_id_le i_created i_id)
        (filter (fun i => i_account_id i = accountID /\ outstanding now i) db.(invitations))).

Definition RevokeInvitation (accountID id : string) : M bool :=
  n ← exec (fun db =>
    let P i := i_id i = id /\ i_account_id i = accountID /\
               i_consumed i = false /\ i_revoked i = false in
    Some (set_invitations (sql_update P inv_revoke db.(invitations)) db,
          sql_count P db.(invitations)));
  mret (bool_decide (n = 1)).
