(* ===== verification/Devices.v ===== *)
(** * Devices ([internal/store/store.go])

    Registration against an invitation, lookup, revocation, roles and the
    last-admin rule, and the device-level storage ceiling. *)

From S2P Require Import Prelude Encoding Clock Sql Schema StoreM Crypto Accounts.

Local Open Scope Z_scope.

(** ** Row updates *)

Definition dev_touch (t : Z) (d : Device) : Device :=
  mkDevice d.(d_id) d.(d_account_id) d.(d_public_key) d.(d_push_endpoint) d.(d_capabilities)
    d.(d_created) t d.(d_revoked) d.(d_role) d.(d_quota_bytes).
Definition dev_set_push (e : string) (d : Device) : Device :=
  mkDevice d.(d_id) d.(d_account_id) d.(d_public_key) e d.(d_capabilities)
    d.(d_created) d.(d_last_seen) d.(d_revoked) d.(d_role) d.(d_quota_bytes).
Definition dev_revoke (d : Device) : Device :=
  mkDevice d.(d_id) d.(d_account_id) d.(d_public_key) "" d.(d_capabilities)
    d.(d_created) d.(d_last_seen) true d.(d_role) d.(d_quota_bytes).
Definition dev_set_role (r : string) (d : Device) : Device :=
  mkDevice d.(d_id) d.(d_account_id) d.(d_public_key) d.(d_push_endpoint) d.(d_capabilities)
    d.(d_created) d.(d_last_seen) d.(d_revoked) r d.(d_quota_bytes).
Definition dev_set_quota (n : Z) (d : Device) : Device :=
  mkDevice d.(d_id) d.(d_account_id) d.(d_public_key) d.(d_push_endpoint) d.(d_capabilities)
    d.(d_created) d.(d_last_seen) d.(d_revoked) d.(d_role) n.
Definition q_retire (q : Queue) : Queue :=
  mkQueue q.(q_recipient_id) q.(q_sender_id) q.(q_owner_device) q.(q_recipient_key)
    q.(q_sender_key) q.(q_created) true q.(q_quota_bytes).

(** [UPDATE devices SET f WHERE P], with the number of rows affected. *)
Definition update_devices (P : Device -> Prop) `{!forall d, Decision (P d)}
    (f : Device -> Device) (db : DB) : option (DB * Z) :=
  Some (set_devices (sql_update P f db.(devices)) db, sql_count P db.(devices)).

(** ** Registration *)

Definition insert_device (d : Device) (db : DB) : option (DB * Z) :=
  if decide (d_account_id d ∈ a_id <$> db.(accounts)) then
    t ← sql_insert (fun x => d_id x = d_id d) d db.(devices);
    Some (set_devices t db, 1)
  else None.

(** [UPDATE invitations SET consumed=1 WHERE token_hash=? AND consumed=0 AND
    revoked=0 AND expires > ?]. *)
Definition redeemable (hash : string) (now : Z) (i : InvitationRow) : Prop :=
  i_token_hash i = hash /\ i_consumed i = false /\ i_revoked i = false /\ i_expires i > now.

#[export] Instance redeemable_dec (hash : string) (now : Z) (i : InvitationRow) :
  Decision (redeemable hash now i).
Proof. unfold redeemable. apply _. Defined.

Definition consume_invitation (hash : string) (now : Z) (db : DB) : option (DB * Z) :=
  Some (set_invitations (sql_update (redeemable hash now) inv_consume db.(invitations)) db,
        sql_count (redeemable hash now) db.(invitations)).

(** [SELECT i.account_id, i.grants_role, a.admin_mode FROM invitations i JOIN
    accounts a ON i.account_id = a.id WHERE i.token_hash=?]. *)
Definition invitation_grant (hash : string) (db : DB) : option (string * string * string) :=
  head (i ← filter (fun i => i_token_hash i = hash) db.(invitations);
        a ← filter (fun a => a_id a = i_account_id i) db.(accounts);
        [(i_account_id i, i_grants_role i, a_admin_mode a)]).

Section crypto.
Context `{Crypto}.

Definition RegisterDevice (token : string) (pub : bytes) (pushEndpoint capabilities : string)
  : M Device :=
  if decide (length pub <> PublicKeySize) then throw (Errorf "public key") else
  tx (now ← nowStr;
      let hash := hashToken token in
      n ← exec (consume_invitation hash now);
      if decide (n <> 1) then throw ErrInvalidInvitation else
      '(accountID, grantsRole, adminMode) ← query_row (invitation_grant hash);
      role ← (if decide (adminMode = AdminModeManaged) then
                everRegistered ← query (fun db =>
                  sql_count (fun d => d_account_id d = accountID) db.(devices));
                mret (if decide (everRegistered = 0) then RoleAdmin else grantsRole)
              else mret RoleAdmin);
      id ← newID "dev_";
      let d := mkDevice id accountID pub pushEndpoint capabilities now now false role 0 in
      _ ← exec (insert_device d);
      mret d).
End crypto.

(** ** Lookup *)

Definition GetDevice (id : string) : M Device :=
  on_no_rows ErrDeviceNotFound
    (query_row (fun db => sql_first (fun d => d_id d = id) db.(devices))).

Definition ListDevices (accountID : string) : M (list Device) :=
  query (fun db =>
    sql_order (created_id_le d_created d_id)
      (filter (fun d => d_account_id d = accountID) db.(devices))).

Definition TouchLastSeen (id : string) : M unit :=
  now ← nowStr;
  _ ← exec (update_devices (fun d => d_id d = id) (dev_touch now));
  mret tt.

Definition UpdatePushEndpoint (id endpoint : string) : M unit :=
  _ ← exec (update_devices (fun d => d_id d = id) (dev_set_push endpoint));
  mret tt.

(** ** Roles *)

Definition RequireAdmin (dev : Device) : option error :=
  if decide (d_role dev <> RoleAdmin) then Some ErrNotAdmin else None.

Definition assertNotLastAdmin (accountID deviceID : string) (allowIfAccountEmpties : bool)
  : M unit :=
  otherAdmins ← query (fun db =>
    sql_count (fun d => d_account_id d = accountID /\ d_revoked d = false /\
                        d_role d = RoleAdmin /\ d_id d <> deviceID) db.(devices));
  if decide (otherAdmins > 0) then mret tt else
  if negb allowIfAccountEmpties then throw ErrLastAdmin else
  otherDevices ← query (fun db =>
    sql_count (fun d => d_account_id d = accountID /\ d_revoked d = false /\
                        d_id d <> deviceID) db.(devices));
  if decide (otherDevices > 0) then throw ErrLastAdmin else mret tt.

Definition SetDeviceRole (accountID deviceID role : string) : M unit :=
  if decide (role <> RoleAdmin /\ role <> RoleMember) then throw (Errorf "role") else
  tx (mode ← query_row (fun db =>
        a_admin_mode <$> sql_first (fun a => a_id a = accountID) db.(accounts));
      if decide (mode <> AdminModeManaged) then throw ErrRoleChangeNotApplicable else
      current ← on_no_rows ErrDeviceNotFound (query_row (fun db =>
        d_role <$> sql_first (fun d => d_id d = deviceID /\ d_account_id d = accountID /\
                                       d_revoked d = false) db.(devices)));
      _ ← (if decide (current = RoleAdmin /\ role = RoleMember)
           then assertNotLastAdmin accountID deviceID false else mret tt);
      _ ← exec (update_devices (fun d => d_id d = deviceID) (dev_set_role role));
      mret tt).

Definition PromoteDevice (deviceID : string) : M unit :=
  mode ← on_no_rows ErrDeviceNotFound (query_row (fun db =>
    head (d ← filter (fun d => d_id d = deviceID /\ d_revoked d = false) db.(devices);
          a ← filter (fun a => a_id a = d_account_id d) db.(accounts);
          [a_admin_mode a])));
  if decide (mode <> AdminModeManaged) then throw ErrRoleChangeNotApplicable else
  _ ← exec (update_devices (fun d => d_id d = deviceID) (dev_set_role RoleAdmin));
  mret tt.

(** ** Revocation *)

(** [DELETE FROM messages WHERE queue_id IN (SELECT recipient_id FROM queues
    WHERE owner_device=?)]. *)
Definition owned_queue_ids (id : string) (db : DB) : list string :=
  q_recipient_id <$> filter (fun q => q_owner_device q = id) db.(queues).

Definition RevokeDevice (callerID id : string) : M unit :=
  tx (_ ← (if decide (callerID <> id) then
             '(accountID, role, revoked) ← on_no_rows ErrDeviceNotFound (query_row (fun db =>
               (fun d => (d_account_id d, d_role d, d_revoked d)) <$>
                 sql_first (fun d => d_id d = id) db.(devices)));
             if decide (revoked = false /\ role = RoleAdmin)
             then assertNotLastAdmin accountID id true else mret tt
           else mret tt);
      _ ← exec (fun db =>
        let P m := m_queue_id m ∈ owned_queue_ids id db in
        Some (set_messages (sql_delete P db.(messages)) db, sql_count P db.(messages)));
      _ ← exec (fun db =>
        let P q := q_owner_device q = id in
        Some (set_queues (sql_update P q_retire db.(queues)) db, sql_count P db.(queues)));
      _ ← exec (fun db =>
        let P b := b_device_id b = id in
        Some (set_bundles (sql_delete P db.(bundles)) db, sql_count P db.(bundles)));
      _ ← exec (update_devices (fun d => d_id d = id) dev_revoke);
      mret tt).

(** ** Storage ceiling *)

Definition SetDeviceQuota (deviceID : string) (n : Z) : M unit :=
  k ← exec (update_devices (fun d => d_id d = deviceID /\ d_revoked d = false)
              (dev_set_quota n));
  if decide (k = 0) then throw ErrQuotaNotChanged else mret tt.
