(* ===== verification/Queues.v ===== *)
(** * Queues and messages ([internal/store/queue.go])

    Creation of queues, binding of the sender key, storage accounting and the
    three ceilings, delivery, acknowledgement, retirement and expiry. *)

From S2P Require Import Prelude Encoding Clock Sql Schema StoreM Devices.

Local Open Scope Z_scope.

(** The struct the API sees. *)
Record Message := mkMessage {
  msg_id : string;
  msg_queue_id : string;
  msg_payload : bytes;
  msg_received_at : Z;
  msg_expires : Z;
}.

(** ** Row updates *)

Definition q_bind (key : bytes) (q : Queue) : Queue :=
  mkQueue q.(q_recipient_id) q.(q_sender_id) q.(q_owner_device) q.(q_recipient_key)
    (Some key) q.(q_created) q.(q_retired) q.(q_quota_bytes).
Definition q_set_quota (n : Z) (q : Queue) : Queue :=
  mkQueue q.(q_recipient_id) q.(q_sender_id) q.(q_owner_device) q.(q_recipient_key)
    q.(q_sender_key) q.(q_created) q.(q_retired) n.

Definition update_queues (P : Queue -> Prop) `{!forall q, Decision (P q)}
    (f : Queue -> Queue) (db : DB) : option (DB * Z) :=
  Some (set_queues (sql_update P f db.(queues)) db, sql_count P db.(queues)).

Definition delete_messages (P : MessageRow -> Prop) `{!forall m, Decision (P m)}
    (db : DB) : option (DB * Z) :=
  Some (set_messages (sql_delete P db.(messages)) db, sql_count P db.(messages)).

(** ** Creation and lookup *)

Definition insert_queue (q : Queue) (db : DB) : option (DB * Z) :=
  if decide (q_owner_device q ∈ d_id <$> db.(devices)) then
    t ← sql_insert (fun x => q_recipient_id x = q_recipient_id q \/
                             q_sender_id x = q_sender_id q) q db.(queues);
    Some (set_queues t db, 1)
  else None.

Definition CreateQueue (ownerDevice : string) (recipientKey : bytes) : M Queue :=
  if decide (length recipientKey <> PublicKeySize) then throw (Errorf "recipient key") else
  recipientID ← newID "rcp_";
  senderID ← newID "snd_";
  created ← nowStr;
  let q := mkQueue recipientID senderID ownerDevice recipientKey None created false 0 in
  _ ← exec (insert_queue q);
  mret q.

Definition GetQueueByRecipient (recipientID : string) : M Queue :=
  on_no_rows ErrQueueNotFound
    (query_row (fun db => sql_first (fun q => q_recipient_id q = recipientID) db.(queues))).

Definition GetQueueBySender (senderID : string) : M Queue :=
  on_no_rows ErrQueueNotFound
    (query_row (fun db => sql_first (fun q => q_sender_id q = senderID) db.(queues))).

(** ** Binding, retirement and the queue ceiling *)

(** The queue a first SEND may bind. *)
Definition bindable (senderID : string) (q : Queue) : Prop :=
  q_sender_id q = senderID /\ q_sender_key q = None /\ q_retired q = false.

#[export] Instance bindable_dec (senderID : string) (q : Queue) : Decision (bindable senderID q).
Proof. unfold bindable. apply _. Defined.

Definition BindSenderKey (senderID : string) (key : bytes) : M bool :=
  if decide (length key <> PublicKeySize) then throw (Errorf "sender key") else
  n ← exec (update_queues (bindable senderID) (q_bind key));
  mret (bool_decide (n = 1)).

Definition RetireQueue (recipientID : string) : M unit :=
  tx (_ ← exec (delete_messages (fun m => m_queue_id m = recipientID));
      _ ← exec (update_queues (fun q => q_recipient_id q = recipientID) q_retire);
      mret tt).

Definition SetQueueQuota (recipientID : string) (n : Z) : M unit :=
  k ← exec (update_queues (fun q => q_recipient_id q = recipientID /\ q_retired q = false)
              (q_set_quota n));
  if decide (k = 0) then throw ErrQuotaNotChanged else mret tt.

(** ** Storage accounting *)

(** [LENGTH(payload)]. *)
Definition m_size (m : MessageRow) : Z := Z.of_nat (length (m_payload m)).

(** [messages m JOIN queues q ON m.queue_id = q.recipient_id]. *)
Definition messages_queues (db : DB) : list (MessageRow * Queue) :=
  m ← db.(messages);
  q ← filter (fun q => q_recipient_id q = m_queue_id m) db.(queues);
  [(m, q)].

(** [... JOIN devices d ON q.owner_device = d.id]. *)
Definition messages_queues_devices (db : DB) : list (MessageRow * Queue * Device) :=
  mq ← messages_queues db;
  d ← filter (fun d => d_id d = q_owner_device mq.2) db.(devices);
  [(mq, d)].

(** The live payload totals the three ceilings bound: of a queue, of the queues
    of a device, of the devices of an account. *)
Definition queue_bytes (recipientID : string) (now : Z) (db : DB) : Z :=
  sql_sum m_size
    (filter (fun m => m_queue_id m = recipientID /\ m_expires m > now) db.(messages)).

Definition device_bytes (deviceID : string) (now : Z) (db : DB) : Z :=
  sql_sum (fun mq => m_size mq.1)
    (filter (fun mq => q_owner_device mq.2 = deviceID /\ m_expires mq.1 > now)
       (messages_queues db)).

Definition account_bytes (accountID : string) (now : Z) (db : DB) : Z :=
  sql_sum (fun mqd => m_size mqd.1.1)
    (filter (fun mqd => d_account_id mqd.2 = accountID /\ m_expires mqd.1.1 > now)
       (messages_queues_devices db)).

Definition DeviceStoredBytes (deviceID : string) : M Z :=
  now ← nowStr;
  query (device_bytes deviceID now).

(** ** Storing a message *)

(** [SELECT d.account_id, q.owner_device, q.quota_bytes, d.quota_bytes,
    a.quota_bytes FROM queues q JOIN devices d ... JOIN accounts a ... WHERE
    q.recipient_id = ?]. *)
Definition queue_ceilings (recipientID : string) (db : DB)
  : option (string * string * Z * Z * Z) :=
  head (q ← filter (fun q => q_recipient_id q = recipientID) db.(queues);
        d ← filter (fun d => d_id d = q_owner_device q) db.(devices);
        a ← filter (fun a => a_id a = d_account_id d) db.(accounts);
        [(d_account_id d, q_owner_device q, q_quota_bytes q, d_quota_bytes d, a_quota_bytes a)]).

(** One level of the quota check; 0 or less is no ceiling. *)
Definition check_ceiling (quota size : Z) (used : DB -> Z) : M unit :=
  if decide (quota > 0) then
    u ← query used;
    if decide (wrap64 (u + size) > quota) then throw ErrQuotaExceeded else mret tt
  else mret tt.

Definition insert_message (id recipientID : string) (payload : bytes) (received expires : Z)
    (db : DB) : option (DB * Z) :=
  if decide (recipientID ∈ q_recipient_id <$> db.(queues)) then
    let seq := db.(messages_seq) + 1 in
    t ← sql_insert (fun x => m_id x = id)
          (mkMessageRow seq id recipientID payload received expires) db.(messages);
    Some (set_messages_seq seq (set_messages t db), 1)
  else None.

Definition AppendMessage (recipientID : string) (payload : bytes) (ttl : Z) : M Message :=
  id ← newID "msg_";
  now ← now_ns;
  let expires := now + ttl in
  tx ('(accountID, ownerDevice, queueQuota, deviceQuota, accountQuota) ←
        on_no_rows ErrQueueNotFound (query_row (queue_ceilings recipientID));
      let nowS := sec now in
      let size := Z.of_nat (length payload) in
      _ ← check_ceiling queueQuota size (queue_bytes recipientID nowS);
      _ ← check_ceiling deviceQuota size (device_bytes ownerDevice nowS);
      _ ← check_ceiling accountQuota size (account_bytes accountID nowS);
      _ ← exec (insert_message id recipientID payload (sec now) (sec expires));
      mret (mkMessage id recipientID payload (sec now) (sec expires))).

(** ** Delivery, acknowledgement, expiry *)

Definition seq_le (x y : MessageRow) : Prop := m_seq x <= m_seq y.

#[export] Instance seq_le_dec : RelDecision seq_le.
Proof. intros x y. unfold seq_le. apply _. Defined.

Definition to_message (m : MessageRow) : Message :=
  mkMessage (m_id m) (m_queue_id m) (m_payload m) (m_received_at m) (m_expires m).

Definition DrainMessages (recipientID : string) : M (list Message) :=
  now ← nowStr;
  _ ← exec (delete_messages (fun m => m_queue_id m = recipientID /\ m_expires m <= now));
  query (fun db =>
    to_message <$> sql_order seq_le
      (filter (fun m => m_queue_id m = recipientID) db.(messages))).

Definition DeleteMessages (recipientID : string) (ids : list string) : M Z :=
  if decide (length ids = 0%nat) then mret 0 else
  exec (delete_messages (fun m => m_queue_id m = recipientID /\ m_id m ∈ ids)).

Definition PurgeExpired : M Z :=
  now ← nowStr;
  exec (delete_messages (fun m => m_expires m <= now)).
