(* ===== verification/Blobs.v ===== *)
(** * Opaque blobs: key bundles and administrative statements

    [internal/store/bundle.go] and the statement log of
    [internal/store/store.go]. *)

From S2P Require Import Prelude Clock Sql Schema StoreM.

Local Open Scope Z_scope.

(** ** Key bundles *)

(** [INSERT ... ON CONFLICT(device_id) DO UPDATE]. *)
Definition upsert_bundle (b : Bundle) (db : DB) : option (DB * Z) :=
  if decide (b_device_id b ∈ d_id <$> db.(devices)) then
    let P x := b_device_id x = b_device_id b in
    let t := if decide (sql_count P db.(bundles) = 0)
             then db.(bundles) ++ [b]
             else sql_update P (fun _ => b) db.(bundles) in
    Some (set_bundles t db, 1)
  else None.

Definition SetBundle (deviceID : string) (blob : bytes) : M unit :=
  now ← nowStr;
  _ ← exec (upsert_bundle (mkBundle deviceID blob now));
  mret tt.

Definition GetBundle (deviceID : string) : M (bytes * Z) :=
  on_no_rows ErrBundleNotFound
    (query_row (fun db =>
       (fun b => (b_blob b, b_updated b)) <$>
         sql_first (fun b => b_device_id b = deviceID) db.(bundles))).

(** ** Administrative statements *)

Definition MaxStatementBytes : Z := Z.shiftl 4 10.
Definition MaxStatementsPerAccount : Z := 256.

Record Statement := mkStatement {
  st_seq : Z;
  st_blob : bytes;
  st_created : Z;
}.

(** The statements of an account. *)
Definition account_log (accountID : string) (db : DB) : list StatementRow :=
  filter (fun s => s_account_id s = accountID) db.(statements).

(** [COALESCE(MAX(seq), 0)] of the account's statements. *)
Definition max_seq (accountID : string) (db : DB) : Z :=
  match s_seq <$> account_log accountID db with
  | [] => 0
  | x :: l => foldr Z.max x l
  end.

Definition insert_statement (s : StatementRow) (db : DB) : option (DB * Z) :=
  if decide (s_account_id s ∈ a_id <$> db.(accounts)) then
    t ← sql_insert (fun x => s_account_id x = s_account_id s /\ s_seq x = s_seq s) s
          db.(statements);
    Some (set_statements t db, 1)
  else None.

Definition AppendStatement (accountID : string) (blob : bytes) : M Statement :=
  if decide (length blob = 0%nat) then throw (Errorf "statement: empty") else
  if decide (Z.of_nat (length blob) > MaxStatementBytes) then throw ErrStatementTooLarge else
  tx (next ← query (fun db => max_seq accountID db + 1);
      created ← nowStr;
      _ ← exec (insert_statement (mkStatementRow accountID next blob created));
      _ ← exec (fun db =>
        let P s := s_account_id s = accountID /\ s_seq s <= next - MaxStatementsPerAccount in
        Some (set_statements (sql_delete P db.(statements)) db,
              sql_count P db.(statements)));
      mret (mkStatement next blob created)).

Definition stmt_seq_le (x y : StatementRow) : Prop := s_seq x <= s_seq y.

#[export] Instance stmt_seq_le_dec : RelDecision stmt_seq_le.
Proof. intros x y. unfold stmt_seq_le. apply _. Defined.

Definition ListStatements (accountID : string) (since : Z) : M (list Statement) :=
  query (fun db =>
    (fun s => mkStatement (s_seq s) (s_blob s) (s_created s)) <$>
      sql_order stmt_seq_le
        (filter (fun s => s_account_id s = accountID /\ s_seq s > since) db.(statements))).
