(* ===== verification/Steps.v ===== *)
(** * The store as an abstract transition system

    What the store promises, free of statements, transactions and driver errors:
    the events that change the database, each with the condition under which it
    may happen. [Refine] shows that every method of the store is one of these
    events or no change at all; the invariants ([Invariants]) are proved here, by
    rule induction. *)

From S2P Require Import Prelude Clock Sql Schema StoreM Crypto Accounts Devices Queues Blobs.

Local Open Scope Z_scope.

(** ** Vocabulary *)

Definition is_role (r : string) : Prop := r = RoleAdmin \/ r = RoleMember.
Definition is_mode (m : string) : Prop := m = AdminModeFlat \/ m = AdminModeManaged.

Definition live (d : Device) : Prop := d_revoked d = false.

(** A live admin of account [acc]. *)
Definition live_admin (acc : string) (d : Device) : Prop :=
  d_account_id d = acc /\ live d /\ d_role d = RoleAdmin.

#[export] Instance live_dec (d : Device) : Decision (live d).
Proof. unfold live. apply _. Defined.
#[export] Instance live_admin_dec (acc : string) (d : Device) : Decision (live_admin acc d).
Proof. unfold live_admin. apply _. Defined.

(** Taking device [id] out of the admins of [acc] does not strand the account:
    another live admin remains, or, where that is allowed, no other live device. *)
Definition not_last_admin (acc id : string) (allow_empty : bool) (db : DB) : Prop :=
  (exists d, d ∈ db.(devices) /\ live_admin acc d /\ d_id d <> id) \/
  (allow_empty = true /\
   forall d, d ∈ db.(devices) -> d_account_id d = acc -> live d -> d_id d = id).

(** The role a device registering against invitation [i] of account [a] gets. *)
Definition registration_role (a : Account) (i : InvitationRow) (db : DB) : string :=
  if decide (a_admin_mode a = AdminModeManaged) then
    if decide (Forall (fun d => d_account_id d <> a_id a) db.(devices))
    then RoleAdmin else i_grants_role i
  else RoleAdmin.

(** A change of a device row that keeps its identity, key, role and life. *)
Definition keeps_device (f : Device -> Device) : Prop :=
  forall d, d_id (f d) = d_id d /\ d_account_id (f d) = d_account_id d /\
    d_public_key (f d) = d_public_key d /\ d_role (f d) = d_role d /\
    d_revoked (f d) = d_revoked d /\ d_created (f d) = d_created d.

(** The database after device [id] is revoked. *)
Definition revoked_db (id : string) (db : DB) : DB :=
  mkDB db.(accounts) db.(invitations)
    (sql_update (fun d => d_id d = id) dev_revoke db.(devices))
    (sql_update (fun q => q_owner_device q = id) q_retire db.(queues))
    (sql_delete (fun m => m_queue_id m ∈ owned_queue_ids id db) db.(messages))
    (sql_delete (fun b => b_device_id b = id) db.(bundles))
    db.(statements) db.(messages_seq).

(** The database after queue [id] is retired. *)
Definition retired_db (id : string) (db : DB) : DB :=
  mkDB db.(accounts) db.(invitations) db.(devices)
    (sql_update (fun q => q_recipient_id q = id) q_retire db.(queues))
    (sql_delete (fun m => m_queue_id m = id) db.(messages))
    db.(bundles) db.(statements) db.(messages_seq).

(** A ceiling of [quota] bytes admits [total]; 0 or less is no ceiling. *)
Definition within (quota total : Z) : Prop := quota <= 0 \/ wrap64 total <= quota.

(** What a message of [size] bytes on queue [rid] must fit, at second [now]. *)
Definition fits (rid : string) (size now : Z) (db : DB) : Prop :=
  exists q d a,
    q ∈ db.(queues) /\ q_recipient_id q = rid /\
    d ∈ db.(devices) /\ d_id d = q_owner_device q /\
    a ∈ db.(accounts) /\ a_id a = d_account_id d /\
    within (q_quota_bytes q) (queue_bytes rid now db + size) /\
    within (d_quota_bytes d) (device_bytes (d_id d) now db + size) /\
    within (a_quota_bytes a) (account_bytes (a_id a) now db + size).

(** The database after message [(id, rid, payload, received, expires)] is stored. *)
Definition appended_db (id rid : string) (payload : bytes) (received expires : Z) (db : DB) : DB :=
  let seq := db.(messages_seq) + 1 in
  set_messages_seq seq
    (set_messages (db.(messages) ++ [mkMessageRow seq id rid payload received expires]) db).

(** The database after a statement is appended to an account's log. *)
Definition logged_db (acc : string) (blob : bytes) (created : Z) (db : DB) : DB :=
  let next := max_seq acc db + 1 in
  set_statements
    (sql_delete (fun s => s_account_id s = acc /\ s_seq s <= next - MaxStatementsPerAccount)
       (db.(statements) ++ [mkStatementRow acc next blob created])) db.

(** ** Events *)

Inductive event : Type :=
  | EvCreateAccount (acc : string)
  | EvInvite (hash acc : string)
  | EvRevokeInvitation (acc : string)
  | EvRegister (hash dev : string)
  | EvUpdateDevice (dev : string)
  | EvSetRole (acc dev role : string)
  | EvRevoke (caller dev : string)
  | EvCreateQueue (rid owner : string)
  | EvBind (sid : string) (key : bytes)
  | EvQueueQuota (rid : string)
  | EvRetire (rid : string)
  | EvAppend (rid : string) (payload : bytes)
  | EvExpire
  | EvAck (rid : string) (ids : list string)
  | EvBundle (dev : string)
  | EvLog (acc : string).

(** [db_step now db ev db']: event [ev] happens at second [now]. *)
Inductive db_step (now : Z) (db : DB) : event -> DB -> Prop :=
  | step_create_account (a : Account) :
      Forall (fun x => a_id x <> a_id a) db.(accounts) ->
      is_mode (a_admin_mode a) -> 0 < a_quota_bytes a ->
      db_step now db (EvCreateAccount (a_id a)) (set_accounts (db.(accounts) ++ [a]) db)
  | step_invite (i : InvitationRow) (a : Account) :
      a ∈ db.(accounts) -> i_account_id i = a_id a ->
      Forall (fun x => i_token_hash x <> i_token_hash i) db.(invitations) ->
      i_consumed i = false -> i_revoked i = false -> is_role (i_grants_role i) ->
      (a_admin_mode a <> AdminModeManaged -> i_grants_role i = RoleAdmin) ->
      db_step now db (EvInvite (i_token_hash i) (a_id a))
        (set_invitations (db.(invitations) ++ [i]) db)
  | step_revoke_invitation (id acc : string) :
      db_step now db (EvRevokeInvitation acc)
        (set_invitations (sql_update (fun i => i_id i = id /\ i_account_id i = acc /\
           i_consumed i = false /\ i_revoked i = false) inv_revoke db.(invitations)) db)
  | step_register (hash : string) (i : InvitationRow) (a : Account) (d : Device) :
      i ∈ db.(invitations) -> redeemable hash now i ->
      a ∈ db.(accounts) -> a_id a = i_account_id i ->
      Forall (fun x => d_id x <> d_id d) db.(devices) ->
      d_account_id d = a_id a -> length (d_public_key d) = PublicKeySize ->
      d_revoked d = false -> d_role d = registration_role a i db ->
      d_quota_bytes d = 0 -> d_created d = now ->
      db_step now db (EvRegister hash (d_id d))
        (set_devices (db.(devices) ++ [d])
           (set_invitations (sql_update (redeemable hash now) inv_consume db.(invitations)) db))
  | step_update_device (id : string) (P : Device -> Prop) `{!forall d, Decision (P d)}
      (f : Device -> Device) :
      keeps_device f -> (forall d, P d -> d_id d = id) ->
      db_step now db (EvUpdateDevice id) (set_devices (sql_update P f db.(devices)) db)
  | step_set_role (acc id role : string) (d : Device) (a : Account) :
      is_role role ->
      a ∈ db.(accounts) -> a_id a = acc -> a_admin_mode a = AdminModeManaged ->
      d ∈ db.(devices) -> d_id d = id -> d_account_id d = acc -> live d ->
      (role = RoleMember -> d_role d = RoleAdmin -> not_last_admin acc id false db) ->
      db_step now db (EvSetRole acc id role)
        (set_devices (sql_update (fun d => d_id d = id) (dev_set_role role) db.(devices)) db)
  | step_revoke (caller id : string) :
      (caller <> id -> exists d, d ∈ db.(devices) /\ d_id d = id /\
         (live d -> d_role d = RoleAdmin -> not_last_admin (d_account_id d) id true db)) ->
      db_step now db (EvRevoke caller id) (revoked_db id db)
  | step_create_queue (q : Queue) :
      q_owner_device q ∈ d_id <$> db.(devices) ->
      Forall (fun x => ~ (q_recipient_id x = q_recipient_id q \/
                          q_sender_id x = q_sender_id q)) db.(queues) ->
      length (q_recipient_key q) = PublicKeySize -> q_sender_key q = None ->
      q_retired q = false ->
      db_step now db (EvCreateQueue (q_recipient_id q) (q_owner_device q)) (set_queues (db.(queues) ++ [q]) db)
  | step_bind (sid : string) (key : bytes) :
      length key = PublicKeySize ->
      db_step now db (EvBind sid key)
        (set_queues (sql_update (bindable sid) (q_bind key) db.(queues)) db)
  | step_queue_quota (rid : string) (n : Z) :
      db_step now db (EvQueueQuota rid)
        (set_queues (sql_update (fun q => q_recipient_id q = rid /\ q_retired q = false)
           (q_set_quota n) db.(queues)) db)
  | step_retire (rid : string) : db_step now db (EvRetire rid) (retired_db rid db)
  | step_append (id rid : string) (payload : bytes) (received expires : Z) :
      Forall (fun x => m_id x <> id) db.(messages) ->
      fits rid (Z.of_nat (length payload)) now db ->
      db_step now db (EvAppend rid payload) (appended_db id rid payload received expires db)
  | step_expire (P : MessageRow -> Prop) `{!forall m, Decision (P m)} :
      (forall m, P m -> m_expires m <= now) ->
      db_step now db EvExpire (set_messages (sql_delete P db.(messages)) db)
  | step_ack (rid : string) (ids : list string) :
      db_step now db (EvAck rid ids)
        (set_messages (sql_delete (fun m => m_queue_id m = rid /\ m_id m ∈ ids) db.(messages)) db)
  | step_bundle (b : Bundle) (db' : DB) (n : Z) :
      upsert_bundle b db = Some (db', n) ->
      db_step now db (EvBundle (b_device_id b)) db'
  | step_log (acc : string) (blob : bytes) (created : Z) :
      acc ∈ a_id <$> db.(accounts) -> (0 < length blob)%nat ->
      Z.of_nat (length blob) <= MaxStatementBytes ->
      db_step now db (EvLog acc) (logged_db acc blob created db).

(** The databases the events lead to, at whatever times, from an empty one. *)
Inductive reachable : DB -> Prop :=
  | reachable_empty : reachable empty_db
  | reachable_step (db : DB) (now : Z) (ev : event) (db' : DB) :
      reachable db -> db_step now db ev db' -> reachable db'.

(** Any number of events. *)
Inductive db_steps : DB -> DB -> Prop :=
  | steps_refl (db : DB) : db_steps db db
  | steps_cons (db : DB) (now : Z) (ev : event) (db' db'' : DB) :
      db_step now db ev db' -> db_steps db' db'' -> db_steps db db''.
