(* ===== verification/Invariants.v ===== *)
(** * Invariants of the store

    The well-formedness every reachable database has ([db_ok]), and that every
    event preserves it, by rule induction on [db_step]. *)

From S2P Require Import Prelude Clock Sql Schema StoreM Crypto Accounts Devices Queues Blobs.
From S2P Require Import Steps.

Local Open Scope Z_scope.

(** The statement log of an account holds consecutive sequence numbers, oldest
    first, at most [MaxStatementsPerAccount] of them, and starts at 1 until it has
    reached that length. *)
Definition log_ok (acc : string) (db : DB) : Prop :=
  exists n k, s_seq <$> account_log acc db = seqZ n k /\
    1 <= n /\ 0 <= k <= MaxStatementsPerAccount /\ (n = 1 \/ k = MaxStatementsPerAccount).

Record db_ok (db : DB) : Prop := mkDbOk {
  ok_integrity : integrity db;
  ok_modes : Forall (fun a => is_mode (a_admin_mode a)) db.(accounts);
  ok_quota : Forall (fun a => 0 < a_quota_bytes a) db.(accounts);
  ok_roles : Forall (fun d => is_role (d_role d)) db.(devices);
  ok_keys : Forall (fun d => length (d_public_key d) = PublicKeySize) db.(devices);
  ok_grants : Forall (fun i => is_role (i_grants_role i)) db.(invitations);
  ok_flat : forall a d, a ∈ db.(accounts) -> d ∈ db.(devices) -> d_account_id d = a_id a ->
    a_admin_mode a <> AdminModeManaged -> d_role d = RoleAdmin;
  ok_flat_grants : forall a i, a ∈ db.(accounts) -> i ∈ db.(invitations) ->
    i_account_id i = a_id a -> a_admin_mode a <> AdminModeManaged ->
    i_grants_role i = RoleAdmin;
  ok_queue_keys : Forall (fun q => length (q_recipient_key q) = PublicKeySize /\
    forall k, q_sender_key q = Some k -> length k = PublicKeySize) db.(queues);
  ok_statements : Forall (fun s => 0 < Z.of_nat (length (s_blob s)) <= MaxStatementBytes)
    db.(statements);
  ok_log : forall acc, log_ok acc db;
}.

(** ** Preservation by the ways a table changes *)

Section preserved.
Context {A : Type}.
Implicit Types (t : list A).

Lemma NoDup_sql_update {K} (k : A -> K) (P : A -> Prop) `{!forall x, Decision (P x)}
    (f : A -> A) t :
  (forall x, P x -> k (f x) = k x) -> NoDup (k <$> t) -> NoDup (k <$> sql_update P f t).
Proof. intros Hk Hnd. by rewrite sql_update_fmap. Qed.

Lemma Forall_in_app {K} (k : A -> K) {B} (g : B -> K) t (x : A) (l : list B) :
  Forall (fun y => g y ∈ k <$> t) l -> Forall (fun y => g y ∈ k <$> (t ++ [x])) l.
Proof. intros Hl. eapply Forall_impl; [exact Hl|]. simpl. intros y Hy.
  rewrite fmap_app, elem_of_app. by left.
Qed.

Lemma Forall_in_update {K} (k : A -> K) {B} (g : B -> K) (P : A -> Prop)
    `{!forall x, Decision (P x)} (f : A -> A) t (l : list B) :
  (forall x, P x -> k (f x) = k x) ->
  Forall (fun y => g y ∈ k <$> t) l -> Forall (fun y => g y ∈ k <$> sql_update P f t) l.
Proof. intros Hk Hl. by rewrite sql_update_fmap. Qed.
End preserved.

(** A subset of the messages keeps their order. *)
Lemma sublist_StronglySorted {A} (R : relation A) (l l' : list A) :
  sublist l l' -> StronglySorted R l' -> StronglySorted R l.
Proof.
  induction 1 as [|x l l' Hs IH|x l l' Hs IH]; intros Hl; [constructor|..];
    apply StronglySorted_inv in Hl as [Hl HF]; [|by apply IH].
  constructor; [by apply IH|].
  apply Forall_forall. intros y Hy. rewrite Forall_forall in HF. apply HF.
  by eapply elem_of_sublist.
Qed.

Lemma StronglySorted_snoc_lt (l : list Z) (x : Z) :
  StronglySorted Z.lt l -> Forall (fun y => y < x) l -> StronglySorted Z.lt (l ++ [x]).
Proof.
  induction 1 as [|y l Hl IH HF]; intros Hx; simpl; [by repeat constructor|].
  apply Forall_cons in Hx as [Hy Hx]. constructor; [by apply IH|].
  apply Forall_app. split; [done|]. by repeat constructor.
Qed.

(** ** The statement log *)

(** Dropping the numbers up to [c] from consecutive numbers. *)
Lemma filter_seqZ (c n k : Z) :
  0 <= k ->
  filter (fun z => ~ z <= c) (seqZ n k) =
  seqZ (Z.max n (c + 1)) (Z.max 0 (n + k - Z.max n (c + 1))).
Proof.
  intros Hk. destruct (Z.le_gt_cases (c + 1) n) as [Hc|Hc].
  - rewrite Z.max_l by lia. replace (Z.max 0 (n + k - n)) with k by lia.
    apply filter_all, Forall_seqZ. lia.
  - rewrite (Z.max_r n) by lia.
    destruct (Z.le_gt_cases (n + k) (c + 1)) as [Hd|Hd].
    + rewrite (seqZ_nil (c + 1)) by lia. apply filter_none, Forall_seqZ. lia.
    + replace k with ((c + 1 - n) + (n + k - (c + 1))) by lia.
      rewrite seqZ_app, filter_app by lia.
      rewrite filter_none, filter_all; [simpl; f_equal; lia|apply Forall_seqZ; lia..].
Qed.

(** The largest sequence number of a log of consecutive numbers. *)
Lemma max_seq_ok (acc : string) (db : DB) (n k : Z) :
  s_seq <$> account_log acc db = seqZ n k -> 1 <= n -> 0 <= k ->
  max_seq acc db = if decide (k = 0) then 0 else n + k - 1.
Proof.
  unfold max_seq. intros -> Hn Hk. case_decide as H0; [by subst|].
  rewrite seqZ_cons by lia.
  assert (forall l x, Forall (fun y => x < y <= n + k - 1) l ->
            (l <> [] -> n + k - 1 ∈ l) -> x <= n + k - 1 -> (l = [] -> x = n + k - 1) ->
            foldr Z.max x l = n + k - 1) as Hmax.
  { clear. intros l x HF Hin Hx Hnil. destruct (decide (l = [])) as [->|Hl]; [by apply Hnil|].
    specialize (Hin Hl). clear Hnil Hl. induction l as [|y l IH]; [by apply not_elem_of_nil in Hin|].
    apply Forall_cons in HF as [Hy HF]. simpl.
    assert (foldr Z.max x l <= n + k - 1) as Hub.
    { clear - HF Hx. induction HF; simpl; lia. }
    apply elem_of_cons in Hin as [Hin|Hin]; [lia|]. rewrite IH by done. lia. }
  apply Hmax.
  - apply Forall_seqZ. lia.
  - intros Hne. apply elem_of_seqZ. destruct (decide (k = 1)) as [->|]; [|lia].
    by rewrite seqZ_nil in Hne.
  - lia.
  - intros Hnil. destruct (decide (k = 1)) as [->|]; [lia|].
    rewrite seqZ_cons in Hnil by lia. done.
Qed.

(** Appending a statement to a log: the other logs are as they were, and this one
    has the next number and at most [MaxStatementsPerAccount] entries. *)
Lemma account_log_logged (acc acc' : string) (blob : bytes) (created : Z) (db : DB) :
  account_log acc' (logged_db acc blob created db) =
  if decide (acc' = acc) then
    filter (fun s => ~ s_seq s <= max_seq acc db + 1 - MaxStatementsPerAccount)
      (account_log acc db ++ [mkStatementRow acc (max_seq acc db + 1) blob created])
  else account_log acc' db.
Proof.
  unfold account_log, logged_db. simpl. unfold sql_delete.
  rewrite filter_comm, filter_app. case_decide as H.
  - subst acc'. rewrite filter_cons, decide_True by done. rewrite !filter_app. f_equal.
    + apply filter_ext_in. intros s [-> Hs]%list_elem_of_filter. tauto.
    + apply filter_ext_in. intros s ->%list_elem_of_singleton. simpl. tauto.
  - rewrite filter_cons, decide_False by (simpl; congruence). rewrite app_nil_r.
    rewrite filter_all; [done|]. apply Forall_forall.
    intros s [<- Hs]%list_elem_of_filter [E _]. done.
Qed.

#[export] Hint Resolve sql_delete_NoDup sql_delete_Forall Forall_in_app Forall_in_update
  NoDup_sql_update sql_insert_NoDup : sund.

(** Open [db_ok] and close the parts an event does not touch. *)
Ltac ok_parts :=
  lazymatch goal with
  | H : db_ok ?db |- db_ok _ =>
      destruct H as [Hint Hmodes Hquota Hroles Hkeys Hgrants Hflat Hflatg Hqkeys Hstmts Hlog];
      destruct Hint;
      constructor; [constructor|..]; simpl in *; try assumption; eauto with sund
  end.

(** A new row satisfies what the old ones do. *)
Lemma Forall_snoc {A} (P : A -> Prop) (l : list A) (x : A) :
  Forall P (l ++ [x]) <-> Forall P l /\ P x.
Proof. rewrite Forall_app, Forall_singleton. done. Qed.

Section steps.
Context (db : DB) (Hok : db_ok db).

Lemma ok_create_account (a : Account) :
  Forall (fun x => a_id x <> a_id a) db.(accounts) ->
  is_mode (a_admin_mode a) -> 0 < a_quota_bytes a ->
  db_ok (set_accounts (db.(accounts) ++ [a]) db).
Proof using Hok.
  intros Ha Hm Hq. ok_parts.
  all: try (rewrite Forall_snoc; done).
  all: intros x y [Hx|Hx%list_elem_of_singleton]%elem_of_app Hy E; [by eauto|subst x].
  - exfalso. assert (d_account_id y ∈ a_id <$> accounts db) as Hin.
    { by apply (proj1 (Forall_forall _ _) fk_devices). }
    rewrite E in Hin. apply list_elem_of_fmap in Hin as (z & Hz & Hin).
    rewrite Forall_forall in Ha. by apply (Ha z).
  - exfalso. assert (i_account_id y ∈ a_id <$> accounts db) as Hin.
    { by apply (proj1 (Forall_forall _ _) fk_invitations). }
    rewrite E in Hin. apply list_elem_of_fmap in Hin as (z & Hz & Hin).
    rewrite Forall_forall in Ha. by apply (Ha z).
Qed.

Lemma ok_invite (i : InvitationRow) (a : Account) :
  a ∈ db.(accounts) -> i_account_id i = a_id a ->
  Forall (fun x => i_token_hash x <> i_token_hash i) db.(invitations) ->
  is_role (i_grants_role i) ->
  (a_admin_mode a <> AdminModeManaged -> i_grants_role i = RoleAdmin) ->
  db_ok (set_invitations (db.(invitations) ++ [i]) db).
Proof using Hok.
  intros Ha Hi Hh Hr Hf. ok_parts.
  - rewrite Forall_snoc. split; [done|]. rewrite Hi. by apply list_elem_of_fmap_2.
  - by rewrite Forall_snoc.
  - intros b j Hb [Hj|Hj%list_elem_of_singleton]%elem_of_app E Hm; [by eauto|subst j].
    apply Hf. assert (a = b) as ->; [|done].
    eapply NoDup_fmap_inj; eauto. congruence.
Qed.

Lemma ok_update_invitations (P : InvitationRow -> Prop) `{!forall i, Decision (P i)}
    (f : InvitationRow -> InvitationRow) :
  (forall i, i_token_hash (f i) = i_token_hash i /\ i_account_id (f i) = i_account_id i /\
             i_grants_role (f i) = i_grants_role i) ->
  db_ok (set_invitations (sql_update P f db.(invitations)) db).
Proof using Hok.
  intros Hf. ok_parts.
  - apply NoDup_sql_update; [|done]. intros. apply Hf.
  - apply sql_update_Forall; [done|]. intros x Hx _. destruct (Hf x) as (_ & -> & _). done.
  - apply sql_update_Forall; [done|]. intros x Hx _. destruct (Hf x) as (_ & _ & ->). done.
  - intros a j Ha [i [Hi ->]]%elem_of_sql_update.
    case_decide; [destruct (Hf i) as (_ & -> & ->)|]; eauto.
Qed.

Lemma ok_update_devices (P : Device -> Prop) `{!forall d, Decision (P d)} (f : Device -> Device) :
  (forall d, d_id (f d) = d_id d /\ d_account_id (f d) = d_account_id d /\
             d_public_key (f d) = d_public_key d) ->
  (forall d, d ∈ db.(devices) -> P d -> is_role (d_role (f d)) /\
     forall a, a ∈ db.(accounts) -> d_account_id d = a_id a ->
       a_admin_mode a <> AdminModeManaged -> d_role (f d) = RoleAdmin) ->
  db_ok (set_devices (sql_update P f db.(devices)) db).
Proof using Hok.
  intros Hf Hr. ok_parts.
  - apply NoDup_sql_update; [|done]. intros. apply Hf.
  - apply sql_update_Forall; [done|]. intros x Hx _. destruct (Hf x) as (_ & -> & _). done.
  - apply Forall_in_update; [|done]. intros. apply Hf.
  - apply Forall_in_update; [|done]. intros. apply Hf.
  - apply Forall_forall. intros y [x [Hx ->]]%elem_of_sql_update.
    case_decide; [by apply Hr|]. by apply (proj1 (Forall_forall _ _) Hroles).
  - apply sql_update_Forall; [done|]. intros x Hx _. destruct (Hf x) as (_ & _ & ->). done.
  - intros a y Ha [x [Hx ->]]%elem_of_sql_update.
    case_decide; [|by eauto]. destruct (Hf x) as (_ & -> & _). intros. by eapply Hr; eauto.
Qed.

Lemma ok_keeps_devices (P : Device -> Prop) `{!forall d, Decision (P d)} (f : Device -> Device) :
  keeps_device f -> db_ok (set_devices (sql_update P f db.(devices)) db).
Proof using Hok.
  intros Hf. apply ok_update_devices; intros d.
  - by destruct (Hf d) as (-> & -> & -> & _).
  - intros Hd _. destruct (Hf d) as (_ & _ & _ & -> & _). destruct Hok.
    split; [by apply (proj1 (Forall_forall _ _) ok_roles0)|]. eauto.
Qed.

Lemma ok_insert_device (d : Device) (a : Account) :
  a ∈ db.(accounts) -> d_account_id d = a_id a ->
  Forall (fun x => d_id x <> d_id d) db.(devices) ->
  length (d_public_key d) = PublicKeySize -> is_role (d_role d) ->
  (a_admin_mode a <> AdminModeManaged -> d_role d = RoleAdmin) ->
  db_ok (set_devices (db.(devices) ++ [d]) db).
Proof using Hok.
  intros Ha Hd Hid Hk Hr Hf. ok_parts.
  - rewrite Forall_snoc. split; [done|]. rewrite Hd. by apply list_elem_of_fmap_2.
  - by rewrite Forall_snoc.
  - by rewrite Forall_snoc.
  - intros b x Hb [Hx|Hx%list_elem_of_singleton]%elem_of_app E Hm; [by eauto|subst x].
    apply Hf. assert (a = b) as ->; [|done].
    eapply NoDup_fmap_inj; eauto. congruence.
Qed.

Lemma ok_insert_queue (q : Queue) :
  q_owner_device q ∈ d_id <$> db.(devices) ->
  Forall (fun x => ~ (q_recipient_id x = q_recipient_id q \/
                      q_sender_id x = q_sender_id q)) db.(queues) ->
  length (q_recipient_key q) = PublicKeySize -> q_sender_key q = None ->
  db_ok (set_queues (db.(queues) ++ [q]) db).
Proof using Hok.
  intros Ho Hu Hk Hs. ok_parts.
  - apply sql_insert_NoDup; [done|]. eapply Forall_impl; [exact Hu|]. naive_solver.
  - apply sql_insert_NoDup; [done|]. eapply Forall_impl; [exact Hu|]. naive_solver.
  - by rewrite Forall_snoc.
  - rewrite Forall_snoc. split; [done|]. rewrite Hs. by split.
Qed.

Lemma ok_update_queues (P : Queue -> Prop) `{!forall q, Decision (P q)} (f : Queue -> Queue) :
  (forall q, q_recipient_id (f q) = q_recipient_id q /\ q_sender_id (f q) = q_sender_id q /\
     q_owner_device (f q) = q_owner_device q /\ q_recipient_key (f q) = q_recipient_key q /\
     forall k, q_sender_key (f q) = Some k -> q_sender_key q = Some k \/ length k = PublicKeySize) ->
  db_ok (set_queues (sql_update P f db.(queues)) db).
Proof using Hok.
  intros Hf. ok_parts.
  - apply NoDup_sql_update; [|done]. intros. apply Hf.
  - apply NoDup_sql_update; [|done]. intros. apply Hf.
  - apply sql_update_Forall; [done|]. intros x Hx _. by destruct (Hf x) as (_ & _ & -> & _).
  - apply Forall_in_update; [|done]. intros. apply Hf.
  - apply sql_update_Forall; [done|]. intros x [Hx Hs] _.
    destruct (Hf x) as (_ & _ & _ & -> & Hk). split; [done|].
    intros k [|]%Hk; auto.
Qed.

Lemma ok_delete_messages (P : MessageRow -> Prop) `{!forall m, Decision (P m)} :
  db_ok (set_messages (sql_delete P db.(messages)) db).
Proof using Hok.
  ok_parts. eapply sublist_StronglySorted; [|done]. apply fmap_sublist, sql_delete_sublist.
Qed.

Lemma ok_delete_bundles (P : Bundle -> Prop) `{!forall b, Decision (P b)} :
  db_ok (set_bundles (sql_delete P db.(bundles)) db).
Proof using Hok. ok_parts. Qed.

Lemma ok_append (id rid : string) (payload : bytes) (received expires : Z) :
  Forall (fun x => m_id x <> id) db.(messages) -> rid ∈ q_recipient_id <$> db.(queues) ->
  db_ok (appended_db id rid payload received expires db).
Proof using Hok.
  intros Hid Hrid. unfold appended_db. ok_parts.
  - by rewrite Forall_snoc.
  - rewrite fmap_app. apply StronglySorted_snoc_lt; [done|].
    rewrite Forall_fmap. eapply Forall_impl; [exact seq_bound|]. simpl. lia.
  - rewrite Forall_snoc. split; [|simpl; lia].
    eapply Forall_impl; [exact seq_bound|]. simpl. lia.
Qed.

Lemma ok_upsert_bundle (b : Bundle) (db' : DB) (n : Z) :
  upsert_bundle b db = Some (db', n) -> db_ok db'.
Proof using Hok.
  unfold upsert_bundle. case_decide as Hd; [|done]. intros [= <- _].
  case_decide as Hc; ok_parts.
  - apply sql_count_zero in Hc. by apply sql_insert_NoDup.
  - by rewrite Forall_snoc.
  - by apply sql_update_Forall.
Qed.

Lemma max_seq_fresh (acc : string) :
  Forall (fun x => ~ (s_account_id x = acc /\ s_seq x = max_seq acc db + 1)) db.(statements).
Proof using Hok.
  destruct (ok_log db Hok acc) as (n & k & Hl & Hn & [Hk _] & _).
  rewrite (max_seq_ok acc db n k) by done. apply Forall_forall. intros x Hx [Ha Hs].
  assert (s_seq x ∈ seqZ n k) as Hin.
  { rewrite <- Hl. apply list_elem_of_fmap_2. by apply list_elem_of_filter. }
  apply elem_of_seqZ in Hin. case_decide; lia.
Qed.

Lemma log_ok_logged (acc acc' : string) (blob : bytes) (created : Z) :
  log_ok acc' (logged_db acc blob created db).
Proof using Hok.
  unfold log_ok. rewrite account_log_logged. case_decide; [subst acc'|apply (ok_log db Hok)].
  destruct (ok_log db Hok acc) as (n & k & Hl & Hn & [Hk Hm] & Hfull).
  rewrite (max_seq_ok acc db n k) by done.
  set (next := (if decide (k = 0) then 0 else n + k - 1) + 1).
  assert (s_seq <$> account_log acc db ++ [mkStatementRow acc next blob created]
          = seqZ (if decide (k = 0) then 1 else n) (k + 1)) as Hs.
  { rewrite fmap_app, Hl. subst next. case_decide as H0; [by subst k|].
    rewrite seqZ_app, (seqZ_cons (n + k)), (seqZ_nil (Z.succ _)) by lia. simpl.
    do 2 f_equal. lia. }
  pose proof (filter_fmap s_seq (fun z => ~ z <= next - MaxStatementsPerAccount)) as Hf.
  simpl in Hf. rewrite <- Hf, Hs, filter_seqZ by lia.
  eexists _, _. split; [reflexivity|].
  unfold MaxStatementsPerAccount in *. subst next. case_decide; lia.
Qed.

Lemma ok_logged (acc : string) (blob : bytes) (created : Z) :
  acc ∈ a_id <$> db.(accounts) -> (0 < length blob)%nat ->
  Z.of_nat (length blob) <= MaxStatementBytes ->
  db_ok (logged_db acc blob created db).
Proof using Hok.
  intros Ha Hb Hm. pose proof (max_seq_fresh acc) as Hfresh.
  pose proof (fun acc' => log_ok_logged acc acc' blob created) as Hlog'.
  unfold logged_db in *. ok_parts.
  - apply sql_delete_NoDup, sql_insert_NoDup; [done|].
    eapply Forall_impl; [exact Hfresh|]. intros x Hx [= ??]. by apply Hx.
  - apply sql_delete_Forall. by rewrite Forall_snoc.
  - apply sql_delete_Forall. rewrite Forall_snoc. split; [done|]. simpl. lia.
Qed.
End steps.

(** ** The database after an event is well formed *)

Lemma registration_role_ok (a : Account) (i : InvitationRow) (db : DB) :
  is_role (i_grants_role i) -> is_role (registration_role a i db) /\
  (a_admin_mode a <> AdminModeManaged -> registration_role a i db = RoleAdmin).
Proof.
  intros Hr. unfold registration_role, is_role in *. repeat case_decide; tauto.
Qed.

Lemma ok_revoked (db : DB) (id : string) : db_ok db -> db_ok (revoked_db id db).
Proof.
  intros Hok.
  pose proof (ok_delete_messages db Hok (fun m => m_queue_id m ∈ owned_queue_ids id db)) as H1.
  pose proof (ok_update_queues _ H1 (fun q => q_owner_device q = id) q_retire
    ltac:(intros q; simpl; tauto)) as H2.
  pose proof (ok_delete_bundles _ H2 (fun b => b_device_id b = id)) as H3.
  apply (ok_update_devices _ H3 (fun d => d_id d = id) dev_revoke); [done|].
  intros d Hd _. simpl in *. split.
  - by apply (proj1 (Forall_forall _ _) (ok_roles db Hok)).
  - intros a Ha E. by apply (ok_flat db Hok a d).
Qed.

Lemma ok_retired (db : DB) (id : string) : db_ok db -> db_ok (retired_db id db).
Proof.
  intros Hok.
  pose proof (ok_delete_messages db Hok (fun m => m_queue_id m = id)) as H1.
  apply (ok_update_queues _ H1 (fun q => q_recipient_id q = id) q_retire).
  intros q. simpl. tauto.
Qed.

Lemma ok_empty : db_ok empty_db.
Proof.
  split; [split|..]; simpl; try constructor; try (by intros ?? []%not_elem_of_nil).
  intros acc. exists 1, 0. split_and!; [done..|by left].
Qed.

Lemma db_step_ok (now : Z) (db : DB) (ev : event) (db' : DB) :
  db_ok db -> db_step now db ev db' -> db_ok db'.
Proof.
  intros Hok Hs. destruct Hs.
  - by apply ok_create_account.
  - by eapply ok_invite.
  - by apply ok_update_invitations.
  - assert (is_role (i_grants_role i)) as Hr
      by (by apply (proj1 (Forall_forall _ _) (ok_grants db Hok))).
    destruct (registration_role_ok a i db Hr) as [Hr1 Hr2].
    eapply (ok_insert_device _ (ok_update_invitations db Hok (redeemable hash now) inv_consume ltac:(done)) d a);
      try done; by rewrite H7.
  - by apply ok_keeps_devices.
  - apply ok_update_devices; [done|done|]. intros d' Hd' E. simpl. split; [done|].
    intros b Hb Eb Hm. exfalso. apply Hm.
    assert (d = d') as <- by (eapply (NoDup_fmap_inj d_id); eauto; [apply Hok|congruence]).
    assert (a = b) as <- by (eapply (NoDup_fmap_inj a_id); eauto; [apply Hok|congruence]). done.
  - by apply ok_revoked.
  - by apply ok_insert_queue.
  - apply ok_update_queues; [done|]. intros q. simpl. split_and!; [done..|]. intros k [= <-]. by right.
  - apply ok_update_queues; [done|]. intros q. simpl. tauto.
  - by apply ok_retired.
  - apply ok_append; [done|done|]. destruct H0 as (q & d & a & Hq & <- & _).
    by apply list_elem_of_fmap_2.
  - by apply ok_delete_messages.
  - by apply ok_delete_messages.
  - by eapply ok_upsert_bundle.
  - by apply ok_logged.
Qed.

Lemma reachable_ok (db : DB) : reachable db -> db_ok db.
Proof. induction 1; [apply ok_empty|by eapply db_step_ok]. Qed.
