(* ===== verification/Evolution.v ===== *)
(** * What never changes back

    The store only moves forward: accounts are immutable, a revoked device, a
    retired queue and a consumed or revoked invitation stay so, identities and keys
    are fixed, a bound sender key is never rebound, and stored messages are never
    altered. *)

From S2P Require Import Prelude Clock Sql Schema StoreM Crypto Accounts Devices Queues Blobs.
From S2P Require Import Steps Invariants.

Local Open Scope Z_scope.

(** The later row [y] of an earlier row [x]. *)
Definition invitation_le (x y : InvitationRow) : Prop :=
  i_token_hash y = i_token_hash x /\ i_id y = i_id x /\ i_account_id y = i_account_id x /\
  i_expires y = i_expires x /\ i_grants_role y = i_grants_role x /\
  (i_consumed x = true -> i_consumed y = true) /\ (i_revoked x = true -> i_revoked y = true).

Definition device_le (x y : Device) : Prop :=
  d_id y = d_id x /\ d_account_id y = d_account_id x /\ d_public_key y = d_public_key x /\
  d_created y = d_created x /\ (d_revoked x = true -> d_revoked y = true).

Definition queue_le (x y : Queue) : Prop :=
  q_recipient_id y = q_recipient_id x /\ q_sender_id y = q_sender_id x /\
  q_owner_device y = q_owner_device x /\ q_recipient_key y = q_recipient_key x /\
  (forall k, q_sender_key x = Some k -> q_sender_key y = Some k) /\
  (q_retired x = true -> q_retired y = true).

(** Every row of [t] has a later row in [t']. *)
Definition table_le {A} (R : relation A) (t t' : list A) : Prop :=
  forall x, x ∈ t -> exists y, y ∈ t' /\ R x y.

Record evolves (db db' : DB) : Prop := mkEvolves {
  ev_accounts : table_le (=) db.(accounts) db'.(accounts);
  ev_invitations : table_le invitation_le db.(invitations) db'.(invitations);
  ev_devices : table_le device_le db.(devices) db'.(devices);
  ev_queues : table_le queue_le db.(queues) db'.(queues);
  ev_seq : db.(messages_seq) <= db'.(messages_seq);
  ev_messages : forall m, m ∈ db'.(messages) ->
    m ∈ db.(messages) \/ db.(messages_seq) < m_seq m;
}.

#[export] Instance invitation_le_preorder : PreOrder invitation_le.
Proof. split; [by intros x|]. intros x y z. unfold invitation_le. intros Hx Hy. destr. split_and!; (congruence || eauto). Qed.

#[export] Instance device_le_preorder : PreOrder device_le.
Proof. split; [by intros x|]. intros x y z. unfold device_le. intros Hx Hy. destr. split_and!; (congruence || eauto). Qed.

#[export] Instance queue_le_preorder : PreOrder queue_le.
Proof. split; [by intros x|]. intros x y z. unfold queue_le. intros Hx Hy. destr. split_and!; (congruence || eauto). Qed.

Section table.
Context {A : Type} (R : relation A) `{!PreOrder R}.
Implicit Types t : list A.

#[export] Instance table_le_preorder : PreOrder (table_le R).
Proof.
  split; [by intros t x Hx; exists x|]. intros t t' t'' H H' x Hx.
  destruct (H x Hx) as (y & Hy & Hxy), (H' y Hy) as (z & Hz & Hyz).
  exists z. split; [done|by trans y].
Qed.

Lemma table_le_app t t' : table_le R t (t ++ t').
Proof. intros x Hx. exists x. split; [apply elem_of_app; by left|done]. Qed.

Lemma table_le_update (P : A -> Prop) `{!forall x, Decision (P x)} (f : A -> A) t :
  (forall x, P x -> R x (f x)) -> table_le R t (sql_update P f t).
Proof.
  intros Hf x Hx. exists (if decide (P x) then f x else x).
  split; [apply elem_of_sql_update; eauto|]. case_decide; auto. done.
Qed.
End table.

#[export] Hint Resolve table_le_app table_le_update : sund.

#[export] Instance evolves_refl : Reflexive evolves.
Proof. intros db. split; try reflexivity. auto. Qed.

#[export] Instance evolves_trans : Transitive evolves.
Proof.
  intros db db' db'' [] []. split; try (by (etrans; eassumption)).
  intros m Hm. destruct (ev_messages1 m Hm) as [Hm'|?]; [|right; lia].
  destruct (ev_messages0 m Hm'); auto.
Qed.

(** Every event moves the database forward. *)
Lemma db_step_evolves (now : Z) (db : DB) (ev : event) (db' : DB) :
  db_step now db ev db' -> evolves db db'.
Proof.
  intros Hs. destruct Hs as [| | | |id P HP f Hf Hid| | | |sid key Hk| | | |P HP HPe| |b db' n Hu|].
  15: { unfold upsert_bundle in Hu. case_decide; simplify_eq. split; simpl; try reflexivity. auto. }
  all: split; simpl; try reflexivity; try (by left); try lia;
    try apply table_le_app; try apply table_le_update; try apply _; try (by intros []; done);
    try (intros m [_ Hm]%elem_of_sql_delete; by left).
  - intros d _. destruct (Hf d) as (? & ? & ? & _ & Hr & ?). split_and!; try done. by rewrite Hr.
  - intros q (_ & Hq & _). split_and!; try done. intros k. by rewrite Hq.
  - intros m [Hm| ->%list_elem_of_singleton]%elem_of_app; [by left|]. right. simpl. lia.
Qed.

Lemma db_steps_evolves (db db' : DB) : db_steps db db' -> evolves db db'.
Proof.
  induction 1 as [|db now ev db' db'' Hs _ IH]; [done|].
  etrans; [by eapply db_step_evolves|done].
Qed.
