(* ===== verification/Refine.v ===== *)
(** * The store's methods implement the abstract events

    Symbolic execution of every method of [internal/store] ([StoreM.wp]): whatever
    the driver fails, a method that returns an error leaves the database as it
    was, and one that succeeds has performed exactly its event ([Steps]). *)

From S2P Require Import Prelude Encoding Clock Sql Schema StoreM Crypto Accounts Devices Queues.
From S2P Require Import Blobs Steps Invariants.

Local Open Scope Z_scope.

(** The effect of a method on the database: none on an error, its event on
    success. *)
Definition effect {A} (s : St) (ev : A -> event) (r : error + A) (db' : DB) : Prop :=
  match r with
  | inl _ => db' = st_db s
  | inr a => db_step (sec (st_clock s)) (st_db s) (ev a) db'
  end.

(** Run the statements of a method up to its last ones, closing the branches in
    which the driver fails. *)
Ltac wp_go := repeat (wp_step; try (by wp_fault)).

Lemma not_and_not (P Q : Prop) `{!Decision P, !Decision Q} : ~ (~ P /\ ~ Q) -> P \/ Q.
Proof. destruct (decide P), (decide Q); tauto. Qed.

(** The end of a transaction: the commit may fail, or the new database stands. *)
Ltac wp_commit := split; [intros ? ?; by wp_fault|intros ? ?; wp_done].

Section accounts.
Implicit Types s : St.

Lemma CreateAccount_spec (class mode : string) (n : Z) s :
  wp (CreateAccount class n mode) s
    (outcome s (effect s (fun a => EvCreateAccount (a_id a)))).
Proof.
  unfold CreateAccount. cbv zeta.
  set (q := if decide (n <= 0) then _ else _). set (m := if decide (mode = _) then _ else _).
  apply wp_if; intros Hm; [wp_go; by wp_done|].
  wp_step. wp_step; [by wp_done|]. wp_step. wp_step. wp_step. wp_step; [by wp_fault|].
  simpl. unfold insert_account.
  destruct (sql_insert _ _ _) as [t|] eqn:E; simpl; [|by wp_done].
  apply sql_insert_Some in E as [-> Hf]. wp_step. wp_done.
  match goal with |- db_step _ _ _ (set_accounts (_ ++ [?a]) _) =>
    apply (step_create_account _ _ a) end; simpl; [done|exact (not_and_not _ _ Hm)|].
  subst q. case_decide; [|lia]. unfold QuotaBytesForClass.
  destruct (quotaClasses !! class) as [b|] eqn:E; [|by vm_compute].
  unfold quotaClasses in E. apply lookup_insert_Some in E as [[_ <-]|[_ E]]; [by vm_compute|].
  apply lookup_singleton_Some in E as [_ <-]. by vm_compute.
Qed.

Lemma sql_first_fmap_Some {A B} (f : A -> B) (P : A -> Prop) `{!forall x, Decision (P x)}
    (t : list A) (y : B) :
  f <$> sql_first P t = Some y -> exists x, x ∈ t /\ P x /\ f x = y.
Proof.
  intros Hy. apply fmap_Some in Hy as (x & Hx & ->).
  apply sql_first_Some in Hx as [??]. eauto.
Qed.

(** The row a minted invitation is stored as: the token only as its hash. *)
Definition invitation_row `{Crypto} (token : string) (inv : Invitation) : InvitationRow :=
  mkInvitationRow (hashToken token) (inv_id inv) (inv_account_id inv) (inv_created inv)
    (inv_expires inv) false false (inv_grants_role inv).

Definition invited `{Crypto} (acc : string) (ttl : Z) (s : St) (ti : string * Invitation)
    (db' : DB) : Prop :=
  let inv := ti.2 in
  exists a, a ∈ (st_db s).(accounts) /\ a_id a = acc /\ inv_account_id inv = acc /\
    inv_created inv = sec (st_clock s) /\ inv_expires inv = sec (st_clock s + ttl) /\
    is_role (inv_grants_role inv) /\
    (a_admin_mode a <> AdminModeManaged -> inv_grants_role inv = RoleAdmin) /\
    Forall (fun x => i_token_hash x <> hashToken ti.1) (st_db s).(invitations) /\
    db' = set_invitations ((st_db s).(invitations) ++ [invitation_row ti.1 inv]) (st_db s).

Lemma CreateInvitation_spec `{Crypto} (acc role : string) (ttl : Z) s :
  wp (CreateInvitation acc ttl role) s (outcome s (fun r db' => match r with
    | inl _ => db' = st_db s
    | inr ti => invited acc ttl s ti db'
    end)).
Proof.
  unfold CreateInvitation. wp_step. wp_step; [by wp_done|]. wp_step. wp_step; [by wp_done|].
  set (g := if decide (role = _) then _ else _).
  apply wp_if; intros Hg; [wp_go; by wp_done|].
  wp_step. wp_step. wp_step; [by wp_fault|]. simpl.
  destruct (_ <$> sql_first _ _) as [mode|] eqn:Ea; [|by wp_done].
  apply sql_first_fmap_Some in Ea as (a & Ha & <- & <-).
  wp_step. wp_step. wp_step. wp_step; [by wp_fault|]. simpl.
  unfold insert_invitation. case_decide as Hacc; simpl; [|by wp_done].
  destruct (sql_insert _ _ _) as [t|] eqn:E; simpl; [|by wp_done].
  apply sql_insert_Some in E as [-> Hf]. wp_step. wp_done.
  exists a. split_and!; try done; simpl.
  - case_decide; [by left|exact (not_and_not _ _ Hg)].
  - intros Hm. by rewrite decide_True.
Qed.

Lemma invited_step `{Crypto} (acc : string) (ttl : Z) s (ti : string * Invitation) (db' : DB) :
  invited acc ttl s ti db' ->
  db_step (sec (st_clock s)) (st_db s) (EvInvite (hashToken ti.1) acc) db'.
Proof.
  intros (a & Ha & <- & Hacc & _ & _ & Hr & Hf & Hu & ->).
  by apply (step_invite _ _ (invitation_row ti.1 ti.2) a).
Qed.

Lemma RevokeInvitation_spec (acc id : string) s :
  wp (RevokeInvitation acc id) s
    (outcome s (effect s (fun _ => EvRevokeInvitation acc))).
Proof.
  unfold RevokeInvitation. wp_step. wp_step; [by wp_fault|]. simpl. wp_step. wp_done.
  apply step_revoke_invitation.
Qed.
End accounts.

Section devices.
Implicit Types s : St.

(** The row the redemption query returns. *)
Lemma invitation_grant_Some (hash acc role mode : string) (db : DB) :
  invitation_grant hash db = Some (acc, role, mode) ->
  exists i a, i ∈ db.(invitations) /\ i_token_hash i = hash /\ i_account_id i = acc /\
    i_grants_role i = role /\ a ∈ db.(accounts) /\ a_id a = acc /\ a_admin_mode a = mode.
Proof.
  unfold invitation_grant. intros H%head_elem_of.
  apply list_elem_of_bind in H as (i & H & Hi%list_elem_of_filter).
  apply list_elem_of_bind in H as (a & H & Ha%list_elem_of_filter).
  apply list_elem_of_singleton in H as [= -> -> ->]. destruct Hi, Ha. eauto 10.
Qed.

(** What a registration does, and why it is refused. *)
Definition registered `{Crypto} (token push caps : string) (pub : bytes) (s : St) (d : Device)
    (db' : DB) : Prop :=
  let db := st_db s in
  let now := sec (st_clock s) in
  exists i a, i ∈ db.(invitations) /\ redeemable (hashToken token) now i /\
    a ∈ db.(accounts) /\ a_id a = i_account_id i /\
    length pub = PublicKeySize /\ Forall (fun x => d_id x <> d_id d) db.(devices) /\
    d = mkDevice (fresh_id "dev_" (st_rnd s)) (a_id a) pub push caps now now false
          (registration_role a i db) 0 /\
    db' = set_devices (db.(devices) ++ [d])
            (set_invitations (sql_update (redeemable (hashToken token) now) inv_consume
               db.(invitations)) db).

Definition register_refused `{Crypto} (token : string) (pub : bytes) (s : St) (e : error) : Prop :=
  match e with
  | Errorf _ => length pub <> PublicKeySize
  | ErrInvalidInvitation =>
      Forall (fun i => ~ redeemable (hashToken token) (sec (st_clock s)) i) (st_db s).(invitations)
  | ErrRand => (length (st_rnd s) < 9)%nat
  | ErrConstraint => fresh_id "dev_" (st_rnd s) ∈ d_id <$> (st_db s).(devices)
  | _ => False
  end.

(** The invitation a token redeems is unique, and its account exists. *)
Lemma redeemable_grant (hash : string) (now : Z) (db : DB) (i : InvitationRow) :
  integrity db -> i ∈ db.(invitations) -> redeemable hash now i ->
  exists a, a ∈ db.(accounts) /\ a_id a = i_account_id i /\
    invitation_grant hash (set_invitations (sql_update (redeemable hash now) inv_consume
      db.(invitations)) db) = Some (i_account_id i, i_grants_role i, a_admin_mode a).
Proof.
  intros Hi Hin Hr. pose proof (fk_invitations _ Hi) as Hfk. rewrite Forall_forall in Hfk.
  pose proof (Hfk i Hin) as (a & Ha & Hain)%list_elem_of_fmap. exists a. split_and!; [done|done|].
  unfold invitation_grant. simpl. destruct Hr as (Hh & Hr).
  assert (inv_consume i ∈ sql_update (redeemable hash now) inv_consume (invitations db)) as Hic.
  { apply elem_of_sql_update. exists i. by rewrite decide_True. }
  rewrite <- Hh, (filter_key i_token_hash _ (inv_consume i)).
  - simpl. rewrite Ha, (filter_key a_id _ a (pk_accounts _ Hi) Hain). done.
  - apply NoDup_sql_update; [done|apply Hi].
  - by rewrite Hh.
Qed.

Lemma RegisterDevice_spec `{Crypto} (token push caps : string) (pub : bytes) s :
  integrity (st_db s) ->
  wp (RegisterDevice token pub push caps) s (outcome s (fun r db' => match r with
    | inl e => db' = st_db s /\ register_refused token pub s e
    | inr d => registered token push caps pub s d db'
    end)).
Proof.
  intros Hi. unfold RegisterDevice.
  apply wp_if; intros Hk; [wp_step; by wp_done|]. apply dec_stable in Hk.
  wp_step; [by wp_fault|]. wp_step. wp_step. wp_step. wp_step; [by wp_fault|]. simpl.
  set (hash := hashToken token). set (now := sec (st_clock s)).
  apply wp_if; intros Hn.
  { wp_step. wp_done. split; [done|]. apply (sql_count_zero (redeemable hash now)).
    destruct (sql_count_le_one i_token_hash hash (redeemable hash now) _ (pk_invitations _ Hi)
      ltac:(by intros x [? _])); done. }
  apply dec_stable in Hn.
  assert (0 < sql_count (redeemable hash now) (invitations (st_db s)))
    as (i & Hin & Hred)%sql_count_pos by lia.
  destruct (redeemable_grant hash now _ i Hi Hin Hred) as (a & Ha & Haid & Hg).
  wp_step. wp_step; [by wp_fault|]. simpl. rewrite Hg.
  wp_step. apply wp_mono with (Q := fun r s' => match r with
    | inl e => e = ErrDriver /\ st_faults s <> [] /\ st_clock s' = st_clock s
    | inr r => r = registration_role a i (st_db s) /\ (st_faults s = [] -> st_faults s' = []) /\
        s' = mkSt (set_invitations (sql_update (redeemable hash now)
                     inv_consume (st_db s).(invitations)) (st_db s))
               (st_clock s) (st_rnd s) (st_faults s') end).
  { unfold registration_role. apply wp_if; intros Hm.
    - wp_step. wp_step; [by auto 10|]. wp_step. split_and!; [|by auto 10|done].
      rewrite (decide_True _ _ Hm). apply decide_ext. by rewrite sql_count_zero, Haid.
    - wp_step. split_and!; [|by auto 10|done]. by rewrite (decide_False _ _ Hm). }
  intros [e|r] s'.
  { intros (-> & ? & ?). by apply outcome_fault. }
  intros (-> & Hfs' & ->). simpl. wp_step. wp_step; [by wp_done|]. wp_step. wp_step; [by wp_fault|].
  simpl. unfold insert_device. simpl.
  rewrite decide_True by (rewrite <- Haid; by apply list_elem_of_fmap_2). simpl.
  unfold sql_insert. case_decide as Hex; simpl.
  - wp_done. split; [done|]. apply Exists_exists in Hex as (d & Hd & <-). by apply list_elem_of_fmap_2.
  - wp_step. wp_commit. exists i, a. split_and!; try done; [by apply Forall_Exists_neg|by rewrite Haid].
Qed.

(** A registration is the event of that name. *)
Lemma registered_step `{Crypto} (token push caps : string) (pub : bytes) s (d : Device) (db' : DB) :
  registered token push caps pub s d db' ->
  db_step (sec (st_clock s)) (st_db s) (EvRegister (hashToken token) (d_id d)) db'.
Proof.
  intros (i & a & Hi & Hr & Ha & Haid & Hk & Hf & -> & ->). by apply (step_register _ _ _ i a).
Qed.

Lemma TouchLastSeen_spec (id : string) s :
  wp (TouchLastSeen id) s (outcome s (effect s (fun _ => EvUpdateDevice id))).
Proof.
  unfold TouchLastSeen. wp_go. wp_done. by apply step_update_device.
Qed.

Lemma UpdatePushEndpoint_spec (id endpoint : string) s :
  wp (UpdatePushEndpoint id endpoint) s (outcome s (effect s (fun _ => EvUpdateDevice id))).
Proof.
  unfold UpdatePushEndpoint. wp_go. wp_done. by apply step_update_device.
Qed.

Lemma set_devices_id (db : DB) : set_devices db.(devices) db = db.
Proof. by destruct db. Qed.

Lemma set_queues_id (db : DB) : set_queues db.(queues) db = db.
Proof. by destruct db. Qed.

(** An update no row matches changes nothing. *)
Lemma sql_update_none {A} (P : A -> Prop) `{!forall x, Decision (P x)} (f : A -> A) (t : list A) :
  sql_count P t = 0 -> sql_update P f t = t.
Proof.
  rewrite sql_count_zero, Forall_forall. intros HP. apply sql_update_id.
  intros x Hx Hpx. by destruct (HP x).
Qed.

Lemma SetDeviceQuota_spec (id : string) (n : Z) s :
  wp (SetDeviceQuota id n) s (outcome s (effect s (fun _ => EvUpdateDevice id))).
Proof.
  unfold SetDeviceQuota. wp_step. wp_step; [by wp_fault|]. simpl. apply wp_if; intros Hk.
  - wp_step. wp_done. rewrite sql_update_none by done. apply set_devices_id.
  - wp_step. wp_done. apply step_update_device; [done|tauto].
Qed.

(** What [assertNotLastAdmin] lets through, and what it refuses. *)
Lemma assertNotLastAdmin_spec (acc id : string) (allow : bool) s (Q : error + unit -> St -> Prop) :
  (forall fs, (st_faults s = [] -> fs = []) -> not_last_admin acc id allow (st_db s) ->
     Q (inr tt) (with_faults fs s)) ->
  (forall fs, (st_faults s = [] -> fs = []) -> ~ not_last_admin acc id allow (st_db s) ->
     Q (inl ErrLastAdmin) (with_faults fs s)) ->
  (st_faults s <> [] -> forall fs, Q (inl ErrDriver) (with_faults fs s)) ->
  wp (assertNotLastAdmin acc id allow) s Q.
Proof.
  intros Hyes Hno Hf. unfold assertNotLastAdmin, not_last_admin in *.
  wp_step. wp_step; [by apply Hf|]. apply wp_if; intros Ha.
  { wp_step. apply Hyes; [done|]. left. apply Z.gt_lt, sql_count_pos in Ha as (d & Hd & ? & ? & ? & ?).
    by exists d. }
  assert (forall d, d ∈ devices (st_db s) -> live_admin acc d -> d_id d = id) as Hnone.
  { intros d Hd (? & ? & ?). apply dec_stable. intros Hne. apply Ha, Z.lt_gt, sql_count_pos. eauto 10. }
  destruct allow; simpl.
  - wp_step. wp_step; [apply Hf; by auto|]. apply wp_if; intros Hd; wp_step.
    + apply Hno; [by auto|]. apply Z.gt_lt, sql_count_pos in Hd as (d & Hd & ? & ? & ?).
      intros [(x & Hx & Hla & Hne)|[_ Hall]]; [by apply Hne, Hnone|]. by destruct (Hall d).
    + apply Hyes; [by auto|]. right. split; [done|]. intros d Hdin Hacc Hlive.
      apply dec_stable. intros Hne. apply Hd, Z.lt_gt, sql_count_pos. by exists d.
  - wp_step. apply Hno; [done|]. intros [(x & Hx & Hla & Hne)|[? _]]; [by apply Hne, Hnone|done].
Qed.

Lemma SetDeviceRole_spec (acc id role : string) s :
  wp (SetDeviceRole acc id role) s (outcome s (effect s (fun _ => EvSetRole acc id role))).
Proof.
  unfold SetDeviceRole. apply wp_if; intros Hr; [wp_go; by wp_done|].
  apply not_and_not in Hr; [|apply _..].
  wp_step; [by wp_fault|]. wp_step. wp_step; [by wp_fault|]. simpl.
  destruct (_ <$> sql_first _ (accounts _)) as [mode|] eqn:Ea; [|by wp_done].
  apply sql_first_fmap_Some in Ea as (a & Ha & Haid & <-).
  apply wp_if; intros Hm; [wp_go; by wp_done|]. apply dec_stable in Hm.
  wp_step. wp_step. wp_step; [by wp_fault|]. simpl.
  destruct (_ <$> sql_first _ (devices _)) as [cur|] eqn:Ed; [|by wp_done].
  apply sql_first_fmap_Some in Ed as (d & Hd & (Hdid & Hdacc & Hlive) & <-).
  assert (forall fs, (st_faults s = [] -> fs = []) ->
    (role = RoleMember -> d_role d = RoleAdmin -> not_last_admin acc id false (st_db s)) ->
    wp (_ ← exec (update_devices (fun d => d_id d = id) (dev_set_role role)); mret tt)
      (with_faults fs s)
      (commits (st_db s) (outcome s (effect s (fun _ : unit => EvSetRole acc id role)))))
    as Hend.
  { intros fs' Hfs' Hla. wp_step. wp_step; [by wp_fault|]. simpl. wp_step. wp_commit.
    by apply (step_set_role _ _ acc id role d a). }
  wp_step. apply wp_if; intros Hc.
  - apply assertNotLastAdmin_spec; simpl.
    + intros. apply Hend; [by auto 10|done].
    + intros. by wp_done.
    + intros. by wp_fault.
  - wp_step. apply Hend; [by auto 10|]. intros Hmem Hadm. by destruct Hc.
Qed.

Lemma PromoteDevice_spec (id : string) s :
  wp (PromoteDevice id) s (outcome s (fun r db' => match r with
    | inl _ => db' = st_db s
    | inr _ => exists acc, db_step (sec (st_clock s)) (st_db s) (EvSetRole acc id RoleAdmin) db'
    end)).
Proof.
  unfold PromoteDevice. wp_step. wp_step. wp_step; [by wp_fault|]. simpl.
  destruct (head _) as [mode|] eqn:E; [|by wp_done].
  apply head_elem_of, list_elem_of_bind in E as (d & E & Hd%list_elem_of_filter).
  apply list_elem_of_bind in E as (a & E & Ha%list_elem_of_filter).
  apply list_elem_of_singleton in E as ->. destruct Hd as [[Hid Hlive] Hd], Ha as [Haid Ha].
  apply wp_if; intros Hm; [wp_step; by wp_done|]. apply dec_stable in Hm.
  wp_step. wp_step; [by wp_fault|]. simpl. wp_step. wp_done. exists (d_account_id d).
  apply (step_set_role _ _ _ id RoleAdmin d a); try done. by left.
Qed.

Lemma RevokeDevice_spec (caller id : string) s :
  wp (RevokeDevice caller id) s (outcome s (effect s (fun _ => EvRevoke caller id))).
Proof.
  unfold RevokeDevice. wp_step; [by wp_fault|].
  match goal with |- wp (_ ≫= ?k) _ _ => set (rest := k) end.
  assert (forall fs, (st_faults s = [] -> fs = []) ->
    (caller <> id -> exists d, d ∈ devices (st_db s) /\ d_id d = id /\
       (live d -> d_role d = RoleAdmin -> not_last_admin (d_account_id d) id true (st_db s))) ->
    wp (rest tt) (with_faults fs s)
      (commits (st_db s) (outcome s (effect s (fun _ : unit => EvRevoke caller id))))) as Hend.
  { intros fs' Hfs' Hla. unfold rest.
    do 4 (wp_step; wp_step; [by wp_fault|]; simpl). wp_step. wp_commit.
    exact (step_revoke _ (st_db s) caller id Hla). }
  wp_step. apply wp_if; intros Hne.
  - wp_step. wp_step. wp_step; [by wp_fault|]. simpl.
    destruct (_ <$> sql_first _ _) as [[[acc role] revoked]|] eqn:Ed; [|by wp_done].
    apply sql_first_fmap_Some in Ed as (d & Hd & Hid & [= <- <- <-]).
    apply wp_if; intros Hc.
    + apply assertNotLastAdmin_spec; simpl.
      * intros. apply Hend; [by auto 10|]. intros _. exists d. auto.
      * intros. by wp_done.
      * intros. by wp_fault.
    + wp_step. apply Hend; [by auto 10|]. intros _. exists d. split_and!; [done|done|].
      intros. by destruct Hc.
  - wp_step. by apply Hend.
Qed.
End devices.

Section queues.
Implicit Types s : St.

Lemma CreateQueue_spec (owner : string) (key : bytes) s :
  wp (CreateQueue owner key) s
    (outcome s (effect s (fun q => EvCreateQueue (q_recipient_id q) owner))).
Proof.
  unfold CreateQueue. apply wp_if; intros Hk; [wp_step; by wp_done|]. apply dec_stable in Hk.
  wp_step. wp_step; [by wp_done|]. wp_step. wp_step; [by wp_done|].
  wp_step. wp_step. wp_step. wp_step; [by wp_fault|]. simpl.
  unfold insert_queue. case_decide as Ho; simpl; [|by wp_done].
  destruct (sql_insert _ _ _) as [t|] eqn:E; simpl; [|by wp_done].
  apply sql_insert_Some in E as [-> Hf]. wp_step. wp_done.
  match goal with |- db_step _ _ _ (set_queues (_ ++ [?q]) _) =>
    by apply (step_create_queue _ _ q) end.
Qed.

Lemma BindSenderKey_spec (sid : string) (key : bytes) s :
  wp (BindSenderKey sid key) s (outcome s (effect s (fun _ => EvBind sid key))).
Proof.
  unfold BindSenderKey. apply wp_if; intros Hk; [wp_step; by wp_done|]. apply dec_stable in Hk.
  wp_step. wp_step; [by wp_fault|]. simpl. wp_step. wp_done. by apply step_bind.
Qed.

Lemma RetireQueue_spec (rid : string) s :
  wp (RetireQueue rid) s (outcome s (effect s (fun _ => EvRetire rid))).
Proof.
  unfold RetireQueue. wp_step; [by wp_fault|].
  do 2 (wp_step; wp_step; [by wp_fault|]; simpl). wp_step. wp_commit.
  exact (step_retire _ (st_db s) rid).
Qed.

Lemma SetQueueQuota_spec (rid : string) (n : Z) s :
  wp (SetQueueQuota rid n) s (outcome s (effect s (fun _ => EvQueueQuota rid))).
Proof.
  unfold SetQueueQuota. wp_step. wp_step; [by wp_fault|]. simpl. apply wp_if; intros Hk; wp_step; wp_done.
  - rewrite sql_update_none by done. apply set_queues_id.
  - apply step_queue_quota.
Qed.

Lemma set_messages_id (db : DB) : set_messages db.(messages) db = db.
Proof. by destruct db. Qed.

(** An acknowledgement removes the messages it names from the queue it is
    authorised for, and no other. *)
Lemma DeleteMessages_spec (rid : string) (ids : list string) s :
  wp (DeleteMessages rid ids) s (outcome s (fun r db' =>
    let P m := m_queue_id m = rid /\ m_id m ∈ ids in
    match r with
    | inl _ => db' = st_db s
    | inr n => n = sql_count P (st_db s).(messages) /\
        db' = set_messages (sql_delete P (st_db s).(messages)) (st_db s)
    end)).
Proof.
  unfold DeleteMessages. apply wp_if; intros Hk.
  - wp_step. wp_done. apply nil_length_inv in Hk as ->.
    assert (Forall (fun m => ~ (m_queue_id m = rid /\ m_id m ∈ [])) (messages (st_db s))) as Hn.
    { apply Forall_forall. by intros m _ [_ Hm%not_elem_of_nil]. }
    split; [symmetry; by apply sql_count_zero|].
    unfold sql_delete. rewrite filter_all by done. symmetry. apply set_messages_id.
  - wp_step; [by wp_fault|]. by wp_done.
Qed.

Lemma PurgeExpired_spec s :
  wp PurgeExpired s (outcome s (effect s (fun _ => EvExpire))).
Proof.
  unfold PurgeExpired. wp_step. wp_step. wp_step; [by wp_fault|]. wp_done.
  by apply (step_expire _ _ (fun m => _)).
Qed.

Lemma check_ceiling_spec (quota size : Z) (used : DB -> Z) s (Q : error + unit -> St -> Prop) :
  (forall fs, (st_faults s = [] -> fs = []) -> within quota (used (st_db s) + size) ->
     Q (inr tt) (with_faults fs s)) ->
  (forall fs, (st_faults s = [] -> fs = []) -> ~ within quota (used (st_db s) + size) ->
     Q (inl ErrQuotaExceeded) (with_faults fs s)) ->
  (st_faults s <> [] -> forall fs, Q (inl ErrDriver) (with_faults fs s)) ->
  wp (check_ceiling quota size used) s Q.
Proof.
  intros Hyes Hno Hf. unfold check_ceiling, within in *. apply wp_if; intros Hq.
  - wp_step. wp_step; [by apply Hf|]. apply wp_if; intros Hu; wp_step.
    + apply Hno; [done|lia].
    + apply Hyes; [done|lia].
  - wp_step. assert (with_faults (st_faults s) s = s) as <- by by destruct s.
    apply Hyes; [done|lia].
Qed.

(** The row the ceiling query returns. *)
Lemma queue_ceilings_Some (rid acc owner : string) (qq dq aq : Z) (db : DB) :
  queue_ceilings rid db = Some (acc, owner, qq, dq, aq) ->
  exists q d a, q ∈ db.(queues) /\ q_recipient_id q = rid /\ q_owner_device q = owner /\
    q_quota_bytes q = qq /\ d ∈ db.(devices) /\ d_id d = owner /\ d_account_id d = acc /\
    d_quota_bytes d = dq /\ a ∈ db.(accounts) /\ a_id a = acc /\ a_quota_bytes a = aq.
Proof.
  unfold queue_ceilings. intros H%head_elem_of.
  apply list_elem_of_bind in H as (q & H & [? ?]%list_elem_of_filter).
  apply list_elem_of_bind in H as (d & H & [? ?]%list_elem_of_filter).
  apply list_elem_of_bind in H as (a & H & [? ?]%list_elem_of_filter).
  apply list_elem_of_singleton in H as [= -> -> -> -> ->]. eauto 20.
Qed.

(** With unique keys, [fits] is about the one queue, device and account. *)
Lemma fits_rows (rid : string) (size now : Z) (db : DB) (q : Queue) (d : Device) (a : Account) :
  integrity db -> q ∈ db.(queues) -> q_recipient_id q = rid ->
  d ∈ db.(devices) -> d_id d = q_owner_device q -> a ∈ db.(accounts) -> a_id a = d_account_id d ->
  fits rid size now db <->
  within (q_quota_bytes q) (queue_bytes rid now db + size) /\
  within (d_quota_bytes d) (device_bytes (d_id d) now db + size) /\
  within (a_quota_bytes a) (account_bytes (a_id a) now db + size).
Proof.
  intros Hi Hq Hqr Hd Hdq Ha Had. split; [|by exists q, d, a; auto 10].
  intros (q' & d' & a' & Hq' & Hqr' & Hd' & Hdq' & Ha' & Had' & Hw).
  assert (q' = q) as -> by (eapply (NoDup_fmap_inj q_recipient_id); [apply Hi|..]; congruence).
  assert (d' = d) as -> by (eapply (NoDup_fmap_inj d_id); [apply Hi|..]; congruence).
  assert (a' = a) as -> by (eapply (NoDup_fmap_inj a_id); [apply Hi|..]; congruence).
  done.
Qed.

(** Why a message is refused. *)
Definition append_refused (rid : string) (size : Z) (s : St) (e : error) : Prop :=
  match e with
  | ErrRand => (length (st_rnd s) < 9)%nat
  | ErrQueueNotFound => queue_ceilings rid (st_db s) = None
  | ErrQuotaExceeded => rid ∈ q_recipient_id <$> (st_db s).(queues) /\
      ~ fits rid size (sec (st_clock s)) (st_db s)
  | ErrConstraint => fresh_id "msg_" (st_rnd s) ∈ m_id <$> (st_db s).(messages)
  | _ => False
  end.

Lemma AppendMessage_spec (rid : string) (payload : bytes) (ttl : Z) s :
  integrity (st_db s) ->
  wp (AppendMessage rid payload ttl) s (outcome s (fun r db' => match r with
    | inl e => db' = st_db s /\ append_refused rid (Z.of_nat (length payload)) s e
    | inr m =>
        let now := st_clock s in
        m = mkMessage (fresh_id "msg_" (st_rnd s)) rid payload (sec now) (sec (now + ttl)) /\
        Forall (fun x => m_id x <> msg_id m) (st_db s).(messages) /\
        fits rid (Z.of_nat (length payload)) (sec now) (st_db s) /\
        db' = appended_db (msg_id m) rid payload (sec now) (sec (now + ttl)) (st_db s)
    end)).
Proof.
  intros Hi. unfold AppendMessage. wp_step. wp_step; [by wp_done|]. wp_step. wp_step.
  wp_step; [by wp_fault|]. wp_step. wp_step. wp_step; [by wp_fault|]. simpl.
  destruct (queue_ceilings _ _) as [[[[[acc owner] qq] dq] aq]|] eqn:Ec; [|by wp_done].
  apply queue_ceilings_Some in Ec as
    (q & d & a & Hq & Hqid & <- & <- & Hd & Hdid & <- & <- & Ha & Haid & <-).
  assert (rid ∈ q_recipient_id <$> (st_db s).(queues)) as Hrid
    by (rewrite <- Hqid; by apply list_elem_of_fmap_2).
  pose proof (fits_rows rid (Z.of_nat (length payload)) (sec (st_clock s)) _ q d a Hi Hq Hqid
    Hd Hdid Ha Haid) as Hfits. rewrite Haid, Hdid in Hfits.
  wp_step. apply check_ceiling_spec; simpl; [intros fs1 Hfs1 Hw1| |intros; by wp_fault].
  2: { intros. wp_done. rewrite Hfits. tauto. }
  wp_step. apply check_ceiling_spec; simpl; [intros fs2 Hfs2 Hw2| |intros; by wp_fault].
  2: { intros. wp_done. rewrite Hfits. tauto. }
  wp_step. apply check_ceiling_spec; simpl; [intros fs3 Hfs3 Hw3| |intros; by wp_fault].
  2: { intros. wp_done. rewrite Hfits. tauto. }
  wp_step. wp_step; [by wp_fault|]. simpl. unfold insert_message. rewrite decide_True by done. simpl.
  unfold sql_insert. case_decide as Hex; simpl.
  - wp_done. split; [done|]. apply Exists_exists in Hex as (m & Hm & <-). by apply list_elem_of_fmap_2.
  - wp_step. wp_commit. split_and!; [done| | |done]; [by apply Forall_Exists_neg|by apply Hfits].
Qed.

(** The messages of a queue that are live at second [now], in the order they
    were stored. *)
Definition live_messages (rid : string) (now : Z) (db : DB) : list MessageRow :=
  filter (fun m => m_queue_id m = rid /\ m_expires m > now) db.(messages).

(** A drain purges the queue's expired messages, and returns the live ones in the
    order they were stored. *)
Lemma DrainMessages_spec (rid : string) s :
  integrity (st_db s) ->
  wp (DrainMessages rid) s (outcome s (fun r db' =>
    db' = set_messages (sql_delete (fun m => m_queue_id m = rid /\
                          m_expires m <= sec (st_clock s)) (st_db s).(messages)) (st_db s) /\
    ((r = inl ErrDriver /\ st_faults s <> []) \/
     r = inr (to_message <$> live_messages rid (sec (st_clock s)) (st_db s))))).
Proof.
  intros Hi. unfold DrainMessages. wp_step. wp_step. wp_step. wp_step; [by wp_fault|].
  simpl. wp_step.
  { assert (st_faults s <> []) as Hn by (intros E; apply Hnf; simpl; auto).
    apply outcome_ok; simpl; [done|by intros|]. auto. }
  wp_done. split; [done|]. right. do 2 f_equal.
  rewrite (sql_order_sorted m_seq); [|done|].
  - unfold live_messages, sql_delete. rewrite list_filter_filter.
    apply list_filter_iff. intros m. split.
    + intros [Hq Hn]. split; [done|]. apply Z.lt_gt, Z.nle_gt. intros Hle. by apply Hn.
    + intros [Hq Hm]. split; [done|]. intros [_ Hle]. lia.
  - eapply sublist_StronglySorted; [|apply (seq_sorted _ Hi)]. apply fmap_sublist.
    etrans; [apply sublist_filter|apply sql_delete_sublist].
Qed.
End queues.

Section blobs.
Implicit Types s : St.

Lemma SetBundle_spec (dev : string) (blob : bytes) s :
  wp (SetBundle dev blob) s (outcome s (effect s (fun _ => EvBundle dev))).
Proof.
  unfold SetBundle. wp_step. wp_step. wp_step. wp_step; [by wp_fault|]. simpl.
  destruct (upsert_bundle _ _) as [[db' n]|] eqn:E; [|by wp_done].
  wp_step. wp_done. by apply (step_bundle _ _ (mkBundle dev blob (sec (st_clock s))) db' n).
Qed.

Lemma AppendStatement_spec (acc : string) (blob : bytes) s :
  wp (AppendStatement acc blob) s (outcome s (fun r db' => match r with
    | inl _ => db' = st_db s
    | inr st => st = mkStatement (max_seq acc (st_db s) + 1) blob (sec (st_clock s)) /\
        acc ∈ a_id <$> (st_db s).(accounts) /\ (0 < length blob)%nat /\
        Z.of_nat (length blob) <= MaxStatementBytes /\
        db' = logged_db acc blob (sec (st_clock s)) (st_db s)
    end)).
Proof.
  unfold AppendStatement. apply wp_if; intros Hb; [wp_step; by wp_done|].
  apply wp_if; intros Hm; [wp_step; by wp_done|].
  wp_step; [by wp_fault|]. wp_step. wp_step; [by wp_fault|]. wp_step. wp_step.
  wp_step. wp_step; [by wp_fault|]. simpl. unfold insert_statement. simpl.
  case_decide as Hacc; simpl; [|by wp_done].
  destruct (sql_insert _ _ _) as [t|] eqn:E; simpl; [|by wp_done].
  apply sql_insert_Some in E as [-> Hf].
  wp_step. wp_step; [by wp_fault|]. simpl. wp_step. wp_commit. split_and!; [done|done|lia|lia|done].
Qed.
End blobs.
