(* ===== verification/Store.v ===== *)
(** * The store: every method, any caller

    [store_op] is the interface of [*store.Store]: one constructor per method,
    indexed by the type of its result. A caller is any sequence of calls, each with
    the time, the random bytes and the driver failures it meets ([call]); the
    databases such a caller produces are those of the abstract events ([Steps]). *)

From S2P Require Import Prelude Encoding Clock Sql Schema StoreM Crypto Accounts Devices Queues.
From S2P Require Import Blobs Steps Invariants Evolution Refine.

Local Open Scope Z_scope.

Inductive store_op : Type -> Type :=
  | OpCreateAccount (class : string) (n : Z) (mode : string) : store_op Account
  | OpAccountQuotaBytes (acc : string) : store_op Z
  | OpCreateInvitation (acc : string) (ttl : Z) (role : string) : store_op (string * Invitation)
  | OpListInvitations (acc : string) : store_op (list Invitation)
  | OpRevokeInvitation (acc id : string) : store_op bool
  | OpRegisterDevice (token : string) (pub : bytes) (push caps : string) : store_op Device
  | OpGetDevice (id : string) : store_op Device
  | OpListDevices (acc : string) : store_op (list Device)
  | OpTouchLastSeen (id : string) : store_op unit
  | OpUpdatePushEndpoint (id endpoint : string) : store_op unit
  | OpSetDeviceRole (acc id role : string) : store_op unit
  | OpPromoteDevice (id : string) : store_op unit
  | OpRevokeDevice (caller id : string) : store_op unit
  | OpSetDeviceQuota (id : string) (n : Z) : store_op unit
  | OpDeviceStoredBytes (id : string) : store_op Z
  | OpCreateQueue (owner : string) (key : bytes) : store_op Queue
  | OpGetQueueByRecipient (rid : string) : store_op Queue
  | OpGetQueueBySender (sid : string) : store_op Queue
  | OpBindSenderKey (sid : string) (key : bytes) : store_op bool
  | OpRetireQueue (rid : string) : store_op unit
  | OpSetQueueQuota (rid : string) (n : Z) : store_op unit
  | OpAppendMessage (rid : string) (payload : bytes) (ttl : Z) : store_op Message
  | OpDrainMessages (rid : string) : store_op (list Message)
  | OpDeleteMessages (rid : string) (ids : list string) : store_op Z
  | OpPurgeExpired : store_op Z
  | OpSetBundle (dev : string) (blob : bytes) : store_op unit
  | OpGetBundle (dev : string) : store_op (bytes * Z)
  | OpAppendStatement (acc : string) (blob : bytes) : store_op Statement
  | OpListStatements (acc : string) (since : Z) : store_op (list Statement).

Section store.
Context `{Crypto}.

Definition run_op {A} (op : store_op A) : M A :=
  match op with
  | OpCreateAccount class n mode => CreateAccount class n mode
  | OpAccountQuotaBytes acc => AccountQuotaBytes acc
  | OpCreateInvitation acc ttl role => CreateInvitation acc ttl role
  | OpListInvitations acc => ListInvitations acc
  | OpRevokeInvitation acc id => RevokeInvitation acc id
  | OpRegisterDevice token pub push caps => RegisterDevice token pub push caps
  | OpGetDevice id => GetDevice id
  | OpListDevices acc => ListDevices acc
  | OpTouchLastSeen id => TouchLastSeen id
  | OpUpdatePushEndpoint id endpoint => UpdatePushEndpoint id endpoint
  | OpSetDeviceRole acc id role => SetDeviceRole acc id role
  | OpPromoteDevice id => PromoteDevice id
  | OpRevokeDevice caller id => RevokeDevice caller id
  | OpSetDeviceQuota id n => SetDeviceQuota id n
  | OpDeviceStoredBytes id => DeviceStoredBytes id
  | OpCreateQueue owner key => CreateQueue owner key
  | OpGetQueueByRecipient rid => GetQueueByRecipient rid
  | OpGetQueueBySender sid => GetQueueBySender sid
  | OpBindSenderKey sid key => BindSenderKey sid key
  | OpRetireQueue rid => RetireQueue rid
  | OpSetQueueQuota rid n => SetQueueQuota rid n
  | OpAppendMessage rid payload ttl => AppendMessage rid payload ttl
  | OpDrainMessages rid => DrainMessages rid
  | OpDeleteMessages rid ids => DeleteMessages rid ids
  | OpPurgeExpired => PurgeExpired
  | OpSetBundle dev blob => SetBundle dev blob
  | OpGetBundle dev => GetBundle dev
  | OpAppendStatement acc blob => AppendStatement acc blob
  | OpListStatements acc since => ListStatements acc since
  end.

(** The methods whose failure leaves the database as it was: all but
    [DrainMessages], whose purge stands when the read after it fails. *)
Definition atomic {A} (op : store_op A) : bool :=
  match op with OpDrainMessages _ => false | _ => true end.

(** The events a method may perform. *)
Definition op_event {A} (op : store_op A) (ev : event) : Prop :=
  match op, ev with
  | OpCreateAccount _ _ _, EvCreateAccount _ => True
  | OpCreateInvitation acc _ _, EvInvite _ acc' => acc' = acc
  | OpRevokeInvitation acc _, EvRevokeInvitation acc' => acc' = acc
  | OpRegisterDevice token _ _ _, EvRegister hash _ => hash = hashToken token
  | OpTouchLastSeen id, EvUpdateDevice id' => id' = id
  | OpUpdatePushEndpoint id _, EvUpdateDevice id' => id' = id
  | OpSetDeviceQuota id _, EvUpdateDevice id' => id' = id
  | OpSetDeviceRole acc id role, EvSetRole acc' id' role' => acc' = acc /\ id' = id /\ role' = role
  | OpPromoteDevice id, EvSetRole _ id' role' => id' = id /\ role' = RoleAdmin
  | OpRevokeDevice caller id, EvRevoke caller' id' => caller' = caller /\ id' = id
  | OpCreateQueue owner _, EvCreateQueue _ owner' => owner' = owner
  | OpBindSenderKey sid key, EvBind sid' key' => sid' = sid /\ key' = key
  | OpRetireQueue rid, EvRetire rid' => rid' = rid
  | OpSetQueueQuota rid _, EvQueueQuota rid' => rid' = rid
  | OpAppendMessage rid payload _, EvAppend rid' payload' => rid' = rid /\ payload' = payload
  | OpDrainMessages _, EvExpire => True
  | OpDeleteMessages rid ids, EvAck rid' ids' => rid' = rid /\ ids' = ids
  | OpPurgeExpired, EvExpire => True
  | OpSetBundle dev _, EvBundle dev' => dev' = dev
  | OpAppendStatement acc _, EvLog acc' => acc' = acc
  | _, _ => False
  end.

(** What a method does to the database at second [now]: nothing, or one event. *)
Definition moves {A} (op : store_op A) (now : Z) (db db' : DB) : Prop :=
  db' = db \/ exists ev, db_step now db ev db' /\ op_event op ev.

(** A method that only reads. *)
Definition reads {A} (m : M A) : Prop :=
  forall s, wp m s (outcome s (fun _ db' => db' = st_db s)).

Lemma reads_query {A} (f : DB -> A) : reads (query f).
Proof. intros s. wp_step; [by wp_fault|by wp_done]. Qed.

Lemma reads_query_row {A} (e : error) (f : DB -> option A) : reads (on_no_rows e (query_row f)).
Proof. intros s. wp_step. wp_step; [by wp_fault|]. destruct (f _); by wp_done. Qed.

Lemma reads_now_query {A} (f : Z -> DB -> A) : reads (now ← nowStr; query (f now)).
Proof. intros s. wp_step. wp_step. apply reads_query. Qed.

(** The methods that only read. *)
Definition read_op {A} (op : store_op A) : bool :=
  match op with
  | OpAccountQuotaBytes _ | OpListInvitations _ | OpGetDevice _ | OpListDevices _
  | OpDeviceStoredBytes _ | OpGetQueueByRecipient _ | OpGetQueueBySender _ | OpGetBundle _
  | OpListStatements _ _ => true
  | _ => false
  end.

Lemma read_op_db {A} (op : store_op A) (s : St) :
  read_op op = true -> st_db (run_op op s).2 = st_db s.
Proof.
  intros Hop. assert (reads (run_op op)) as Hr.
  { destruct op; try done;
      first [apply reads_query | apply reads_query_row | apply reads_now_query]. }
  destruct (Hr s) as (_ & _ & [(_ & _ & ?)|?]); done.
Qed.

(** What every method does: nothing or one event, and nothing when an atomic one fails. *)
Definition op_effect {A} (op : store_op A) (s : St) (r : error + A) (db' : DB) : Prop :=
  moves op (sec (st_clock s)) (st_db s) db' /\ (atomic op = true -> (exists e, r = inl e) -> db' = st_db s).

Lemma reads_outcome {A} (op : store_op A) (s : St) :
  reads (run_op op) -> wp (run_op op) s (outcome s (op_effect op s)).
Proof.
  intros Hm. eapply wp_mono; [apply Hm|]. intros r s' Ho.
  eapply outcome_mono; [exact Ho|]. intros db' ->. split; [by left|done].
Qed.

(** A method of which more is known than the event it does. *)
Lemma event_outcome {A} (op : store_op A) (s : St) (ev : A -> event) (Q : error + A -> DB -> Prop) :
  wp (run_op op) s (outcome s Q) -> (forall a, op_event op (ev a)) ->
  (forall r db', Q r db' -> effect s ev r db') -> wp (run_op op) s (outcome s (op_effect op s)).
Proof.
  intros Hm Hev HQ. eapply wp_mono; [apply Hm|]. intros r s' Ho.
  eapply outcome_mono; [exact Ho|]. intros db' He%HQ. destruct r; simpl in He.
  - subst. split; [by left|done].
  - split; [right; eexists; by eauto|]. by intros _ [e ?].
Qed.

Lemma effect_outcome {A} (op : store_op A) (s : St) (ev : A -> event) :
  wp (run_op op) s (outcome s (effect s ev)) -> (forall a, op_event op (ev a)) ->
  wp (run_op op) s (outcome s (op_effect op s)).
Proof. intros Hm Hev. by eapply event_outcome. Qed.

Lemma run_op_outcome {A} (op : store_op A) (s : St) :
  integrity (st_db s) -> wp (run_op op) s (outcome s (op_effect op s)).
Proof.
  intros Hi. destruct op;
    try (apply reads_outcome; first [apply reads_query|apply reads_query_row|apply reads_now_query]; fail).
  - by eapply effect_outcome; [by apply CreateAccount_spec|].
  - eapply (event_outcome _ _ (fun ti => EvInvite (hashToken ti.1) acc)); [by apply CreateInvitation_spec|done|].
    intros [e|ti] db'; [done|]. by apply invited_step.
  - by eapply effect_outcome; [by apply RevokeInvitation_spec|].
  - eapply (event_outcome _ _ (fun d => EvRegister (hashToken token) (d_id d))); [by apply RegisterDevice_spec|done|].
    intros [e|d] db' Heff; [apply Heff|]. by eapply registered_step.
  - by eapply effect_outcome; [by apply TouchLastSeen_spec|].
  - by eapply effect_outcome; [by apply UpdatePushEndpoint_spec|].
  - by eapply effect_outcome; [by apply SetDeviceRole_spec|].
  - eapply wp_mono; [apply PromoteDevice_spec|]. intros r s' Ho.
    eapply outcome_mono; [exact Ho|]. intros db' Heff. destruct r; simpl in Heff.
    + subst. split; [by left|done].
    + destruct Heff. split; [right; by eexists|]. by intros _ [].
  - by eapply effect_outcome; [by apply RevokeDevice_spec|].
  - by eapply effect_outcome; [by apply SetDeviceQuota_spec|].
  - by eapply effect_outcome; [by apply CreateQueue_spec|].
  - by eapply effect_outcome; [by apply BindSenderKey_spec|].
  - by eapply effect_outcome; [by apply RetireQueue_spec|].
  - by eapply effect_outcome; [by apply SetQueueQuota_spec|].
  - eapply (event_outcome _ _ (fun m => EvAppend rid payload)); [by apply AppendMessage_spec|done|].
    intros [e|m] db' Heff; [by destruct Heff|]. destruct Heff as (_ & Hf & Hfit & ->). by apply step_append.
  - eapply wp_mono; [by apply DrainMessages_spec|]. intros r s' Ho.
    eapply outcome_mono; [exact Ho|]. intros db' [-> _]. split; [|done].
    right. exists EvExpire. split; [|done]. apply (step_expire _ _ (fun m => _)). tauto.
  - eapply (event_outcome _ _ (fun _ => EvAck rid ids)); [by apply DeleteMessages_spec|done|].
    intros [e|n] db' Heff; [done|]. destruct Heff as [_ ->]. apply step_ack.
  - by eapply effect_outcome; [by apply PurgeExpired_spec|].
  - by eapply effect_outcome; [by apply SetBundle_spec|].
  - eapply (event_outcome _ _ (fun _ => EvLog acc)); [by apply AppendStatement_spec|done|].
    intros [e|x] db' Heff; [done|]. destruct Heff as (_ & Ha & Hb & Hm & ->). by apply step_log.
Qed.

(** ** Callers *)

(** One call: the method, and the time, random bytes and driver failures it
    meets. *)
Record call := mkCall {
  c_result : Type;
  c_op : store_op c_result;
  c_clock : Z;
  c_rnd : bytes;
  c_faults : list bool;
}.

Definition run_call (c : call) (db : DB) : DB :=
  st_db (run_op c.(c_op) (mkSt db c.(c_clock) c.(c_rnd) c.(c_faults))).2.

(** The database after a sequence of calls. *)
Definition run_calls (cs : list call) (db : DB) : DB := foldl (fun db c => run_call c db) db cs.

Lemma run_call_moves (c : call) (db : DB) :
  integrity db -> moves (c_op c) (sec (c_clock c)) db (run_call c db).
Proof.
  intros Hi. unfold run_call.
  destruct (run_op_outcome c.(c_op) (mkSt db c.(c_clock) c.(c_rnd) c.(c_faults)) Hi)
    as (_ & _ & [(_ & _ & ->)|[Hm _]]); [by left|done].
Qed.

Lemma run_calls_steps (cs : list call) (db : DB) :
  db_ok db -> db_steps db (run_calls cs db) /\ db_ok (run_calls cs db).
Proof.
  revert db. induction cs as [|c cs IH]; intros db Hok; [split; [constructor|done]|]. simpl.
  destruct (run_call_moves c db (ok_integrity _ Hok)) as [->|(ev & Hev & _)]; [by apply IH|].
  destruct (IH (run_call c db)) as [Hs Hok']; [by eapply db_step_ok|].
  split; [by econstructor|done].
Qed.

Lemma run_calls_evolves (cs : list call) (db : DB) :
  db_ok db -> evolves db (run_calls cs db).
Proof. intros Hok. by apply db_steps_evolves, run_calls_steps. Qed.
End store.

Arguments mkCall {_} c_op c_clock c_rnd c_faults : rename.
