(* ===== verification/Demo.v ===== *)
(** * A small deployment, to evaluate the definitions on

    A managed account with an admin and a member device, a queue of the admin's
    bound to a sender, and one stored message, built by the calls a client and an
    operator make. The examples and the non-vacuity witnesses of the other files
    run from here. *)

From S2P Require Import Prelude Encoding Clock Sql Schema StoreM Crypto Accounts Devices Queues.
From S2P Require Import Blobs Steps Invariants Store.

Local Open Scope Z_scope.

Module Demo.
Export Toy.

(** 2023-11-14T22:13:20Z, in nanoseconds. *)
Definition t0 : Z := 1700000000 * Second.

Definition rnd (b : byte) : bytes := replicate 64 b.

Definition acc : string := fresh_id "acc_" (rnd x01).
Definition token1 : string := base64_rawurl_encode (replicate 32 x02).
Definition token2 : string := base64_rawurl_encode (replicate 32 x03).
Definition dev1 : string := fresh_id "dev_" (rnd x04).
Definition dev2 : string := fresh_id "dev_" (rnd x05).
Definition rcp : string := fresh_id "rcp_" (rnd x06).
Definition snd : string := fresh_id "snd_" (rnd x06).
Definition msg1 : string := fresh_id "msg_" (rnd x07).

(** Private keys; the public ones are what the server stores. *)
Definition key1 : bytes := replicate 32 x11.
Definition key2 : bytes := replicate 32 x12.
Definition qkey : bytes := replicate 32 x13.
Definition skey : bytes := replicate 32 x14.
Definition hello : bytes := bytes_of_string "hello".

Definition at_ {A} (op : store_op A) (seconds : Z) (b : byte) : call :=
  mkCall op (t0 + seconds * Second) (rnd b) [].

(** An account with two devices. *)
Definition enrolled : list call := [
  at_ (OpCreateAccount "standard" 0 AdminModeManaged) 0 x01;
  at_ (OpCreateInvitation acc (15 * Minute) RoleAdmin) 1 x02;
  at_ (OpCreateInvitation acc (15 * Minute) RoleMember) 2 x03;
  at_ (OpRegisterDevice token1 (ed25519_public key1) "https://push/1" "") 3 x04;
  at_ (OpRegisterDevice token2 (ed25519_public key2) "https://push/2" "") 4 x05 ].

(** A queue of the first device, bound, with one message. *)
Definition running : list call := enrolled ++ [
  at_ (OpCreateQueue dev1 (ed25519_public qkey)) 5 x06;
  at_ (OpBindSenderKey snd (ed25519_public skey)) 6 x00;
  at_ (OpAppendMessage rcp hello Hour) 7 x07 ].

Definition db0 : DB := run_calls running empty_db.

(** The state a method called ten seconds in starts from. *)
Definition s0 : St := mkSt db0 (t0 + 10 * Second) (rnd x08) [].

Lemma db0_eq : db0 = run_calls running empty_db.
Proof. reflexivity. Qed.

Lemma db0_ok : db_ok db0.
Proof. apply run_calls_steps, ok_empty. Qed.

Lemma db0_integrity : integrity db0.
Proof. apply db0_ok. Qed.

(** Evaluated by [vm_compute], never unfolded by unification. *)
#[global] Opaque db0.
End Demo.
