(* ===== verification/Sqlite.v ===== *)
(** * SQL statements over the database file ([database/sql], SQLite)

    The statements the store sends, as data, and what SQLite does with them over a
    catalog of rows: expressions and comparisons of stored values, joins, aggregates,
    [ORDER BY], defaults, [NOT NULL], keys, uniqueness and references; reading a result
    row into Go variables; and the computations that send statements. *)

From S2P Require Import Prelude Encoding Clock Decimal Schema Migrate.

Local Open Scope Z_scope.

(** ** Files *)

(** The catalog, and the largest value SQLite has assigned to [messages.seq] (the table
    [sqlite_sequence] it keeps for [AUTOINCREMENT]). *)
Record file := mkFile { f_cat : catalog; f_seq : Z }.

Definition rows (f : file) (tbl : string) : list row :=
  match c_tables (f_cat f) !! tbl with Some t => t_rows t | None => [] end.

(** Replace the rows of a table that is there. *)
Definition with_rows (tbl : string) (rs : list row) (f : file) : file :=
  match c_tables (f_cat f) !! tbl with
  | Some t => mkFile (with_table tbl (mkTable (t_columns t) rs) (f_cat f)) (f_seq f)
  | None => f
  end.

(** ** Values *)

(** The order of stored values: nulls, integers, texts, blobs; texts and blobs byte by
    byte. *)
Definition val_compare (a b : sqlval) : comparison :=
  match a, b with
  | VNull, VNull => Eq
  | VNull, _ => Lt
  | _, VNull => Gt
  | VInt x, VInt y => x ?= y
  | VInt _, _ => Lt
  | _, VInt _ => Gt
  | VText s, VText t => String.compare s t
  | VText _, VBlob _ => Lt
  | VBlob _, VText _ => Gt
  | VBlob x, VBlob y => String.compare (string_of_bytes x) (string_of_bytes y)
  end.

Inductive cmp : Type := CEq | CNe | CLe | CGt.

Definition cmp_holds (o : cmp) (c : comparison) : bool :=
  match o, c with
  | CEq, Eq | CNe, (Lt | Gt) | CLe, (Lt | Eq) | CGt, Gt => true
  | _, _ => false
  end.

(** A comparison with a null is not true. *)
Definition val_cmp (o : cmp) (a b : sqlval) : bool :=
  match a, b with
  | VNull, _ | _, VNull => false
  | _, _ => cmp_holds o (val_compare a b)
  end.

(** ** Expressions and conditions *)

(** A column of one of the tables of the statement, by the table's alias, or a value. *)
Inductive expr : Type := Col (alias name : string) | Val (v : sqlval).

(** The row each alias stands for. *)
Abbreviation env := (list (string * row)).

Fixpoint assoc {A} (k : string) (l : list (string * A)) : option A :=
  match l with
  | [] => None
  | (k', a) :: l => if String.eqb k k' then Some a else assoc k l
  end.

Definition eval (ρ : env) (e : expr) : sqlval :=
  match e with
  | Col alias name => default VNull (r ← assoc alias ρ; r !! name)
  | Val v => v
  end.

(** [CIn] is [e IN (values)], [CInSelect] is [e IN (SELECT col FROM tbl WHERE c)]. *)
Inductive cond : Type :=
  | CTrue
  | CCmp (o : cmp) (a b : expr)
  | CIsNull (e : expr)
  | CIn (e : expr) (vs : list sqlval)
  | CInSelect (e : expr) (col tbl : string) (c : cond)
  | CAnd (a b : cond).

Fixpoint holds (f : file) (c : cond) (ρ : env) : bool :=
  match c with
  | CTrue => true
  | CCmp o a b => val_cmp o (eval ρ a) (eval ρ b)
  | CIsNull e => bool_decide (eval ρ e = VNull)
  | CIn e vs => existsb (val_cmp CEq (eval ρ e)) vs
  | CInSelect e col tbl c =>
      existsb (fun r => holds f c [(""%string, r)] && val_cmp CEq (eval ρ e) (eval [(""%string, r)] (Col "" col)))
        (rows f tbl)
  | CAnd a b => holds f a ρ && holds f b ρ
  end.

(** ** Selections *)

(** [FROM tbl alias JOIN tbl alias ON c ...]. *)
Record source := mkSource { src_table : string; src_alias : string; src_on : cond }.

(** [ACoalesce a d] is [COALESCE(a, d)]; the length is that of a blob. *)
Inductive aggregate : Type :=
  | ACount
  | ASumLength (e : expr)
  | AMax (e : expr)
  | ACoalesce (a : aggregate) (d : Z)
  | APlus (a : aggregate) (n : Z).

Inductive output : Type := Cols (es : list expr) | Agg (a : aggregate).

Record select := mkSelect {
  sel_output : output;
  sel_from : list source;
  sel_where : cond;
  sel_order : list expr;
}.

Fixpoint joined (f : file) (from : list source) (ρs : list env) : list env :=
  match from with
  | [] => ρs
  | s :: from =>
      joined f from (ρ ← ρs;
        filter (fun ρ => holds f (src_on s) ρ = true)
          ((fun r => ρ ++ [(src_alias s, r)]) <$> rows f (src_table s)))
  end.

(** [ORDER BY e, ...], ascending. *)
Fixpoint lex_le (es : list expr) (ρ ρ' : env) : bool :=
  match es with
  | [] => true
  | e :: es =>
      match val_compare (eval ρ e) (eval ρ' e) with
      | Lt => true
      | Gt => false
      | Eq => lex_le es ρ ρ'
      end
  end.

Definition env_le (es : list expr) (ρ ρ' : env) : Prop := lex_le es ρ ρ' = true.
#[export] Instance env_le_dec (es : list expr) : RelDecision (env_le es).
Proof. intros ρ ρ'. unfold env_le. apply _. Defined.

(** The length of a blob, and the sum and largest of integers: the nulls are left out. *)
Definition int_of (v : sqlval) : option Z := match v with VInt z => Some z | _ => None end.
Definition blob_length (v : sqlval) : option Z :=
  match v with VBlob b => Some (Z.of_nat (length b)) | _ => None end.

Fixpoint aggregated (a : aggregate) (ρs : list env) : sqlval :=
  match a with
  | ACount => VInt (Z.of_nat (length ρs))
  | ASumLength e =>
      match omap (fun ρ => blob_length (eval ρ e)) ρs with [] => VNull | l => VInt (sumZ l) end
  | AMax e =>
      match omap (fun ρ => int_of (eval ρ e)) ρs with [] => VNull | x :: l => VInt (foldr Z.max x l) end
  | ACoalesce a d => match aggregated a ρs with VNull => VInt d | v => v end
  | APlus a n => match aggregated a ρs with VInt z => VInt (z + n) | v => v end
  end.

(** The rows that satisfy the condition, in order. *)
Definition selected (f : file) (s : select) : list env :=
  let ρs := filter (fun ρ => holds f (sel_where s) ρ = true) (joined f (sel_from s) [[]]) in
  match sel_order s with
  | [] => ρs
  | es => merge_sort (env_le es) ρs
  end.

(** The result rows. *)
Definition results (f : file) (s : select) : list (list sqlval) :=
  match sel_output s with
  | Cols es => (fun ρ => eval ρ <$> es) <$> selected f s
  | Agg a => [[aggregated a (selected f s)]]
  end.

(** ** Constraints *)

(** Of each table: the columns that are a key or unique together, and the columns that
    refer to a column of another table. *)
Definition unique_keys (tbl : string) : list (list string) :=
  match tbl with
  | "accounts" => [["id"]]
  | "invitations" => [["token_hash"]]
  | "devices" => [["id"]]
  | "queues" => [["recipient_id"]; ["sender_id"]]
  | "messages" => [["seq"]; ["id"]]
  | "bundles" => [["device_id"]]
  | "statements" => [["account_id"; "seq"]]
  | _ => []
  end%string.

Definition references (tbl : string) : list (string * (string * string)) :=
  match tbl with
  | "invitations" => [("account_id", ("accounts", "id"))]
  | "devices" => [("account_id", ("accounts", "id"))]
  | "queues" => [("owner_device", ("devices", "id"))]
  | "messages" => [("queue_id", ("queues", "recipient_id"))]
  | "bundles" => [("device_id", ("devices", "id"))]
  | "statements" => [("account_id", ("accounts", "id"))]
  | _ => []
  end%string.

(** The tables whose rows others refer to. *)
Definition referred : list string := ["accounts"; "devices"; "queues"]%string.

Definition get (r : row) (c : string) : sqlval := default VNull (r !! c).

(** Two rows agree on a key. *)
Definition clash (keys : list (list string)) (r r' : row) : bool :=
  existsb (forallb (fun c => val_cmp CEq (get r c) (get r' c))) keys.

(** Every reference of the row leads somewhere. *)
Definition referenced (f : file) (tbl : string) (r : row) : bool :=
  forallb (fun ref =>
      match get r ref.1 with
      | VNull => true
      | v => existsb (fun r' => val_cmp CEq v (get r' ref.2.2)) (rows f ref.2.1)
      end) (references tbl).

(** ** Changes *)

Inductive dml : Type :=
  | Insert (tbl : string) (vals : list (string * sqlval))
  | Upsert (tbl : string) (vals : list (string * sqlval)) (key : string) (sets : list string)
  | Update (tbl : string) (sets : list (string * sqlval)) (c : cond)
  | Delete (tbl : string) (c : cond).

(** The row an [INSERT] makes: the values given, and the defaults of the other columns. *)
Definition new_row (cols : list column) (vals : list (string * sqlval)) : row :=
  list_to_map ((fun c => (col_name c, default (col_default c) (assoc (col_name c) vals))) <$> cols).

Definition not_null (cols : list column) (r : row) : bool :=
  forallb (fun c => negb (col_notnull c && bool_decide (get r (col_name c) = VNull))) cols.

(** The largest [seq] in the table or ever assigned, and the value of the column that
    counts for itself. *)
Definition next_seq (f : file) (tbl : string) : Z :=
  1 + foldr Z.max (f_seq f) (omap (fun r => int_of (get r "seq")) (rows f tbl)).

Definition counted (f : file) (tbl : string) (vals : list (string * sqlval)) : list (string * sqlval) :=
  if decide (tbl = "messages"%string) then ("seq"%string, VInt (next_seq f tbl)) :: vals else vals.

Definition count_up (tbl : string) (vals : list (string * sqlval)) (f : file) : file :=
  if decide (tbl = "messages"%string) then mkFile (f_cat f) (next_seq f tbl) else f.

Definition insert_row (f : file) (tbl : string) (vals : list (string * sqlval)) : option (file * Z) :=
  t ← c_tables (f_cat f) !! tbl;
  let r := new_row (t_columns t) (counted f tbl vals) in
  if forallb (fun cv => bool_decide (cv.1 ∈ column_names t)) vals && not_null (t_columns t) r &&
     negb (existsb (clash (unique_keys tbl) r) (t_rows t)) && referenced f tbl r
  then Some (with_rows tbl (t_rows t ++ [r]) (count_up tbl vals f), 1) else None.

Definition set_columns (sets : list (string * sqlval)) (r : row) : row :=
  foldr (fun cv r => <[cv.1 := cv.2]> r) r sets.

(** The rows a condition selects. *)
Definition matches (f : file) (c : cond) (r : row) : Prop := holds f c [(""%string, r)] = true.
#[export] Instance matches_dec (f : file) (c : cond) (r : row) : Decision (matches f c r).
Proof. unfold matches. apply _. Defined.

(** The columns that are neither part of a key nor of a reference: setting one of them
    breaks no constraint but [NOT NULL]. *)
Definition plain_column (tbl name : string) : bool :=
  negb (existsb (existsb (String.eqb name)) (unique_keys tbl)) &&
  negb (existsb (fun ref => String.eqb name ref.1) (references tbl)).

(** One statement, with the number of rows it changed, or the error of a constraint. The
    program sets no column of a key or a reference, and deletes no row that another may
    refer to; the model refuses both. *)
Definition exec_dml (f : file) (s : dml) : option (file * Z) :=
  match s with
  | Insert tbl vals => insert_row f tbl vals
  | Upsert tbl vals key sets =>
      let here r := val_cmp CEq (default VNull (assoc key vals)) (get r key) = true in
      if decide (Exists here (rows f tbl)) then
        if forallb (plain_column tbl) sets then
          let f' := with_rows tbl
            ((fun r => if decide (here r)
                       then set_columns ((fun c => (c, default VNull (assoc c vals))) <$> sets) r else r)
             <$> rows f tbl) f in
          Some (f', 1)
        else None
      else insert_row f tbl vals
  | Update tbl sets c =>
      t ← c_tables (f_cat f) !! tbl;
      if forallb (fun cv => bool_decide (cv.1 ∈ column_names t) && plain_column tbl cv.1 &&
                            negb (bool_decide (cv.2 = VNull))) sets
      then Some (with_rows tbl ((fun r => if decide (matches f c r) then set_columns sets r else r) <$> t_rows t) f,
                 Z.of_nat (length (filter (matches f c) (t_rows t))))
      else None
  | Delete tbl c =>
      if bool_decide (tbl ∈ referred) then None else
      Some (with_rows tbl (filter (fun r => ~ matches f c r) (rows f tbl)) f,
            Z.of_nat (length (filter (matches f c) (rows f tbl))))
  end.

(** ** Reading results ([Rows.Scan]) *)

Definition scan_string (v : sqlval) : option string :=
  match v with
  | VText s => Some s
  | VInt z => Some (print_int z)
  | VBlob b => Some (string_of_bytes b)
  | VNull => None
  end.

(** Into an [int] or an [int64]. *)
Definition scan_int (v : sqlval) : option Z :=
  match v with
  | VInt z => Some z
  | VText s => ParseInt s
  | VBlob b => ParseInt (string_of_bytes b)
  | VNull => None
  end.

(** Into a [[]byte], which a null leaves nil. *)
Definition scan_bytes (v : sqlval) : option bytes :=
  match v with
  | VBlob b => Some b
  | VText s => Some (bytes_of_string s)
  | VInt z => Some (bytes_of_string (print_int z))
  | VNull => None
  end.

(** ** Sending statements *)

(** What a method of the store reads and writes, as [St], with the file. *)
Record FileSt := mkFileSt {
  fs_file : file;
  fs_clock : Z;
  fs_rnd : bytes;
  fs_faults : list bool;
}.

Definition SM (A : Type) : Type := FileSt -> (error + A) * FileSt.

#[export] Instance SM_ret : MRet SM := fun A a s => (inr a, s).
#[export] Instance SM_bind : MBind SM := fun A B k m s =>
  match m s with
  | (inl e, s') => (inl e, s')
  | (inr a, s') => k a s'
  end.

Definition sql_throw {A} (e : error) : SM A := fun s => (inl e, s).

Definition sql_now : SM Z := fun s => (inr (fs_clock s), s).

Definition sql_rand (n : nat) : SM bytes := fun s =>
  if decide (n <= length (fs_rnd s))%nat
  then (inr (take n (fs_rnd s)), mkFileSt (fs_file s) (fs_clock s) (drop n (fs_rnd s)) (fs_faults s))
  else (inl ErrRand, s).

(** One call of the driver: it may fail, and otherwise is [k]. *)
Definition sql_call {A} (k : file -> (error + A) * file) : SM A := fun s =>
  match fs_faults s with
  | true :: fs => (inl ErrDriver, mkFileSt (fs_file s) (fs_clock s) (fs_rnd s) fs)
  | fs => let '(r, f) := k (fs_file s) in (r, mkFileSt f (fs_clock s) (fs_rnd s) (tail fs))
  end.

(** [ExecContext], with [RowsAffected]. *)
Definition ExecContext (s : dml) : SM Z := sql_call (fun f =>
  match exec_dml f s with
  | Some (f', n) => (inr n, f')
  | None => (inl ErrConstraint, f)
  end).

(** [QueryContext], and reading every row with [scan]. *)
Definition QueryContext {A} (s : select) (scan : list sqlval -> option A) : SM (list A) :=
  sql_call (fun f =>
    (match mapM scan (results f s) with Some l => inr l | None => inl (Errorf "Scan") end, f)).

(** [QueryRowContext], and reading the first row with [scan]. *)
Definition QueryRowContext {A} (s : select) (scan : list sqlval -> option A) : SM A :=
  sql_call (fun f =>
    (match results f s with
     | [] => inl ErrNoRows
     | vs :: _ => match scan vs with Some a => inr a | None => inl (Errorf "Scan") end
     end, f)).

(** [BeginTx ... Commit] with the deferred [Rollback]. *)
Definition sql_tx {A} (body : SM A) : SM A := fun s =>
  match sql_call (fun f => (inr tt, f)) s with
  | (inl e, s1) => (inl e, s1)
  | (inr _, s1) =>
      match (x ← body; _ ← sql_call (fun f => (inr tt, f)); mret x) s1 with
      | (inl e, s2) => (inl e, mkFileSt (fs_file s1) (fs_clock s2) (fs_rnd s2) (fs_faults s2))
      | (inr a, s2) => (inr a, s2)
      end
  end.

(** [if errors.Is(err, sql.ErrNoRows) { return e }]. *)
Definition sql_on_no_rows {A} (e : error) (m : SM A) : SM A := fun s =>
  match m s with
  | (inl ErrNoRows, s') => (inl e, s')
  | r => r
  end.
