(* ===== verification/SqlStore.v ===== *)
(** * The store's statements ([internal/store])

    Every method of [*store.Store] that sends a statement, with the statements as they
    are sent: their columns, conditions, joins and orders, times as RFC3339 text and
    flags as integers, and what is read back scanned column by column. *)

From S2P Require Import Prelude Encoding Clock Decimal Schema Crypto Accounts Devices Queues Blobs.
From S2P Require Import Migrate Sqlite.

Local Open Scope Z_scope.

(** ** Parts of statements *)

Definition col (name : string) : expr := Col "" name.
Definition is_ (name : string) (v : sqlval) : cond := CCmp CEq (col name) (Val v).
Definition differs (name : string) (v : sqlval) : cond := CCmp CNe (col name) (Val v).
Definition after (name : string) (v : sqlval) : cond := CCmp CGt (col name) (Val v).
Definition up_to (name : string) (v : sqlval) : cond := CCmp CLe (col name) (Val v).

(** [a.c = b.d], and a condition on a column of [a]. *)
Definition on (a c b d : string) : cond := CCmp CEq (Col a c) (Col b d).

Definition table_ (tbl : string) : list source := [mkSource tbl "" CTrue].

Infix "&&&" := CAnd (at level 40, left associativity) : sund_scope.

(** ** Times *)

(** [time.Time{}]: the year 1. *)
Definition zero_time : Z := -62135596800.

(** [t, _ := time.Parse(time.RFC3339, s)], to the second. *)
Definition parse_time (s : string) : Z :=
  match parse_rfc3339 s with Some ns => sec ns | None => zero_time end.

Definition sql_nowStr : SM string := t ← sql_now; mret (rfc3339 (sec t)).

Definition sql_newID (prefix : string) : SM string :=
  b ← sql_rand 9;
  mret (prefix +:+ hex_encode b).

(** ** Scanning *)

Definition deviceColumns : list expr :=
  col <$> ["id"; "account_id"; "public_key"; "push_endpoint"; "capabilities"; "created"; "last_seen";
           "revoked"; "quota_bytes"; "role"]%string.

Definition scanDevice (vs : list sqlval) : option Device :=
  match vs with
  | [id; acc; pub; push; caps; created; lastSeen; revoked; quota; role] =>
      id ← scan_string id; acc ← scan_string acc; pub ← scan_bytes pub; push ← scan_string push;
      caps ← scan_string caps; created ← scan_string created; lastSeen ← scan_string lastSeen;
      revoked ← scan_int revoked; quota ← scan_int quota; role ← scan_string role;
      Some (mkDevice id acc pub push caps (parse_time created) (parse_time lastSeen)
              (bool_decide (revoked <> 0)) role quota)
  | _ => None
  end.

Definition queueColumns : list expr :=
  col <$> ["recipient_id"; "sender_id"; "owner_device"; "recipient_key"; "sender_key"; "created"; "retired";
           "quota_bytes"]%string.

Definition scanQueue (vs : list sqlval) : option Queue :=
  match vs with
  | [rid; sid; owner; rkey; skey; created; retired; quota] =>
      rid ← scan_string rid; sid ← scan_string sid; owner ← scan_string owner; rkey ← scan_bytes rkey;
      created ← scan_string created; retired ← scan_int retired; quota ← scan_int quota;
      Some (mkQueue rid sid owner rkey (scan_bytes skey) (parse_time created)
              (bool_decide (retired <> 0)) quota)
  | _ => None
  end.

(** One column. *)
Definition scan1 {A} (scan : sqlval -> option A) (vs : list sqlval) : option A :=
  match vs with [v] => scan v | _ => None end.

(** ** Accounts and invitations *)

Definition Store_CreateAccount (quotaClass : string) (quotaBytes : Z) (adminMode : string) : SM Account :=
  let quotaBytes := if decide (quotaBytes <= 0) then QuotaBytesForClass quotaClass else quotaBytes in
  let adminMode := if decide (adminMode = ""%string) then AdminModeFlat else adminMode in
  if decide (adminMode <> AdminModeFlat /\ adminMode <> AdminModeManaged)
  then sql_throw (Errorf "admin mode") else
  id ← sql_newID "acc_";
  created ← sql_nowStr;
  _ ← ExecContext (Insert "accounts"
        [("id", VText id); ("created", VText created); ("quota", VText quotaClass); ("status", VText "active");
         ("quota_bytes", VInt quotaBytes); ("admin_mode", VText adminMode)]%string);
  mret (mkAccount id (parse_time created) quotaClass "active" quotaBytes adminMode).

Definition Store_AccountQuotaBytes (accountID : string) : SM Z :=
  sql_on_no_rows ErrDeviceNotFound (QueryRowContext
    (mkSelect (Cols [col "quota_bytes"]) (table_ "accounts") (is_ "id" (VText accountID)) [])
    (scan1 scan_int)).

Definition admin_mode_of (accountID : string) : select :=
  mkSelect (Cols [col "admin_mode"]) (table_ "accounts") (is_ "id" (VText accountID)) [].

Section crypto.
Context `{Crypto}.

Definition Store_CreateInvitation (accountID : string) (ttl : Z) (grantsRole : string)
  : SM (string * Invitation) :=
  raw ← sql_rand 32;
  let token := base64_rawurl_encode raw in
  id ← sql_newID "inv_";
  let grantsRole := if decide (grantsRole = ""%string) then RoleMember else grantsRole in
  if decide (grantsRole <> RoleAdmin /\ grantsRole <> RoleMember)
  then sql_throw (Errorf "role") else
  mode ← sql_on_no_rows ErrDeviceNotFound (QueryRowContext (admin_mode_of accountID) (scan1 scan_string));
  let grantsRole := if decide (mode <> AdminModeManaged) then RoleAdmin else grantsRole in
  now ← sql_now;
  let expires := now + ttl in
  _ ← ExecContext (Insert "invitations"
        [("token_hash", VText (hashToken token)); ("id", VText id); ("account_id", VText accountID);
         ("created", VText (rfc3339 (sec now))); ("expires", VText (rfc3339 (sec expires)));
         ("consumed", VInt 0); ("revoked", VInt 0); ("grants_role", VText grantsRole)]%string);
  mret (token, mkInvitation id accountID (sec now) (sec expires) grantsRole).

(** ** Registration *)

Definition scan_grant (vs : list sqlval) : option (string * string * string) :=
  match vs with
  | [a; b; c] => a ← scan_string a; b ← scan_string b; c ← scan_string c; Some (a, b, c)
  | _ => None
  end.

Definition Store_RegisterDevice (token : string) (pub : bytes) (pushEndpoint capabilities : string) : SM Device :=
  if decide (length pub <> PublicKeySize) then sql_throw (Errorf "public key") else
  sql_tx (
    now ← sql_nowStr;
    let hash := hashToken token in
    n ← ExecContext (Update "invitations" [("consumed"%string, VInt 1)]
          (is_ "token_hash" (VText hash) &&& is_ "consumed" (VInt 0) &&& is_ "revoked" (VInt 0) &&&
           after "expires" (VText now)));
    if decide (n <> 1) then sql_throw ErrInvalidInvitation else
    '(accountID, grantsRole, adminMode) ← QueryRowContext
       (mkSelect (Cols [Col "i" "account_id"; Col "i" "grants_role"; Col "a" "admin_mode"])
          [mkSource "invitations" "i" CTrue; mkSource "accounts" "a" (on "i" "account_id" "a" "id")]
          (CCmp CEq (Col "i" "token_hash") (Val (VText hash))) [])
       scan_grant;
    role ← (if decide (adminMode = AdminModeManaged) then
              everRegistered ← QueryRowContext
                (mkSelect (Agg ACount) (table_ "devices") (is_ "account_id" (VText accountID)) [])
                (scan1 scan_int);
              mret (if decide (everRegistered = 0) then RoleAdmin else grantsRole)
            else mret RoleAdmin);
    id ← sql_newID "dev_";
    _ ← ExecContext (Insert "devices"
          [("id", VText id); ("account_id", VText accountID); ("public_key", VBlob pub);
           ("push_endpoint", VText pushEndpoint); ("capabilities", VText capabilities); ("created", VText now);
           ("last_seen", VText now); ("revoked", VInt 0); ("role", VText role)]%string);
    mret (mkDevice id accountID pub pushEndpoint capabilities (parse_time now) (parse_time now) false role 0)).

End crypto.

Definition scan_invitation (vs : list sqlval) : option Invitation :=
  match vs with
  | [id; acc; created; expires] =>
      id ← scan_string id; acc ← scan_string acc; created ← scan_string created; expires ← scan_string expires;
      Some (mkInvitation id acc (parse_time created) (parse_time expires) "")
  | _ => None
  end.

Definition Store_ListInvitations (accountID : string) : SM (list Invitation) :=
  now ← sql_nowStr;
  QueryContext
    (mkSelect (Cols [col "id"; col "account_id"; col "created"; col "expires"]) (table_ "invitations")
       (is_ "account_id" (VText accountID) &&& is_ "consumed" (VInt 0) &&& is_ "revoked" (VInt 0) &&&
        after "expires" (VText now))
       [col "created"; col "id"])
    scan_invitation.

Definition Store_RevokeInvitation (accountID id : string) : SM bool :=
  n ← ExecContext (Update "invitations" [("revoked"%string, VInt 1)]
        (is_ "id" (VText id) &&& is_ "account_id" (VText accountID) &&& is_ "consumed" (VInt 0) &&&
         is_ "revoked" (VInt 0)));
  mret (bool_decide (n = 1)).

(** ** Devices *)

Definition Store_GetDevice (id : string) : SM Device :=
  sql_on_no_rows ErrDeviceNotFound (QueryRowContext
    (mkSelect (Cols deviceColumns) (table_ "devices") (is_ "id" (VText id)) []) scanDevice).

Definition Store_ListDevices (accountID : string) : SM (list Device) :=
  QueryContext
    (mkSelect (Cols deviceColumns) (table_ "devices") (is_ "account_id" (VText accountID)) [col "created"; col "id"])
    scanDevice.

Definition Store_TouchLastSeen (id : string) : SM unit :=
  now ← sql_nowStr;
  _ ← ExecContext (Update "devices" [("last_seen"%string, VText now)] (is_ "id" (VText id)));
  mret tt.

Definition Store_UpdatePushEndpoint (id endpoint : string) : SM unit :=
  _ ← ExecContext (Update "devices" [("push_endpoint"%string, VText endpoint)] (is_ "id" (VText id)));
  mret tt.

(** [SELECT COUNT( * ) FROM devices WHERE ...]. *)
Definition count_devices (c : cond) : SM Z :=
  QueryRowContext (mkSelect (Agg ACount) (table_ "devices") c []) (scan1 scan_int).

Definition Store_assertNotLastAdmin (accountID deviceID : string) (allowIfAccountEmpties : bool) : SM unit :=
  otherAdmins ← count_devices (is_ "account_id" (VText accountID) &&& is_ "revoked" (VInt 0) &&&
                               is_ "role" (VText RoleAdmin) &&& differs "id" (VText deviceID));
  if decide (otherAdmins > 0) then mret tt else
  if negb allowIfAccountEmpties then sql_throw ErrLastAdmin else
  otherDevices ← count_devices (is_ "account_id" (VText accountID) &&& is_ "revoked" (VInt 0) &&&
                                differs "id" (VText deviceID));
  if decide (otherDevices > 0) then sql_throw ErrLastAdmin else mret tt.

Definition Store_SetDeviceRole (accountID deviceID role : string) : SM unit :=
  if decide (role <> RoleAdmin /\ role <> RoleMember) then sql_throw (Errorf "role") else
  sql_tx (
    mode ← QueryRowContext (admin_mode_of accountID) (scan1 scan_string);
    if decide (mode <> AdminModeManaged) then sql_throw ErrRoleChangeNotApplicable else
    current ← sql_on_no_rows ErrDeviceNotFound (QueryRowContext
      (mkSelect (Cols [col "role"]) (table_ "devices")
         (is_ "id" (VText deviceID) &&& is_ "account_id" (VText accountID) &&& is_ "revoked" (VInt 0)) [])
      (scan1 scan_string));
    _ ← (if decide (current = RoleAdmin /\ role = RoleMember)
         then Store_assertNotLastAdmin accountID deviceID false else mret tt);
    _ ← ExecContext (Update "devices" [("role"%string, VText role)] (is_ "id" (VText deviceID)));
    mret tt).

Definition Store_PromoteDevice (deviceID : string) : SM unit :=
  mode ← sql_on_no_rows ErrDeviceNotFound (QueryRowContext
    (mkSelect (Cols [Col "a" "admin_mode"])
       [mkSource "devices" "d" CTrue; mkSource "accounts" "a" (on "d" "account_id" "a" "id")]
       (CCmp CEq (Col "d" "id") (Val (VText deviceID)) &&& CCmp CEq (Col "d" "revoked") (Val (VInt 0))) [])
    (scan1 scan_string));
  if decide (mode <> AdminModeManaged) then sql_throw ErrRoleChangeNotApplicable else
  _ ← ExecContext (Update "devices" [("role"%string, VText RoleAdmin)] (is_ "id" (VText deviceID)));
  mret tt.

Definition scan_standing (vs : list sqlval) : option (string * string * Z) :=
  match vs with
  | [a; b; c] => a ← scan_string a; b ← scan_string b; c ← scan_int c; Some (a, b, c)
  | _ => None
  end.

Definition Store_RevokeDevice (callerID id : string) : SM unit :=
  sql_tx (
    _ ← (if decide (callerID <> id) then
           '(accountID, role, revoked) ← sql_on_no_rows ErrDeviceNotFound (QueryRowContext
              (mkSelect (Cols [col "account_id"; col "role"; col "revoked"]) (table_ "devices")
                 (is_ "id" (VText id)) [])
              scan_standing);
           if decide (revoked = 0 /\ role = RoleAdmin)
           then Store_assertNotLastAdmin accountID id true else mret tt
         else mret tt);
    _ ← ExecContext (Delete "messages"
          (CInSelect (col "queue_id") "recipient_id" "queues" (is_ "owner_device" (VText id))));
    _ ← ExecContext (Update "queues" [("retired"%string, VInt 1)] (is_ "owner_device" (VText id)));
    _ ← ExecContext (Delete "bundles" (is_ "device_id" (VText id)));
    _ ← ExecContext (Update "devices" [("revoked", VInt 1); ("push_endpoint", VText "")]%string
          (is_ "id" (VText id)));
    mret tt).

Definition Store_SetDeviceQuota (deviceID : string) (n : Z) : SM unit :=
  k ← ExecContext (Update "devices" [("quota_bytes"%string, VInt n)]
        (is_ "id" (VText deviceID) &&& is_ "revoked" (VInt 0)));
  if decide (k = 0) then sql_throw ErrQuotaNotChanged else mret tt.

(** ** Queues *)

Definition Store_CreateQueue (ownerDevice : string) (recipientKey : bytes) : SM Queue :=
  if decide (length recipientKey <> PublicKeySize) then sql_throw (Errorf "recipient key") else
  recipientID ← sql_newID "rcp_";
  senderID ← sql_newID "snd_";
  created ← sql_nowStr;
  _ ← ExecContext (Insert "queues"
        [("recipient_id", VText recipientID); ("sender_id", VText senderID); ("owner_device", VText ownerDevice);
         ("recipient_key", VBlob recipientKey); ("sender_key", VNull); ("created", VText created);
         ("retired", VInt 0)]%string);
  mret (mkQueue recipientID senderID ownerDevice recipientKey None (parse_time created) false 0).

Definition queue_by (c : cond) : SM Queue :=
  sql_on_no_rows ErrQueueNotFound (QueryRowContext
    (mkSelect (Cols queueColumns) (table_ "queues") c []) scanQueue).

Definition Store_GetQueueByRecipient (recipientID : string) : SM Queue :=
  queue_by (is_ "recipient_id" (VText recipientID)).
Definition Store_GetQueueBySender (senderID : string) : SM Queue := queue_by (is_ "sender_id" (VText senderID)).

Definition Store_BindSenderKey (senderID : string) (key : bytes) : SM bool :=
  if decide (length key <> PublicKeySize) then sql_throw (Errorf "sender key") else
  n ← ExecContext (Update "queues" [("sender_key"%string, VBlob key)]
        (is_ "sender_id" (VText senderID) &&& CIsNull (col "sender_key") &&& is_ "retired" (VInt 0)));
  mret (bool_decide (n = 1)).

Definition Store_RetireQueue (recipientID : string) : SM unit :=
  sql_tx (
    _ ← ExecContext (Delete "messages" (is_ "queue_id" (VText recipientID)));
    _ ← ExecContext (Update "queues" [("retired"%string, VInt 1)] (is_ "recipient_id" (VText recipientID)));
    mret tt).

Definition Store_SetQueueQuota (recipientID : string) (n : Z) : SM unit :=
  k ← ExecContext (Update "queues" [("quota_bytes"%string, VInt n)]
        (is_ "recipient_id" (VText recipientID) &&& is_ "retired" (VInt 0)));
  if decide (k = 0) then sql_throw ErrQuotaNotChanged else mret tt.

(** ** Messages *)

(** [SELECT COALESCE(SUM(LENGTH(payload)), 0) FROM ... WHERE ...], the [messages] table
    under the alias [m]. *)
Definition stored_bytes (joins : list source) (c : cond) (now : string) : SM Z :=
  QueryRowContext
    (mkSelect (Agg (ACoalesce (ASumLength (Col "m" "payload")) 0)) (mkSource "messages" "m" CTrue :: joins)
       (c &&& CCmp CGt (Col "m" "expires") (Val (VText now))) [])
    (scan1 scan_int).

Definition join_queues : source := mkSource "queues" "q" (on "m" "queue_id" "q" "recipient_id").
Definition join_devices : source := mkSource "devices" "d" (on "q" "owner_device" "d" "id").

Definition sql_queue_bytes (recipientID now : string) : SM Z :=
  stored_bytes [] (CCmp CEq (Col "m" "queue_id") (Val (VText recipientID))) now.
Definition sql_device_bytes (deviceID now : string) : SM Z :=
  stored_bytes [join_queues] (CCmp CEq (Col "q" "owner_device") (Val (VText deviceID))) now.
Definition sql_account_bytes (accountID now : string) : SM Z :=
  stored_bytes [join_queues; join_devices] (CCmp CEq (Col "d" "account_id") (Val (VText accountID))) now.

Definition Store_DeviceStoredBytes (deviceID : string) : SM Z :=
  now ← sql_nowStr;
  sql_device_bytes deviceID now.

Definition sql_check_ceiling (quota size : Z) (used : SM Z) : SM unit :=
  if decide (quota > 0) then
    u ← used;
    if decide (wrap64 (u + size) > quota) then sql_throw ErrQuotaExceeded else mret tt
  else mret tt.

Definition scan_ceilings (vs : list sqlval) : option (string * string * Z * Z * Z) :=
  match vs with
  | [a; b; c; d; e] =>
      a ← scan_string a; b ← scan_string b; c ← scan_int c; d ← scan_int d; e ← scan_int e;
      Some (a, b, c, d, e)
  | _ => None
  end.

Definition Store_AppendMessage (recipientID : string) (payload : bytes) (ttl : Z) : SM Message :=
  id ← sql_newID "msg_";
  now ← sql_now;
  let expires := now + ttl in
  sql_tx (
    '(accountID, ownerDevice, queueQuota, deviceQuota, accountQuota) ←
      sql_on_no_rows ErrQueueNotFound (QueryRowContext
        (mkSelect (Cols [Col "d" "account_id"; Col "q" "owner_device"; Col "q" "quota_bytes"; Col "d" "quota_bytes";
                         Col "a" "quota_bytes"])
           [mkSource "queues" "q" CTrue; join_devices; mkSource "accounts" "a" (on "d" "account_id" "a" "id")]
           (CCmp CEq (Col "q" "recipient_id") (Val (VText recipientID))) [])
        scan_ceilings);
    let nowS := rfc3339 (sec now) in
    let size := Z.of_nat (length payload) in
    _ ← sql_check_ceiling queueQuota size (sql_queue_bytes recipientID nowS);
    _ ← sql_check_ceiling deviceQuota size (sql_device_bytes ownerDevice nowS);
    _ ← sql_check_ceiling accountQuota size (sql_account_bytes accountID nowS);
    _ ← ExecContext (Insert "messages"
          [("id", VText id); ("queue_id", VText recipientID); ("payload", VBlob payload);
           ("received_at", VText (rfc3339 (sec now))); ("expires", VText (rfc3339 (sec expires)))]%string);
    mret (mkMessage id recipientID payload (sec now) (sec expires))).

Definition scan_message (vs : list sqlval) : option Message :=
  match vs with
  | [id; qid; payload; received; expires] =>
      id ← scan_string id; qid ← scan_string qid; payload ← scan_bytes payload;
      received ← scan_string received; expires ← scan_string expires;
      Some (mkMessage id qid payload (parse_time received) (parse_time expires))
  | _ => None
  end.

Definition Store_DrainMessages (recipientID : string) : SM (list Message) :=
  now ← sql_nowStr;
  _ ← ExecContext (Delete "messages" (is_ "queue_id" (VText recipientID) &&& up_to "expires" (VText now)));
  QueryContext
    (mkSelect (Cols [col "id"; col "queue_id"; col "payload"; col "received_at"; col "expires"])
       (table_ "messages") (is_ "queue_id" (VText recipientID)) [col "seq"])
    scan_message.

Definition Store_DeleteMessages (recipientID : string) (ids : list string) : SM Z :=
  if decide (length ids = 0%nat) then mret 0 else
  ExecContext (Delete "messages" (is_ "queue_id" (VText recipientID) &&& CIn (col "id") (VText <$> ids))).

Definition Store_PurgeExpired : SM Z :=
  now ← sql_nowStr;
  ExecContext (Delete "messages" (up_to "expires" (VText now))).

(** ** Bundles and statements *)

Definition Store_SetBundle (deviceID : string) (blob : bytes) : SM unit :=
  now ← sql_nowStr;
  _ ← ExecContext (Upsert "bundles"
        [("device_id", VText deviceID); ("blob", VBlob blob); ("updated", VText now)]%string
        "device_id" ["blob"; "updated"]%string);
  mret tt.

Definition scan_bundle (vs : list sqlval) : option (bytes * Z) :=
  match vs with
  | [blob; updated] => blob ← scan_bytes blob; updated ← scan_string updated; Some (blob, parse_time updated)
  | _ => None
  end.

Definition Store_GetBundle (deviceID : string) : SM (bytes * Z) :=
  sql_on_no_rows ErrBundleNotFound (QueryRowContext
    (mkSelect (Cols [col "blob"; col "updated"]) (table_ "bundles") (is_ "device_id" (VText deviceID)) [])
    scan_bundle).

Definition Store_AppendStatement (accountID : string) (blob : bytes) : SM Statement :=
  if decide (length blob = 0%nat) then sql_throw (Errorf "statement: empty") else
  if decide (Z.of_nat (length blob) > MaxStatementBytes) then sql_throw ErrStatementTooLarge else
  sql_tx (
    next ← QueryRowContext
      (mkSelect (Agg (APlus (ACoalesce (AMax (col "seq")) 0) 1)) (table_ "statements")
         (is_ "account_id" (VText accountID)) [])
      (scan1 scan_int);
    created ← sql_nowStr;
    _ ← ExecContext (Insert "statements"
          [("account_id", VText accountID); ("seq", VInt next); ("blob", VBlob blob); ("created", VText created)]%string);
    _ ← ExecContext (Delete "statements"
          (is_ "account_id" (VText accountID) &&& up_to "seq" (VInt (next - MaxStatementsPerAccount))));
    mret (mkStatement next blob (parse_time created))).

Definition scan_statement (vs : list sqlval) : option Statement :=
  match vs with
  | [seq; blob; created] =>
      seq ← scan_int seq; blob ← scan_bytes blob; created ← scan_string created;
      Some (mkStatement seq blob (parse_time created))
  | _ => None
  end.

Definition Store_ListStatements (accountID : string) (since : Z) : SM (list Statement) :=
  QueryContext
    (mkSelect (Cols [col "seq"; col "blob"; col "created"]) (table_ "statements")
       (is_ "account_id" (VText accountID) &&& after "seq" (VInt since)) [col "seq"])
    scan_statement.
