(* ===== verification/Rows.v ===== *)
(** * The rows of the tables

    How each record of the database is stored as a row ([fields], [encode]), which rows
    are read back as records ([decode]), when a file holds a database ([represents]), and
    reading a file as a database ([read_db]). *)

From S2P Require Import Prelude Encoding Clock Decimal Schema Migrate Upgrade Sqlite SqlStore.

Local Open Scope Z_scope.

(** ** The tables *)

Inductive tbl : Type := Accounts | Invitations | Devices | Queues | Messages | Bundles | Statements.

#[export] Instance tbl_eq_dec : EqDecision tbl.
Proof. solve_decision. Defined.

Definition record (t : tbl) : Type :=
  match t with
  | Accounts => Account
  | Invitations => InvitationRow
  | Devices => Device
  | Queues => Queue
  | Messages => MessageRow
  | Bundles => Bundle
  | Statements => StatementRow
  end.

Definition name_of (t : tbl) : string :=
  match t with
  | Accounts => "accounts"
  | Invitations => "invitations"
  | Devices => "devices"
  | Queues => "queues"
  | Messages => "messages"
  | Bundles => "bundles"
  | Statements => "statements"
  end.

Definition columns_of (t : tbl) : list column :=
  match t with
  | Accounts => accounts_columns
  | Invitations => invitations_columns
  | Devices => devices_columns
  | Queues => queues_columns
  | Messages => messages_columns
  | Bundles => bundles_columns
  | Statements => statements_columns
  end.

Definition all_tables : list tbl := [Accounts; Invitations; Devices; Queues; Messages; Bundles; Statements].

Lemma elem_of_all_tables (t : tbl) : t ∈ all_tables.
Proof. apply (bool_decide_unpack _). by destruct t. Qed.

Lemma schema_tables_all : schema_tables = (fun t => (name_of t, columns_of t)) <$> all_tables.
Proof. done. Qed.

Lemma name_of_inj (t u : tbl) : name_of t = name_of u -> t = u.
Proof. by destruct t, u. Qed.

(** The records of a table, and a database with others. *)
Definition records (t : tbl) : DB -> list (record t) :=
  match t with
  | Accounts => accounts
  | Invitations => invitations
  | Devices => devices
  | Queues => queues
  | Messages => messages
  | Bundles => bundles
  | Statements => statements
  end.

Definition set_records (t : tbl) : list (record t) -> DB -> DB :=
  match t with
  | Accounts => set_accounts
  | Invitations => set_invitations
  | Devices => set_devices
  | Queues => set_queues
  | Messages => set_messages
  | Bundles => set_bundles
  | Statements => set_statements
  end.

Lemma records_set (t : tbl) (l : list (record t)) (db : DB) : records t (set_records t l db) = l.
Proof. by destruct t. Qed.

Lemma records_set_ne (t u : tbl) (l : list (record t)) (db : DB) :
  u <> t -> records u (set_records t l db) = records u db.
Proof. by destruct t, u. Qed.

Lemma messages_seq_set (t : tbl) (l : list (record t)) (db : DB) :
  messages_seq (set_records t l db) = messages_seq db.
Proof. by destruct t. Qed.

(** ** Records as rows *)

Definition time_val (s : Z) : sqlval := VText (rfc3339 s).
Definition flag_val (b : bool) : sqlval := VInt (if b then 1 else 0).
Definition key_val (k : option bytes) : sqlval := match k with Some b => VBlob b | None => VNull end.

Definition fields (t : tbl) : record t -> list (string * sqlval) :=
  match t with
  | Accounts => fun a =>
      [("id", VText (a_id a)); ("created", time_val (a_created a)); ("quota", VText (a_quota a));
       ("status", VText (a_status a)); ("quota_bytes", VInt (a_quota_bytes a));
       ("admin_mode", VText (a_admin_mode a))]
  | Invitations => fun i =>
      [("token_hash", VText (i_token_hash i)); ("id", VText (i_id i)); ("account_id", VText (i_account_id i));
       ("created", time_val (i_created i)); ("expires", time_val (i_expires i));
       ("consumed", flag_val (i_consumed i)); ("revoked", flag_val (i_revoked i));
       ("grants_role", VText (i_grants_role i))]
  | Devices => fun d =>
      [("id", VText (d_id d)); ("account_id", VText (d_account_id d)); ("public_key", VBlob (d_public_key d));
       ("push_endpoint", VText (d_push_endpoint d)); ("capabilities", VText (d_capabilities d));
       ("created", time_val (d_created d)); ("last_seen", time_val (d_last_seen d));
       ("revoked", flag_val (d_revoked d)); ("quota_bytes", VInt (d_quota_bytes d)); ("role", VText (d_role d))]
  | Queues => fun q =>
      [("recipient_id", VText (q_recipient_id q)); ("sender_id", VText (q_sender_id q));
       ("owner_device", VText (q_owner_device q)); ("recipient_key", VBlob (q_recipient_key q));
       ("sender_key", key_val (q_sender_key q)); ("created", time_val (q_created q));
       ("retired", flag_val (q_retired q)); ("quota_bytes", VInt (q_quota_bytes q))]
  | Messages => fun m =>
      [("seq", VInt (m_seq m)); ("id", VText (m_id m)); ("queue_id", VText (m_queue_id m));
       ("payload", VBlob (m_payload m)); ("received_at", time_val (m_received_at m));
       ("expires", time_val (m_expires m))]
  | Bundles => fun b =>
      [("device_id", VText (b_device_id b)); ("blob", VBlob (b_blob b)); ("updated", time_val (b_updated b))]
  | Statements => fun s =>
      [("account_id", VText (s_account_id s)); ("seq", VInt (s_seq s)); ("blob", VBlob (s_blob s));
       ("created", time_val (s_created s))]
  end%string.

Definition encode (t : tbl) (x : record t) : row := list_to_map (fields t x).

(** The times of a record, as seconds. *)
Definition times (t : tbl) : record t -> list Z :=
  match t with
  | Accounts => fun a => [a_created a]
  | Invitations => fun i => [i_created i; i_expires i]
  | Devices => fun d => [d_created d; d_last_seen d]
  | Queues => fun q => [q_created q]
  | Messages => fun m => [m_received_at m; m_expires m]
  | Bundles => fun b => [b_updated b]
  | Statements => fun s => [s_created s]
  end.

(** The times can be written with a year of four digits. *)
Definition dated (t : tbl) (x : record t) : Prop := Forall four_digit_year (times t x).

Lemma assoc_lookup {A} (k : string) (l : list (string * A)) : (list_to_map l : gmap string A) !! k = assoc k l.
Proof.
  induction l as [|[k' a] l IH]; [done|]. cbn. destruct (String.eqb_spec k k') as [->|Hne].
  - apply lookup_insert_eq.
  - by rewrite lookup_insert_ne by done.
Qed.

Lemma encode_lookup (t : tbl) (x : record t) (c : string) : encode t x !! c = assoc c (fields t x).
Proof. apply assoc_lookup. Qed.

Lemma get_encode (t : tbl) (x : record t) (c : string) : get (encode t x) c = default VNull (assoc c (fields t x)).
Proof. unfold get. by rewrite encode_lookup. Qed.

Lemma fields_names (t : tbl) (x : record t) : (fields t x).*1 = col_name <$> columns_of t.
Proof. by destruct t. Qed.

(** ** A file that holds a database *)

Record represents (f : file) (db : DB) : Prop := mkRepresents {
  rep_table : forall t, exists tb, c_tables (f_cat f) !! name_of t = Some tb /\
    t_columns tb ≡ₚ columns_of t /\ t_rows tb = encode t <$> records t db;
  rep_dated : forall t, Forall (dated t) (records t db);
  rep_seq : f_seq f = messages_seq db;
  rep_bound : Forall (fun m => m_seq m <= messages_seq db) (messages db);
  rep_bundles : Forall (fun b => b_device_id b ∈ d_id <$> devices db) (bundles db);
}.

Lemma rep_rows (f : file) (db : DB) (t : tbl) :
  represents f db -> rows f (name_of t) = encode t <$> records t db.
Proof. intros [Ht _ _ _ _]. destruct (Ht t) as (tb & E & _ & Hr). unfold rows. by rewrite E. Qed.
