(* ===== verification/Represent.v ===== *)
(** * Statements on rows and on records

    What a statement does to the rows of a file that holds a database is what the
    operation on lists of records does to the database. *)

From S2P Require Import Prelude Encoding Clock Decimal Sql Schema Migrate Upgrade Sqlite SqlStore Rows.

Local Open Scope Z_scope.

(** ** Comparisons *)

Lemma text_compare_refl (s : string) : String.compare s s = Eq.
Proof. pose proof (String.compare_antisym s s) as H. by destruct (String.compare s s). Qed.

Lemma val_eq_text (s t : string) : val_cmp CEq (VText s) (VText t) = bool_decide (s = t).
Proof.
  cbn. destruct (String.compare s t) eqn:E; symmetry.
  - by apply bool_decide_eq_true, String.compare_eq_iff.
  - apply bool_decide_eq_false. intros ->. by rewrite text_compare_refl in E.
  - apply bool_decide_eq_false. intros ->. by rewrite text_compare_refl in E.
Qed.

Lemma val_eq_int (x y : Z) : val_cmp CEq (VInt x) (VInt y) = bool_decide (x = y).
Proof.
  cbn. destruct (Z.compare_spec x y); symmetry; [apply bool_decide_eq_true|apply bool_decide_eq_false..]; lia.
Qed.

Lemma val_ne_text (s t : string) : val_cmp CNe (VText s) (VText t) = negb (bool_decide (s = t)).
Proof. rewrite <- val_eq_text. cbn. by destruct (String.compare s t). Qed.

Lemma val_gt_int (x y : Z) : val_cmp CGt (VInt x) (VInt y) = bool_decide (x > y).
Proof.
  cbn. destruct (Z.compare_spec x y); symmetry; [apply bool_decide_eq_false|apply bool_decide_eq_false|
    apply bool_decide_eq_true]; lia.
Qed.

Lemma val_le_int (x y : Z) : val_cmp CLe (VInt x) (VInt y) = bool_decide (x <= y).
Proof.
  cbn. destruct (Z.compare_spec x y); symmetry; [apply bool_decide_eq_true|apply bool_decide_eq_true|
    apply bool_decide_eq_false]; lia.
Qed.

(** Times compare as the seconds they denote. *)
Lemma rfc3339_compare (s t : Z) :
  four_digit_year s -> four_digit_year t -> String.compare (rfc3339 s) (rfc3339 t) = (s ?= t).
Proof.
  intros Hs Ht. destruct (Z.compare_spec s t) as [->|Hl|Hl].
  - apply text_compare_refl.
  - apply (text_lt_rfc3339 s t Hs Ht) in Hl. unfold text_lt, String.ltb in Hl.
    by destruct (String.compare _ _).
  - apply (text_lt_rfc3339 t s Ht Hs) in Hl. unfold text_lt, String.ltb in Hl.
    rewrite String.compare_antisym. by destruct (String.compare _ _).
Qed.

Lemma val_gt_time (s t : Z) :
  four_digit_year s -> four_digit_year t -> val_cmp CGt (time_val s) (time_val t) = bool_decide (s > t).
Proof. intros Hs Ht. rewrite <- val_gt_int. cbn. by rewrite rfc3339_compare. Qed.

Lemma val_le_time (s t : Z) :
  four_digit_year s -> four_digit_year t -> val_cmp CLe (time_val s) (time_val t) = bool_decide (s <= t).
Proof. intros Hs Ht. rewrite <- val_le_int. cbn. by rewrite rfc3339_compare. Qed.

Lemma val_eq_flag (b : bool) : val_cmp CEq (flag_val b) (VInt 0) = negb b.
Proof. by destruct b. Qed.

Lemma null_key (k : option bytes) : bool_decide (key_val k = VNull) = bool_decide (k = None).
Proof. by destruct k. Qed.

(** ** Sorting *)

Section sorting.
Context {A B : Type} (g : A -> B) (R : relation A) (S : relation B).
Context `{!RelDecision R} `{!RelDecision S} (P : A -> Prop).
Context (HRS : forall x y, P x -> P y -> S (g x) (g y) <-> R x y).

Lemma list_merge_fmap (l k : list A) :
  Forall P l -> Forall P k -> list_merge S (g <$> l) (g <$> k) = g <$> list_merge R l k.
Proof.
  intros Hl. revert k. induction Hl as [|x l Hx Hl IHl]; intros k Hk; [by destruct k|].
  induction Hk as [|y k Hy Hk IHk]; [done|]. cbn in *. pose proof (HRS x y Hx Hy).
  do 2 case_decide; try tauto.
  - cbn. f_equal. rewrite <- IHl by by constructor. done.
  - cbn. f_equal. exact IHk.
Qed.

Lemma list_merge_Forall (l k : list A) : Forall P l -> Forall P k -> Forall P (list_merge R l k).
Proof. intros. rewrite merge_Permutation. by apply Forall_app. Qed.

Abbreviation stack_ok := (Forall (fun o => from_option (Forall P) True o)).
Abbreviation up := (fmap (fmap (M:=option) (fmap (M:=list) g))).

Lemma merge_list_to_stack_fmap (st : list (option (list A))) (l : list A) :
  stack_ok st -> Forall P l ->
  merge_list_to_stack S (up st) (g <$> l) = up (merge_list_to_stack R st l) /\
  stack_ok (merge_list_to_stack R st l).
Proof.
  intros Hst. revert l. induction Hst as [|[k|] st Hk Hst IH]; intros l Hl; cbn in *.
  - split; [done|by repeat constructor].
  - rewrite list_merge_fmap by done.
    destruct (IH (list_merge R k l)) as [-> Hs]; [by apply list_merge_Forall|]. split; [done|by constructor].
  - split; [done|by constructor].
Qed.

Lemma merge_stack_fmap (st : list (option (list A))) :
  stack_ok st -> merge_stack S (up st) = g <$> merge_stack R st /\ Forall P (merge_stack R st).
Proof.
  induction 1 as [|[k|] st Hk Hst [IH HP]]; cbn in *; [done| |done].
  rewrite IH, list_merge_fmap by done. split; [done|by apply list_merge_Forall].
Qed.

Lemma merge_sort_aux_fmap (l : list A) (st : list (option (list A))) :
  stack_ok st -> Forall P l -> merge_sort_aux S (up st) (g <$> l) = g <$> merge_sort_aux R st l.
Proof.
  intros Hst Hl. revert st Hst. induction Hl as [|x l Hx Hl IH]; intros st Hst; cbn.
  - by apply merge_stack_fmap.
  - destruct (merge_list_to_stack_fmap st [x]) as [E Hs]; [done|by repeat constructor|].
    change [g x] with (g <$> [x]). rewrite E. by apply IH.
Qed.

(** Sorting commutes with a map that keeps the order. *)
Lemma merge_sort_fmap (l : list A) : Forall P l -> merge_sort S (g <$> l) = g <$> merge_sort R l.
Proof. intros Hl. exact (merge_sort_aux_fmap l [] (Forall_nil_2 _) Hl). Qed.
End sorting.

(** ** Selections of one table *)

Abbreviation env1 t x := [(""%string, encode t x)].

Lemma rep_in (f : file) (db : DB) (t : tbl) (x : record t) :
  represents f db -> x ∈ records t db -> dated t x.
Proof. intros Hr. exact (proj1 (Forall_forall _ _) (rep_dated f db Hr t) x). Qed.

Lemma joined_one (f : file) (t : tbl) (db : DB) :
  represents f db -> joined f (table_ (name_of t)) [[]] = (fun x => env1 t x) <$> records t db.
Proof.
  intros Hr. unfold table_. cbn [joined mbind list_bind src_on src_table src_alias holds].
  rewrite app_nil_r, filter_all by by apply Forall_true. rewrite (rep_rows f db t Hr).
  by rewrite <- list_fmap_compose.
Qed.

(** The records a condition selects. *)
Definition selects (f : file) (t : tbl) (db : DB) (c : cond) (P : record t -> Prop) : Prop :=
  forall x, x ∈ records t db -> holds f c (env1 t x) = true <-> P x.

Section one.
Context (f : file) (db : DB) (t : tbl) (c : cond) (P : record t -> Prop) `{!forall x, Decision (P x)}.
Context (Hrep : represents f db) (Hc : selects f t db c P).

Lemma filter_rep :
  filter (fun ρ => holds f c ρ = true) ((fun x => env1 t x) <$> records t db) =
  (fun x => env1 t x) <$> filter P (records t db).
Proof. rewrite filter_fmap. f_equal. by apply filter_ext_in. Qed.

Lemma results_one (es : list expr) :
  results f (mkSelect (Cols es) (table_ (name_of t)) c []) =
  (fun x => eval (env1 t x) <$> es) <$> filter P (records t db).
Proof.
  unfold results, selected. cbn [sel_output sel_from sel_where sel_order].
  rewrite (joined_one f t db Hrep), filter_rep. by rewrite <- list_fmap_compose.
Qed.

Lemma results_one_agg (a : aggregate) :
  results f (mkSelect (Agg a) (table_ (name_of t)) c []) =
  [[aggregated a ((fun x => env1 t x) <$> filter P (records t db))]].
Proof.
  unfold results, selected. cbn [sel_output sel_from sel_where sel_order].
  by rewrite (joined_one f t db Hrep), filter_rep.
Qed.

Lemma results_one_order (es : list expr) (e : expr) (os : list expr) (R : relation (record t)) `{!RelDecision R} :
  (forall x y, dated t x -> dated t y -> env_le (e :: os) (env1 t x) (env1 t y) <-> R x y) ->
  results f (mkSelect (Cols es) (table_ (name_of t)) c (e :: os)) =
  (fun x => eval (env1 t x) <$> es) <$> sql_order R (filter P (records t db)).
Proof.
  intros HR. unfold results, selected. cbn [sel_output sel_from sel_where sel_order].
  rewrite (joined_one f t db Hrep), filter_rep.
  rewrite (merge_sort_fmap (fun x => env1 t x) R (env_le (e :: os)) (dated t) HR).
  - by rewrite <- list_fmap_compose.
  - apply Forall_forall. intros x [_ Hx]%list_elem_of_filter. by apply (rep_in f db).
Qed.
End one.

(** ** Changes of one table *)

(** What a new list of records must keep for the rest of the database. *)
Definition fits_in (t : tbl) : list (record t) -> DB -> Prop :=
  match t with
  | Devices => fun l db => Forall (fun b => b_device_id b ∈ d_id <$> l) (bundles db)
  | Messages => fun l db => Forall (fun m => m_seq m <= messages_seq db) l
  | Bundles => fun l db => Forall (fun b => b_device_id b ∈ d_id <$> devices db) l
  | _ => fun _ _ => True
  end.

Lemma with_rows_lookup (f : file) (name : string) (tb : table) (rs : list row) (u : string) :
  c_tables (f_cat f) !! name = Some tb ->
  c_tables (f_cat (with_rows name rs f)) !! u =
    if decide (u = name) then Some (mkTable (t_columns tb) rs) else c_tables (f_cat f) !! u.
Proof.
  intros E. unfold with_rows. rewrite E. cbn. case_decide; subst; [by rewrite lookup_insert_eq|].
  by rewrite lookup_insert_ne by done.
Qed.

Lemma with_rows_seq (f : file) (name : string) (rs : list row) : f_seq (with_rows name rs f) = f_seq f.
Proof. unfold with_rows. by destruct (_ !! _). Qed.

Lemma represents_records (f : file) (db : DB) (t : tbl) (l : list (record t)) :
  represents f db -> Forall (dated t) l -> fits_in t l db ->
  represents (with_rows (name_of t) (encode t <$> l) f) (set_records t l db).
Proof.
  intros Hr Hl Hfit. pose proof Hr as [Ht Hd Hs Hb Hbu]. destruct (Ht t) as (tb & E & Hc & _).
  constructor.
  - intros u. rewrite (with_rows_lookup f _ tb) by done. case_decide as Hu.
    + apply name_of_inj in Hu as ->. eexists. split; [done|]. cbn. by rewrite records_set.
    + rewrite records_set_ne by congruence. apply Ht.
  - intros u. destruct (decide (u = t)) as [->|Hu]; [by rewrite records_set|].
    by rewrite records_set_ne.
  - by rewrite with_rows_seq, messages_seq_set.
  - rewrite messages_seq_set. by destruct t.
  - by destruct t.
Qed.

(** The fields of a row with some columns set. *)
Definition set_fields (sets : list (string * sqlval)) (l : list (string * sqlval)) : list (string * sqlval) :=
  (fun kv => (kv.1, default kv.2 (assoc kv.1 sets))) <$> l.

Lemma assoc_set_fields (sets l : list (string * sqlval)) (k : string) :
  assoc k (set_fields sets l) = (fun v => default v (assoc k sets)) <$> assoc k l.
Proof.
  induction l as [|[k' v] l IH]; [done|]. cbn. destruct (String.eqb_spec k k') as [->|]; [done|exact IH].
Qed.

Lemma set_columns_lookup (sets : list (string * sqlval)) (r : row) (k : string) :
  set_columns sets r !! k = match assoc k sets with Some v => Some v | None => r !! k end.
Proof.
  induction sets as [|[k' v] sets IH]; [done|]. cbn. destruct (String.eqb_spec k k') as [->|].
  - apply lookup_insert_eq.
  - rewrite lookup_insert_ne by done. exact IH.
Qed.

Lemma assoc_is_Some {A} (k : string) (l : list (string * A)) : k ∈ l.*1 -> is_Some (assoc k l).
Proof.
  induction l as [|[k' a] l IH]; cbn; [by intros ?%not_elem_of_nil|]. intros H.
  destruct (String.eqb_spec k k'); [by eexists|]. apply elem_of_cons in H as [|]; [done|by apply IH].
Qed.

Lemma assoc_elem_of {A} (k : string) (a : A) (l : list (string * A)) : assoc k l = Some a -> (k, a) ∈ l.
Proof.
  induction l as [|[k' a'] l IH]; cbn; [done|]. destruct (String.eqb_spec k k') as [->|]; [intros [= ->]; left|].
  intros E. right. by apply IH.
Qed.

Lemma set_columns_encode (t : tbl) (x y : record t) (sets : list (string * sqlval)) :
  (forall cv, cv ∈ sets -> cv.1 ∈ col_name <$> columns_of t) ->
  set_fields sets (fields t x) = fields t y -> set_columns sets (encode t x) = encode t y.
Proof.
  intros Hin E. apply map_eq. intros k.
  rewrite set_columns_lookup, !encode_lookup, <- E, assoc_set_fields.
  destruct (assoc k sets) as [v|] eqn:Ek; [|by destruct (assoc k (fields t x))].
  apply assoc_elem_of, Hin in Ek. cbn in Ek. rewrite <- (fields_names t x) in Ek.
  by destruct (assoc_is_Some _ _ Ek) as [w ->].
Qed.

Lemma represents_update (f : file) (db : DB) (t : tbl) (c : cond) (P : record t -> Prop)
    `{!forall x, Decision (P x)} (g : record t -> record t) (sets : list (string * sqlval)) :
  represents f db -> selects f t db c P ->
  forallb (fun cv => bool_decide (cv.1 ∈ col_name <$> columns_of t) && plain_column (name_of t) cv.1 &&
                     negb (bool_decide (cv.2 = VNull))) sets = true ->
  (forall x, dated t x -> P x -> set_fields sets (fields t x) = fields t (g x) /\ dated t (g x)) ->
  fits_in t (sql_update P g (records t db)) db ->
  exists f', exec_dml f (Update (name_of t) sets c) = Some (f', sql_count P (records t db)) /\
    represents f' (set_records t (sql_update P g (records t db)) db).
Proof.
  intros Hr Hsel Hsets Hg Hfit. destruct (rep_table f db Hr t) as (tb & E & Hcols & Hrows).
  assert (forall cv, cv ∈ sets -> cv.1 ∈ col_name <$> columns_of t) as Hin.
  { intros cv Hcv. rewrite forallb_forall in Hsets. specialize (Hsets cv (proj1 (list_elem_of_In _ _) Hcv)).
    rewrite !andb_true_iff in Hsets. destruct Hsets as [[Hin _] _]. by apply bool_decide_eq_true in Hin. }
  cbn [exec_dml]. rewrite E. cbn [mbind option_bind].
  assert (forallb (fun cv => bool_decide (cv.1 ∈ column_names tb) && plain_column (name_of t) cv.1 &&
    negb (bool_decide (cv.2 = VNull))) sets = true) as ->.
  { apply forallb_forall. intros cv Hcv. rewrite forallb_forall in Hsets. specialize (Hsets cv Hcv).
    rewrite !andb_true_iff in *. destruct Hsets as [[_ ?] ?]. split_and!; try done.
    apply list_elem_of_In, Hin in Hcv. apply bool_decide_eq_true. unfold column_names. by rewrite Hcols. }
  assert (filter (matches f c) (encode t <$> records t db) = encode t <$> filter P (records t db)) as Hf
    by (rewrite filter_fmap; f_equal; by apply filter_ext_in).
  eexists. rewrite Hrows, Hf. unfold sql_count. rewrite length_fmap. split; [done|].
  match goal with |- represents (with_rows _ ?rs _) _ =>
    assert (rs = encode t <$> sql_update P g (records t db)) as -> end.
  { unfold sql_update. rewrite <- !list_fmap_compose. apply list_fmap_ext. intros i x Hx.
    apply list_elem_of_lookup_2 in Hx. cbn. unfold matches. specialize (Hsel x Hx).
    do 2 case_decide; try tauto.
    apply set_columns_encode; [done|]. apply Hg; [by apply (rep_in f db)|done]. }
  apply represents_records; [done| |done].
  apply (sql_update_Forall _ (dated t)); [apply (rep_dated f db Hr)|]. intros x Hx HP. by apply Hg.
Qed.

Lemma devices_fit (f : file) (db : DB) (P : Device -> Prop) `{!forall x, Decision (P x)} (g : Device -> Device) :
  (forall d, d_id (g d) = d_id d) -> represents f db -> fits_in Devices (sql_update P g (devices db)) db.
Proof. intros Hg Hr. cbn. rewrite sql_update_fmap by done. apply (rep_bundles f db Hr). Qed.

Lemma represents_delete (f : file) (db : DB) (t : tbl) (c : cond) (P : record t -> Prop)
    `{!forall x, Decision (P x)} :
  represents f db -> selects f t db c P -> bool_decide (name_of t ∈ referred) = false ->
  exists f', exec_dml f (Delete (name_of t) c) = Some (f', sql_count P (records t db)) /\
    represents f' (set_records t (sql_delete P (records t db)) db).
Proof.
  intros Hr Hsel Href. cbn [exec_dml]. rewrite Href, (rep_rows f db t Hr).
  assert (filter (matches f c) (encode t <$> records t db) = encode t <$> filter P (records t db)) as Hf
    by (rewrite filter_fmap; f_equal; by apply filter_ext_in).
  assert (filter (fun r => ~ matches f c r) (encode t <$> records t db) =
    encode t <$> sql_delete P (records t db)) as Hn.
  { rewrite filter_fmap. f_equal. unfold sql_delete. apply filter_ext_in. intros x Hx.
    specialize (Hsel x Hx). unfold matches. tauto. }
  eexists. rewrite Hf, Hn. unfold sql_count. rewrite length_fmap. split; [done|].
  apply represents_records; [done|apply sql_delete_Forall, (rep_dated f db Hr)|].
  destruct t; try done; cbn; apply sql_delete_Forall; [apply (rep_bound f db Hr)|apply (rep_bundles f db Hr)].
Qed.

(** ** Insertion *)

Lemma columns_NoDup (t : tbl) : NoDup (col_name <$> columns_of t).
Proof. apply (bool_decide_unpack _). by destruct t; vm_compute. Qed.

Lemma new_row_Permutation (cols cols' : list column) (vals : list (string * sqlval)) :
  cols ≡ₚ cols' -> NoDup (col_name <$> cols') -> new_row cols vals = new_row cols' vals.
Proof.
  intros Hp Hnd. unfold new_row. apply list_to_map_proper.
  - rewrite <- list_fmap_compose. cbn. by rewrite Hp.
  - by rewrite Hp.
Qed.

Lemma not_null_Permutation (cols cols' : list column) (r : row) :
  cols ≡ₚ cols' -> not_null cols r = not_null cols' r.
Proof.
  intros Hp. unfold not_null. apply eq_true_iff_eq. rewrite !forallb_forall.
  split; intros H c Hc; apply H; revert Hc; rewrite <- !list_elem_of_In, Hp; done.
Qed.

(** Appending a record, on the file as the counter of messages leaves it. *)
Lemma insert_rep (f : file) (db : DB) (t : tbl) (vals : list (string * sqlval)) (x : record t)
    (C : record t -> Prop) `{!forall y, Decision (C y)} (F : Prop) `{!Decision F} :
  represents f db -> new_row (columns_of t) (counted f (name_of t) vals) = encode t x ->
  forallb (fun cv => bool_decide (cv.1 ∈ col_name <$> columns_of t)) vals = true ->
  not_null (columns_of t) (encode t x) = true ->
  (forall y, y ∈ records t db ->
     clash (unique_keys (name_of t)) (encode t x) (encode t y) = true <-> C y) ->
  (referenced f (name_of t) (encode t x) = true <-> F) ->
  insert_row f (name_of t) vals =
    if decide (F /\ ~ Exists C (records t db))
    then Some (with_rows (name_of t) (encode t <$> (records t db ++ [x])) (count_up (name_of t) vals f), 1)
    else None.
Proof.
  intros Hr Hnew Hvals Hnn HC HF. destruct (rep_table f db Hr t) as (tb & E & Hcols & Hrows).
  unfold insert_row. rewrite E. cbn [mbind option_bind].
  rewrite (new_row_Permutation _ (columns_of t)) by (done || apply columns_NoDup).
  rewrite Hnew, (not_null_Permutation _ (columns_of t)), Hnn by done.
  assert (forallb (fun cv => bool_decide (cv.1 ∈ column_names tb)) vals = true) as ->.
  { apply forallb_forall. intros cv Hcv. rewrite forallb_forall in Hvals. specialize (Hvals cv Hcv).
    apply bool_decide_eq_true in Hvals. apply bool_decide_eq_true. unfold column_names. by rewrite Hcols. }
  rewrite !andb_true_l, Hrows, fmap_app.
  assert (existsb (clash (unique_keys (name_of t)) (encode t x)) (encode t <$> records t db) = true <->
    Exists C (records t db)) as He.
  { rewrite existsb_exists, Exists_exists. split.
    - intros (r & Hin & Hcl). apply list_elem_of_In, list_elem_of_fmap in Hin as (y & -> & Hy).
      exists y. split; [done|]. by apply HC.
    - intros (y & Hy & Hcy). exists (encode t y). split; [by apply list_elem_of_In, list_elem_of_fmap_2|].
      by apply HC. }
  destruct (existsb _ _); destruct (referenced _ _ _); cbn [negb andb]; case_decide; try done; intuition congruence.
Qed.

(** A reference leads somewhere when some record has the key. *)
Lemma referenced_in (f : file) (db : DB) (t : tbl) (name key s : string) (K : record t -> string) :
  represents f db -> name = name_of t -> (forall x, get (encode t x) key = VText (K x)) ->
  existsb (fun r' => val_cmp CEq (VText s) (get r' key)) (rows f name) = true <-> s ∈ K <$> records t db.
Proof.
  intros Hr -> HK. rewrite (rep_rows f db t Hr), existsb_exists. split.
  - intros (r & Hin & Hv). apply list_elem_of_In, list_elem_of_fmap in Hin as (x & -> & Hx).
    rewrite HK, val_eq_text in Hv. apply bool_decide_eq_true in Hv as ->. by apply list_elem_of_fmap_2.
  - intros (x & -> & Hx)%list_elem_of_fmap. exists (encode t x).
    split; [by apply list_elem_of_In, list_elem_of_fmap_2|]. rewrite HK, val_eq_text. by apply bool_decide_eq_true.
Qed.

(** ** The counter of messages *)

Lemma next_seq_rep (f : file) (db : DB) : represents f db -> next_seq f "messages" = messages_seq db + 1.
Proof.
  intros Hr. unfold next_seq.
  rewrite (rep_rows f db Messages Hr : rows f "messages" = _), (rep_seq f db Hr).
  assert (omap (fun r => int_of (get r "seq")) (encode Messages <$> records Messages db) = m_seq <$> messages db) as ->.
  { cbn [records]. induction (messages db) as [|m l IH]; [done|].
    rewrite !fmap_cons. cbn [omap list_omap]. rewrite get_encode. cbn [assoc fields]. cbn. by f_equal. }
  assert (foldr Z.max (messages_seq db) (m_seq <$> messages db) = messages_seq db) as Em.
  { pose proof (rep_bound f db Hr) as Hb. induction Hb; cbn; lia. }
  rewrite Em. lia.
Qed.

Lemma counted_rep (f : file) (db : DB) (vals : list (string * sqlval)) :
  represents f db -> counted f "messages" vals = ("seq"%string, VInt (messages_seq db + 1)) :: vals.
Proof. intros Hr. unfold counted. rewrite decide_True by reflexivity. by rewrite (next_seq_rep f db Hr). Qed.

Lemma count_up_rep (f : file) (db : DB) (vals : list (string * sqlval)) :
  represents f db -> count_up "messages" vals f = mkFile (f_cat f) (messages_seq db + 1).
Proof. intros Hr. unfold count_up. rewrite decide_True by reflexivity. by rewrite (next_seq_rep f db Hr). Qed.

Lemma represents_message (f : file) (db : DB) (m : MessageRow) :
  represents f db -> m_seq m = messages_seq db + 1 -> dated Messages m ->
  represents (with_rows "messages" (encode Messages <$> (messages db ++ [m])) (mkFile (f_cat f) (messages_seq db + 1)))
    (set_messages_seq (messages_seq db + 1) (set_messages (messages db ++ [m]) db)).
Proof.
  intros Hr Hm Hd. assert (represents (mkFile (f_cat f) (messages_seq db + 1))
    (set_messages_seq (messages_seq db + 1) db)) as Hr'.
  { destruct Hr as [Ht Hda Hs Hb Hbu]. constructor.
    - intros t. destruct (Ht t) as (tb & ? & ? & Hrows). exists tb. split_and!; [done..|]. by destruct t.
    - intros t. specialize (Hda t). by destruct t.
    - done.
    - cbn. eapply Forall_impl; [exact Hb|]. cbn. lia.
    - done. }
  apply (represents_records _ _ Messages (messages db ++ [m]) Hr').
  - apply Forall_app. split; [apply (rep_dated f db Hr Messages)|by apply Forall_singleton].
  - cbn. apply Forall_app. split; [|constructor; [lia|done]].
    eapply Forall_impl; [apply (rep_bound f db Hr)|]. cbn. lia.
Qed.

(** ** Joins *)

(** The pairs of a join. *)
Definition paired {X Y} (l : list X) (h : X -> list Y) : list (X * Y) := x ← l; (fun y => (x, y)) <$> h x.

Lemma paired_fmap {X Y Z} (l : list X) (h : X -> list Y) (g : X -> Y -> Z) :
  (x ← l; y ← h x; [g x y]) = (fun xy => g xy.1 xy.2) <$> paired l h.
Proof.
  unfold paired. induction l as [|x l IH]; [done|]. rewrite !bind_cons, fmap_app, <- IH. f_equal.
  rewrite <- list_fmap_compose. induction (h x) as [|y k IHk]; [done|]. rewrite bind_cons. cbn. by f_equal.
Qed.

Lemma paired_fmap3 {X Y Z W} (l : list X) (h : X -> list Y) (k : X * Y -> list Z) (g : X -> Y -> Z -> W) :
  (x ← l; y ← h x; z ← k (x, y); [g x y z]) = (fun xyz => g xyz.1.1 xyz.1.2 xyz.2) <$> paired (paired l h) k.
Proof.
  rewrite <- (paired_fmap (paired l h) k (fun xy z => g xy.1 xy.2 z)). unfold paired.
  induction l as [|x l IH]; [done|]. rewrite !bind_cons, bind_app, <- IH. f_equal.
  induction (h x) as [|y m IHm]; [done|]. rewrite fmap_cons, !bind_cons, <- IHm. done.
Qed.

Lemma filter_paired {X Y} (P : X -> Prop) `{!forall x, Decision (P x)} (l : list X) (h : X -> list Y) :
  filter (fun xy => P xy.1) (paired l h) = paired (filter P l) h.
Proof.
  unfold paired. induction l as [|x l IH]; [done|]. rewrite bind_cons, filter_app, IH, filter_cons.
  rewrite filter_fmap. cbn. case_decide.
  - by rewrite bind_cons, filter_all by by apply Forall_true.
  - by rewrite filter_none by by apply Forall_true.
Qed.

Lemma filter_paired3 {X Y Z} (P : X -> Prop) `{HP : !forall x, Decision (P x)} (l : list X) (h : X -> list Y)
    (k : X * Y -> list Z) :
  filter (fun xyz => P xyz.1.1) (paired (paired l h) k) = paired (paired (filter P l) h) k.
Proof. rewrite <- filter_paired. exact (@filter_paired (X * Y) Z (fun xy => P xy.1) (fun xy => HP xy.1) _ k). Qed.

Lemma elem_of_paired {X Y} (x : X) (y : Y) (l : list X) (h : X -> list Y) :
  (x, y) ∈ paired l h <-> x ∈ l /\ y ∈ h x.
Proof.
  unfold paired. rewrite list_elem_of_bind. split.
  - intros (x' & Hin & Hx). apply list_elem_of_fmap in Hin as (y' & [= -> ->] & Hy). done.
  - intros [Hx Hy]. exists x. split; [|done]. apply list_elem_of_fmap. by exists y.
Qed.

Section join.
Context (f : file) (db : DB) (Hrep : represents f db).

Lemma joined_first (t : tbl) (a : string) (from : list source) :
  joined f (mkSource (name_of t) a CTrue :: from) [[]] =
  joined f from ((fun x => [(a, encode t x)]) <$> records t db).
Proof.
  cbn [joined mbind list_bind src_on src_table src_alias holds].
  rewrite app_nil_r, filter_all by by apply Forall_true. rewrite (rep_rows f db t Hrep).
  by rewrite <- list_fmap_compose.
Qed.

Lemma joined_next {X} (u : tbl) (b : string) (c : cond) (from : list source) (l : list X) (G : X -> env)
    (K : X -> record u -> Prop) `{!forall x y, Decision (K x y)} :
  (forall x y, x ∈ l -> y ∈ records u db -> holds f c (G x ++ [(b, encode u y)]) = true <-> K x y) ->
  joined f (mkSource (name_of u) b c :: from) (G <$> l) =
  joined f from ((fun xy => G xy.1 ++ [(b, encode u xy.2)]) <$> paired l (fun x => filter (K x) (records u db))).
Proof.
  intros HK. cbn [joined src_on src_table src_alias]. f_equal. rewrite (rep_rows f db u Hrep). unfold paired.
  induction l as [|x l IH]; [done|]. rewrite fmap_cons, !bind_cons, fmap_app. f_equal.
  - rewrite <- !list_fmap_compose, filter_fmap. cbn. f_equal. apply filter_ext_in. intros y Hy. apply HK; [left|done].
  - apply IH. intros x' y Hx. apply HK. by right.
Qed.
End join.
