(* ===== verification/Simulation.v ===== *)
(** * Simulation of the store by its statements

    The states of a method that sends statements to a file and of the same method on
    records ([agrees]), the simulation of computations ([sim]), and how it is proved step
    by step. *)

From S2P Require Import Prelude Encoding Clock Decimal Sql Schema StoreM Migrate Upgrade Sqlite SqlStore.
From S2P Require Import Rows Represent.

Local Open Scope Z_scope.

(** ** States *)

(** A clock, in nanoseconds since the epoch, at which every time the store writes, the
    longest duration ahead, has a year of four digits: until the year 9575. *)
Definition sane_clock (ns : Z) : Prop := 0 <= ns < 240000000000 * Second.

Record agrees (s' : FileSt) (s : St) : Prop := mkAgrees {
  ag_file : represents (fs_file s') (st_db s);
  ag_clock : fs_clock s' = st_clock s;
  ag_rnd : fs_rnd s' = st_rnd s;
  ag_faults : fs_faults s' = st_faults s;
  ag_sane : sane_clock (st_clock s);
}.

Lemma sane_now (ns : Z) : sane_clock ns -> four_digit_year (sec ns).
Proof. unfold sane_clock, four_digit_year, sec, Second. intros H. dmlia. Qed.

Lemma sane_later (ns ttl : Z) : sane_clock ns -> is_int64 ttl -> four_digit_year (sec (ns + ttl)).
Proof. unfold sane_clock, is_int64, four_digit_year, sec, Second. intros H Ht. dmlia. Qed.

Lemma parse_time_format (s : Z) : four_digit_year s -> parse_time (rfc3339 s) = s.
Proof.
  intros Hs. unfold parse_time. rewrite parse_rfc3339_format by done. unfold sec.
  by rewrite Z.div_mul by (unfold Second; lia).
Qed.

(** ** Simulation *)

(** Two results: the same error, or related values. *)
Definition results_rel {A' A} (R : A' -> A -> Prop) (r' : error + A') (r : error + A) : Prop :=
  match r', r with
  | inl e', inl e => e' = e
  | inr a', inr a => R a' a
  | _, _ => False
  end.

Definition sim {A' A} (R : A' -> A -> Prop) (m' : SM A') (m : M A) : Prop :=
  forall s' s, agrees s' s -> results_rel R (m' s').1 (m s).1 /\ agrees (m' s').2 (m s).2.

Section sim.
Context {A' A : Type} (R : A' -> A -> Prop).

Lemma sim_ret (a' : A') (a : A) : R a' a -> sim R (mret a') (mret a).
Proof. by intros HR s' s Hs. Qed.

Lemma sim_throw (e : error) : sim R (sql_throw e) (throw e).
Proof. by intros s' s Hs. Qed.

Lemma sim_bind {B' B} (S : B' -> B -> Prop) (m' : SM B') (m : M B) (k' : B' -> SM A') (k : B -> M A) :
  sim S m' m -> (forall b' b, S b' b -> sim R (k' b') (k b)) -> sim R (m' ≫= k') (m ≫= k).
Proof.
  intros Hm Hk s' s Hs. destruct (Hm s' s Hs) as [Hr Hs2].
  unfold mbind at 1 3, SM_bind. unfold mbind, M_bind.
  destruct (m' s') as [[e'|b'] t'], (m s) as [[e|b] t]; cbn in *; try done. by apply Hk.
Qed.

Lemma sim_if (P' P : Prop) `{!Decision P'} `{!Decision P} (m' n' : SM A') (m n : M A) :
  (P' <-> P) -> (P -> sim R m' m) -> (~ P -> sim R n' n) ->
  sim R (if decide P' then m' else n') (if decide P then m else n).
Proof. intros HP Hm Hn. do 2 case_decide; tauto. Qed.

Lemma sim_mono (S : A' -> A -> Prop) (m' : SM A') (m : M A) :
  sim S m' m -> (forall a' a, S a' a -> R a' a) -> sim R m' m.
Proof.
  intros Hm HSR s' s Hs. destruct (Hm s' s Hs) as [Hr Ha]. split; [|done].
  destruct (m' s').1, (m s).1; cbn in *; auto.
Qed.

(** One call of the driver. *)
Lemma sim_call (k' : file -> (error + A') * file) (k : DB -> (error + A) * DB) :
  (forall f db, represents f db -> results_rel R (k' f).1 (k db).1 /\ represents (k' f).2 (k db).2) ->
  sim R (sql_call k') (db_call k).
Proof.
  intros Hk s' s [Hf Hc Hr Hfs Hsane]. unfold sql_call, db_call. rewrite Hfs.
  destruct (Hk _ _ Hf) as [Hrel Hrep].
  destruct (st_faults s) as [|[] fs]; [|done|];
    destruct (k' (fs_file s')), (k (st_db s)); cbn in *; (split; [done|]); by constructor.
Qed.

Lemma sim_on_no_rows (e : error) (m' : SM A') (m : M A) :
  sim R m' m -> sim R (sql_on_no_rows e m') (on_no_rows e m).
Proof.
  intros Hm s' s Hs. destruct (Hm s' s Hs) as [Hr Ha]. unfold sql_on_no_rows, on_no_rows.
  destruct (m' s') as [[e'|a'] t'], (m s) as [[e0|a] t]; cbn in *; try done. subst. by destruct e0.
Qed.
End sim.

Lemma sim_tx {A' A} (R : A' -> A -> Prop) (m' : SM A') (m : M A) : sim R m' m -> sim R (sql_tx m') (tx m).
Proof.
  intros Hm s' s Hs. unfold sql_tx, tx.
  assert (sim eq (sql_call (fun f => (inr tt, f))) (db_call (fun db => (inr tt, db)))) as Hc
    by (by apply sim_call).
  destruct (Hc s' s Hs) as [Hr1 Hs1].
  destruct (sql_call _ s') as [[e'|[]] s1'], (db_call _ s) as [[e|[]] s1]; cbn in Hr1; try done.
  assert (sim R (x ← m'; _ ← sql_call (fun f => (inr tt, f)); mret x)
            (x ← m; _ ← db_call (fun db => (inr tt, db)); mret x)) as Hb.
  { eapply sim_bind; [exact Hm|]. intros a' a HR. eapply sim_bind; [exact Hc|]. intros _ _ _. by apply sim_ret. }
  destruct (Hb s1' s1 Hs1) as [Hr2 Hs2].
  match goal with Hb : sim R ?b' ?b |- _ =>
    destruct (b' s1') as [[e'|a'] s2'], (b s1) as [[e|a] s2]; cbn in *; try done end. split; [done|].
  destruct Hs1 as [Hf1 _ _ _ _], Hs2 as [_ ? ? ? ?]. by constructor.
Qed.

(** ** The clock and the random bytes *)

Lemma sim_now : sim (fun t' t => t' = t /\ sane_clock t) sql_now now_ns.
Proof. intros s' s Hs. pose proof Hs as [_ Hc _ _ Hsane]. cbn. by rewrite Hc. Qed.

Lemma sim_nowStr : sim (fun s t => s = rfc3339 t /\ four_digit_year t) sql_nowStr nowStr.
Proof.
  eapply sim_bind; [apply sim_now|]. intros t' t [-> Ht]. apply sim_ret. split; [done|by apply sane_now].
Qed.

Lemma sim_rand (n : nat) : sim eq (sql_rand n) (rand_read n).
Proof.
  intros s' s Hs. pose proof Hs as [Hf Hc Hr Hfs Hsane]. unfold sql_rand, rand_read. rewrite Hr.
  case_decide; cbn; (split; [done|]); by constructor.
Qed.

Lemma sim_newID (prefix : string) : sim eq (sql_newID prefix) (newID prefix).
Proof. eapply sim_bind; [apply sim_rand|]. intros b' b ->. by apply sim_ret. Qed.

(** ** Statements *)

Lemma sim_exec (d : dml) (g : DB -> option (DB * Z)) :
  (forall f db, represents f db ->
     match exec_dml f d, g db with
     | Some (f', n'), Some (db', n) => n' = n /\ represents f' db'
     | None, None => True
     | _, _ => False
     end) -> sim eq (ExecContext d) (exec g).
Proof.
  intros H. apply sim_call. intros f db Hr. specialize (H f db Hr).
  destruct (exec_dml f d) as [[f' n']|], (g db) as [[db' n]|]; by cbn.
Qed.

Lemma sim_query {A' A} (R : list A' -> A -> Prop) (q : select) (scan : list sqlval -> option A') (g : DB -> A) :
  (forall f db, represents f db -> exists l, mapM scan (results f q) = Some l /\ R l (g db)) ->
  sim R (QueryContext q scan) (query g).
Proof.
  intros H. apply sim_call. intros f db Hr. destruct (H f db Hr) as (l & -> & HR). by split.
Qed.

Lemma sim_query_row {A' A} (R : A' -> A -> Prop) (q : select) (scan : list sqlval -> option A') (g : DB -> option A) :
  (forall f db, represents f db ->
     match results f q, g db with
     | vs :: _, Some a => exists a', scan vs = Some a' /\ R a' a
     | [], None => True
     | _, _ => False
     end) -> sim R (QueryRowContext q scan) (query_row g).
Proof.
  intros H. apply sim_call. intros f db Hr. specialize (H f db Hr).
  destruct (results f q) as [|vs l], (g db) as [a|]; cbn; try done. destruct H as (a' & -> & HR). by split.
Qed.

(** A query of one row that is always there. *)
Lemma sim_query_agg {A' A} (R : A' -> A -> Prop) (q : select) (scan : list sqlval -> option A') (g : DB -> A) :
  (forall f db, represents f db -> exists vs l a', results f q = vs :: l /\ scan vs = Some a' /\ R a' (g db)) ->
  sim R (QueryRowContext q scan) (query g).
Proof.
  intros H. apply sim_call. intros f db Hr. destruct (H f db Hr) as (vs & l & a' & -> & Ha & HR).
  by rewrite Ha.
Qed.

(** The first record a condition selects, column by column. *)
Lemma sim_first {A' A} (R : A' -> A -> Prop) (t : tbl) (es : list expr) (c : cond) (scan : list sqlval -> option A')
    (P : record t -> Prop) `{!forall x, Decision (P x)} (h : record t -> A) :
  (forall f db, represents f db -> selects f t db c P) ->
  (forall x, dated t x -> P x -> exists a', scan (eval (env1 t x) <$> es) = Some a' /\ R a' (h x)) ->
  sim R (QueryRowContext (mkSelect (Cols es) (table_ (name_of t)) c []) scan)
    (query_row (fun db => h <$> sql_first P (records t db))).
Proof.
  intros Hsel Hh. apply sim_query_row. intros f db Hr.
  rewrite (results_one f db t c P Hr (Hsel f db Hr)). unfold sql_first.
  destruct (filter P (records t db)) as [|x l] eqn:E; [done|]. cbn.
  assert (x ∈ filter P (records t db)) as [HP Hx]%list_elem_of_filter by (rewrite E; left).
  apply Hh; [by apply (rep_in f db)|done].
Qed.

Lemma sim_first_row {A'} (t : tbl) (R : A' -> record t -> Prop) (es : list expr) (c : cond)
    (scan : list sqlval -> option A') (P : record t -> Prop) `{!forall x, Decision (P x)} :
  (forall f db, represents f db -> selects f t db c P) ->
  (forall x, dated t x -> P x -> exists a', scan (eval (env1 t x) <$> es) = Some a' /\ R a' x) ->
  sim R (QueryRowContext (mkSelect (Cols es) (table_ (name_of t)) c []) scan)
    (query_row (fun db => sql_first P (records t db))).
Proof.
  intros Hsel Hh. pose proof (sim_first R t es c scan P id Hsel Hh) as Hs. intros s' s Ha.
  specialize (Hs s' s Ha). unfold query_row in *. unfold db_call in *.
  destruct (st_faults s) as [|[] fs]; cbn in *; by destruct (sql_first P (records t (st_db s))).
Qed.

(** Every record a condition selects, in order. *)
Lemma sim_all {A} (t : tbl) (es : list expr) (c : cond) (e : expr) (os : list expr)
    (scan : list sqlval -> option A) (P : record t -> Prop) `{!forall x, Decision (P x)}
    (S : relation (record t)) `{!RelDecision S} (h : record t -> A) :
  (forall f db, represents f db -> selects f t db c P) ->
  (forall x y, dated t x -> dated t y -> env_le (e :: os) (env1 t x) (env1 t y) <-> S x y) ->
  (forall x, dated t x -> scan (eval (env1 t x) <$> es) = Some (h x)) ->
  sim eq (QueryContext (mkSelect (Cols es) (table_ (name_of t)) c (e :: os)) scan)
    (query (fun db => h <$> sql_order S (filter P (records t db)))).
Proof.
  intros Hsel HS Hh. apply sim_query. intros f db Hr.
  rewrite (results_one_order f db t c P Hr (Hsel f db Hr) es e os S HS). eexists. split; [|done].
  assert (Forall (dated t) (sql_order S (filter P (records t db)))) as Hd.
  { apply Forall_forall. intros x Hx. rewrite elem_of_sql_order in Hx.
    apply list_elem_of_filter in Hx as [_ Hx]. by apply (rep_in f db). }
  induction Hd as [|x l Hx _ IH]; [done|]. cbn [fmap list_fmap mapM]. rewrite Hh by done. cbn [mbind option_bind].
  by rewrite IH.
Qed.

(** Changing or deleting the records a condition selects. *)
Lemma sim_update (t : tbl) (sets : list (string * sqlval)) (c : cond) (P : record t -> Prop)
    `{!forall x, Decision (P x)} (g : record t -> record t) :
  (forall f db, represents f db -> selects f t db c P) ->
  forallb (fun cv => bool_decide (cv.1 ∈ col_name <$> columns_of t) && plain_column (name_of t) cv.1 &&
                     negb (bool_decide (cv.2 = VNull))) sets = true ->
  (forall x, dated t x -> P x -> set_fields sets (fields t x) = fields t (g x) /\ dated t (g x)) ->
  (forall f db, represents f db -> fits_in t (sql_update P g (records t db)) db) ->
  sim eq (ExecContext (Update (name_of t) sets c))
    (exec (fun db => Some (set_records t (sql_update P g (records t db)) db, sql_count P (records t db)))).
Proof.
  intros Hsel Hsets Hg Hfit. apply sim_exec. intros f db Hr.
  destruct (represents_update f db t c P g sets Hr (Hsel f db Hr) Hsets Hg (Hfit f db Hr)) as (f' & -> & Hr').
  done.
Qed.

Lemma sim_delete (t : tbl) (c : cond) (P : DB -> record t -> Prop) `{!forall db x, Decision (P db x)} :
  (forall f db, represents f db -> selects f t db c (P db)) -> bool_decide (name_of t ∈ referred) = false ->
  sim eq (ExecContext (Delete (name_of t) c))
    (exec (fun db => Some (set_records t (sql_delete (P db) (records t db)) db, sql_count (P db) (records t db)))).
Proof.
  intros Hsel Href. apply sim_exec. intros f db Hr.
  destruct (represents_delete f db t c (P db) Hr (Hsel f db Hr) Href) as (f' & -> & Hr'). done.
Qed.

Lemma sql_insert_bind {A B} (C : A -> Prop) `{!forall y, Decision (C y)} (x : A) (l : list A) (k : list A -> option B) :
  (t ← sql_insert C x l; k t) = if decide (True /\ ~ Exists C l) then k (l ++ [x]) else None.
Proof. unfold sql_insert. do 2 case_decide; try done; tauto. Qed.

Lemma sql_insert_if {A B} (F : Prop) `{!Decision F} (C : A -> Prop) `{!forall y, Decision (C y)} (x : A) (l : list A)
    (k : list A -> option B) :
  (if decide F then t ← sql_insert C x l; k t else None) = if decide (F /\ ~ Exists C l) then k (l ++ [x]) else None.
Proof. rewrite sql_insert_bind. repeat case_decide; try done; tauto. Qed.

(** Appending a record, to a table other than the messages. *)
Lemma sim_insert (t : tbl) (vals : list (string * sqlval)) (x : record t) (C : record t -> Prop)
    `{!forall y, Decision (C y)} (F : DB -> Prop) `{!forall db, Decision (F db)} (g : DB -> option (DB * Z)) :
  bool_decide (name_of t = "messages"%string) = false ->
  new_row (columns_of t) vals = encode t x ->
  forallb (fun cv => bool_decide (cv.1 ∈ col_name <$> columns_of t)) vals = true ->
  not_null (columns_of t) (encode t x) = true -> dated t x ->
  (forall y, clash (unique_keys (name_of t)) (encode t x) (encode t y) = true <-> C y) ->
  (forall f db, represents f db -> referenced f (name_of t) (encode t x) = true <-> F db) ->
  (forall f db, represents f db -> F db -> fits_in t (records t db ++ [x]) db) ->
  (forall db, g db = if decide (F db /\ ~ Exists C (records t db))
                     then Some (set_records t (records t db ++ [x]) db, 1) else None) ->
  sim eq (ExecContext (Insert (name_of t) vals)) (exec g).
Proof.
  intros Hm%bool_decide_eq_false Hnew Hvals Hnn Hd HC HF Hfit Hg. apply sim_exec. intros f db Hr.
  cbn [exec_dml]. rewrite Hg, (insert_rep f db t vals x C (F db)); try done;
    [|unfold counted; by rewrite decide_False|by apply HF].
  unfold count_up. rewrite (decide_False (P := name_of t = _)) by done. case_decide as HFC; [|done]. split; [done|].
  apply represents_records; [done| |apply (Hfit f db Hr), HFC].
  apply Forall_app. split; [apply (rep_dated f db Hr)|by apply Forall_singleton].
Qed.

(** Counting them. *)
Lemma sim_count (t : tbl) (c : cond) (P : record t -> Prop) `{!forall x, Decision (P x)} :
  (forall f db, represents f db -> selects f t db c P) ->
  sim eq (QueryRowContext (mkSelect (Agg ACount) (table_ (name_of t)) c []) (scan1 scan_int))
    (query (fun db => sql_count P (records t db))).
Proof.
  intros Hsel. apply sim_query_agg. intros f db Hr. do 3 eexists.
  rewrite (results_one_agg f db t c P Hr (Hsel f db Hr)). split; [done|]. cbn. rewrite length_fmap. by split.
Qed.

(** ** Automation *)

Lemma eval_col (t : tbl) (x : record t) (c : string) :
  eval (env1 t x) (col c) = default VNull (assoc c (fields t x)).
Proof. cbn. by rewrite encode_lookup. Qed.

#[global] Arguments val_cmp : simpl never.
#[global] Arguments time_val : simpl never.
#[global] Arguments flag_val : simpl never.
#[global] Arguments key_val : simpl never.

(** The values of a row's columns. *)
Ltac columns := rewrite ?eval_col; cbn [assoc fields String.eqb Ascii.eqb Bool.eqb default from_option id eval].

Ltac join_columns :=
  cbn [eval assoc app String.eqb Ascii.eqb Bool.eqb mbind option_bind]; rewrite ?encode_lookup;
  cbn [assoc fields String.eqb Ascii.eqb Bool.eqb default from_option id].

Ltac compare :=
  rewrite ?val_eq_text, ?val_eq_int, ?val_ne_text, ?val_gt_int, ?val_le_int, ?val_eq_flag, ?null_key,
    ?andb_true_iff, ?negb_true_iff, ?bool_decide_eq_true, ?bool_decide_eq_false.

(** The condition of a statement means what the predicate on records says. *)
Ltac selecting :=
  let f := fresh "f" in let db := fresh "db" in let Hr := fresh "Hr" in let x := fresh "x" in
  let Hx := fresh "Hx" in
  intros f db Hr x Hx; pose proof (rep_in f db _ x Hr Hx) as Hdated;
  unfold is_, differs, after, up_to, on; cbn [holds]; columns; compare;
  unfold dated in Hdated; cbn [times] in Hdated; rewrite ?Forall_cons in Hdated;
  repeat match goal with
  | |- context [val_cmp CGt (time_val ?s) (VText (rfc3339 ?t))] =>
      change (VText (rfc3339 t)) with (time_val t); rewrite (val_gt_time s t) by tauto
  | |- context [val_cmp CLe (time_val ?s) (VText (rfc3339 ?t))] =>
      change (VText (rfc3339 t)) with (time_val t); rewrite (val_le_time s t) by tauto
  end; compare; tauto.

(** The times of a record are dated. *)
Ltac dating :=
  try match goal with x : record _ |- dated _ (?g ?x) => destruct x end;
  unfold dated in *; cbn in *; rewrite ?Forall_cons in *;
  repeat match goal with |- _ /\ _ => split end; try apply Forall_nil_2; tauto.

(** An update sets the fields that differ. *)
Ltac updating :=
  let x := fresh "x" in intros x ? ?; split; [by destruct x|dating].

(** Two rows clash when they agree on the key. *)
Ltac clashing :=
  let y := fresh "y" in intros y; unfold clash; cbn [existsb forallb unique_keys name_of];
  rewrite !get_encode; cbn [assoc fields String.eqb Ascii.eqb Bool.eqb default from_option id];
  rewrite ?andb_true_r, ?orb_false_r, ?orb_true_iff, ?andb_true_iff; compare; intuition congruence.

(** The reference of a row leads to a record. *)
Ltac referring t key :=
  let f := fresh "f" in let db := fresh "db" in let Hr := fresh "Hr" in
  intros f db Hr; unfold referenced; cbn [forallb references name_of fst snd];
  rewrite !get_encode; cbn [assoc fields String.eqb Ascii.eqb Bool.eqb default from_option id];
  rewrite andb_true_r; apply (referenced_in f db t); [exact Hr|done|intros ?; by rewrite get_encode].
