(* ===== verification/Faithful.v ===== *)
(** * The store on records is the store on rows

    Each method, run as the statements it sends to a file that holds a database, answers
    what it answers on the database, and leaves the file holding the database it leaves. *)

From S2P Require Import Prelude Encoding Clock Decimal Sql Schema StoreM Crypto Accounts Devices Queues Blobs.
From S2P Require Import Migrate Upgrade Sqlite SqlStore Rows Represent Simulation.

Local Open Scope Z_scope.

(** ** One row of devices, queues, messages *)

Lemma scan_device_row (x : Device) :
  dated Devices x -> scanDevice (eval (env1 Devices x) <$> deviceColumns) = Some x.
Proof.
  destruct x as [id acc pub push caps created seen revoked role quota]. unfold deviceColumns, scanDevice. revert id.
  intros id Hd. unfold dated in Hd. cbn [times] in Hd. rewrite !Forall_cons in Hd. destruct_and? Hd.
  cbn [fmap list_fmap]. columns. unfold time_val, flag_val. cbn [scan_string scan_int scan_bytes mbind option_bind].
  cbn in *. rewrite !parse_time_format by done. by destruct revoked.
Qed.

Lemma scan_queue_row (x : Queue) :
  dated Queues x -> scanQueue (eval (env1 Queues x) <$> queueColumns) = Some x.
Proof.
  destruct x as [rid sid owner rkey skey created retired quota]. intros Hd. unfold dated in Hd. cbn [times] in Hd.
  rewrite !Forall_cons in Hd. destruct_and? Hd. unfold queueColumns, scanQueue. cbn [fmap list_fmap]. columns.
  unfold time_val, flag_val, key_val. cbn [scan_string scan_int scan_bytes mbind option_bind].
  cbn in *. rewrite !parse_time_format by done. by destruct retired, skey.
Qed.

(** ** Orders *)

(** [ORDER BY created, id]. *)
Lemma order_created_id (t : tbl) (created : record t -> Z) (id : record t -> string) :
  (forall x, eval (env1 t x) (col "created") = time_val (created x)) ->
  (forall x, eval (env1 t x) (col "id") = VText (id x)) ->
  (forall x, dated t x -> four_digit_year (created x)) ->
  forall x y, dated t x -> dated t y ->
  env_le [col "created"; col "id"] (env1 t x) (env1 t y) <-> created_id_le created id x y.
Proof.
  intros Hc Hi Hd x y Hx Hy. unfold env_le. cbn [lex_le]. rewrite !Hc, !Hi. unfold time_val. cbn [val_compare].
  rewrite rfc3339_compare by by apply Hd. unfold created_id_le, text_lt, String.ltb.
  rewrite (String.compare_antisym (id x) (id y)).
  destruct (Z.compare_spec (created x) (created y)); [|split; [by left|done]|split; [done|lia]].
  destruct (String.compare (id y) (id x)); cbn; split; intros Ho; try done; try by right.
  destruct Ho as [|[_ Hn]]; [lia|by destruct Hn].
Qed.

Lemma order_seq (t : tbl) (seq : record t -> Z) :
  (forall x, eval (env1 t x) (col "seq") = VInt (seq x)) ->
  forall x y, dated t x -> dated t y -> env_le [col "seq"] (env1 t x) (env1 t y) <-> seq x <= seq y.
Proof.
  intros Hs x y _ _. unfold env_le. cbn [lex_le]. rewrite !Hs. cbn [val_compare].
  destruct (Z.compare_spec (seq x) (seq y)); split; try done; lia.
Qed.

(** ** Devices *)

Lemma sim_GetDevice (id : string) : sim eq (Store_GetDevice id) (GetDevice id).
Proof.
  apply sim_on_no_rows, (sim_first_row Devices); [selecting|]. intros x Hd _. eexists.
  split; [by apply scan_device_row|done].
Qed.

Lemma sim_TouchLastSeen (id : string) : sim eq (Store_TouchLastSeen id) (TouchLastSeen id).
Proof.
  eapply sim_bind; [apply sim_nowStr|]. intros s t [-> Ht].
  eapply sim_bind; [|intros ? ? _; by apply sim_ret].
  apply (sim_update Devices); [selecting|done|updating|]. intros f db. by apply devices_fit.
Qed.

Lemma sim_UpdatePushEndpoint (id endpoint : string) :
  sim eq (Store_UpdatePushEndpoint id endpoint) (UpdatePushEndpoint id endpoint).
Proof.
  eapply sim_bind; [|intros ? ? _; by apply sim_ret].
  apply (sim_update Devices); [selecting|done|updating|]. intros f db. by apply devices_fit.
Qed.

Lemma sim_SetDeviceQuota (id : string) (n : Z) : sim eq (Store_SetDeviceQuota id n) (SetDeviceQuota id n).
Proof.
  eapply sim_bind.
  - apply (sim_update Devices); [selecting|done|updating|]. intros f db. by apply devices_fit.
  - intros k' k ->. apply sim_if; [done|intros _; apply sim_throw|intros _; by apply sim_ret].
Qed.

(** ** Accounts and invitations *)

Lemma sim_CreateAccount (class : string) (n : Z) (mode : string) :
  sim eq (Store_CreateAccount class n mode) (CreateAccount class n mode).
Proof.
  apply sim_if; [done|intros _; apply sim_throw|intros _].
  eapply sim_bind; [apply sim_newID|]. intros id' id ->. eapply sim_bind; [apply sim_nowStr|]. intros s t [-> Ht].
  rewrite parse_time_format by done.
  eapply sim_bind; [|intros ? ? _; by apply sim_ret].
  match goal with |- sim _ _ (exec (insert_account ?a)) =>
    apply (sim_insert Accounts _ a (fun y => a_id y = a_id a) (fun _ => True)) end;
    [done..|dating|clashing|done|done|].
  intros db. unfold insert_account. by rewrite sql_insert_bind.
Qed.

Lemma sim_AccountQuotaBytes (acc : string) : sim eq (Store_AccountQuotaBytes acc) (AccountQuotaBytes acc).
Proof.
  apply sim_on_no_rows, (sim_first _ Accounts); [selecting|]. intros x Hd _. eexists. split; [|done].
  cbn [fmap list_fmap]. by columns.
Qed.

Lemma sim_admin_mode (acc : string) :
  sim eq (QueryRowContext (admin_mode_of acc) (scan1 scan_string))
    (query_row (fun db => a_admin_mode <$> sql_first (fun a => a_id a = acc) db.(accounts))).
Proof.
  apply (sim_first _ Accounts); [selecting|]. intros x Hd _. eexists. split; [|done].
  cbn [fmap list_fmap]. by columns.
Qed.

Section crypto.
Context `{Crypto}.

Lemma sim_CreateInvitation (acc : string) (ttl : Z) (role : string) :
  is_int64 ttl -> sim eq (Store_CreateInvitation acc ttl role) (CreateInvitation acc ttl role).
Proof.
  intros Httl. eapply sim_bind; [apply sim_rand|]. intros ? raw ->.
  eapply sim_bind; [apply sim_newID|]. intros ? id ->.
  apply sim_if; [done|intros _; apply sim_throw|intros _].
  eapply sim_bind; [apply sim_on_no_rows, sim_admin_mode|]. intros ? mode ->.
  eapply sim_bind; [apply sim_now|]. intros ? now [-> Hnow].
  pose proof (sane_now _ Hnow). pose proof (sane_later _ _ Hnow Httl).
  eapply sim_bind; [|intros ? ? _; by apply sim_ret].
  match goal with |- sim _ _ (exec (insert_invitation ?i)) =>
    apply (sim_insert Invitations _ i (fun y => i_token_hash y = i_token_hash i)
             (fun db => i_account_id i ∈ a_id <$> accounts db)) end;
    [done..|dating|clashing|referring Accounts "id"%string|done|].
  intros db. unfold insert_invitation. by rewrite sql_insert_if.
Qed.

End crypto.

Lemma sim_ListInvitations (acc : string) : sim eq (Store_ListInvitations acc) (ListInvitations acc).
Proof.
  eapply sim_bind; [apply sim_nowStr|]. intros s t [-> Ht].
  apply (sim_all Invitations _ _ _ _ _ _ (created_id_le i_created i_id)).
  - unfold outstanding. selecting.
  - apply order_created_id; [intros x; by columns..|]. intros x Hd. by apply Forall_cons in Hd as [? _].
  - intros [hash id a cr ex co re gr] Hd. unfold dated in Hd. cbn in Hd. rewrite !Forall_cons in Hd. destruct_and? Hd.
    cbn [fmap list_fmap scan_invitation]. columns. unfold time_val. cbn.
    by rewrite !parse_time_format.
Qed.

Lemma sim_RevokeInvitation (acc id : string) : sim eq (Store_RevokeInvitation acc id) (RevokeInvitation acc id).
Proof.
  eapply sim_bind; [apply (sim_update Invitations); [selecting|done|updating|done]|].
  intros ? n ->. by apply sim_ret.
Qed.

(** ** Registration *)

Lemma sim_consume (hash : string) (now : Z) :
  four_digit_year now ->
  sim eq (ExecContext (Update "invitations" [("consumed"%string, VInt 1)]
           (is_ "token_hash" (VText hash) &&& is_ "consumed" (VInt 0) &&& is_ "revoked" (VInt 0) &&&
            after "expires" (VText (rfc3339 now)))))
    (exec (consume_invitation hash now)).
Proof.
  intros Hnow. apply (sim_update Invitations _ _ (redeemable hash now)); [unfold redeemable; selecting|done|updating|done].
Qed.

(** The first row of a join of two tables by a key, the condition being on the first. *)
Lemma sim_join {A} (t u : tbl) (a b : string) (c w : cond) (es : list expr) (scan : list sqlval -> option A)
    (P : record t -> Prop) `{!forall x, Decision (P x)} (K : record t -> record u -> Prop)
    `{!forall x y, Decision (K x y)} (h : record t -> record u -> A) :
  (forall x y f, holds f c [(a, encode t x); (b, encode u y)] = true <-> K x y) ->
  (forall x y f, holds f w [(a, encode t x); (b, encode u y)] = true <-> P x) ->
  (forall x y, scan (eval [(a, encode t x); (b, encode u y)] <$> es) = Some (h x y)) ->
  sim eq
    (QueryRowContext (mkSelect (Cols es) [mkSource (name_of t) a CTrue; mkSource (name_of u) b c] w []) scan)
    (query_row (fun db => head (x ← filter P (records t db); y ← filter (K x) (records u db); [h x y]))).
Proof.
  intros HK HP Hh. apply sim_query_row. intros f db Hr. unfold results, selected.
  cbn [sel_output sel_from sel_where sel_order].
  rewrite (joined_first f db Hr t a).
  rewrite (joined_next f db Hr u b c [] (records t db) (fun x => [(a, encode t x)]) K) by (intros; apply HK).
  cbn [joined]. rewrite filter_fmap.
  assert (forall l, filter (fun xy => holds f w ([(a, encode t xy.1)] ++ [(b, encode u xy.2)]) = true) l =
    filter (fun xy : record t * record u => P xy.1) l) as ->
    by (intros l; apply filter_ext_in; intros [x y] _; apply HP).
  rewrite filter_paired, (paired_fmap _ _ h). destruct (paired _ _) as [|[x y] l]; [done|].
  cbn. exists (h x y). split; [apply Hh|done].
Qed.

Lemma sim_grant (hash : string) :
  sim eq
    (QueryRowContext
       (mkSelect (Cols [Col "i" "account_id"; Col "i" "grants_role"; Col "a" "admin_mode"])
          [mkSource "invitations" "i" CTrue; mkSource "accounts" "a" (on "i" "account_id" "a" "id")]
          (CCmp CEq (Col "i" "token_hash") (Val (VText hash))) [])
       scan_grant)
    (query_row (invitation_grant hash)).
Proof.
  apply (sim_join Invitations Accounts "i" "a" _ _ _ _ (fun i => i_token_hash i = hash)
           (fun i a => a_id a = i_account_id i) (fun i a => (i_account_id i, i_grants_role i, a_admin_mode a)));
    unfold on; cbn [holds]; intros x y; intros; [join_columns; compare; intuition congruence| |].
  - join_columns. by compare.
  - cbn [fmap list_fmap]. join_columns. by cbn.
Qed.

Section registration.
Context `{Crypto}.

Lemma sim_RegisterDevice (token : string) (pub : bytes) (push caps : string) :
  sim eq (Store_RegisterDevice token pub push caps) (RegisterDevice token pub push caps).
Proof.
  apply sim_if; [done|intros _; apply sim_throw|intros _]. apply sim_tx.
  eapply sim_bind; [apply sim_nowStr|]. intros s t [-> Ht].
  eapply sim_bind; [by apply sim_consume|]. intros ? n ->.
  apply sim_if; [done|intros _; apply sim_throw|intros _].
  eapply sim_bind; [apply sim_grant|]. intros ? [[acc grants] mode] ->.
  eapply sim_bind with (S := eq).
  { apply sim_if; [done|intros _|intros _; by apply sim_ret].
    eapply sim_bind; [apply (sim_count Devices); selecting|]. intros ? k ->. by apply sim_ret. }
  intros ? role ->. eapply sim_bind; [apply sim_newID|]. intros ? id ->. rewrite parse_time_format by done.
  eapply sim_bind; [|intros ? ? _; by apply sim_ret].
  match goal with |- sim _ _ (exec (insert_device ?d)) =>
    apply (sim_insert Devices _ d (fun y => d_id y = d_id d) (fun db => d_account_id d ∈ a_id <$> accounts db)) end;
    [done..|dating|clashing|referring Accounts "id"%string| |].
  - intros f db Hr _. cbn. rewrite fmap_app. eapply Forall_impl; [apply (rep_bundles f db Hr)|].
    intros b Hb. apply elem_of_app. by left.
  - intros db. unfold insert_device. by rewrite sql_insert_if.
Qed.

End registration.

(** ** Roles and revocation *)

Lemma sim_ListDevices (acc : string) : sim eq (Store_ListDevices acc) (ListDevices acc).
Proof.
  assert (sim eq (Store_ListDevices acc) (query (fun db => id <$>
    sql_order (created_id_le d_created d_id) (filter (fun d => d_account_id d = acc) (records Devices db))))) as Hs.
  { apply (sim_all Devices); [selecting| |apply scan_device_row].
    apply order_created_id; [intros x; by columns..|]. intros x Hd. by apply Forall_cons in Hd as [? _]. }
  intros s' s Ha. specialize (Hs s' s Ha). unfold ListDevices, query, db_call in *.
  destruct (st_faults s) as [|[] fs]; cbn in *; by rewrite ?list_fmap_id in Hs.
Qed.

Lemma sim_assertNotLastAdmin (acc id : string) (allow : bool) :
  sim eq (Store_assertNotLastAdmin acc id allow) (assertNotLastAdmin acc id allow).
Proof.
  eapply sim_bind; [apply (sim_count Devices); selecting|]. intros ? n ->.
  apply sim_if; [done|intros _; by apply sim_ret|intros _].
  destruct allow; cbn [negb]; [|apply sim_throw].
  eapply sim_bind; [apply (sim_count Devices); selecting|]. intros ? k ->.
  apply sim_if; [done|intros _; apply sim_throw|intros _; by apply sim_ret].
Qed.

Lemma sim_set_role (id role : string) :
  sim eq (ExecContext (Update "devices" [("role"%string, VText role)] (is_ "id" (VText id))))
    (exec (update_devices (fun d => d_id d = id) (dev_set_role role))).
Proof. apply (sim_update Devices); [selecting|done|updating|]. intros f db. by apply devices_fit. Qed.

Lemma sim_SetDeviceRole (acc id role : string) :
  sim eq (Store_SetDeviceRole acc id role) (SetDeviceRole acc id role).
Proof.
  apply sim_if; [done|intros _; apply sim_throw|intros _]. apply sim_tx.
  eapply sim_bind; [apply sim_admin_mode|]. intros ? mode ->.
  apply sim_if; [done|intros _; apply sim_throw|intros _].
  eapply sim_bind with (S := eq).
  { apply sim_on_no_rows, (sim_first _ Devices); [selecting|]. intros x Hd _. eexists. split; [|done].
    cbn [fmap list_fmap]. by columns. }
  intros ? current ->. eapply sim_bind with (S := eq).
  { apply sim_if; [done|intros _; apply sim_assertNotLastAdmin|intros _; by apply sim_ret]. }
  intros _ _ _. eapply sim_bind; [apply sim_set_role|]. intros _ _ _. by apply sim_ret.
Qed.

Lemma sim_PromoteDevice (id : string) : sim eq (Store_PromoteDevice id) (PromoteDevice id).
Proof.
  eapply sim_bind.
  { apply sim_on_no_rows.
    apply (sim_join Devices Accounts "d" "a" _ _ _ _ (fun d => d_id d = id /\ d_revoked d = false)
             (fun d a => a_id a = d_account_id d) (fun _ a => a_admin_mode a));
      unfold on; cbn [holds]; intros x y; intros; [join_columns; compare; intuition congruence| |].
    - join_columns. by compare.
    - cbn [fmap list_fmap]. by join_columns. }
  intros ? mode ->. apply sim_if; [done|intros _; apply sim_throw|intros _].
  eapply sim_bind; [apply sim_set_role|]. intros _ _ _. by apply sim_ret.
Qed.

(** The messages of the queues a device owns. *)
Lemma selects_owned (id : string) (f : file) (db : DB) :
  represents f db ->
  selects f Messages db (CInSelect (col "queue_id") "recipient_id" "queues" (is_ "owner_device" (VText id)))
    (fun m => m_queue_id m ∈ owned_queue_ids id db).
Proof.
  intros Hr m _. cbn [holds]. rewrite (rep_rows f db Queues Hr : rows f "queues" = _), existsb_exists.
  unfold owned_queue_ids. split.
  - intros (r & Hin & Hv). apply list_elem_of_In, list_elem_of_fmap in Hin as (q & -> & Hq).
    revert Hv. unfold is_. cbn [holds]. change (Col "" "recipient_id") with (col "recipient_id"). columns. compare.
    intros [Ho ->]. apply list_elem_of_fmap_2, list_elem_of_filter. done.
  - intros (q & E & [Ho Hq]%list_elem_of_filter)%list_elem_of_fmap. exists (encode Queues q).
    split; [by apply list_elem_of_In, list_elem_of_fmap_2|]. unfold is_. cbn [holds].
    change (Col "" "recipient_id") with (col "recipient_id"). columns. by compare.
Qed.

Lemma sim_RevokeDevice (caller id : string) : sim eq (Store_RevokeDevice caller id) (RevokeDevice caller id).
Proof.
  apply sim_tx. eapply sim_bind with (S := eq).
  { apply sim_if; [done|intros _|intros _; by apply sim_ret].
    eapply sim_bind with (S := fun r' r => r' = (r.1.1, r.1.2, if r.2 : bool then 1 else 0)).
    { apply sim_on_no_rows, (sim_first _ Devices); [selecting|]. intros x Hd _. eexists. split; [|done].
      cbn [fmap list_fmap]. by columns. }
    intros ? [[acc role] revoked] ->. cbn [fst snd].
    apply sim_if; [by destruct revoked; cbn; intuition|intros _; apply sim_assertNotLastAdmin|intros _; by apply sim_ret]. }
  intros _ _ _. eapply sim_bind.
  { apply (sim_delete Messages _ (fun db m => m_queue_id m ∈ owned_queue_ids id db)); [apply selects_owned|done]. }
  intros _ _ _. eapply sim_bind.
  { apply (sim_update Queues _ _ (fun q => q_owner_device q = id) q_retire); [selecting|done|updating|done]. }
  intros _ _ _. eapply sim_bind.
  { apply (sim_delete Bundles _ (fun _ b => b_device_id b = id)); [selecting|done]. }
  intros _ _ _. eapply sim_bind.
  { apply (sim_update Devices); [selecting|done|updating|]. intros f db. by apply devices_fit. }
  intros _ _ _. by apply sim_ret.
Qed.

(** ** Queues *)

Lemma sim_CreateQueue (owner : string) (key : bytes) : sim eq (Store_CreateQueue owner key) (CreateQueue owner key).
Proof.
  apply sim_if; [done|intros _; apply sim_throw|intros _].
  eapply sim_bind; [apply sim_newID|]. intros ? rid ->. eapply sim_bind; [apply sim_newID|]. intros ? sid ->.
  eapply sim_bind; [apply sim_nowStr|]. intros s t [-> Ht]. rewrite parse_time_format by done.
  eapply sim_bind; [|intros ? ? _; by apply sim_ret].
  match goal with |- sim _ _ (exec (insert_queue ?q)) =>
    apply (sim_insert Queues _ q (fun y => q_recipient_id y = q_recipient_id q \/ q_sender_id y = q_sender_id q)
             (fun db => q_owner_device q ∈ d_id <$> devices db)) end;
    [done..|dating|clashing|referring Devices "id"%string|done|].
  intros db. unfold insert_queue. by rewrite sql_insert_if.
Qed.

Lemma sim_GetQueueByRecipient (rid : string) : sim eq (Store_GetQueueByRecipient rid) (GetQueueByRecipient rid).
Proof.
  apply sim_on_no_rows, (sim_first_row Queues); [selecting|]. intros x Hd _. eexists.
  split; [by apply scan_queue_row|done].
Qed.

Lemma sim_GetQueueBySender (sid : string) : sim eq (Store_GetQueueBySender sid) (GetQueueBySender sid).
Proof.
  apply sim_on_no_rows, (sim_first_row Queues); [selecting|]. intros x Hd _. eexists.
  split; [by apply scan_queue_row|done].
Qed.

Lemma sim_BindSenderKey (sid : string) (key : bytes) : sim eq (Store_BindSenderKey sid key) (BindSenderKey sid key).
Proof.
  apply sim_if; [done|intros _; apply sim_throw|intros _].
  eapply sim_bind; [apply (sim_update Queues _ _ (bindable sid)); [unfold bindable; selecting|done|updating|done]|].
  intros ? n ->. by apply sim_ret.
Qed.

Lemma sim_RetireQueue (rid : string) : sim eq (Store_RetireQueue rid) (RetireQueue rid).
Proof.
  apply sim_tx. eapply sim_bind.
  { apply (sim_delete Messages _ (fun _ m => m_queue_id m = rid)); [selecting|done]. }
  intros _ _ _. eapply sim_bind.
  { apply (sim_update Queues); [selecting|done|updating|done]. }
  intros _ _ _. by apply sim_ret.
Qed.

Lemma sim_SetQueueQuota (rid : string) (n : Z) : sim eq (Store_SetQueueQuota rid n) (SetQueueQuota rid n).
Proof.
  eapply sim_bind; [apply (sim_update Queues); [selecting|done|updating|done]|].
  intros ? k ->. apply sim_if; [done|intros _; apply sim_throw|intros _; by apply sim_ret].
Qed.

(** ** Storage accounting *)

(** The total of the payloads of selected messages. *)
Lemma sum_lengths {X} (G : X -> env) (m : X -> MessageRow) (l : list X) :
  (forall x, eval (G x) (Col "m" "payload") = VBlob (m_payload (m x))) ->
  aggregated (ACoalesce (ASumLength (Col "m" "payload")) 0) (G <$> l) = VInt (sql_sum (fun x => m_size (m x)) l).
Proof.
  intros HG. cbn [aggregated].
  assert (omap (fun ρ => blob_length (eval ρ (Col "m" "payload"))) (G <$> l) = (fun x => m_size (m x)) <$> l) as ->.
  { induction l as [|x l IH]; [done|]. rewrite !fmap_cons. cbn [omap list_omap]. rewrite HG. cbn [blob_length].
    unfold m_size at 1. by f_equal. }
  unfold sql_sum. by destruct l.
Qed.

Lemma sim_stored_bytes {X} (joins : list source) (c : cond) (now : Z) (pick : DB -> list X)
    (G : X -> env) (m : X -> MessageRow) (P : X -> Prop) `{!forall x, Decision (P x)} :
  four_digit_year now ->
  (forall f db, represents f db ->
     joined f joins ((fun x => [("m"%string, encode Messages x)]) <$> messages db) = G <$> pick db /\
     (forall x, x ∈ pick db -> m x ∈ messages db) /\
     (forall x, holds f c (G x) = true <-> P x)) ->
  (forall x, assoc "m" (G x) = Some (encode Messages (m x))) ->
  sim eq (stored_bytes joins c (rfc3339 now))
    (query (fun db => sql_sum (fun x => m_size (m x)) (filter (fun x => P x /\ m_expires (m x) > now) (pick db)))).
Proof.
  intros Hnow Hj HG. apply sim_query_agg. intros f db Hr. destruct (Hj f db Hr) as (Hjoin & Hin & HP).
  unfold results, selected. cbn [sel_output sel_from sel_where sel_order].
  rewrite (joined_first f db Hr Messages "m" joins : joined f (mkSource "messages" "m" CTrue :: joins) [[]] = _).
  cbn [records]. rewrite Hjoin, filter_fmap.
  rewrite (filter_ext_in _ (fun x => P x /\ m_expires (m x) > now)).
  - rewrite (sum_lengths G m) by (intros x; cbn [eval]; rewrite HG; cbn [mbind option_bind]; by rewrite encode_lookup).
    do 3 eexists. by split_and!.
  - intros x Hx. pose proof (rep_in f db Messages _ Hr (Hin x Hx)) as Hd. unfold dated in Hd. cbn in Hd.
    rewrite !Forall_cons in Hd. cbn [holds]. cbn [eval]. rewrite HG. cbn [mbind option_bind].
    rewrite encode_lookup. cbn [assoc fields String.eqb Ascii.eqb Bool.eqb default from_option id].
    change (VText (rfc3339 now)) with (time_val now). rewrite val_gt_time by tauto.
    rewrite andb_true_iff, HP, bool_decide_eq_true. done.
Qed.

Lemma sim_queue_bytes (rid : string) (now : Z) :
  four_digit_year now -> sim eq (sql_queue_bytes rid (rfc3339 now)) (query (queue_bytes rid now)).
Proof.
  intros Hnow. apply (sim_stored_bytes [] _ now messages (fun x => [("m"%string, encode Messages x)]) id
    (fun m => m_queue_id m = rid)); [done| |done].
  intros f db Hr. split_and!; [done|done|]. intros x. cbn [holds]. join_columns. by compare.
Qed.

Lemma joined_queues (f : file) (db : DB) (from : list source) :
  represents f db ->
  joined f (join_queues :: from) ((fun x => [("m"%string, encode Messages x)]) <$> messages db) =
  joined f from ((fun mq => [("m"%string, encode Messages mq.1); ("q"%string, encode Queues mq.2)]) <$>
    messages_queues db).
Proof.
  intros Hr. unfold join_queues.
  etrans; [apply (@joined_next f db Hr _ Queues "q" _ from (messages db) (fun x => [("m"%string, encode Messages x)])
    (fun m q => q_recipient_id q = m_queue_id m) (fun _ _ => String.eq_dec _ _))|].
  - intros m q _ _. unfold on. cbn [holds]. join_columns. compare. intuition congruence.
  - by f_equal.
Qed.

Lemma elem_of_messages_queues (db : DB) (mq : MessageRow * Queue) : mq ∈ messages_queues db -> mq.1 ∈ messages db.
Proof.
  intros (m & Hin & Hm)%list_elem_of_bind. apply list_elem_of_bind in Hin as (q & Hin & _).
  by apply list_elem_of_singleton in Hin as ->.
Qed.

Lemma sim_device_bytes (id : string) (now : Z) :
  four_digit_year now -> sim eq (sql_device_bytes id (rfc3339 now)) (query (device_bytes id now)).
Proof.
  intros Hnow. apply (sim_stored_bytes [join_queues] _ now messages_queues
    (fun mq => [("m"%string, encode Messages mq.1); ("q"%string, encode Queues mq.2)]) fst
    (fun mq => q_owner_device mq.2 = id)); [done| |done].
  intros f db Hr. split_and!; [by rewrite (joined_queues f db)|apply elem_of_messages_queues|].
  intros x. cbn [holds]. join_columns. by compare.
Qed.

Lemma sim_account_bytes (acc : string) (now : Z) :
  four_digit_year now -> sim eq (sql_account_bytes acc (rfc3339 now)) (query (account_bytes acc now)).
Proof.
  intros Hnow. apply (sim_stored_bytes [join_queues; join_devices] _ now messages_queues_devices
    (fun mqd => [("m"%string, encode Messages mqd.1.1); ("q"%string, encode Queues mqd.1.2);
                 ("d"%string, encode Devices mqd.2)]) (fun mqd => mqd.1.1)
    (fun mqd => d_account_id mqd.2 = acc)); [done| |done].
  intros f db Hr. split_and!.
  - rewrite (joined_queues f db) by done. unfold join_devices.
    etrans; [apply (@joined_next f db Hr _ Devices "d" _ [] (messages_queues db)
      (fun mq => [("m"%string, encode Messages mq.1); ("q"%string, encode Queues mq.2)])
      (fun mq d => d_id d = q_owner_device mq.2) (fun _ _ => String.eq_dec _ _))|].
    + intros m q _ _. unfold on. cbn [holds]. join_columns. compare. intuition congruence.
    + by cbn [joined].
  - intros x (mq & Hin & Hm)%list_elem_of_bind. apply list_elem_of_bind in Hin as (d & Hin & _).
    apply list_elem_of_singleton in Hin as ->. by apply elem_of_messages_queues.
  - intros x. cbn [holds]. join_columns. by compare.
Qed.

Lemma sim_DeviceStoredBytes (id : string) : sim eq (Store_DeviceStoredBytes id) (DeviceStoredBytes id).
Proof. eapply sim_bind; [apply sim_nowStr|]. intros s t [-> Ht]. by apply sim_device_bytes. Qed.

(** ** Messages *)

Lemma sim_ceilings (rid : string) :
  sim eq
    (QueryRowContext
       (mkSelect (Cols [Col "d" "account_id"; Col "q" "owner_device"; Col "q" "quota_bytes"; Col "d" "quota_bytes";
                        Col "a" "quota_bytes"])
          [mkSource "queues" "q" CTrue; join_devices; mkSource "accounts" "a" (on "d" "account_id" "a" "id")]
          (CCmp CEq (Col "q" "recipient_id") (Val (VText rid))) [])
       scan_ceilings)
    (query_row (queue_ceilings rid)).
Proof.
  apply sim_query_row. intros f db Hr. unfold results, selected. cbn [sel_output sel_from sel_where sel_order].
  set (h := fun q : Queue => filter (fun d => d_id d = q_owner_device q) (devices db)).
  set (k := fun qd : Queue * Device => filter (fun a => a_id a = d_account_id qd.2) (accounts db)).
  assert (joined f [mkSource "queues" "q" CTrue; join_devices; mkSource "accounts" "a" (on "d" "account_id" "a" "id")] [[]] =
    (fun x => [("q"%string, encode Queues x.1.1); ("d"%string, encode Devices x.1.2); ("a"%string, encode Accounts x.2)])
      <$> paired (paired (queues db) h) k) as ->.
  { etrans; [apply (joined_first f db Hr Queues "q")|].
    etrans; [apply (@joined_next f db Hr _ Devices "d" _ _ (queues db) (fun q => [("q"%string, encode Queues q)])
      (fun q d => d_id d = q_owner_device q) (fun _ _ => String.eq_dec _ _))|].
    { intros q d _ _. unfold on. cbn [holds]. join_columns. compare. intuition congruence. }
    etrans; [apply (@joined_next f db Hr _ Accounts "a" _ _ (paired (queues db) h)
      (fun qd => [("q"%string, encode Queues qd.1); ("d"%string, encode Devices qd.2)])
      (fun qd a => a_id a = d_account_id qd.2) (fun _ _ => String.eq_dec _ _))|done].
    intros qd a _ _. unfold on. cbn [holds]. join_columns. compare. intuition congruence. }
  rewrite filter_fmap.
  match goal with |- context [fmap _ ?t] => lazymatch t with filter _ _ =>
    assert (t = paired (paired (filter (fun q => q_recipient_id q = rid) (queues db)) h) k) as -> end end.
  { rewrite <- filter_paired3. apply filter_ext_in. intros x _. cbn [holds]. join_columns. by compare. }
  unfold queue_ceilings.
  rewrite (paired_fmap3 _ h k (fun q d a => (d_account_id d, q_owner_device q, q_quota_bytes q, d_quota_bytes d,
    a_quota_bytes a))).
  destruct (paired (paired _ h) k) as [|[[q d] a] l]; [done|]. cbn [head fmap list_fmap]. eexists. split; [|done].
  join_columns. by cbn.
Qed.

Lemma sim_check_ceiling (quota size : Z) (used' : SM Z) (used : DB -> Z) :
  sim eq used' (query used) -> sim eq (sql_check_ceiling quota size used') (check_ceiling quota size used).
Proof.
  intros Hu. apply sim_if; [done|intros _|intros _; by apply sim_ret]. eapply sim_bind; [exact Hu|]. intros ? u ->.
  apply sim_if; [done|intros _; apply sim_throw|intros _; by apply sim_ret].
Qed.

Lemma sim_insert_message (mid rid : string) (payload : bytes) (received expires : Z) :
  four_digit_year received -> four_digit_year expires ->
  sim eq
    (ExecContext (Insert "messages"
       [("id", VText mid); ("queue_id", VText rid); ("payload", VBlob payload);
        ("received_at", VText (rfc3339 received)); ("expires", VText (rfc3339 expires))]%string))
    (exec (insert_message mid rid payload received expires)).
Proof.
  intros Hre Hex. apply sim_exec. intros f db Hr. cbn [exec_dml].
  set (m := mkMessageRow (messages_seq db + 1) mid rid payload received expires).
  assert (forall y, y ∈ records Messages db ->
    clash (unique_keys "messages") (encode Messages m) (encode Messages y) = true <-> m_id y = mid) as Hcl.
  { intros y Hy. unfold clash. cbn [existsb forallb unique_keys]. rewrite !get_encode.
    cbn [assoc fields String.eqb Ascii.eqb Bool.eqb default from_option id].
    rewrite !andb_true_r, orb_false_r, orb_true_iff. compare. subst m. cbn [m_seq m_id].
    pose proof (proj1 (Forall_forall _ _) (rep_bound f db Hr) y Hy) as Hb. cbn in Hb.
    split; [intros [E|E]; [lia|done]|by right]. }
  assert (referenced f "messages" (encode Messages m) = true <-> rid ∈ q_recipient_id <$> queues db) as Href.
  { unfold referenced. cbn [forallb references fst snd]. rewrite !get_encode.
    cbn [assoc fields String.eqb Ascii.eqb Bool.eqb default from_option id]. rewrite andb_true_r.
    apply (referenced_in f db Queues); [exact Hr|done|intros ?; by rewrite get_encode]. }
  rewrite (insert_rep f db Messages _ m (fun y => m_id y = mid) (rid ∈ q_recipient_id <$> queues db) Hr);
    [|cbn [name_of]; rewrite (counted_rep f db) by exact Hr; reflexivity|reflexivity|reflexivity|exact Hcl|exact Href].
  unfold insert_message. rewrite sql_insert_if. cbn [records]. do 2 case_decide; try done; try tauto. split; [done|].
  cbn [name_of]. rewrite (count_up_rep f db) by exact Hr.
  apply (represents_message f db m Hr); [done|]. subst m. dating.
Qed.

Lemma sim_AppendMessage (rid : string) (payload : bytes) (ttl : Z) :
  is_int64 ttl -> sim eq (Store_AppendMessage rid payload ttl) (AppendMessage rid payload ttl).
Proof.
  intros Httl. eapply sim_bind; [apply sim_newID|]. intros ? mid ->.
  eapply sim_bind; [apply sim_now|]. intros ? now [-> Hnow].
  pose proof (sane_now _ Hnow) as Hn. pose proof (sane_later _ _ Hnow Httl).
  apply sim_tx. eapply sim_bind; [apply sim_on_no_rows, sim_ceilings|].
  intros ? [[[[acc owner] qq] dq] aq] ->.
  eapply sim_bind; [by apply sim_check_ceiling, sim_queue_bytes|]. intros _ _ _.
  eapply sim_bind; [by apply sim_check_ceiling, sim_device_bytes|]. intros _ _ _.
  eapply sim_bind; [by apply sim_check_ceiling, sim_account_bytes|]. intros _ _ _.
  eapply sim_bind; [by apply sim_insert_message|]. intros _ _ _. by apply sim_ret.
Qed.

Lemma sim_DrainMessages (rid : string) : sim eq (Store_DrainMessages rid) (DrainMessages rid).
Proof.
  eapply sim_bind; [apply sim_nowStr|]. intros s t [-> Ht]. eapply sim_bind.
  { apply (sim_delete Messages _ (fun _ m => m_queue_id m = rid /\ m_expires m <= t)); [selecting|done]. }
  intros _ _ _. apply (sim_all Messages _ _ _ _ _ _ seq_le); [selecting| |].
  - apply order_seq. intros x. by columns.
  - intros [seq mid q p re ex] Hd. unfold dated in Hd. cbn in Hd. rewrite !Forall_cons in Hd. destruct_and? Hd.
    cbn [fmap list_fmap scan_message]. columns. unfold time_val. cbn. by rewrite !parse_time_format.
Qed.

Lemma existsb_text (s : string) (ids : list string) :
  existsb (val_cmp CEq (VText s)) (VText <$> ids) = true <-> s ∈ ids.
Proof.
  rewrite existsb_exists. split.
  - intros (v & Hin & Hv). apply list_elem_of_In, list_elem_of_fmap in Hin as (t & -> & Ht).
    rewrite val_eq_text in Hv. by apply bool_decide_eq_true in Hv as ->.
  - intros Hs. exists (VText s). split; [by apply list_elem_of_In, list_elem_of_fmap_2|].
    rewrite val_eq_text. by apply bool_decide_eq_true.
Qed.

Lemma sim_DeleteMessages (rid : string) (ids : list string) :
  sim eq (Store_DeleteMessages rid ids) (DeleteMessages rid ids).
Proof.
  apply sim_if; [done|intros _; by apply sim_ret|intros _].
  apply (sim_delete Messages _ (fun _ m => m_queue_id m = rid /\ m_id m ∈ ids)); [|done].
  intros f db Hr m Hm. unfold is_. cbn [holds]. columns. rewrite andb_true_iff, existsb_text. by compare.
Qed.

Lemma sim_PurgeExpired : sim eq Store_PurgeExpired PurgeExpired.
Proof.
  eapply sim_bind; [apply sim_nowStr|]. intros s t [-> Ht].
  apply (sim_delete Messages _ (fun _ m => m_expires m <= t)); [selecting|done].
Qed.

(** ** Bundles and statements *)

Lemma sim_upsert_bundle (dev : string) (blob : bytes) (now : Z) :
  four_digit_year now ->
  sim eq
    (ExecContext (Upsert "bundles"
       [("device_id", VText dev); ("blob", VBlob blob); ("updated", VText (rfc3339 now))]%string
       "device_id" ["blob"; "updated"]%string))
    (exec (upsert_bundle (mkBundle dev blob now))).
Proof.
  intros Hnow. apply sim_exec. intros f db Hr. cbn [exec_dml]. set (b := mkBundle dev blob now).
  rewrite (rep_rows f db Bundles Hr : rows f "bundles" = _). cbn [records].
  assert (forall x : Bundle, val_cmp CEq (default VNull (assoc "device_id"
    [("device_id", VText dev); ("blob", VBlob blob); ("updated", VText (rfc3339 now))]%string))
    (get (encode Bundles x) "device_id") = true <-> b_device_id x = dev) as Hhere.
  { intros x. rewrite get_encode. cbn [assoc fields String.eqb Ascii.eqb Bool.eqb default from_option id].
    compare. intuition congruence. }
  unfold upsert_bundle. cbn [b_device_id b]. case_decide as Hex.
  - apply Exists_exists in Hex as (r & Hin & Hv). apply list_elem_of_fmap in Hin as (x & -> & Hx).
    apply Hhere in Hv. cbn [forallb plain_column].
    assert (dev ∈ d_id <$> devices db) as Hdev.
    { rewrite <- Hv. exact (proj1 (Forall_forall _ _) (rep_bundles f db Hr) x Hx). }
    rewrite (decide_True (P := dev ∈ _)) by done. rewrite (decide_False (P := sql_count _ _ = 0)).
    2: { intros Hz. apply sql_count_zero in Hz. exact (proj1 (Forall_forall _ _) Hz x Hx Hv). }
    cbn [andb negb existsb String.eqb Ascii.eqb Bool.eqb unique_keys references fst snd]. split; [done|].
    match goal with |- represents (with_rows _ ?rs _) (set_bundles ?l _) =>
      assert (rs = encode Bundles <$> l) as -> end.
    { unfold sql_update. rewrite <- !list_fmap_compose. apply list_fmap_ext. intros i y _. cbn [compose].
      specialize (Hhere y). do 2 case_decide; try tauto. destruct y as [d bl u]. cbn [b_device_id] in *.
      apply (set_columns_encode Bundles (mkBundle d bl u) b); [|subst; done].
      intros cv Hcv. cbn [fmap list_fmap] in Hcv.
      repeat (apply elem_of_cons in Hcv as [->|Hcv]; [by apply (bool_decide_unpack _); vm_compute|]).
      by apply not_elem_of_nil in Hcv. }
    apply (represents_records f db Bundles); [exact Hr| |].
    + apply (sql_update_Forall _ (dated Bundles)); [apply (rep_dated f db Hr Bundles)|]. intros. by apply Forall_singleton.
    + apply sql_update_Forall; [apply (rep_bundles f db Hr)|done].
  - assert (Forall (fun x => b_device_id x <> dev) (bundles db)) as Hnone.
    { apply Forall_forall. intros x Hx E. apply Hex, Exists_exists. exists (encode Bundles x).
      split; [by apply list_elem_of_fmap_2|]. by apply Hhere. }
    rewrite (decide_True (P := sql_count _ _ = 0)) by by apply sql_count_zero.
    rewrite (insert_rep f db Bundles _ b (fun y => b_device_id y = dev) (dev ∈ d_id <$> devices db) Hr);
      [|reflexivity|reflexivity|reflexivity| |].
    + cbn [records]. do 2 case_decide; try tauto. { split; [done|].
        apply (represents_records f db Bundles (bundles db ++ [b]) Hr).
        - apply Forall_app. split; [apply (rep_dated f db Hr Bundles)|by apply Forall_singleton, Forall_singleton].
        - cbn. apply Forall_app. split; [apply (rep_bundles f db Hr)|by apply Forall_singleton]. }
      match goal with Hn : ~ (_ /\ ~ _) |- _ => destruct Hn end. split; [done|].
      intros (y & Hy & E)%Exists_exists. exact (proj1 (Forall_forall _ _) Hnone y Hy E).
    + intros y _. unfold clash. cbn [existsb forallb unique_keys name_of]. rewrite !get_encode.
      cbn [assoc fields String.eqb Ascii.eqb Bool.eqb default from_option id].
      rewrite andb_true_r, orb_false_r. compare. subst b. cbn [b_device_id]. split; congruence.
    + unfold referenced. cbn [forallb references name_of fst snd]. rewrite !get_encode.
      cbn [assoc fields String.eqb Ascii.eqb Bool.eqb default from_option id]. rewrite andb_true_r.
      apply (referenced_in f db Devices); [exact Hr|done|intros ?; by rewrite get_encode].
Qed.

Lemma sim_SetBundle (dev : string) (blob : bytes) : sim eq (Store_SetBundle dev blob) (SetBundle dev blob).
Proof.
  eapply sim_bind; [apply sim_nowStr|]. intros s t [-> Ht].
  eapply sim_bind; [by apply sim_upsert_bundle|]. intros _ _ _. by apply sim_ret.
Qed.

Lemma aggregated_max (l : list StatementRow) :
  aggregated (APlus (ACoalesce (AMax (col "seq")) 0) 1) ((fun x => env1 Statements x) <$> l) =
  VInt (match s_seq <$> l with [] => 0 | x :: l => foldr Z.max x l end + 1).
Proof.
  cbn [aggregated].
  assert (omap (fun ρ => int_of (eval ρ (col "seq"))) ((fun x => env1 Statements x) <$> l) = s_seq <$> l) as ->.
  { induction l as [|x l IH]; [done|]. rewrite !fmap_cons. cbn [omap list_omap]. columns. cbn [int_of]. by f_equal. }
  by destruct l.
Qed.

Lemma sim_AppendStatement (acc : string) (blob : bytes) : sim eq (Store_AppendStatement acc blob) (AppendStatement acc blob).
Proof.
  apply sim_if; [done|intros _; apply sim_throw|intros _]. apply sim_if; [done|intros _; apply sim_throw|intros _].
  apply sim_tx. eapply sim_bind with (S := eq).
  { apply sim_query_agg. intros f db Hr.
    rewrite (results_one_agg f db Statements _ (fun s => s_account_id s = acc) Hr).
    - rewrite aggregated_max. do 3 eexists. by split_and!.
    - assert (forall f db, represents f db -> selects f Statements db (is_ "account_id" (VText acc))
        (fun s => s_account_id s = acc)) as Hs by selecting. by apply Hs. }
  intros ? next ->. eapply sim_bind; [apply sim_nowStr|]. intros s t [-> Ht]. rewrite parse_time_format by done.
  eapply sim_bind.
  { match goal with |- sim _ _ (exec (insert_statement ?s)) =>
      apply (sim_insert Statements _ s (fun y => s_account_id y = s_account_id s /\ s_seq y = s_seq s)
               (fun db => s_account_id s ∈ a_id <$> accounts db)) end;
      [done..|dating|clashing|referring Accounts "id"%string|done|].
    intros db. unfold insert_statement. by rewrite sql_insert_if. }
  intros _ _ _. eapply sim_bind.
  { apply (sim_delete Statements _ (fun _ s => s_account_id s = acc /\ s_seq s <= next - MaxStatementsPerAccount));
      [selecting|done]. }
  intros _ _ _. by apply sim_ret.
Qed.

Lemma sim_GetBundle (dev : string) : sim eq (Store_GetBundle dev) (GetBundle dev).
Proof.
  apply sim_on_no_rows, (sim_first _ Bundles); [selecting|]. intros [d b u] Hd _. eexists. split; [|done].
  unfold dated in Hd. cbn in Hd. rewrite !Forall_cons in Hd. destruct_and? Hd.
  cbn [fmap list_fmap scan_bundle]. columns. unfold time_val. cbn. by rewrite !parse_time_format.
Qed.

Lemma sim_ListStatements (acc : string) (since : Z) : sim eq (Store_ListStatements acc since) (ListStatements acc since).
Proof.
  apply (sim_all Statements _ _ _ _ _ _ stmt_seq_le); [selecting| |].
  - apply order_seq. intros x. by columns.
  - intros [a sq b c] Hd. unfold dated in Hd. cbn in Hd. rewrite !Forall_cons in Hd. destruct_and? Hd.
    cbn [fmap list_fmap scan_statement]. columns. unfold time_val. cbn. by rewrite !parse_time_format.
Qed.
