(* ===== verification/Catalog.v ===== *)
(** * Reading a file as a database

    The records a file's rows denote ([decode], [read_db]), the file a database is written
    as ([write_db]), that reading inverts writing, and what an older file is read as once
    it has been opened. *)

From S2P Require Import Prelude Encoding Clock Decimal Sql Schema Migrate Restart Upgrade Devices.
From S2P Require Import Sqlite SqlStore Rows Represent.

Local Open Scope Z_scope.

(** ** Columns *)

Definition text_of (v : sqlval) : option string := match v with VText s => Some s | _ => None end.
Definition blob_of (v : sqlval) : option bytes := match v with VBlob b => Some b | _ => None end.
Definition key_of (v : sqlval) : option (option bytes) :=
  match v with VNull => Some None | VBlob b => Some (Some b) | _ => None end.
Definition flag_of (v : sqlval) : option bool :=
  match v with VInt 0 => Some false | VInt 1 => Some true | _ => None end.

#[export] Instance four_digit_year_dec (s : Z) : Decision (four_digit_year s).
Proof. unfold four_digit_year. apply _. Defined.

(** A time as the store writes it. *)
Definition time_of (v : sqlval) : option Z :=
  s ← text_of v; ns ← parse_rfc3339 s;
  if decide (four_digit_year (sec ns) /\ rfc3339 (sec ns) = s) then Some (sec ns) else None.

Lemma text_of_inv (v : sqlval) (s : string) : text_of v = Some s -> v = VText s.
Proof. destruct v; cbn; congruence. Qed.
Lemma blob_of_inv (v : sqlval) (b : bytes) : blob_of v = Some b -> v = VBlob b.
Proof. destruct v; cbn; congruence. Qed.
Lemma int_of_inv (v : sqlval) (z : Z) : int_of v = Some z -> v = VInt z.
Proof. destruct v; cbn; congruence. Qed.
Lemma key_of_inv (v : sqlval) (k : option bytes) : key_of v = Some k -> v = key_val k.
Proof. destruct v; cbn; intros; simplify_eq; done. Qed.
Lemma flag_of_inv (v : sqlval) (b : bool) : flag_of v = Some b -> v = flag_val b.
Proof. destruct v as [| |[|[]|]|]; cbn; intros; simplify_eq; done. Qed.
Lemma time_of_inv (v : sqlval) (t : Z) : time_of v = Some t -> v = time_val t /\ four_digit_year t.
Proof.
  unfold time_of. intros (s & Hs & E)%bind_Some. apply bind_Some in E as (ns & _ & E).
  case_decide as Hd; [|done]. destruct Hd as [Hd Hf]. simplify_eq. apply text_of_inv in Hs as ->. done.
Qed.

Lemma text_of_val (s : string) : text_of (VText s) = Some s.
Proof. done. Qed.
Lemma blob_of_val (b : bytes) : blob_of (VBlob b) = Some b.
Proof. done. Qed.
Lemma int_of_val (z : Z) : int_of (VInt z) = Some z.
Proof. done. Qed.
Lemma flag_of_val (b : bool) : flag_of (flag_val b) = Some b.
Proof. by destruct b. Qed.
Lemma key_of_val (k : option bytes) : key_of (key_val k) = Some k.
Proof. by destruct k. Qed.
Lemma time_of_val (t : Z) : four_digit_year t -> time_of (time_val t) = Some t.
Proof.
  intros Ht. assert (sec (t * Second) = t) as Es by (apply Z.div_mul; unfold Second; lia).
  unfold time_of, time_val, text_of. rewrite bind_Some_l, parse_rfc3339_format, bind_Some_l, Es by done.
  by rewrite decide_True.
Qed.

(** ** Rows *)

Definition decode (t : tbl) (r : row) : option (record t) :=
  match t return option (record t) with
  | Accounts =>
      id ← text_of (get r "id"); created ← time_of (get r "created"); quota ← text_of (get r "quota");
      status ← text_of (get r "status"); n ← int_of (get r "quota_bytes"); mode ← text_of (get r "admin_mode");
      Some (mkAccount id created quota status n mode)
  | Invitations =>
      hash ← text_of (get r "token_hash"); id ← text_of (get r "id"); acc ← text_of (get r "account_id");
      created ← time_of (get r "created"); expires ← time_of (get r "expires");
      consumed ← flag_of (get r "consumed"); revoked ← flag_of (get r "revoked");
      grants ← text_of (get r "grants_role");
      Some (mkInvitationRow hash id acc created expires consumed revoked grants)
  | Devices =>
      id ← text_of (get r "id"); acc ← text_of (get r "account_id"); pub ← blob_of (get r "public_key");
      push ← text_of (get r "push_endpoint"); caps ← text_of (get r "capabilities");
      created ← time_of (get r "created"); seen ← time_of (get r "last_seen");
      revoked ← flag_of (get r "revoked"); n ← int_of (get r "quota_bytes"); role ← text_of (get r "role");
      Some (mkDevice id acc pub push caps created seen revoked role n)
  | Queues =>
      rid ← text_of (get r "recipient_id"); sid ← text_of (get r "sender_id"); owner ← text_of (get r "owner_device");
      rkey ← blob_of (get r "recipient_key"); skey ← key_of (get r "sender_key");
      created ← time_of (get r "created"); retired ← flag_of (get r "retired"); n ← int_of (get r "quota_bytes");
      Some (mkQueue rid sid owner rkey skey created retired n)
  | Messages =>
      seq ← int_of (get r "seq"); id ← text_of (get r "id"); qid ← text_of (get r "queue_id");
      payload ← blob_of (get r "payload"); received ← time_of (get r "received_at");
      expires ← time_of (get r "expires");
      Some (mkMessageRow seq id qid payload received expires)
  | Bundles =>
      dev ← text_of (get r "device_id"); blob ← blob_of (get r "blob"); updated ← time_of (get r "updated");
      Some (mkBundle dev blob updated)
  | Statements =>
      acc ← text_of (get r "account_id"); seq ← int_of (get r "seq"); blob ← blob_of (get r "blob");
      created ← time_of (get r "created");
      Some (mkStatementRow acc seq blob created)
  end%string.

Lemma decode_encode (t : tbl) (x : record t) : dated t x -> decode t (encode t x) = Some x.
Proof.
  intros Hd. unfold dated in Hd.
  destruct t; destruct x; cbn in Hd; rewrite !Forall_cons in Hd; destruct_and? Hd; unfold decode; rewrite !get_encode;
    cbn [assoc fields String.eqb Ascii.eqb Bool.eqb default from_option id];
    repeat first [rewrite bind_Some_l | rewrite text_of_val | rewrite blob_of_val | rewrite int_of_val |
                  rewrite flag_of_val | rewrite key_of_val | rewrite time_of_val by assumption]; reflexivity.
Qed.

(** A row with the columns of the table is the encoding of the record it is read as. *)
Lemma encode_row (t : tbl) (r : row) (x : record t) :
  dom r = list_to_set (col_name <$> columns_of t) ->
  Forall (fun kv => get r kv.1 = kv.2) (fields t x) -> r = encode t x.
Proof.
  intros Hdom Hf. apply map_eq. intros k. rewrite encode_lookup. destruct (r !! k) as [v|] eqn:E.
  - assert (k ∈ (fields t x).*1) as Hk.
    { rewrite fields_names. apply (elem_of_list_to_set (C:=gset string)). rewrite <- Hdom. by apply elem_of_dom. }
    destruct (assoc_is_Some _ _ Hk) as [w Hw]. rewrite Hw. apply assoc_elem_of in Hw.
    pose proof (proj1 (Forall_forall _ _) Hf _ Hw) as Hg. cbn in Hg. unfold get in Hg. rewrite E in Hg. cbn in Hg.
    by subst.
  - destruct (assoc k (fields t x)) as [w|] eqn:Ew; [|done]. apply assoc_elem_of in Ew.
    assert (k ∈ dom r) as Hk; [|by apply elem_of_dom in Hk as [? Hk]; rewrite E in Hk].
    rewrite Hdom, elem_of_list_to_set, <- (fields_names t x). by apply (list_elem_of_fmap_2 fst) in Ew.
Qed.

Lemma decode_fields (t : tbl) (r : row) (x : record t) :
  decode t r = Some x -> Forall (fun kv => get r kv.1 = kv.2) (fields t x) /\ dated t x.
Proof.
  intros H. unfold dated. destruct t; unfold decode in H;
    repeat (apply bind_Some in H as (? & ?E & H)); simplify_eq;
    repeat match goal with
    | E : text_of _ = _ |- _ => apply text_of_inv in E
    | E : blob_of _ = _ |- _ => apply blob_of_inv in E
    | E : int_of _ = _ |- _ => apply int_of_inv in E
    | E : key_of _ = _ |- _ => apply key_of_inv in E
    | E : flag_of _ = _ |- _ => apply flag_of_inv in E
    | E : time_of _ = _ |- _ => apply time_of_inv in E as [E ?]
    end; cbn [fields times];
    (split; repeat (apply Forall_cons; split; [cbn [fst snd]; assumption|]); apply Forall_nil_2).
Qed.

Lemma decode_inv (t : tbl) (r : row) (x : record t) :
  dom r = list_to_set (col_name <$> columns_of t) -> decode t r = Some x -> r = encode t x /\ dated t x.
Proof. intros Hdom [Hf Hd]%decode_fields. split; [by apply encode_row|done]. Qed.

(** ** Databases *)

Definition read_table (f : file) (t : tbl) : option (list (record t)) :=
  mapM (decode t) (rows f (name_of t)).

(** The seven tables and the counter as one database. *)
Definition assemble (read : forall t, option (list (record t))) (n : Z) : option DB :=
  acc ← read Accounts; inv ← read Invitations; dev ← read Devices; que ← read Queues; mes ← read Messages;
  bun ← read Bundles; sta ← read Statements;
  Some (mkDB acc inv dev que mes bun sta n).

Definition read_db (f : file) : option DB := assemble (read_table f) (f_seq f).

Lemma assemble_Some (read : forall t, option (list (record t))) (n : Z) (db : DB) :
  assemble read n = Some db <-> (forall t, read t = Some (records t db)) /\ messages_seq db = n.
Proof.
  unfold assemble. split.
  - intros H. repeat (apply bind_Some in H as (? & ?E & H)). simplify_eq. split; [|done]. intros []; done.
  - intros [Hr <-]. rewrite !Hr. cbn. by destruct db.
Qed.

(** Facts of a database that the reading of rows does not look at. *)
Record consistent (db : DB) : Prop := mkConsistent {
  con_bound : Forall (fun m => m_seq m <= messages_seq db) (messages db);
  con_bundles : Forall (fun b => b_device_id b ∈ d_id <$> devices db) (bundles db);
}.

Lemma consistent_ok (db : DB) : integrity db -> consistent db.
Proof. intros Hi. constructor; apply Hi. Qed.

Lemma mapM_decode_encode (t : tbl) (l : list (record t)) :
  Forall (dated t) l -> mapM (decode t) (encode t <$> l) = Some l.
Proof.
  induction 1 as [|x l Hx _ IH]; [done|]. rewrite fmap_cons. cbn [mapM]. rewrite decode_encode by done.
  rewrite IH. done.
Qed.

Lemma read_represents (f : file) (db : DB) : represents f db -> read_db f = Some db.
Proof.
  intros Hr. apply assemble_Some. split; [|symmetry; by apply rep_seq]. intros t. unfold read_table.
  rewrite (rep_rows f db t Hr). apply mapM_decode_encode, (rep_dated f db Hr).
Qed.

(** The file a database is written as. *)
Definition write_db (db : DB) : file :=
  mkFile
    (mkCatalog
      (list_to_map ((fun t => (name_of t, mkTable (columns_of t) (encode t <$> records t db))) <$> all_tables))
      (c_indexes (migrate (no_catalog, [])).2.1))
    (messages_seq db).

(** Every time in the database has a year of four digits. *)
Definition storable (db : DB) : Prop := forall t, Forall (dated t) (records t db).

#[export] Instance dated_dec (t : tbl) (x : record t) : Decision (dated t x).
Proof. unfold dated. apply _. Defined.

#[export] Instance storable_dec (db : DB) : Decision (storable db).
Proof.
  refine (cast_if (decide (Forall (fun t => Forall (dated t) (records t db)) all_tables))).
  - by intros t; apply (proj1 (Forall_forall _ _) f t), elem_of_all_tables.
  - by intros Hs; apply n, Forall_forall.
Defined.

Lemma write_represents (db : DB) : storable db -> consistent db -> represents (write_db db) db.
Proof.
  intros Hs [Hb Hbu]. constructor; [|exact Hs|done|exact Hb|exact Hbu]. intros t.
  eexists (mkTable (columns_of t) (encode t <$> records t db)). split; [|done]. unfold write_db. cbn [f_cat c_tables]. by destruct t.
Qed.

(** What is stored is what is read: a file written from a database, with any contents
    whose times have four-digit years, is read back as exactly that database - every
    table, row by row and column by column, and the counter of messages. *)
Theorem written_database_reads_back (db : DB) :
  storable db -> consistent db -> read_db (write_db db) = Some db.
Proof. intros Hs Hc. by apply read_represents, write_represents. Qed.

(** ** Older files *)

(** What a file of an older binary holds, as far as it can be read, once its rows have the
    columns they lacked. *)
Definition upgraded_records (cat : catalog) (t : tbl) : option (list (record t)) :=
  mapM (fun r => decode t (upgrade_row (name_of t) r)) (rows_of (name_of t) cat).

Definition upgraded_db (cat : catalog) (n : Z) : option DB := assemble (upgraded_records cat) n.

(** The table is from before the column. *)
Definition lacks (cat : catalog) (t : tbl) (c : string) : Prop := c ∉ table_info (name_of t) cat.

Lemma mapM_decode_rows (t : tbl) (rs : list row) (l : list (record t)) :
  Forall (fun r => dom r = list_to_set (col_name <$> columns_of t)) rs ->
  mapM (decode t) rs = Some l -> rs = encode t <$> l /\ Forall (dated t) l.
Proof.
  intros Hrs Hl. apply mapM_Some in Hl. induction Hl as [|r x rs l Hx Hl IH]; [by repeat constructor|].
  apply Forall_cons in Hrs as [Hr Hrs]. destruct (decode_inv t r x Hr Hx) as [-> Hd].
  destruct (IH Hrs) as [-> ?]. split; [done|by constructor].
Qed.

Lemma migrated_represents (cat cat' : catalog) (n : Z) (db : DB) :
  (forall name cols, (name, cols) ∈ schema_tables ->
   exists t, c_tables cat' !! name = Some t /\ t_columns t ≡ₚ cols /\ table_ok t /\
     t_rows t = upgrade_row name <$> rows_of name cat) ->
  upgraded_db cat n = Some db -> consistent db -> represents (mkFile cat' n) db.
Proof.
  intros Htab Hdb [Hb Hbu]. apply assemble_Some in Hdb as [Hrec Hn].
  assert (forall t, exists tb, c_tables cat' !! name_of t = Some tb /\ t_columns tb ≡ₚ columns_of t /\
    t_rows tb = encode t <$> records t db /\ Forall (dated t) (records t db)) as Hall.
  { intros t. destruct (Htab (name_of t) (columns_of t)) as (tb & E & Hc & Hok & Hrows).
    { rewrite schema_tables_all. apply list_elem_of_fmap. exists t. split; [done|apply elem_of_all_tables]. }
    exists tb. split; [done|]. split; [done|]. apply mapM_decode_rows.
    - destruct Hok as [_ Hok]. eapply Forall_impl; [exact Hok|]. intros r [Hd _]. rewrite Hd.
      apply set_eq. intros x. rewrite !elem_of_list_to_set. by rewrite Hc.
    - rewrite Hrows. specialize (Hrec t). apply mapM_Some in Hrec. apply mapM_Some. by apply Forall2_fmap_l. }
  constructor; cbn [f_cat f_seq]; [|intros t; by destruct (Hall t) as (? & _ & _ & _ & ?)|done|exact Hb|exact Hbu].
  intros t. destruct (Hall t) as (tb & ? & ? & ? & _). by exists tb.
Qed.

(** The default of a column that came later, and that it is not the one that went. *)
Definition defaulted (t : tbl) (c : string) (v : sqlval) : bool :=
  bool_decide (defaults (name_of t) !! c = Some v /\ c <> "status"%string).

Lemma upgraded_default (cat : catalog) (t : tbl) (c : string) (v : sqlval) (r : row) :
  older cat -> defaulted t c v = true -> lacks cat t c -> r ∈ rows_of (name_of t) cat ->
  get (upgrade_row (name_of t) r) c = v.
Proof.
  intros Ho Hd Hl Hr. apply bool_decide_eq_true in Hd as [Hd Hs].
  assert (r !! c = None) as Hn.
  { unfold rows_of in Hr. unfold lacks, table_info in Hl.
    destruct (c_tables cat !! name_of t) as [x|] eqn:E; [|by apply not_elem_of_nil in Hr].
    destruct (older_lookup cat (name_of t) (columns_of t) x Ho) as ((_ & Hok) & _); [|done|].
    { rewrite schema_tables_all. apply list_elem_of_fmap. exists t. split; [done|apply elem_of_all_tables]. }
    destruct (proj1 (Forall_forall _ _) Hok r Hr) as [Hdom _]. apply (not_elem_of_dom r). rewrite Hdom.
    rewrite elem_of_list_to_set. exact Hl. }
  unfold get, upgrade_row. case_decide.
  - rewrite lookup_delete_ne, lookup_union_r, Hd by congruence. done.
  - by rewrite lookup_union_r, Hd.
Qed.

(** What every record of an upgraded table has in a column its table lacked. *)
Lemma upgraded_field (cat : catalog) (n : Z) (db : DB) (t : tbl) (c : string) (v : sqlval) :
  older cat -> upgraded_db cat n = Some db -> defaulted t c v = true -> lacks cat t c ->
  Forall (fun x => forall w, assoc c (fields t x) = Some w -> w = v) (records t db).
Proof.
  intros Ho Hdb Hd Hl. apply assemble_Some in Hdb as [Hrec _]. specialize (Hrec t). apply mapM_Some in Hrec.
  apply Forall_forall. intros x Hx w Hw. apply list_elem_of_lookup in Hx as [i Hx].
  destruct (Forall2_lookup_r _ _ _ _ _ Hrec Hx) as (r & Hi & Hdec).
  apply decode_fields in Hdec as [Hf _]. apply assoc_elem_of in Hw.
  rewrite <- (proj1 (Forall_forall _ _) Hf _ Hw : get _ c = w).
  apply (upgraded_default cat); [done..|]. by eapply list_elem_of_lookup_2.
Qed.

(** Every record of table [t] has the value [v] in a column that came later. *)
Ltac later_column t v :=
  eapply Forall_impl; [eapply (upgraded_field _ _ _ t _ v); try eassumption; reflexivity|];
  let x := fresh "x" in let Hx := fresh "Hx" in
  intros x Hx; injection (Hx _ eq_refl); try done.

(** C20: opening a file of an older binary gives the database it held, and changes nothing
    for its users. The migration succeeds on a working driver; reading the file then
    gives each old row, in order, as the record its columns say. In a file from before the
    administration model every account is flat and every device is an admin, so that no
    act is refused for want of the role; in one from before the quota levels no account,
    device or queue has a ceiling. (The rows of the old file have to be readable: flags 0
    or 1, times as the store writes them.) *)
Theorem older_file_keeps_its_behaviour (cat : catalog) (n : Z) (db : DB) :
  older cat -> upgraded_db cat n = Some db -> consistent db ->
  (exists cat', migrate (cat, []) = (inr tt, (cat', [])) /\ read_db (mkFile cat' n) = Some db /\
                represents (mkFile cat' n) db) /\
  (lacks cat Accounts "admin_mode" -> Forall (fun a => a_admin_mode a = AdminModeFlat) (accounts db)) /\
  (lacks cat Devices "role" -> Forall (fun d => RequireAdmin d = None) (devices db)) /\
  (lacks cat Accounts "quota_bytes" -> Forall (fun a => a_quota_bytes a = 0) (accounts db)) /\
  (lacks cat Devices "quota_bytes" -> Forall (fun d => d_quota_bytes d = 0) (devices db)) /\
  (lacks cat Queues "quota_bytes" -> Forall (fun q => q_quota_bytes q = 0) (queues db)).
Proof.
  intros Ho Hdb Hcon. split.
  { destruct (migrated cat Ho) as (cat' & Hm & Htab). exists cat'. split; [done|].
    pose proof (migrated_represents cat cat' n db Htab Hdb Hcon) as Hr. split; [by apply read_represents|done]. }
  split_and!; intros Hl.
  - later_column Accounts (VText "flat").
  - later_column Devices (VText "admin"). unfold RequireAdmin. by intros ->.
  - later_column Accounts (VInt 0).
  - later_column Devices (VInt 0).
  - later_column Queues (VInt 0).
Qed.

(** An invitation of a file from before the administration model says [member] once the
    file is opened, although its account is flat and its bearer will be an admin;
    [CreateInvitation] never leaves such a row. One from before invitations had
    identifiers has the empty one, under which no route can revoke it. *)
Lemma upgraded_invitation_misdescribes (cat : catalog) (n : Z) (db : DB) :
  older cat -> upgraded_db cat n = Some db ->
  (lacks cat Accounts "admin_mode" -> lacks cat Invitations "grants_role" ->
   Forall (fun a => a_admin_mode a = AdminModeFlat) (accounts db) /\
   Forall (fun i => i_grants_role i = RoleMember) (invitations db)) /\
  (lacks cat Invitations "id" -> Forall (fun i => i_id i = ""%string) (invitations db)).
Proof.
  intros Ho Hdb. split; [intros Ha Hi; split|intros Hi].
  - later_column Accounts (VText "flat").
  - later_column Invitations (VText "member").
  - later_column Invitations (VText "").
Qed.

(** A database with a row in most tables. *)
Lemma written_database_reads_back_witness :
  let d := mkDevice "dev" "acc" [x01] "" "" 1700000000 1700000001 false "admin" 0 in
  let db := mkDB [mkAccount "acc" 1700000000 "standard" "active" 10 "flat"] [] [d]
    [mkQueue "rcp" "snd" "dev" [x02] None 1700000000 true 0]
    [mkMessageRow 3 "msg" "rcp" [x00; xff] 1700000000 1700003600] [] [] 5 in
  storable db /\ read_db (write_db db) = Some db.
Proof.
  intros d db. assert (storable db) as Hs by (apply (bool_decide_unpack _); by vm_compute).
  split; [exact Hs|]. apply (written_database_reads_back db Hs).
  constructor; repeat constructor; by vm_compute.
Defined.

(** The file of the first binaries, with its message. *)
Lemma older_file_keeps_its_behaviour_witness :
  let db := mkDB [mkAccount "acc" 1735689600 "none" "active" 0 "flat"] [] [] []
    [mkMessageRow 7 "m" "q" [] 1735689600 1738368000] [] [] 7 in
  (exists cat', migrate (Old.file, []) = (inr tt, (cat', [])) /\ read_db (mkFile cat' 7) = Some db /\
                represents (mkFile cat' 7) db) /\
  lacks Old.file Accounts "admin_mode" /\ Forall (fun a => a_admin_mode a = AdminModeFlat) (accounts db).
Proof.
  intros db. destruct (older_file_keeps_its_behaviour Old.file 7 db) as (Hm & Ha & _).
  - apply (bool_decide_unpack _). by vm_compute.
  - by vm_compute.
  - constructor; repeat constructor; by vm_compute.
  - split; [exact Hm|]. assert (lacks Old.file Accounts "admin_mode") as Hl
      by (apply (bool_decide_unpack _); by vm_compute).
    split; [exact Hl|exact (Ha Hl)].
Defined.
