(* ===== verification/Persist.v ===== *)
(** * The store on its database file

    Every method as the statements it sends to the file implements the same method on
    records; whatever is called on a fresh file, the file holds a well-formed database. *)

From S2P Require Import Prelude Encoding Clock Decimal Sql Schema StoreM Crypto Accounts Devices Queues Blobs.
From S2P Require Import Steps Invariants Evolution Refine Store Demo Migrate Restart Upgrade.
From S2P Require Import Sqlite SqlStore Rows Represent Simulation Faithful Catalog.

Local Open Scope Z_scope.

Section store.
Context `{Crypto}.

(** Every method, on the file. *)
Definition run_sql {A} (op : store_op A) : SM A :=
  match op with
  | OpCreateAccount class n mode => Store_CreateAccount class n mode
  | OpAccountQuotaBytes acc => Store_AccountQuotaBytes acc
  | OpCreateInvitation acc ttl role => Store_CreateInvitation acc ttl role
  | OpListInvitations acc => Store_ListInvitations acc
  | OpRevokeInvitation acc id => Store_RevokeInvitation acc id
  | OpRegisterDevice token pub push caps => Store_RegisterDevice token pub push caps
  | OpGetDevice id => Store_GetDevice id
  | OpListDevices acc => Store_ListDevices acc
  | OpTouchLastSeen id => Store_TouchLastSeen id
  | OpUpdatePushEndpoint id endpoint => Store_UpdatePushEndpoint id endpoint
  | OpSetDeviceRole acc id role => Store_SetDeviceRole acc id role
  | OpPromoteDevice id => Store_PromoteDevice id
  | OpRevokeDevice caller id => Store_RevokeDevice caller id
  | OpSetDeviceQuota id n => Store_SetDeviceQuota id n
  | OpDeviceStoredBytes id => Store_DeviceStoredBytes id
  | OpCreateQueue owner key => Store_CreateQueue owner key
  | OpGetQueueByRecipient rid => Store_GetQueueByRecipient rid
  | OpGetQueueBySender sid => Store_GetQueueBySender sid
  | OpBindSenderKey sid key => Store_BindSenderKey sid key
  | OpRetireQueue rid => Store_RetireQueue rid
  | OpSetQueueQuota rid n => Store_SetQueueQuota rid n
  | OpAppendMessage rid payload ttl => Store_AppendMessage rid payload ttl
  | OpDrainMessages rid => Store_DrainMessages rid
  | OpDeleteMessages rid ids => Store_DeleteMessages rid ids
  | OpPurgeExpired => Store_PurgeExpired
  | OpSetBundle dev blob => Store_SetBundle dev blob
  | OpGetBundle dev => Store_GetBundle dev
  | OpAppendStatement acc blob => Store_AppendStatement acc blob
  | OpListStatements acc since => Store_ListStatements acc since
  end.

(** A [time.Duration] is an [int64]. *)
Definition typed_op {A} (op : store_op A) : Prop :=
  match op with
  | OpCreateInvitation _ ttl _ | OpAppendMessage _ _ ttl => is_int64 ttl
  | _ => True
  end.

#[local] Hint Resolve sim_CreateAccount sim_AccountQuotaBytes sim_CreateInvitation sim_ListInvitations
  sim_RevokeInvitation sim_RegisterDevice sim_GetDevice sim_ListDevices sim_TouchLastSeen sim_UpdatePushEndpoint
  sim_SetDeviceRole sim_PromoteDevice sim_RevokeDevice sim_SetDeviceQuota sim_DeviceStoredBytes sim_CreateQueue
  sim_GetQueueByRecipient sim_GetQueueBySender sim_BindSenderKey sim_RetireQueue sim_SetQueueQuota
  sim_AppendMessage sim_DrainMessages sim_DeleteMessages sim_PurgeExpired sim_SetBundle sim_GetBundle
  sim_AppendStatement sim_ListStatements : sund.

Lemma sim_op {A} (op : store_op A) : typed_op op -> sim eq (run_sql op) (run_op op).
Proof. destruct op; intros Hop; cbn in *; auto with sund. Qed.

Lemma results_rel_eq {A} (r' r : error + A) : results_rel eq r' r <-> r' = r.
Proof. destruct r', r; cbn; split; try done; first [by intros -> | by intros [= ->]]. Qed.

(** C2: the model of the store as records is faithful to its SQL. A method, carried out as
    the statements it sends to a file - with their joins, conditions on texts and
    numbers, defaults and constraints, times as RFC3339 text, results scanned column by
    column - answers exactly what the method on records answers, errors included and
    whichever statement the driver fails, and leaves the file holding exactly the
    database it leaves; at any time up to the year 9575. *)
Theorem sql_store_implements_records {A} (op : store_op A) (s' : FileSt) (s : St) :
  agrees s' s -> typed_op op ->
  (run_sql op s').1 = (run_op op s).1 /\ agrees (run_sql op s').2 (run_op op s).2.
Proof.
  intros Hs Hop. destruct (sim_op op Hop s' s Hs) as [Hr Ha]. split; [|done]. by apply results_rel_eq.
Qed.

(** ** Callers *)

(** A call on the file, and the file after a sequence of them. *)
Definition run_sql_call (c : call) (f : file) : file :=
  fs_file (run_sql c.(c_op) (mkFileSt f c.(c_clock) c.(c_rnd) c.(c_faults))).2.

Definition run_sql_calls (cs : list call) (f : file) : file := foldl (fun f c => run_sql_call c f) f cs.

Definition sane_call (c : call) : Prop := typed_op (c_op c) /\ sane_clock (c_clock c).

Lemma run_sql_call_represents (c : call) (f : file) (db : DB) :
  represents f db -> sane_call c -> represents (run_sql_call c f) (run_call c db).
Proof.
  intros Hr [Hop Hc]. unfold run_sql_call, run_call.
  by apply (sim_op (c_op c) Hop (mkFileSt f _ _ _) (mkSt db _ _ _)).
Qed.

Lemma run_sql_calls_represents (cs : list call) (f : file) (db : DB) :
  represents f db -> Forall sane_call cs -> represents (run_sql_calls cs f) (run_calls cs db).
Proof.
  intros Hr Hcs. revert f db Hr. induction Hcs as [|c cs Hc _ IH]; intros f db Hr; [done|].
  cbn. by apply IH, run_sql_call_represents.
Qed.

End store.

(** ** A fresh file *)

(** What the first [Open] makes of an empty file. *)
Definition fresh_file : file := mkFile (migrate (no_catalog, [])).2.1 0.

Lemma fresh_represents : represents fresh_file empty_db.
Proof.
  constructor; [|by intros []|done|done|done].
  intros t. assert (c_tables (f_cat fresh_file) !! name_of t = Some (mkTable (columns_of t) [])) as E.
  { destruct t; by vm_compute. }
  eexists. split; [exact E|]. split; [done|]. by destruct t.
Qed.

(** C3: a database file that starts empty and that any sequence of calls works on -
    with whatever arguments, randomness and driver failures, at times before the year
    9575 - always holds a well-formed database: exactly the one the calls on records lead
    to. *)
Theorem sql_store_well_formed `{Crypto} (cs : list call) :
  Forall sane_call cs ->
  (migrate (no_catalog, [])).1 = inr tt /\
  represents (run_sql_calls cs fresh_file) (run_calls cs empty_db) /\ db_ok (run_calls cs empty_db).
Proof.
  intros Hcs. split; [by vm_compute|].
  split; [by apply run_sql_calls_represents; [apply fresh_represents|]|apply run_calls_steps, ok_empty].
Qed.

(** ** Examples *)

Lemma demo_represents : represents (write_db Demo.db0) Demo.db0.
Proof.
  apply write_represents; [apply (bool_decide_unpack _); by vm_compute|apply consistent_ok, Demo.db0_integrity].
Qed.

(** A message stored through a transaction of six statements, and one whose last statement
    the driver fails. *)
Lemma sql_store_implements_records_witness :
  let op := OpAppendMessage Demo.rcp [x01; x02] Hour in
  let s := mkSt Demo.db0 Demo.t0 (repeat x08 32) [] in
  let s' := mkFileSt (write_db Demo.db0) Demo.t0 (repeat x08 32) [] in
  ((exists m, (run_sql (H := Toy.toy_crypto) op s').1 = inr m /\ msg_payload m = [x01; x02]) /\
   (run_sql (H := Toy.toy_crypto) op s').1 = (run_op (H := Toy.toy_crypto) op s).1 /\
   agrees (run_sql (H := Toy.toy_crypto) op s').2 (run_op (H := Toy.toy_crypto) op s).2).
Proof.
  intros op s s'.
  assert (agrees s' s) as Hs by (constructor; [apply demo_represents|done|done|done|by vm_compute]).
  split; [eexists; split; by vm_compute|].
  apply (sql_store_implements_records (H := Toy.toy_crypto) op s' s Hs). by vm_compute.
Defined.

(** An account, an invitation and a registration on a fresh file. *)
Lemma sql_store_well_formed_witness :
  let cs := [mkCall (OpCreateAccount "standard" 0 "flat") Demo.t0 (repeat x07 9) [];
             mkCall (OpCreateInvitation "acc_070707070707070707" Hour "member") Demo.t0 (repeat x09 41) []] in
  length (rows (run_sql_calls (H := Toy.toy_crypto) cs fresh_file) "invitations") = 1%nat /\
  (migrate (no_catalog, [])).1 = inr tt /\
  represents (run_sql_calls (H := Toy.toy_crypto) cs fresh_file) (run_calls (H := Toy.toy_crypto) cs empty_db) /\
  db_ok (run_calls (H := Toy.toy_crypto) cs empty_db).
Proof.
  intros cs. split; [by vm_compute|]. apply (sql_store_well_formed (H := Toy.toy_crypto) cs).
  repeat constructor; by vm_compute.
Defined.
