(* ===== verification/Reopen.v ===== *)
(** * Opening a current file again

    What [Open] does to the file of the binary itself: whatever the driver fails, the
    database the file holds stays as it is, and on a working driver it is opened. *)

From S2P Require Import Prelude Encoding Schema Migrate Restart Upgrade Sqlite Rows.

Local Open Scope Z_scope.

(** What a statement of the migration finds in a current file: its table, with the columns
    it wants and without the one it would drop. *)
Definition settled (s : ddl) : bool :=
  existsb (fun t =>
    let cols := col_name <$> columns_of t in
    match s with
    | CreateTable name _ => bool_decide (name = name_of t)
    | CreateIndex _ tbl names => bool_decide (tbl = name_of t /\ Forall (fun c => c ∈ cols) names)
    | AddColumn tbl c => bool_decide (tbl = name_of t /\ col_name c ∈ cols)
    | DropColumn tbl name => bool_decide (tbl = name_of t /\ name ∉ cols)
    end) all_tables.

Lemma items_settled : Forall (fun i => settled (item_ddl i) = true) items.
Proof. repeat constructor. Qed.

Section current.
Context (f : file) (db : DB) (Hf : represents f db).

Lemma current_columns (t : tbl) (tb : table) (c : string) :
  c_tables (f_cat f) !! name_of t = Some tb -> c ∈ column_names tb <-> c ∈ col_name <$> columns_of t.
Proof using Hf.
  intros E. destruct (rep_table f db Hf t) as (tb' & E' & Hc & _). rewrite E in E'. simplify_eq.
  unfold column_names. by rewrite Hc.
Qed.

Lemma current_info (t : tbl) (c : string) :
  c ∈ table_info (name_of t) (f_cat f) <-> c ∈ col_name <$> columns_of t.
Proof using Hf.
  destruct (rep_table f db Hf t) as (tb & E & _). unfold table_info. rewrite E. by apply current_columns.
Qed.

(** A statement of the migration succeeds and leaves every table as it is. *)
Lemma ensure_settled (s : ddl) :
  settled s = true -> exists cat', ensure s (f_cat f) = Some cat' /\ c_tables cat' = c_tables (f_cat f).
Proof using Hf.
  intros Hs. unfold settled in Hs. apply existsb_exists in Hs as (t & _ & Hs).
  destruct s as [name cols|name tn names|tn c|tn name]; apply bool_decide_eq_true in Hs.
  - exists (f_cat f). subst. destruct (rep_table f db Hf t) as (tb & E & _).
    unfold ensure. cbn [done]. rewrite bool_decide_eq_true_2; [done|by exists tb].
  - destruct Hs as [-> Hn]. unfold ensure. cbn [done exec_ddl]. case_bool_decide as Hd; [by eexists|].
    destruct (c_indexes (f_cat f) !! name); [by destruct Hd|].
    destruct (rep_table f db Hf t) as (tb & E & _). rewrite E, decide_True; [by eexists|].
    eapply Forall_impl; [exact Hn|]. intros c Hc. by apply (current_columns t).
  - destruct Hs as [-> Hc]. exists (f_cat f). unfold ensure. cbn [done].
    rewrite bool_decide_eq_true_2; [done|by apply current_info].
  - destruct Hs as [-> Hc]. exists (f_cat f). unfold ensure. cbn [done].
    rewrite bool_decide_eq_true_2; [done|by rewrite current_info].
Qed.
End current.

Lemma represents_tables (f : file) (cat : catalog) (db : DB) :
  represents f db -> c_tables cat = c_tables (f_cat f) -> represents (mkFile cat (f_seq f)) db.
Proof. intros [Ht ? ? ? ?] E. split; try done. intros t. cbn [f_cat]. rewrite E. apply Ht. Qed.

Lemma carried_settled (l : list item) (cat cat' : catalog) (n : Z) (db : DB) :
  carried l cat cat' -> Forall (fun i => settled (item_ddl i) = true) l ->
  represents (mkFile cat n) db -> represents (mkFile cat' n) db.
Proof.
  induction 1 as [cat|i l cat cat1 cat2 He _ IH]; intros Hl Hf; [done|].
  apply Forall_cons in Hl as [Hi Hl]. apply IH; [done|].
  destruct (ensure_settled _ db Hf _ Hi) as (cat3 & E & Ht). cbn in E. rewrite He in E. simplify_eq.
  by apply (represents_tables (mkFile cat n)).
Qed.

(** Whatever statement the driver fails, the file holds what it held. *)
Lemma migrate_current (cat : catalog) (fs : list bool) (n : Z) (db : DB) :
  represents (mkFile cat n) db -> represents (mkFile (migrate (cat, fs)).2.1 n) db.
Proof.
  intros Hf. rewrite migrate_items.
  destruct (run_items_prefix items cat fs items_guarded) as (l1 & l2 & Hl & Hc & _).
  pose proof items_settled as Hs. rewrite Hl in Hs. apply Forall_app in Hs as [Hs _].
  by eapply carried_settled.
Qed.

Lemma run_items_settled (l : list item) (cat : catalog) (n : Z) (db : DB) :
  Forall guarded l -> Forall (fun i => settled (item_ddl i) = true) l -> represents (mkFile cat n) db ->
  (run_items l (cat, [])).1 = inr tt.
Proof.
  revert cat. induction l as [|i l IH]; intros cat Hg Hs Hf; [done|].
  apply Forall_cons in Hg as [Hi Hg], Hs as [Hsi Hs]. cbn [run_items]. unfold mbind, Mig_bind.
  destruct (ensure_settled _ db Hf _ Hsi) as (cat1 & E & Ht). cbn in E.
  rewrite (run_item_clean i cat cat1) by done. apply IH; [done..|].
  by apply (represents_tables (mkFile cat n)).
Qed.

Lemma migrate_current_opens (cat : catalog) (n : Z) (db : DB) :
  represents (mkFile cat n) db -> (migrate (cat, [])).1 = inr tt.
Proof.
  intros Hf. rewrite migrate_items. eapply run_items_settled; [apply items_guarded|apply items_settled|exact Hf].
Qed.

(** ** Starting again *)

(** The file after a number of attempts to open it, the last of which succeeds: an attempt
    that the driver fails ends the process. *)
Inductive reopens : file -> file -> Prop :=
  | reopens_at_once f fs cat' fs' :
      migrate (f_cat f, fs) = (inr tt, (cat', fs')) -> reopens f (mkFile cat' (f_seq f))
  | reopens_later f fs e cat' fs' f' :
      migrate (f_cat f, fs) = (inl e, (cat', fs')) -> reopens (mkFile cat' (f_seq f)) f' -> reopens f f'.

Lemma reopens_represents (f f' : file) (db : DB) : reopens f f' -> represents f db -> represents f' db.
Proof.
  assert (forall f fs r cat' fs', represents f db -> migrate (f_cat f, fs) = (r, (cat', fs')) ->
    represents (mkFile cat' (f_seq f)) db) as Hm.
  { intros [cat n] fs r cat' fs' Hf E. pose proof (migrate_current cat fs n db Hf) as Hf'. cbn [f_cat] in E. by rewrite E in Hf'. }
  induction 1 as [f fs cat' fs' E|f fs e cat' fs' f' E _ IH]; intros Hf; [by eapply Hm|].
  apply IH. by eapply Hm.
Qed.
