(* ===== verification/Capacity.v ===== *)
(** * Storage accounting and the three ceilings

    The byte totals the store computes with joins, as sums over the messages
    themselves; what a stored message adds to them; and the consequence: an account
    never holds more live bytes than its quota. *)

From S2P Require Import Prelude Encoding Clock Sql Schema StoreM Crypto Accounts Devices Queues.
From S2P Require Import Blobs Steps Invariants Evolution Refine Store Demo.

Local Open Scope Z_scope.

(** ** Joins as lookups *)

(** The device that owns queue [rid], and its account. *)
Definition queue_owner (rid : string) (db : DB) : option string :=
  q_owner_device <$> sql_first (fun q => q_recipient_id q = rid) db.(queues).

Definition queue_account (rid : string) (db : DB) : option string :=
  dev ← queue_owner rid db;
  d_account_id <$> sql_first (fun d => d_id d = dev) db.(devices).

Lemma list_bind_assoc {A B C} (f : A -> list B) (g : B -> list C) (l : list A) :
  (l ≫= f) ≫= g = l ≫= (fun x => f x ≫= g).
Proof. induction l as [|x l IH]; [done|]. by rewrite !bind_cons, bind_app, IH. Qed.

Lemma sum_bind {A B} (f : A -> list B) (g : B -> Z) (h : A -> Z) (P : B -> Prop) (Q : A -> Prop)
    `{!forall b, Decision (P b), !forall x, Decision (Q x)} (l : list A) :
  (forall x, x ∈ l -> exists b, f x = [b] /\ g b = h x /\ (P b <-> Q x)) ->
  sql_sum g (filter P (l ≫= f)) = sql_sum h (filter Q l).
Proof.
  induction l as [|x l IH]; intros Hf; [done|].
  destruct (Hf x) as (b & Hb & Hg & HP); [left|]. rewrite bind_cons, Hb. simpl.
  rewrite !filter_cons. rewrite (decide_ext (P b) (Q x)) by done.
  assert (sql_sum g (filter P (l ≫= f)) = sql_sum h (filter Q l)) as E
    by (apply IH; intros y Hy; apply Hf; by right).
  case_decide; rewrite ?sql_sum_cons; lia.
Qed.

Section totals.
Context (db : DB) (Hi : integrity db).

(** The row of a message's queue, and of the device that owns it. *)
Lemma message_queue (m : MessageRow) :
  m ∈ db.(messages) -> exists q, q ∈ db.(queues) /\ q_recipient_id q = m_queue_id m /\
    filter (fun q => q_recipient_id q = m_queue_id m) db.(queues) = [q].
Proof using Hi.
  intros Hm. pose proof (fk_messages _ Hi) as Hfk. rewrite Forall_forall in Hfk.
  apply Hfk, list_elem_of_fmap in Hm as (q & Hq & Hin). exists q. split_and!; [done|done|].
  rewrite Hq. apply filter_key; [apply Hi|done].
Qed.

Lemma queue_device (q : Queue) :
  q ∈ db.(queues) -> exists d, d ∈ db.(devices) /\ d_id d = q_owner_device q /\
    filter (fun d => d_id d = q_owner_device q) db.(devices) = [d].
Proof using Hi.
  intros Hq. pose proof (fk_queues _ Hi) as Hfk. rewrite Forall_forall in Hfk.
  apply Hfk, list_elem_of_fmap in Hq as (d & Hd & Hin). exists d. split_and!; [done|done|].
  rewrite Hd. apply filter_key; [apply Hi|done].
Qed.

Lemma device_bytes_eq (dev : string) (now : Z) :
  device_bytes dev now db =
  sql_sum m_size (filter (fun m => queue_owner (m_queue_id m) db = Some dev /\ m_expires m > now)
                    db.(messages)).
Proof using Hi.
  unfold device_bytes, messages_queues. apply sum_bind. intros m Hm.
  destruct (message_queue m Hm) as (q & Hq & Hqm & Hf). exists (m, q).
  unfold queue_owner, sql_first. rewrite Hf. simpl. split_and!; [done|done|].
  split; intros [E ?]; split; congruence.
Qed.

Lemma account_bytes_eq (acc : string) (now : Z) :
  account_bytes acc now db =
  sql_sum m_size (filter (fun m => queue_account (m_queue_id m) db = Some acc /\ m_expires m > now)
                    db.(messages)).
Proof using Hi.
  unfold account_bytes, messages_queues_devices, messages_queues. rewrite list_bind_assoc.
  apply sum_bind. intros m Hm.
  destruct (message_queue m Hm) as (q & Hq & Hqm & Hf).
  destruct (queue_device q Hq) as (d & Hd & Hdq & Hfd). exists (m, q, d).
  unfold queue_account, queue_owner, sql_first. rewrite Hf. simpl. rewrite Hfd. simpl.
  split_and!; [done|done|]. split; intros [E ?]; split; congruence.
Qed.
End totals.

Lemma m_size_nonneg (m : MessageRow) : 0 <= m_size m.
Proof. unfold m_size. lia. Qed.

(** ** Totals over time *)

Lemma sql_sum_filter {A} (P : A -> Prop) `{!forall x, Decision (P x)} (f : A -> Z) (l : list A) :
  sql_sum f (filter P l) = sql_sum (fun x => if decide (P x) then f x else 0) l.
Proof.
  induction l as [|x l IH]; [done|]. rewrite filter_cons, (sql_sum_cons _ x l).
  case_decide; rewrite ?sql_sum_cons; lia.
Qed.

Lemma sql_sum_le {A} (f g : A -> Z) (l l' : list A) :
  sublist l' l -> (forall x, x ∈ l' -> f x <= g x) -> (forall x, 0 <= g x) ->
  sql_sum f l' <= sql_sum g l.
Proof.
  intros Hs Hfg Hg. induction Hs as [|x l' l Hs IH|x l' l Hs IH]; rewrite ?sql_sum_cons; [done|..].
  - specialize (Hfg x ltac:(left)) as Hx. assert (sql_sum f l' <= sql_sum g l); [|lia].
    apply IH. intros y Hy. apply Hfg. by right.
  - specialize (IH Hfg). specialize (Hg x). lia.
Qed.

(** A selection of the messages holds no more bytes than a wider one. *)
Lemma sum_filter_le (P Q : MessageRow -> Prop)
    `{!forall m, Decision (P m), !forall m, Decision (Q m)} (l l' : list MessageRow) :
  sublist l' l -> (forall m, m ∈ l' -> P m -> Q m) ->
  sql_sum m_size (filter P l') <= sql_sum m_size (filter Q l).
Proof.
  intros Hs HPQ. rewrite !sql_sum_filter. apply sql_sum_le; [done|..]; intros m; intros;
    pose proof (m_size_nonneg m); repeat case_decide; naive_solver lia.
Qed.

(** Who owns a queue never changes. *)
Lemma queue_account_evolves (db db' : DB) (rid : string) :
  integrity db -> integrity db' -> evolves db db' ->
  rid ∈ q_recipient_id <$> db.(queues) -> queue_account rid db' = queue_account rid db.
Proof.
  intros Hi Hi' He (q & -> & Hq)%list_elem_of_fmap.
  destruct (ev_queues _ _ He q Hq) as (q' & Hq' & Hqid & _ & Hown & _).
  destruct (queue_device db Hi q Hq) as (d & Hd & Hdq & Hf).
  destruct (ev_devices _ _ He d Hd) as (d' & Hd' & Hdid & Hacc & _).
  pose proof (sql_first_key q_recipient_id _ q' (pk_queues _ Hi') Hq') as Eq'.
  pose proof (sql_first_key d_id _ d' (pk_devices _ Hi') Hd') as Ed'.
  rewrite Hqid in Eq'. rewrite Hdid in Ed'. unfold queue_account, queue_owner.
  rewrite Eq', (sql_first_key q_recipient_id _ q (pk_queues _ Hi) Hq). simpl.
  rewrite Hown, <- Hdq, Ed', (sql_first_key d_id _ d (pk_devices _ Hi) Hd). simpl.
  by rewrite Hacc.
Qed.

(** The account of a queue is an account of the database. *)
Lemma queue_account_in (db : DB) (rid acc : string) :
  integrity db -> queue_account rid db = Some acc -> acc ∈ a_id <$> db.(accounts).
Proof.
  intros Hi (dev & _ & (d & Hd & ->)%fmap_Some)%bind_Some.
  apply sql_first_Some in Hd as [Hd _]. pose proof (fk_devices _ Hi) as Hfk.
  rewrite Forall_forall in Hfk. by apply Hfk.
Qed.

(** The message an event stores. *)
Definition event_payload (ev : event) : option bytes :=
  match ev with EvAppend _ payload => Some payload | _ => None end.

(** At every second from [t] on, no account holds more than its quota. *)
Definition within_quotas (t : Z) (db : DB) : Prop :=
  forall a now, a ∈ db.(accounts) -> t <= now -> account_bytes (a_id a) now db <= a_quota_bytes a.

(** An event stores at most one message, and only within the account's ceiling. *)
Lemma db_step_messages (now : Z) (db : DB) (ev : event) (db' : DB) :
  db_step now db ev db' ->
  sublist db'.(messages) db.(messages) \/
  exists m, db'.(messages) = db.(messages) ++ [m] /\ event_payload ev = Some (m_payload m) /\
    m_queue_id m ∈ q_recipient_id <$> db.(queues) /\
    fits (m_queue_id m) (m_size m) now db.
Proof.
  intros Hs. destruct Hs; simpl; try (by left); try (left; apply sql_delete_sublist).
  - right. eexists (mkMessageRow _ _ _ _ _ _). simpl. split_and!; [done|done| |done].
    destruct H0 as (q & d & a & Hq & <- & _). by apply list_elem_of_fmap_2.
  - left. unfold upsert_bundle in H. by case_decide; simplify_eq.
Qed.

(** The account a message is charged to, when it fits. *)
Lemma fits_account (rid : string) (size now : Z) (db : DB) :
  integrity db -> fits rid size now db ->
  exists a, a ∈ db.(accounts) /\ queue_account rid db = Some (a_id a) /\
    within (a_quota_bytes a) (account_bytes (a_id a) now db + size).
Proof.
  intros Hi (q & d & a & Hq & <- & Hd & Hdq & Ha & Had & _ & _ & Hw). exists a.
  split_and!; [done| |done]. unfold queue_account, queue_owner.
  rewrite (sql_first_key q_recipient_id _ q (pk_queues _ Hi) Hq). simpl. rewrite <- Hdq.
  rewrite (sql_first_key d_id _ d (pk_devices _ Hi) Hd). simpl. by rewrite Had.
Qed.

(** What an account is charged for messages that were there before. *)
Lemma account_bytes_old (db db' : DB) (acc : string) (v w : Z) (l : list MessageRow) :
  integrity db -> integrity db' -> evolves db db' -> v <= w -> sublist l db.(messages) ->
  sql_sum m_size (filter (fun m => queue_account (m_queue_id m) db' = Some acc /\ m_expires m > w) l) <=
  account_bytes acc v db.
Proof.
  intros Hi Hi' He Hvw Hl. rewrite account_bytes_eq by done. apply sum_filter_le; [done|].
  intros m Hm [E ?]. rewrite (queue_account_evolves db) in E; [split; [done|lia]|done..|].
  pose proof (fk_messages _ Hi) as Hfk. rewrite Forall_forall in Hfk. by apply Hfk; eapply elem_of_sublist.
Qed.

(** A quota as it was bounds what an account of the later database had. *)
Lemma within_quotas_before (t : Z) (db db' : DB) (a : Account) :
  db_ok db -> db_ok db' -> evolves db db' -> within_quotas t db -> a ∈ db'.(accounts) ->
  account_bytes (a_id a) t db <= a_quota_bytes a.
Proof.
  intros Hok Hok' He Hw Ha. pose proof (ok_integrity _ Hok) as Hi. pose proof (ok_integrity _ Hok') as Hi'.
  destruct (decide (a_id a ∈ a_id <$> db.(accounts))) as [Hin|Hin].
  - apply list_elem_of_fmap in Hin as (b & Hb & Hbin).
    destruct (ev_accounts _ _ He b Hbin) as (b' & Hb' & <-).
    assert (a = b) as -> by (by eapply (NoDup_fmap_inj a_id); [apply Hi'|..]). by apply Hw.
  - rewrite account_bytes_eq, filter_none by
      (done || (apply Forall_forall; intros m Hm [E _]; by apply queue_account_in in E)).
    pose proof (proj1 (Forall_forall _ _) (ok_quota _ Hok') a Ha) as Hpos.
    simpl in Hpos. unfold sql_sum. simpl. lia.
Qed.

(** The quotas survive a change that stores nothing. *)
Lemma within_quotas_keep (t : Z) (db db' : DB) :
  db_ok db -> db_ok db' -> evolves db db' -> sublist db'.(messages) db.(messages) ->
  within_quotas t db -> within_quotas t db'.
Proof.
  intros Hok Hok' He Hl Hw a u Ha Hu. pose proof (ok_integrity _ Hok). pose proof (ok_integrity _ Hok').
  rewrite account_bytes_eq by done. etrans; [by apply (account_bytes_old db)|].
  by apply (within_quotas_before t db db').
Qed.

(** The quotas survive an event, for every second that is later than the event and than
    before, when no sum overflows. *)
Lemma within_quotas_step (t now : Z) (db : DB) (ev : event) (db' : DB) :
  db_ok db -> db_step now db ev db' ->
  (forall a p, a ∈ db.(accounts) -> event_payload ev = Some p ->
     account_bytes (a_id a) now db + Z.of_nat (length p) < 2 ^ 63) ->
  within_quotas t db -> within_quotas (Z.max t now) db'.
Proof.
  intros Hok Hs Hp Hw. pose proof (db_step_ok now db ev db' Hok Hs) as Hok'.
  pose proof (ok_integrity _ Hok) as Hi. pose proof (ok_integrity _ Hok') as Hi'.
  pose proof (db_step_evolves now db ev db' Hs) as He.
  assert (within_quotas (Z.max t now) db) as Hw' by (intros a u Ha Hu; apply Hw; [done|lia]).
  destruct (db_step_messages now db ev db' Hs) as [Hl|(m & Hl & Hev & Hrid & Hfit)];
    [by apply (within_quotas_keep _ db)|].
  intros a u Ha Hu. rewrite account_bytes_eq by done. rewrite Hl, filter_app, sql_sum_app.
  destruct (decide (queue_account (m_queue_id m) db' = Some (a_id a) /\ m_expires m > u)) as [Hm|Hm].
  2: { rewrite (filter_none _ [m]) by (by apply Forall_singleton). unfold sql_sum at 2. simpl.
       pose proof (account_bytes_old db db' (a_id a) (Z.max t now) u _ Hi Hi' He Hu (reflexivity _)).
       pose proof (within_quotas_before _ db db' a Hok Hok' He Hw' Ha). lia. }
  rewrite (filter_all _ [m]) by (by apply Forall_singleton). unfold sql_sum at 2. simpl.
  destruct (fits_account _ _ _ _ Hi Hfit) as (b & Hb & Hbq & Hwb).
  rewrite (queue_account_evolves db) in Hm by done. destruct Hm as [Hm _].
  destruct (ev_accounts _ _ He b Hb) as (b' & Hb' & <-).
  assert (a = b) as -> by (eapply (NoDup_fmap_inj a_id); [apply Hi'|..]; congruence).
  pose proof (account_bytes_old db db' (a_id b) now u _ Hi Hi' He ltac:(lia) (reflexivity _)).
  specialize (Hp b _ Hb Hev). fold (m_size m) in Hp. pose proof (m_size_nonneg m).
  destruct Hwb as [Hwb|Hwb];
    [pose proof (proj1 (Forall_forall _ _) (ok_quota _ Hok') b Ha); simpl in *; lia|].
  assert (0 <= account_bytes (a_id b) now db) by (apply sql_sum_nonneg; intros; apply m_size_nonneg).
  rewrite wrap64_id in Hwb by (unfold is_int64; lia). lia.
Qed.

(** ** A caller whose clock does not run backwards *)

Definition payload_lt (n : Z) (c : call) : Prop :=
  match c_op c with OpAppendMessage _ p _ => Z.of_nat (length p) < n | _ => True end.

Lemma within_quotas_run `{Crypto} (cs : list call) (db : DB) (t u : Z) :
  db_ok db -> within_quotas (sec t) db ->
  StronglySorted Z.le (t :: (c_clock <$> cs)) -> Forall (fun c => c_clock c <= u) cs -> t <= u ->
  Forall (payload_lt (2 ^ 62)) cs ->
  (forall a, a ∈ (run_calls cs db).(accounts) -> a_quota_bytes a <= 2 ^ 62) ->
  within_quotas (sec u) (run_calls cs db).
Proof.
  revert db t. induction cs as [|c cs IH]; intros db t Hok Hw Hs Hu Htu Hp Hq; simpl in *.
  { intros a v Ha Hv. apply Hw; [done|]. pose proof (sec_mono t u Htu). lia. }
  apply StronglySorted_inv in Hs as [Hs Ht]. apply Forall_cons in Ht as [Ht _].
  apply Forall_cons in Hu as [Hu1 Hu], Hp as [Hp1 Hp].
  pose proof (sec_mono _ _ Ht) as Hsec.
  destruct (run_call_moves c db (ok_integrity _ Hok)) as [E|(ev & Hev & Hpl)].
  - rewrite E in Hq |- *. apply (IH db (c_clock c)); try done.
    intros a v Ha Hv. apply Hw; [done|lia].
  - pose proof (db_step_ok _ _ _ _ Hok Hev) as Hok'.
    apply (IH _ (c_clock c)); try done. rewrite <- (Z.max_r (sec t) (sec (c_clock c))) by done.
    eapply within_quotas_step; [exact Hok|exact Hev| |done]. intros a p Ha E.
    destruct (ev_accounts _ _ (db_step_evolves _ _ _ _ Hev) a Ha) as (a1 & Ha1 & <-).
    destruct (ev_accounts _ _ (run_calls_evolves cs _ Hok') a Ha1) as (a2 & Ha2 & <-).
    specialize (Hq a Ha2). specialize (Hw a (sec (c_clock c)) Ha Hsec).
    destruct ev; try done. injection E as ->. unfold payload_lt in Hp1.
    destruct (c_op c); try done. destruct Hpl as [_ ->]. lia.
Qed.

(** However the store is called, as long as the clock does not run backwards
    and the quotas and payloads are of sane size (no 64-bit overflow), no account
    holds more bytes of unexpired messages than its quota, at the time of the last
    call or at any later second. *)
Theorem account_quota_never_exceeded `{Crypto} (cs : list call) (t : Z) (a : Account) :
  StronglySorted Z.le (c_clock <$> cs) -> Forall (fun c => c_clock c <= t) cs ->
  Forall (payload_lt (2 ^ 62)) cs ->
  (forall a, a ∈ (run_calls cs empty_db).(accounts) -> a_quota_bytes a <= 2 ^ 62) ->
  a ∈ (run_calls cs empty_db).(accounts) ->
  account_bytes (a_id a) (sec t) (run_calls cs empty_db) <= a_quota_bytes a.
Proof.
  intros Hs Ht Hp Hq Ha. destruct cs as [|c cs]; [by apply not_elem_of_nil in Ha|].
  apply (within_quotas_run (c :: cs) empty_db (c_clock c) t); try done; [apply ok_empty|..].
  - intros b u Hb. by apply not_elem_of_nil in Hb.
  - constructor; [done|]. constructor; [done|]. by apply StronglySorted_inv in Hs as [_ ?].
  - by apply Forall_cons in Ht as [? _].
Qed.

Lemma account_quota_never_exceeded_witness :
  exists a, a_quota_bytes a = 67108864 /\ account_bytes (a_id a) (sec (Demo.t0 + Hour)) Demo.db0 = 5 /\
    account_bytes (a_id a) (sec (Demo.t0 + Hour)) Demo.db0 <= a_quota_bytes a.
Proof.
  eexists (mkAccount Demo.acc 1700000000 "standard" "active" 67108864 AdminModeManaged).
  split; [reflexivity|]. split; [by vm_compute|].
  rewrite Demo.db0_eq. apply (account_quota_never_exceeded Demo.running (Demo.t0 + Hour)).
  - vm_compute. repeat constructor; by vm_compute.
  - repeat constructor; by vm_compute.
  - cbv [Demo.running Demo.enrolled app].
    repeat (apply Forall_cons; split; [by vm_compute|]).
    by apply Forall_nil.
  - intros a Ha. vm_compute in Ha. by apply list_elem_of_singleton in Ha as ->.
  - vm_compute. left.
Defined.

(** C27: with a working driver, enough randomness and an identifier not in use, a
    message is stored exactly when its queue exists and it fits the three ceilings
    (its queue's, the owner device's and the account's; 0 is no ceiling); otherwise
    the refusal says which of the two failed, and nothing changes. *)
Theorem append_message_admission (rid : string) (payload : bytes) (ttl : Z) (s : St) :
  integrity (st_db s) -> st_faults s = [] -> (9 <= length (st_rnd s))%nat ->
  fresh_id "msg_" (st_rnd s) ∉ m_id <$> (st_db s).(messages) ->
  let db := st_db s in
  let now := st_clock s in
  let r := AppendMessage rid payload ttl s in
  let size := Z.of_nat (length payload) in
  ((rid ∉ q_recipient_id <$> db.(queues)) /\ r.1 = inl ErrQueueNotFound /\ st_db r.2 = db) \/
  (rid ∈ q_recipient_id <$> db.(queues) /\ ~ fits rid size (sec now) db /\
     r.1 = inl ErrQuotaExceeded /\ st_db r.2 = db) \/
  (fits rid size (sec now) db /\
     r.1 = inr (mkMessage (fresh_id "msg_" (st_rnd s)) rid payload (sec now) (sec (now + ttl))) /\
     st_db r.2 = appended_db (fresh_id "msg_" (st_rnd s)) rid payload (sec now) (sec (now + ttl)) db).
Proof.
  intros Hi Hf Hr Hid. simpl. pose proof (AppendMessage_spec rid payload ttl s Hi) as Ha.
  unfold wp in Ha. destruct (AppendMessage rid payload ttl s) as [[e|m] s']; simpl in *;
    destruct Ha as (_ & _ & [(_ & ? & _)|Ha]); try done.
  - destruct Ha as [-> Ha]. destruct e; simpl in Ha; try done; [|right; left; by destruct Ha|lia].
    left. split_and!; [|done|done]. intros (q & -> & Hq)%list_elem_of_fmap.
    destruct (queue_device _ Hi q Hq) as (d & Hd & Hdq & Hfd).
    pose proof (fk_devices _ Hi) as Hfk. rewrite Forall_forall in Hfk.
    apply Hfk, list_elem_of_fmap in Hd as (a & Hda & Ha').
    revert Ha. unfold queue_ceilings. rewrite (filter_key q_recipient_id _ q (pk_queues _ Hi) Hq).
    simpl. rewrite Hfd. simpl. rewrite Hda, (filter_key a_id _ a (pk_accounts _ Hi) Ha'). done.
  - destruct Ha as (-> & _ & ? & ->). auto.
Qed.

Lemma append_message_admission_witness :
  (AppendMessage Demo.rcp Demo.hello Hour Demo.s0).1 =
    inr (mkMessage (fresh_id "msg_" (Demo.rnd x08)) Demo.rcp Demo.hello 1700000010 1700003610).
Proof.
  destruct (append_message_admission Demo.rcp Demo.hello Hour Demo.s0)
    as [[Hn _]|[(_ & _ & Hq & _)|(_ & Hr & _)]].
  - apply Demo.db0_integrity.
  - reflexivity.
  - vm_compute. lia.
  - intros Hx. vm_compute in Hx. by apply list_elem_of_singleton in Hx.
  - destruct Hn. vm_compute. left.
  - vm_compute in Hq. done.
  - exact Hr.
Defined.
