(* ===== verification/Safety.v ===== *)
(** * What the store guarantees to every caller

    Theorems about arbitrary sequences of calls with arbitrary driver failures:
    the well-formedness of the database, the atomicity of every method, and what is
    permanent. *)

From S2P Require Import Prelude Encoding Clock Sql Schema StoreM Crypto Accounts Devices Queues.
From S2P Require Import Blobs Steps Invariants Evolution Refine Store Demo.

Local Open Scope Z_scope.

(** C1: whatever calls are made on a fresh store, with whatever arguments, times,
    randomness and driver failures, the database is well formed: every declared
    key, uniqueness and reference constraint holds, roles and modes are valid, every
    device of a flat account is an admin, keys have the size of an Ed25519 key,
    messages are in sequence order, and every statement log is a run of consecutive
    numbers no longer than its bound. *)
Theorem store_well_formed `{Crypto} (cs : list call) : db_ok (run_calls cs empty_db).
Proof. apply run_calls_steps, ok_empty. Qed.

(** The queue a drain is of; no other method can fail half way. *)
Definition drain_of {A} (op : store_op A) : option string :=
  match op with OpDrainMessages rid => Some rid | _ => None end.

(** C4: a method of the store does at most one event of the abstract store, at the time of
    the call, and that of a kind its name says; if it returns an error it has changed
    nothing, whichever statement or commit the driver failed. The one exception is a drain:
    its purge is a statement of its own, so a drain whose second statement fails has
    deleted what had expired on its queue, and nothing else. *)
Theorem store_methods_refine_events `{Crypto} {A} (op : store_op A) (s : St) :
  integrity (st_db s) ->
  let r := (run_op op s).1 in
  let db := st_db s in
  let db' := st_db (run_op op s).2 in
  (db' = db \/ exists ev, db_step (sec (st_clock s)) db ev db' /\ op_event op ev) /\
  (forall e, r = inl e -> db' = db \/
     exists rid, drain_of op = Some rid /\
       db' = set_messages (sql_delete (fun m => m_queue_id m = rid /\ m_expires m <= sec (st_clock s))
                             db.(messages)) db).
Proof.
  intros Hi r db db'. subst r db db'.
  destruct (run_op_outcome op s Hi) as (_ & _ & [(_ & _ & Hdb)|[Hm Ha]]); [by auto|]. split.
  - destruct Hm as [Hdb|(ev & Hev & Hop)]; [by left|]. right. eauto.
  - intros e He. destruct (atomic op) eqn:Hat; [left; apply Ha; eauto|]. destruct op; try done.
    destruct (DrainMessages_spec rid s Hi) as (_ & _ & [(_ & _ & Hdb)|[Hdb _]]); [by left|right; eauto].
Qed.

(** A revocation whose fourth statement the driver fails: nothing is lost. A drain that
    fails half way, after the message has expired: only that is gone. *)
Lemma store_methods_refine_events_witness :
  let s := mkSt Demo.db0 Demo.t0 [] [false; false; false; false; true] in
  let r := run_op (H := Toy.toy_crypto) (OpRevokeDevice Demo.dev1 Demo.dev2) s in
  let s2 := mkSt Demo.db0 (Demo.t0 + 8 * 24 * Hour) [] [false; true] in
  let r2 := run_op (H := Toy.toy_crypto) (OpDrainMessages Demo.rcp) s2 in
  (r.1 = inl ErrDriver /\ st_db r.2 = st_db s) /\
  (r2.1 = inl ErrDriver /\ st_db r2.2 <> st_db s2 /\
   (st_db r2.2 = st_db s2 \/ exists rid, drain_of (OpDrainMessages Demo.rcp) = Some rid /\
      st_db r2.2 = set_messages (sql_delete (fun m => m_queue_id m = rid /\ m_expires m <= sec (st_clock s2))
                                   (st_db s2).(messages)) (st_db s2))).
Proof.
  intros s r s2 r2. split.
  - assert (r.1 = inl ErrDriver) as Hr by by vm_compute. split; [exact Hr|].
    destruct (proj2 (store_methods_refine_events (H := Toy.toy_crypto) (OpRevokeDevice Demo.dev1 Demo.dev2) s
                       Demo.db0_integrity) ErrDriver Hr) as [Hdb|(rid & Hd & _)]; [exact Hdb|discriminate Hd].
  - assert (r2.1 = inl ErrDriver) as Hr by by vm_compute. split; [exact Hr|]. split.
    + assert (length (messages (st_db r2.2)) <> length (messages (st_db s2))) as Hl by by vm_compute.
      intros E. exact (Hl (f_equal (fun db => length (messages db)) E)).
    + exact (proj2 (store_methods_refine_events (H := Toy.toy_crypto) (OpDrainMessages Demo.rcp) s2
               Demo.db0_integrity) ErrDriver Hr).
Defined.

(** The store only moves forward. Whatever is called after [cs], accounts are
    unchanged, a revoked device, a retired queue and a consumed or revoked invitation
    stay so, device identities and keys and queue ownership never change, a bound
    sender key stays bound to the same key, and a stored message is never altered. *)
Theorem store_only_moves_forward `{Crypto} (cs later : list call) :
  evolves (run_calls cs empty_db) (run_calls (cs ++ later) empty_db).
Proof.
  unfold run_calls at 2. rewrite foldl_app.
  apply (run_calls_evolves later), run_calls_steps, ok_empty.
Qed.
