(* ===== verification/Enrolment.v ===== *)
(** * Enrolment, roles and revocation

    The life of an invitation (single use, revocable, expiring), the role a new
    device gets, the last-admin rule, and what a revocation does. *)

From S2P Require Import Prelude Encoding Clock Sql Schema StoreM Crypto Accounts Devices Queues.
From S2P Require Import Blobs Steps Invariants Evolution Refine Store Demo.

Local Open Scope Z_scope.

(** ** Invitations *)

(** An invitation that is consumed or revoked cannot be redeemed, ever after. *)
Lemma spent_forever (db db' : DB) (hash : string) (now : Z) (i : InvitationRow) :
  integrity db' -> evolves db db' -> i ∈ db.(invitations) -> i_token_hash i = hash ->
  i_consumed i = true \/ i_revoked i = true ->
  Forall (fun x => ~ redeemable hash now x) db'.(invitations).
Proof.
  intros Hi He Hin Hh Hs. destruct (ev_invitations _ _ He i Hin) as (j & Hj & Hij).
  destruct Hij as (Hjh & _ & _ & _ & _ & Hc & Hr). apply Forall_forall.
  intros x Hx (Hxh & Hxc & Hxr & _).
  assert (x = j) as -> by (eapply (NoDup_fmap_inj i_token_hash); [apply Hi|..]; congruence).
  destruct Hs as [Hs|Hs]; [rewrite Hc in Hxc|rewrite Hr in Hxr]; done.
Qed.

(** With no redeemable invitation a registration fails and changes nothing. *)
Lemma register_fails `{Crypto} (token push caps : string) (pub : bytes) (s : St) :
  integrity (st_db s) ->
  Forall (fun i => ~ redeemable (hashToken token) (sec (st_clock s)) i) (st_db s).(invitations) ->
  (exists e, (RegisterDevice token pub push caps s).1 = inl e) /\
  st_db (RegisterDevice token pub push caps s).2 = st_db s.
Proof.
  intros Hi Hn. pose proof (RegisterDevice_spec token push caps pub s Hi) as Hr. unfold wp in Hr.
  destruct (RegisterDevice token pub push caps s) as [[e|d] s']; simpl in *.
  - destruct Hr as (_ & _ & [(_ & _ & ->)|[-> _]]); eauto.
  - destruct Hr as (_ & _ & [(? & _)|(i & a & Hin & Hred & _)]); [done|].
    rewrite Forall_forall in Hn. by destruct (Hn i).
Qed.

(** A registration that succeeded. *)
Lemma register_succeeded `{Crypto} (token push caps : string) (pub : bytes) (s : St) (d : Device) :
  integrity (st_db s) -> (RegisterDevice token pub push caps s).1 = inr d ->
  registered token push caps pub s d (st_db (RegisterDevice token pub push caps s).2).
Proof.
  intros Hi Hd. pose proof (RegisterDevice_spec token push caps pub s Hi) as Hr. unfold wp in Hr.
  destruct (RegisterDevice token pub push caps s) as [r s']; simpl in *; subst r.
  by destruct Hr as (_ & _ & [(? & _)|?]).
Qed.

(** C18: an invitation token enrols one device. After a registration with [token]
    has succeeded, every registration with it fails and changes nothing, whatever
    was called in between, at whatever time and with whatever key. *)
Theorem invitation_single_use `{Crypto} (token push caps push' caps' : string) (pub pub' : bytes)
    (s : St) (d : Device) (later : list call) (clock : Z) (rnd : bytes) (faults : list bool) :
  db_ok (st_db s) -> (RegisterDevice token pub push caps s).1 = inr d ->
  let db := run_calls later (st_db (RegisterDevice token pub push caps s).2) in
  let again := RegisterDevice token pub' push' caps' (mkSt db clock rnd faults) in
  (exists e, again.1 = inl e) /\ st_db again.2 = db.
Proof.
  intros Hok Hd db. pose proof (register_succeeded token push caps pub s d (ok_integrity _ Hok) Hd)
    as Hr. pose proof (db_step_ok _ _ _ _ Hok (registered_step _ _ _ _ _ _ _ Hr)) as Hok'.
  destruct (run_calls_steps later _ Hok') as [_ Hok2].
  apply (register_fails token push' caps' pub' (mkSt db clock rnd faults)); [apply Hok2|]. simpl.
  destruct Hr as (i & a & Hi & Hred & _ & _ & _ & _ & _ & Hdb).
  apply (spent_forever (st_db (RegisterDevice token pub push caps s).2) db _ _ (inv_consume i));
    [apply Hok2|by apply run_calls_evolves| |apply Hred|by left].
  rewrite Hdb. apply elem_of_sql_update. exists i. by rewrite decide_True.
Qed.

Lemma invitation_single_use_witness :
  let s := mkSt (run_calls (H := Toy.toy_crypto) (take 3 Demo.enrolled) empty_db)
             (Demo.t0 + 5 * Second) (Demo.rnd x09) [] in
  let db := run_calls (H := Toy.toy_crypto) []
    (st_db (RegisterDevice (H := Toy.toy_crypto) Demo.token1 Demo.key1 "" "" s).2) in
  let again := RegisterDevice (H := Toy.toy_crypto) Demo.token1 Demo.key2 "" ""
    (mkSt db (Demo.t0 + 6 * Second) (Demo.rnd x0a) []) in
  again.1 = inl ErrInvalidInvitation /\ (exists e, again.1 = inl e) /\ st_db again.2 = db.
Proof.
  intros s db again. split; [by vm_compute|].
  apply (invitation_single_use Demo.token1 "" "" "" "" Demo.key1 Demo.key2 s
           (mkDevice (fresh_id "dev_" (Demo.rnd x09)) Demo.acc Demo.key1 "" "" 1700000005 1700000005
              false RoleAdmin 0) [] (Demo.t0 + 6 * Second) (Demo.rnd x0a) []).
  - apply run_calls_steps, ok_empty.
  - by vm_compute.
Defined.

(** Without driver failures a registration is refused only for one of the stated
    reasons, or registers the device. *)
Lemma register_total `{Crypto} (token push caps : string) (pub rnd : bytes) (db : DB) (clock : Z) :
  integrity db -> length pub = PublicKeySize -> (9 <= length rnd)%nat ->
  fresh_id "dev_" rnd ∉ d_id <$> db.(devices) ->
  (exists i, i ∈ db.(invitations) /\ redeemable (hashToken token) (sec clock) i) ->
  let s := mkSt db clock rnd [] in
  exists d, (RegisterDevice token pub push caps s).1 = inr d /\
    registered token push caps pub s d (st_db (RegisterDevice token pub push caps s).2).
Proof.
  intros Hi Hk Hr Hid (i & Hin & Hred) s.
  pose proof (RegisterDevice_spec token push caps pub s Hi) as Hs. unfold wp in Hs.
  destruct (RegisterDevice token pub push caps s) as [[e|d] s']; simpl in *.
  - exfalso. destruct Hs as (_ & _ & [(_ & ? & _)|[_ He]]); [done|].
    destruct e; simpl in He; try done; [|lia].
    rewrite Forall_forall in He. by apply (He i).
  - destruct Hs as (_ & _ & [(? & _)|Hs]); [done|]. eauto.
Qed.

(** What a minted token does, for the theorem below and for the operator's command. *)
Lemma minted_token_enrols `{Crypto} (acc role token push caps : string) (ttl clock : Z)
    (pub rnd : bytes) (inv : Invitation) (s : St) :
  db_ok (st_db s) -> (CreateInvitation acc ttl role s).1 = inr (token, inv) ->
  length pub = PublicKeySize -> (9 <= length rnd)%nat ->
  (fresh_id "dev_" rnd ∉ d_id <$> (st_db s).(devices)) -> sec clock < inv_expires inv ->
  let db := st_db (CreateInvitation acc ttl role s).2 in
  exists a, a ∈ db.(accounts) /\ a_id a = acc /\
    (RegisterDevice token pub push caps (mkSt db clock rnd [])).1 =
      inr (mkDevice (fresh_id "dev_" rnd) acc pub push caps (sec clock) (sec clock) false
             (if decide (a_admin_mode a = AdminModeManaged) then
                if decide (Forall (fun d => d_account_id d <> acc) db.(devices))
                then RoleAdmin else inv_grants_role inv
              else RoleAdmin) 0).
Proof.
  intros Hok Hc Hk Hr Hid Hexp db.
  assert (invited acc ttl s (token, inv) db) as Hinv.
  { subst db. pose proof (CreateInvitation_spec acc role ttl s) as Hs. unfold wp in Hs.
    rewrite Hc in Hs. by destruct Hs as (_ & _ & [(? & _)|Hs]). }
  pose proof (ok_integrity _ (db_step_ok _ _ _ _ Hok (invited_step _ _ _ _ _ Hinv))) as Hi.
  destruct Hinv as (a & Ha & Haid & Hacc & _ & _ & _ & _ & _ & Hdb). simpl in *.
  assert (invitation_row token inv ∈ db.(invitations)) as Hin
    by (rewrite Hdb; apply elem_of_app; right; apply list_elem_of_singleton; done).
  destruct (register_total token push caps pub rnd db clock) as (d & Hd & Hreg); try done.
  { by rewrite Hdb. }
  { exists (invitation_row token inv). split; [done|]. split_and!; try done. simpl. lia. }
  destruct Hreg as (i & b & Hii & Hred & Hb & Hbid & _ & _ & Hdd & _). simpl in *.
  assert (i = invitation_row token inv) as ->
    by (eapply (NoDup_fmap_inj i_token_hash); [apply Hi|done|done|apply Hred]). simpl in *.
  assert (a ∈ db.(accounts)) as Ha' by by rewrite Hdb.
  assert (b = a) as -> by (eapply (NoDup_fmap_inj a_id); [apply Hi|..]; congruence).
  exists a. split_and!; [done|done|]. rewrite Hd, Hdd. by rewrite <- Haid.
Qed.

(** A token minted by [CreateInvitation] enrols a device into its account until
    it expires: with a working driver, a key of the right size and an identifier not
    in use, registering with it before the invitation's expiry succeeds, and the
    device's role is admin if the account is flat or has never had a device, and what
    the invitation grants otherwise. *)
Theorem invitation_enrols `{Crypto} (acc role token push caps : string) (ttl clock : Z)
    (pub rnd : bytes) (inv : Invitation) (s : St) :
  db_ok (st_db s) -> (CreateInvitation acc ttl role s).1 = inr (token, inv) ->
  length pub = PublicKeySize -> (9 <= length rnd)%nat ->
  (fresh_id "dev_" rnd ∉ d_id <$> (st_db s).(devices)) -> sec clock < inv_expires inv ->
  let db := st_db (CreateInvitation acc ttl role s).2 in
  exists a, a ∈ db.(accounts) /\ a_id a = acc /\
    (RegisterDevice token pub push caps (mkSt db clock rnd [])).1 =
      inr (mkDevice (fresh_id "dev_" rnd) acc pub push caps (sec clock) (sec clock) false
             (if decide (a_admin_mode a = AdminModeManaged) then
                if decide (Forall (fun d => d_account_id d <> acc) db.(devices))
                then RoleAdmin else inv_grants_role inv
              else RoleAdmin) 0).
Proof. apply minted_token_enrols. Qed.

Lemma invitation_enrols_witness :
  let s := mkSt Demo.db0 (Demo.t0 + 10 * Second) (Demo.rnd x08) [] in
  let db := st_db (CreateInvitation (H := Toy.toy_crypto) Demo.acc (15 * Minute) "" s).2 in
  exists a, a ∈ db.(accounts) /\ a_id a = Demo.acc /\
    (RegisterDevice (H := Toy.toy_crypto) (base64_rawurl_encode (replicate 32 x08)) Demo.qkey "" ""
       (mkSt db (Demo.t0 + 20 * Second) (Demo.rnd x09) [])).1 =
    inr (mkDevice (fresh_id "dev_" (Demo.rnd x09)) Demo.acc Demo.qkey "" ""
           (sec (Demo.t0 + 20 * Second)) (sec (Demo.t0 + 20 * Second)) false
           (if decide (a_admin_mode a = AdminModeManaged) then
                if decide (Forall (fun d => d_account_id d <> Demo.acc) db.(devices))
                then RoleAdmin else RoleMember
              else RoleAdmin) 0).
Proof.
  intros s db.
  apply (invitation_enrols Demo.acc "" (base64_rawurl_encode (replicate 32 x08)) "" "" (15 * Minute)
    (Demo.t0 + 20 * Second) Demo.qkey (Demo.rnd x09)
    (mkInvitation (fresh_id "inv_" (Demo.rnd x08)) Demo.acc (sec (Demo.t0 + 10 * Second))
       (sec (Demo.t0 + 10 * Second + 15 * Minute)) RoleMember) s).
  - apply Demo.db0_ok.
  - by vm_compute.
  - by vm_compute.
  - vm_compute. lia.
  - intros Hin. vm_compute in Hin. repeat (apply elem_of_cons in Hin as [Hin|Hin]; [done|]).
    by apply not_elem_of_nil in Hin.
  - by vm_compute.
Defined.

(** A revoked invitation is dead: once [RevokeInvitation] has reported success
    for invitation [i] of the account, registering with its token fails and changes
    nothing, whatever is called in between. *)
Theorem revoked_invitation_is_dead `{Crypto} (acc token push caps : string) (pub : bytes)
    (i : InvitationRow) (s : St) (later : list call) (clock : Z) (rnd : bytes) (faults : list bool) :
  db_ok (st_db s) -> i ∈ (st_db s).(invitations) -> i_account_id i = acc ->
  i_token_hash i = hashToken token -> (RevokeInvitation acc (i_id i) s).1 = inr true ->
  let db := run_calls later (st_db (RevokeInvitation acc (i_id i) s).2) in
  let again := RegisterDevice token pub push caps (mkSt db clock rnd faults) in
  (exists e, again.1 = inl e) /\ st_db again.2 = db.
Proof.
  intros Hok Hi Hacc Hh Hr db.
  assert (st_db (RevokeInvitation acc (i_id i) s).2 = set_invitations (sql_update (fun j =>
    i_id j = i_id i /\ i_account_id j = acc /\ i_consumed j = false /\ i_revoked j = false)
    inv_revoke (st_db s).(invitations)) (st_db s)) as Hdb.
  { revert Hr. unfold RevokeInvitation, exec, db_call, mbind, M_bind.
    by destruct (st_faults s) as [|[] fs]. }
  assert (db_ok (st_db (RevokeInvitation acc (i_id i) s).2)) as Hok'.
  { rewrite Hdb. eapply (db_step_ok 0); [exact Hok|]. apply step_revoke_invitation. }
  destruct (run_calls_steps later _ Hok') as [_ Hok2].
  apply (register_fails token push caps pub (mkSt db clock rnd faults)); [apply Hok2|]. simpl.
  pose proof (run_calls_evolves later _ Hok') as He. fold db in He. rewrite Hdb in He.
  set (P := fun j => i_id j = i_id i /\ i_account_id j = acc /\
    i_consumed j = false /\ i_revoked j = false) in *.
  eapply (spent_forever _ db _ _ (if decide (P i) then inv_revoke i else i)); [apply Hok2|exact He|..].
  - apply elem_of_sql_update. by exists i.
  - by case_decide.
  - case_decide as HP; [by right|]. subst P. simpl in HP.
    destruct (i_consumed i), (i_revoked i); auto. by destruct HP.
Qed.

Lemma revoked_invitation_is_dead_witness :
  let s := mkSt (run_calls (H := Toy.toy_crypto) (take 3 Demo.enrolled) empty_db)
             (Demo.t0 + 5 * Second) [] [] in
  let i := fresh_id "inv_" (Demo.rnd x02) in
  let db := run_calls (H := Toy.toy_crypto) [] (st_db (RevokeInvitation Demo.acc i s).2) in
  let again := RegisterDevice (H := Toy.toy_crypto) Demo.token1 Demo.key2 "" ""
    (mkSt db (Demo.t0 + 6 * Second) (Demo.rnd x0a) []) in
  (exists e, again.1 = inl e) /\ st_db again.2 = db.
Proof.
  intros s i db again.
  apply (revoked_invitation_is_dead Demo.acc Demo.token1 "" "" Demo.key2
    (mkInvitationRow (hashToken (H := Toy.toy_crypto) Demo.token1) i Demo.acc 1700000001 1700000901
       false false RoleAdmin) s []).
  - apply run_calls_steps, ok_empty.
  - vm_compute. left.
  - by vm_compute.
  - by vm_compute.
  - by vm_compute.
Defined.

(** ** Roles *)

(** Account [acc] has a live admin; account [acc] has no live device. *)
Definition has_admin (acc : string) (db : DB) : Prop :=
  exists d, d ∈ db.(devices) /\ live_admin acc d.
Definition no_live_device (acc : string) (db : DB) : Prop :=
  forall d, d ∈ db.(devices) -> d_account_id d = acc -> ~ live d.

(** An update that keeps the admin at hand. *)
Lemma has_admin_update (acc : string) (db : DB) (P : Device -> Prop) `{!forall d, Decision (P d)}
    (f : Device -> Device) (d : Device) :
  d ∈ db.(devices) -> live_admin acc d -> (P d -> live_admin acc (f d)) ->
  exists d', d' ∈ sql_update P f db.(devices) /\ live_admin acc d'.
Proof.
  intros Hd Hla Hf. exists (if decide (P d) then f d else d).
  split; [apply elem_of_sql_update; by exists d|]. case_decide; auto.
Qed.

Lemma db_step_admin (acc : string) (now : Z) (db : DB) (ev : event) (db' : DB) :
  integrity db -> db_step now db ev db' -> (forall id, ev <> EvRevoke id id) ->
  has_admin acc db -> has_admin acc db' \/ no_live_device acc db'.
Proof.
  intros Hi Hs Hev (d & Hd & Hla). unfold has_admin.
  destruct Hs as [| | |? ? ? x ? ? ? ? ? ? ? ? ? ? ?|uid P HP f Hf Huid|acc' id role x a Hr Ha Haid Hm Hx Hxid Hxacc Hlive Hlast
    |caller id Hc| | | | | | | |b db' n Hu|]; simpl; try (left; by exists d).
  - left. exists d. split; [apply elem_of_app; by left|done].
  - left. apply (has_admin_update _ _ _ _ d); [done|done|]. intros _.
    destruct (Hf d) as (_ & Hacc & _ & Hrole & Hrev & _). unfold live_admin, live in *.
    by rewrite Hacc, Hrole, Hrev.
  - left. destruct (decide (d_id d = id /\ role = RoleMember)) as [[Hdid ->]|Hn].
    + assert (x = d) as -> by (eapply (NoDup_fmap_inj d_id); [apply Hi|..]; congruence).
      destruct Hla as (Hda & Hdl & Hdr). destruct Hlast as [(y & Hy & Hly & Hne)|[? _]]; [done|done| |done].
      rewrite <- Hxacc, Hda in Hly. by apply (has_admin_update _ _ _ _ y).
    + apply (has_admin_update _ _ _ _ d); [done|done|]. intros Hid.
      destruct Hla as (? & ? & ?). split_and!; try done. simpl. destruct Hr; naive_solver.
  - assert (caller <> id) as Hne by (intros ->; by apply (Hev id)).
    destruct (Hc Hne) as (x & Hx & Hxid & Hlast).
    destruct (decide (d_id d = id)) as [Hdid|Hdid].
    2: { left. by apply (has_admin_update _ _ _ _ d). }
    assert (x = d) as -> by (eapply (NoDup_fmap_inj d_id); [apply Hi|..]; congruence).
    destruct Hla as (Hda & Hdl & Hdr). rewrite Hda in Hlast.
    destruct Hlast as [(y & Hy & Hly & Hny)|[_ Hall]]; [done|done|..].
    + left. by apply (has_admin_update _ _ _ _ y).
    + right. intros y (z & Hz & ->)%elem_of_sql_update. case_decide as Hzid; [done|].
      intros Hza Hzl. by apply Hzid, Hall.
  - left. unfold upsert_bundle in Hu. case_decide; simplify_eq. by exists d.
Qed.

(** A device revoking itself. *)
Definition self_revocation {A} (op : store_op A) : Prop :=
  match op with OpRevokeDevice caller id => caller = id | _ => False end.

(** C17: no call but a device revoking itself takes an account's last admin away
    while it has other live devices: an account with a live admin has one after the
    call too, or no live device at all. *)
Theorem last_admin_protected `{Crypto} (acc : string) (c : call) (db : DB) :
  db_ok db -> ~ self_revocation (c_op c) -> has_admin acc db ->
  has_admin acc (run_call c db) \/ no_live_device acc (run_call c db).
Proof.
  intros Hok Hns Ha. destruct (run_call_moves c db (ok_integrity _ Hok)) as [->|(ev & Hev & Hop)];
    [by left|].
  eapply db_step_admin; [apply Hok|exact Hev| |done]. intros id ->. apply Hns.
  destruct (c_op c); simpl in *; try done. by destruct Hop as [-> ->].
Qed.

(** The only admin of the demonstration account cannot be demoted. *)
Lemma last_admin_protected_witness :
  let c := Demo.at_ (OpSetDeviceRole Demo.acc Demo.dev1 RoleMember) 20 x00 in
  has_admin Demo.acc (run_call (H := Toy.toy_crypto) c Demo.db0) \/
  no_live_device Demo.acc (run_call (H := Toy.toy_crypto) c Demo.db0).
Proof.
  intros c. apply (last_admin_protected Demo.acc c Demo.db0).
  - apply Demo.db0_ok.
  - by intros [].
  - eexists (mkDevice Demo.dev1 Demo.acc (ed25519_public (Crypto := Toy.toy_crypto) Demo.key1)
      "https://push/1" "" 1700000003 1700000003 false RoleAdmin 0).
    split; [vm_compute; left|by repeat split].
Defined.

(** Two admins who are the only live devices of their account can revoke each
    other: the second revocation finds the account about to become empty, which the
    last-admin rule allows, so both succeed and no live device remains. *)
Theorem mutual_revocation_succeeds :
  let db := run_calls (H := Toy.toy_crypto)
    [Demo.at_ (OpSetDeviceRole Demo.acc Demo.dev2 RoleAdmin) 20 x00] Demo.db0 in
  let r1 := RevokeDevice Demo.dev1 Demo.dev2 (mkSt db Demo.t0 [] []) in
  let r2 := RevokeDevice Demo.dev2 Demo.dev1 r1.2 in
  sql_count (live_admin Demo.acc) db.(devices) = 2 /\
  r1.1 = inr tt /\ r2.1 = inr tt /\
  sql_count (fun d => d_account_id d = Demo.acc /\ live d) (st_db r2.2).(devices) = 0.
Proof. by vm_compute. Qed.

(** ** Revocation *)

(** C28: a successful revocation takes effect whole, for good, and on nothing else. The
    database after it is the one before with the device revoked and its push endpoint
    cleared, its queues retired, the messages on them and its key bundle deleted; every
    other row, every other field of these rows, and the accounts, invitations and
    statements are as they were. And whatever is called later, the device stays revoked
    and its queues retired. *)
Theorem revocation_effect `{Crypto} (caller id : string) (s : St) (later : list call) :
  db_ok (st_db s) -> (RevokeDevice caller id s).1 = inr tt ->
  let db := st_db s in
  let db' := st_db (RevokeDevice caller id s).2 in
  let db'' := run_calls later db' in
  db' = mkDB db.(accounts) db.(invitations)
    ((fun d => if decide (d_id d = id)
               then mkDevice (d_id d) (d_account_id d) (d_public_key d) "" (d_capabilities d) (d_created d)
                      (d_last_seen d) true (d_role d) (d_quota_bytes d)
               else d) <$> db.(devices))
    ((fun q => if decide (q_owner_device q = id)
               then mkQueue (q_recipient_id q) (q_sender_id q) (q_owner_device q) (q_recipient_key q)
                      (q_sender_key q) (q_created q) true (q_quota_bytes q)
               else q) <$> db.(queues))
    (filter (fun m => m_queue_id m ∉ owned_queue_ids id db) db.(messages))
    (filter (fun b => b_device_id b <> id) db.(bundles))
    db.(statements) db.(messages_seq) /\
  (forall d, d ∈ db.(devices) -> d_id d = id ->
     forall d', d' ∈ db''.(devices) -> d_id d' = id -> d_revoked d' = true) /\
  (forall q, q ∈ db.(queues) -> q_owner_device q = id ->
     forall q', q' ∈ db''.(queues) -> q_recipient_id q' = q_recipient_id q -> q_retired q' = true).
Proof.
  intros Hok Hr db db' db''.
  assert (db_step (sec (st_clock s)) db (EvRevoke caller id) db') as Hstep.
  { subst db db'. pose proof (RevokeDevice_spec caller id s) as Hs. unfold wp in Hs.
    rewrite Hr in Hs. by destruct Hs as (_ & _ & [(? & _)|Hs]). }
  pose proof (db_step_ok _ _ _ _ Hok Hstep) as Hok'.
  assert (db' = revoked_db id db) as Hdb by by inversion Hstep.
  destruct (run_calls_steps later _ Hok') as [Hsteps Hok2].
  pose proof (db_steps_evolves _ _ Hsteps) as He. fold db'' in He, Hok2.
  split_and!; [exact Hdb|..].
  - intros d Hdin Hdid d' Hd'in Hd'id.
    assert (dev_revoke d ∈ db'.(devices)) as Hrev.
    { rewrite Hdb. apply elem_of_sql_update. exists d. by rewrite decide_True. }
    destruct (ev_devices _ _ He _ Hrev) as (x & Hx & Hxid & _ & _ & _ & Hxr). simpl in *.
    assert (d' = x) as -> by (eapply (NoDup_fmap_inj d_id); [apply Hok2|..]; congruence). auto.
  - intros q Hqin Hqo q' Hq'in Hq'id.
    assert (q_retire q ∈ db'.(queues)) as Hret.
    { rewrite Hdb. apply elem_of_sql_update. exists q. by rewrite decide_True. }
    destruct (ev_queues _ _ He _ Hret) as (x & Hx & Hxid & _ & _ & _ & _ & Hxr). simpl in *.
    assert (q' = x) as -> by (eapply (NoDup_fmap_inj q_recipient_id); [apply Hok2|..]; congruence).
    auto.
Qed.

(** The admin of the demonstration account leaves it. *)
Lemma revocation_effect_witness :
  let db' := st_db (RevokeDevice Demo.dev1 Demo.dev1 Demo.s0).2 in
  length db'.(messages) = 0%nat /\ length db'.(queues) = 1%nat /\
  forall d, d ∈ (st_db Demo.s0).(devices) -> d_id d = Demo.dev1 ->
    forall d', d' ∈ (run_calls (H := Toy.toy_crypto) [Demo.at_ (OpUpdatePushEndpoint Demo.dev1 "https://x") 30 x00] db').(devices) ->
      d_id d' = Demo.dev1 -> d_revoked d' = true.
Proof.
  intros db'. split; [by vm_compute|]. split; [by vm_compute|].
  apply (revocation_effect (H := Toy.toy_crypto) Demo.dev1 Demo.dev1 Demo.s0
    [Demo.at_ (OpUpdatePushEndpoint Demo.dev1 "https://x") 30 x00]).
  - apply Demo.db0_ok.
  - by vm_compute.
Defined.
