(* ===== verification/Delivery.v ===== *)
(** * Delivery

    What a sender and a recipient can rely on: the sender key is bound once,
    messages come back in the order they were stored, a stored message stays
    retrievable until something that may remove it does, acknowledgements are
    confined to the queue they are authorised for, and the sweeper is not
    observable. *)

From S2P Require Import Prelude Encoding Clock Sql Schema StoreM Crypto Accounts Devices Queues.
From S2P Require Import Blobs Steps Invariants Evolution Refine Store Demo Capacity.

Local Open Scope Z_scope.

(** ** Binding the sender key *)

Lemma BindSenderKey_true (sid : string) (key : bytes) (s : St) :
  (BindSenderKey sid key s).1 = inr true ->
  length key = PublicKeySize /\ sql_count (bindable sid) (st_db s).(queues) = 1 /\
  st_db (BindSenderKey sid key s).2 =
    set_queues (sql_update (bindable sid) (q_bind key) (st_db s).(queues)) (st_db s).
Proof.
  unfold BindSenderKey. case_decide as Hk; [done|].
  unfold exec, db_call, mbind, M_bind, mret, M_ret.
  destruct (st_faults s) as [|[] fs]; simpl; try done;
    intros [= Hn%bool_decide_eq_true]; done.
Qed.

(** The sender key of a queue is bound once and for good: after a binding has
    taken effect, whatever is called later, the queue's sender key is that key and no
    other binding takes effect. *)
Theorem sender_key_bound_once `{Crypto} (sid : string) (key key' : bytes) (s : St)
    (later : list call) (clock : Z) (rnd : bytes) (faults : list bool) :
  db_ok (st_db s) -> (BindSenderKey sid key s).1 = inr true ->
  let db := run_calls later (st_db (BindSenderKey sid key s).2) in
  (exists q, q ∈ db.(queues) /\ q_sender_id q = sid /\ q_sender_key q = Some key) /\
  (BindSenderKey sid key' (mkSt db clock rnd faults)).1 <> inr true.
Proof.
  intros Hok Hb db. pose proof (BindSenderKey_true sid key s Hb) as (Hk & Hn & Hdb).
  assert (0 < sql_count (bindable sid) (queues (st_db s))) as (q & Hq & Hqb)%sql_count_pos by lia.
  assert (db_ok (st_db (BindSenderKey sid key s).2)) as Hok'.
  { rewrite Hdb. eapply (db_step_ok 0); [exact Hok|]. by apply step_bind. }
  destruct (run_calls_steps later _ Hok') as [Hs Hok2]. fold db in Hs, Hok2.
  assert (q_bind key q ∈ queues (st_db (BindSenderKey sid key s).2)) as Hqk.
  { rewrite Hdb. apply elem_of_sql_update. exists q. by rewrite decide_True. }
  destruct (ev_queues _ _ (db_steps_evolves _ _ Hs) _ Hqk) as (x & Hx & _ & Hxs & _ & _ & Hxk & _).
  simpl in *. specialize (Hxk key eq_refl). destruct Hqb as (Hqs & _).
  split; [exists x; split_and!; [done|congruence|done]|].
  intros (_ & Hn' & _)%BindSenderKey_true. simpl in Hn'.
  assert (0 < sql_count (bindable sid) (queues db)) as (y & Hy & Hys & Hyk & _)%sql_count_pos by lia.
  assert (x = y) as -> by (eapply (NoDup_fmap_inj q_sender_id); [apply Hok2|..]; congruence).
  congruence.
Qed.

Lemma sender_key_bound_once_witness :
  let s := mkSt (run_calls (H := Toy.toy_crypto) (take 6 Demo.running) empty_db) Demo.t0 [] [] in
  let db := run_calls (H := Toy.toy_crypto) [] (st_db (BindSenderKey Demo.snd Demo.skey s).2) in
  (exists q, q ∈ db.(queues) /\ q_sender_id q = Demo.snd /\ q_sender_key q = Some Demo.skey) /\
  (BindSenderKey Demo.snd Demo.key1 (mkSt db Demo.t0 [] [])).1 <> inr true.
Proof.
  intros s db. apply (sender_key_bound_once (H := Toy.toy_crypto) Demo.snd Demo.skey Demo.key1 s []).
  - apply run_calls_steps, ok_empty.
  - by vm_compute.
Defined.

(** ** Draining *)

(** With a working driver a drain returns the live messages in order, and purges the
    queue's expired ones. *)
Lemma drain_total (rid : string) (db : DB) (clock : Z) (rnd : bytes) :
  integrity db ->
  let r := DrainMessages rid (mkSt db clock rnd []) in
  r.1 = inr (to_message <$> live_messages rid (sec clock) db) /\
  st_db r.2 = set_messages (sql_delete (fun m => m_queue_id m = rid /\ m_expires m <= sec clock)
                              db.(messages)) db.
Proof.
  intros Hi. destruct (DrainMessages_spec rid (mkSt db clock rnd []) Hi)
    as (_ & _ & [(_ & ? & _)|[Hd Hr]]); [done|]. split; [|exact Hd].
  by destruct Hr as [[_ ?]|Hr].
Qed.

(** What a message that was stored adds to the live messages of its queue. *)
Lemma live_messages_appended (id rid : string) (payload : bytes) (received expires now : Z) (db : DB) :
  expires > now ->
  live_messages rid now (appended_db id rid payload received expires db) =
  live_messages rid now db ++
    [mkMessageRow (db.(messages_seq) + 1) id rid payload received expires].
Proof.
  intros He. unfold live_messages. simpl. rewrite filter_app. f_equal.
  apply filter_all. by apply Forall_singleton.
Qed.

(** A message that was stored: the database it is stored in. *)
Lemma append_succeeded (rid : string) (payload : bytes) (ttl : Z) (s : St) (m : Message) :
  integrity (st_db s) -> (AppendMessage rid payload ttl s).1 = inr m ->
  let now := st_clock s in
  m = mkMessage (fresh_id "msg_" (st_rnd s)) rid payload (sec now) (sec (now + ttl)) /\
  Forall (fun x => m_id x <> msg_id m) (st_db s).(messages) /\
  fits rid (Z.of_nat (length payload)) (sec now) (st_db s) /\
  st_db (AppendMessage rid payload ttl s).2 =
    appended_db (msg_id m) rid payload (sec now) (sec (now + ttl)) (st_db s).
Proof.
  intros Hi Hm. pose proof (AppendMessage_spec rid payload ttl s Hi) as Ha. unfold wp in Ha.
  rewrite Hm in Ha. by destruct Ha as (_ & _ & [(? & _)|?]).
Qed.

(** C29: store-and-forward. After a message is stored, a drain of its queue before the
    message expires returns the messages that were live there before, in the order
    they were stored, followed by the new one with its payload unaltered. *)
Theorem append_then_drain (rid : string) (payload : bytes) (ttl clock : Z) (rnd : bytes)
    (s : St) (m : Message) :
  db_ok (st_db s) -> (AppendMessage rid payload ttl s).1 = inr m -> sec clock < msg_expires m ->
  (DrainMessages rid (mkSt (st_db (AppendMessage rid payload ttl s).2) clock rnd [])).1 =
    inr ((to_message <$> live_messages rid (sec clock) (st_db s)) ++ [m]) /\ msg_payload m = payload.
Proof.
  intros Hok Hm Hexp. pose proof (append_succeeded rid payload ttl s m (ok_integrity _ Hok) Hm)
    as (Hmeq & Hf & Hfit & Hdb). rewrite Hdb.
  rewrite (proj1 (drain_total rid _ clock rnd (ok_integrity _
    (db_step_ok _ _ _ _ Hok (step_append _ _ _ _ _ _ _ Hf Hfit))))).
  rewrite Hmeq in Hexp |- *. simpl in *. split; [|done].
  rewrite live_messages_appended by lia. by rewrite fmap_app.
Qed.

Lemma append_then_drain_witness :
  (DrainMessages Demo.rcp (mkSt (st_db (AppendMessage Demo.rcp Demo.hello Hour Demo.s0).2)
     (Demo.t0 + 20 * Second) [] [])).1 =
    inr ((to_message <$> live_messages Demo.rcp (sec (Demo.t0 + 20 * Second)) (st_db Demo.s0)) ++
         [mkMessage (fresh_id "msg_" (Demo.rnd x08)) Demo.rcp Demo.hello 1700000010 1700003610]) /\
  Demo.hello = Demo.hello.
Proof.
  apply (append_then_drain Demo.rcp Demo.hello Hour (Demo.t0 + 20 * Second) [] Demo.s0
    (mkMessage (fresh_id "msg_" (Demo.rnd x08)) Demo.rcp Demo.hello 1700000010 1700003610)).
  - apply Demo.db0_ok.
  - by vm_compute.
  - by vm_compute.
Defined.

(** ** Durability *)

(** Calls that may remove message [m], stored on a queue of device [owner]. *)
Definition may_remove (owner : string) (m : MessageRow) (c : call) : Prop :=
  match c_op c with
  | OpDrainMessages _ | OpPurgeExpired => m_expires m <= sec (c_clock c)
  | OpDeleteMessages rid ids => rid = m_queue_id m /\ m_id m ∈ ids
  | OpRetireQueue rid => rid = m_queue_id m
  | OpRevokeDevice _ id => id = owner
  | _ => False
  end.

(** An event that removes a message is its expiry, its acknowledgement, or the end
    of its queue. *)
Lemma db_step_keeps_message (now : Z) (db : DB) (ev : event) (db' : DB) (m : MessageRow) :
  integrity db -> db_step now db ev db' -> m ∈ db.(messages) -> m ∉ db'.(messages) ->
  match ev with
  | EvExpire => m_expires m <= now
  | EvAck rid ids => rid = m_queue_id m /\ m_id m ∈ ids
  | EvRetire rid => rid = m_queue_id m
  | EvRevoke _ id => queue_owner (m_queue_id m) db = Some id
  | _ => False
  end.
Proof.
  intros Hi Hs Hm Hn.
  assert (forall P `{!forall m, Decision (P m)}, m ∉ sql_delete P db.(messages) -> P m) as Hdel.
  { intros P HP Hnot. apply dec_stable. intros Hp. apply Hnot. by apply elem_of_sql_delete. }
  destruct Hs; simpl in Hn |- *; try (by apply Hn); try (by apply Hdel in Hn; auto).
  - apply Hdel in Hn as (q & Hq & [Hown Hqin]%list_elem_of_filter)%list_elem_of_fmap.
    unfold queue_owner. rewrite Hq, (sql_first_key q_recipient_id _ q (pk_queues _ Hi) Hqin).
    simpl. by rewrite Hown.
  - apply Hn, elem_of_app. by left.
  - by apply Hdel in Hn as [-> ?].
  - apply Hn. unfold upsert_bundle in H. by case_decide; simplify_eq.
Qed.

Lemma call_keeps_message `{Crypto} (owner : string) (m : MessageRow) (c : call) (db : DB) :
  db_ok db -> m ∈ db.(messages) -> queue_owner (m_queue_id m) db = Some owner ->
  ~ may_remove owner m c -> m ∈ (run_call c db).(messages).
Proof.
  intros Hok Hm Ho Hc. destruct (run_call_moves c db (ok_integrity _ Hok)) as [->|(ev & Hev & Hop)]; [done|].
  apply dec_stable. intros Hn.
  pose proof (db_step_keeps_message _ _ _ _ m (ok_integrity _ Hok) Hev Hm Hn) as Hr.
  apply Hc. unfold may_remove. destruct ev; try done; destruct (c_op c); simpl in Hop; try done;
    destr; subst; auto; congruence.
Qed.

Lemma queue_owner_evolves (db db' : DB) (rid owner : string) :
  integrity db -> integrity db' -> evolves db db' ->
  queue_owner rid db = Some owner -> queue_owner rid db' = Some owner.
Proof.
  intros Hi Hi' He (q & Hq & ->)%fmap_Some. apply sql_first_Some in Hq as [Hq <-].
  destruct (ev_queues _ _ He q Hq) as (q' & Hq' & Hqid & _ & Hown & _).
  pose proof (sql_first_key q_recipient_id _ q' (pk_queues _ Hi') Hq') as E. rewrite Hqid in E.
  unfold queue_owner. rewrite E. simpl. by rewrite Hown.
Qed.

Lemma calls_keep_message `{Crypto} (owner : string) (m : MessageRow) (cs : list call) (db : DB) :
  db_ok db -> m ∈ db.(messages) -> queue_owner (m_queue_id m) db = Some owner ->
  Forall (fun c => ~ may_remove owner m c) cs -> m ∈ (run_calls cs db).(messages).
Proof.
  revert db. induction cs as [|c cs IH]; intros db Hok Hm Ho Hc; [done|]. simpl.
  apply Forall_cons in Hc as [Hc Hcs].
  destruct (run_calls_steps [c] db Hok) as [Hs Hok']. simpl in *. apply IH; try done.
  - by eapply call_keeps_message.
  - eapply queue_owner_evolves; [apply Hok|apply Hok'|by apply db_steps_evolves|done].
Qed.

(** C14: no message is lost. A stored message survives any later calls except an
    acknowledgement naming it on its queue, the retirement of its queue, the
    revocation of the device that owns the queue, and a purge at or after its expiry;
    and until it expires every drain of its queue by a working driver returns it,
    unaltered. *)
Theorem message_durable `{Crypto} (rid owner : string) (payload : bytes) (ttl : Z) (s : St)
    (m : Message) (later : list call) (clock : Z) (rnd : bytes) :
  db_ok (st_db s) -> (AppendMessage rid payload ttl s).1 = inr m ->
  queue_owner rid (st_db s) = Some owner ->
  let row := mkMessageRow ((st_db s).(messages_seq) + 1) (msg_id m) rid payload
               (msg_received_at m) (msg_expires m) in
  Forall (fun c => ~ may_remove owner row c) later -> sec clock < msg_expires m ->
  let db := run_calls later (st_db (AppendMessage rid payload ttl s).2) in
  exists ms, (DrainMessages rid (mkSt db clock rnd [])).1 = inr ms /\ m ∈ ms.
Proof.
  intros Hok Hm Ho row Hl Hexp db.
  pose proof (append_succeeded rid payload ttl s m (ok_integrity _ Hok) Hm) as (Hmeq & Hf & Hfit & Hdb).
  pose proof (step_append _ _ _ _ _ _ _ Hf Hfit : db_step _ _ _ (appended_db (msg_id m) rid payload
    (sec (st_clock s)) (sec (st_clock s + ttl)) (st_db s))) as Hs. rewrite <- Hdb in Hs.
  pose proof (db_step_ok _ _ _ _ Hok Hs) as Hok'.
  destruct (run_calls_steps later _ Hok') as [_ Hok2]. fold db in Hok2.
  exists (to_message <$> live_messages rid (sec clock) db).
  split; [apply drain_total, Hok2|]. apply list_elem_of_fmap. exists row.
  split; [unfold row; clear -Hmeq; by subst m|].
  apply list_elem_of_filter. split; [simpl; split; [done|lia]|].
  apply (calls_keep_message owner row later); [done| | |done].
  - rewrite Hdb. apply elem_of_app. right. apply list_elem_of_singleton.
    unfold row. clear -Hmeq. by subst m.
  - eapply queue_owner_evolves; [apply Hok|apply Hok'|by eapply db_step_evolves|done].
Qed.

Lemma message_durable_witness :
  let later := [Demo.at_ OpPurgeExpired 30 x00; Demo.at_ (OpDrainMessages Demo.rcp) 31 x00;
                Demo.at_ (OpDeleteMessages Demo.rcp [Demo.msg1]) 32 x00] in
  let db := run_calls (H := Toy.toy_crypto) later
              (st_db (AppendMessage Demo.rcp Demo.hello Hour Demo.s0).2) in
  exists ms, (DrainMessages Demo.rcp (mkSt db (Demo.t0 + 40 * Second) [] [])).1 = inr ms /\
    mkMessage (fresh_id "msg_" (Demo.rnd x08)) Demo.rcp Demo.hello 1700000010 1700003610 ∈ ms.
Proof.
  intros later db.
  apply (message_durable (H := Toy.toy_crypto) Demo.rcp Demo.dev1 Demo.hello Hour Demo.s0
    (mkMessage (fresh_id "msg_" (Demo.rnd x08)) Demo.rcp Demo.hello 1700000010 1700003610) later
    (Demo.t0 + 40 * Second) []).
  - apply Demo.db0_ok.
  - by vm_compute.
  - by vm_compute.
  - subst later. repeat (apply Forall_cons; split); [by vm_compute|by vm_compute| |by apply Forall_nil].
    intros [_ Hin]. vm_compute in Hin. by apply list_elem_of_singleton in Hin.
  - by vm_compute.
Defined.

(** ** Acknowledgement, retirement and expiry *)

(** An acknowledgement deletes the messages it names from the queue it is made
    on, reports how many there were, and touches nothing else: not the messages of
    another queue, even if their identifiers are named. *)
Theorem ack_confined (rid : string) (ids : list string) (s : St) (n : Z) :
  (DeleteMessages rid ids s).1 = inr n ->
  let db := st_db s in
  let db' := st_db (DeleteMessages rid ids s).2 in
  n = sql_count (fun m => m_queue_id m = rid /\ m_id m ∈ ids) db.(messages) /\
  db' = set_messages db'.(messages) db /\
  forall m, m ∈ db'.(messages) <-> m ∈ db.(messages) /\ ~ (m_queue_id m = rid /\ m_id m ∈ ids).
Proof.
  intros Hn. pose proof (DeleteMessages_spec rid ids s) as Hd. unfold wp in Hd. rewrite Hn in Hd.
  destruct Hd as (_ & _ & [(? & _)|[-> Hdb]]); [done|]. simpl. rewrite Hdb. split_and!; [done|done|].
  intros m. simpl. rewrite elem_of_sql_delete. tauto.
Qed.

Lemma ack_confined_witness :
  let db' := st_db (DeleteMessages Demo.rcp [Demo.msg1; "other"%string] Demo.s0).2 in
  1 = sql_count (fun m => m_queue_id m = Demo.rcp /\ m_id m ∈ [Demo.msg1; "other"%string])
        (st_db Demo.s0).(messages) /\
  db' = set_messages db'.(messages) (st_db Demo.s0) /\
  forall m, m ∈ db'.(messages) <-> m ∈ (st_db Demo.s0).(messages) /\
    ~ (m_queue_id m = Demo.rcp /\ m_id m ∈ [Demo.msg1; "other"%string]).
Proof. apply (ack_confined Demo.rcp [Demo.msg1; "other"%string] Demo.s0 1). by vm_compute. Defined.

(** Purging at [now] leaves the messages live at any later second. *)
Lemma live_purged (rid : string) (now t : Z) (db : DB) :
  now <= t ->
  live_messages rid t (set_messages (sql_delete (fun m => m_expires m <= now) db.(messages)) db) =
  live_messages rid t db.
Proof.
  intros Ht. unfold live_messages. simpl. unfold sql_delete. rewrite list_filter_filter.
  apply list_filter_iff. intros m. split; [tauto|]. intros [? ?]. split; [done|lia].
Qed.

(** And the bytes of those live then that belong to whomever. *)
Lemma live_sum_purged (P : MessageRow -> Prop) `{!forall m, Decision (P m)} (now t : Z) (l : list MessageRow) :
  now <= t ->
  sql_sum m_size (filter (fun m => P m /\ m_expires m > t) (sql_delete (fun m => m_expires m <= now) l)) =
  sql_sum m_size (filter (fun m => P m /\ m_expires m > t) l).
Proof.
  intros Ht. unfold sql_delete. rewrite list_filter_filter. f_equal. apply list_filter_iff. intros m.
  split; [tauto|]. intros [? ?]. split; [done|lia].
Qed.

(** C37: the background sweeper cannot be observed: whatever the driver does to its
    statement, a drain of any queue at that second or later returns what it would
    have returned without it, and the byte totals the three ceilings are checked against -
    of any queue, any device and any account - are the same. *)
Theorem purge_unobservable (rid dev acc : string) (s : St) (clock : Z) (rnd : bytes) :
  db_ok (st_db s) -> st_clock s <= clock ->
  let db := st_db s in
  let db' := st_db (PurgeExpired s).2 in
  (DrainMessages rid (mkSt db' clock rnd [])).1 = (DrainMessages rid (mkSt db clock rnd [])).1 /\
  queue_bytes rid (sec clock) db' = queue_bytes rid (sec clock) db /\
  device_bytes dev (sec clock) db' = device_bytes dev (sec clock) db /\
  account_bytes acc (sec clock) db' = account_bytes acc (sec clock) db.
Proof.
  intros Hok Hc db db'. apply sec_mono in Hc.
  assert (db' = db \/
    db' = set_messages (sql_delete (fun m => m_expires m <= sec (st_clock s)) db.(messages)) db)
    as [->|Hdb].
  { subst db'. unfold PurgeExpired, nowStr, now_ns, exec, db_call, mbind, M_bind, mret, M_ret. simpl.
    destruct (st_faults s) as [|[] fs]; auto. }
  { done. }
  assert (db_ok db') as Hok'.
  { rewrite Hdb. eapply db_step_ok; [exact Hok|].
    by apply (step_expire (sec (st_clock s)) _ (fun m => _)). }
  split_and!.
  - rewrite (proj1 (drain_total rid db' clock rnd (ok_integrity _ Hok'))).
    rewrite (proj1 (drain_total rid db clock rnd (ok_integrity _ Hok))).
    by rewrite Hdb, live_purged.
  - unfold queue_bytes. pose proof (live_purged rid _ _ db Hc) as E. rewrite <- Hdb in E.
    unfold live_messages in E. by rewrite E.
  - rewrite !device_bytes_eq by (apply Hok || apply Hok'). rewrite Hdb. by apply live_sum_purged.
  - rewrite !account_bytes_eq by (apply Hok || apply Hok'). rewrite Hdb. by apply live_sum_purged.
Qed.

(** The sweeper runs eight days later, when the message has expired, and removes it. *)
Lemma purge_unobservable_witness :
  let s := mkSt Demo.db0 (Demo.t0 + 8 * 24 * Hour) [] [] in
  let db' := st_db (PurgeExpired s).2 in
  length Demo.db0.(messages) = 1%nat /\ db'.(messages) = [] /\
  (DrainMessages Demo.rcp (mkSt db' (Demo.t0 + 9 * 24 * Hour) [] [])).1 =
    (DrainMessages Demo.rcp (mkSt Demo.db0 (Demo.t0 + 9 * 24 * Hour) [] [])).1 /\
  queue_bytes Demo.rcp (sec (Demo.t0 + 9 * 24 * Hour)) db' =
    queue_bytes Demo.rcp (sec (Demo.t0 + 9 * 24 * Hour)) Demo.db0 /\
  device_bytes Demo.dev1 (sec (Demo.t0 + 9 * 24 * Hour)) db' =
    device_bytes Demo.dev1 (sec (Demo.t0 + 9 * 24 * Hour)) Demo.db0 /\
  account_bytes Demo.acc (sec (Demo.t0 + 9 * 24 * Hour)) db' =
    account_bytes Demo.acc (sec (Demo.t0 + 9 * 24 * Hour)) Demo.db0.
Proof.
  intros s db'. split; [by vm_compute|]. split; [by vm_compute|].
  apply (purge_unobservable Demo.rcp Demo.dev1 Demo.acc s (Demo.t0 + 9 * 24 * Hour) []).
  - apply Demo.db0_ok.
  - by vm_compute.
Defined.
