(* ===== verification/Journal.v ===== *)
(** * The administrative statement log

    What a reader of the per-account log of opaque statements can rely on. *)

From S2P Require Import Prelude Encoding Clock Sql Schema StoreM Crypto Accounts Devices Queues.
From S2P Require Import Blobs Steps Invariants Evolution Refine Store Demo.

Local Open Scope Z_scope.

Lemma StronglySorted_seqZ (n k : Z) : StronglySorted Z.lt (seqZ n k).
Proof.
  remember (Z.to_nat k) as len eqn:E. revert n k E. induction len as [|len IH]; intros n k E.
  { rewrite seqZ_nil by lia. constructor. }
  rewrite seqZ_cons by lia. constructor; [apply IH; lia|]. apply Forall_seqZ. lia.
Qed.

(** The statements of an account after [since], in order: the rows themselves. *)
Lemma list_statements_total (acc : string) (since clock : Z) (rnd : bytes) (db : DB) :
  db_ok db ->
  (ListStatements acc since (mkSt db clock rnd [])).1 =
    inr ((fun s => mkStatement (s_seq s) (s_blob s) (s_created s)) <$>
           filter (fun s => ~ s_seq s <= since) (account_log acc db)).
Proof.
  intros Hok. unfold ListStatements, query, db_call. simpl. do 2 f_equal.
  assert (filter (fun s => s_account_id s = acc /\ s_seq s > since) (statements db) =
          filter (fun s => ~ s_seq s <= since) (account_log acc db)) as ->.
  { unfold account_log. rewrite list_filter_filter. apply list_filter_iff. intros s.
    split; intros [? ?]; split; try done; lia. }
  apply (sql_order_sorted s_seq); [done|].
  destruct (ok_log _ Hok acc) as (n & k & Hl & _).
  pose proof (filter_fmap s_seq (fun z => ~ z <= since) (account_log acc db)) as Hf.
  simpl in Hf. rewrite <- Hf, Hl.
  eapply sublist_StronglySorted; [apply sublist_filter|apply StronglySorted_seqZ].
Qed.

(** The sequence numbers a reader gets. *)
Lemma list_statements_seqs (acc : string) (since : Z) (db : DB) :
  db_ok db -> max_seq acc db - MaxStatementsPerAccount <= since <= max_seq acc db -> 0 <= since ->
  s_seq <$> filter (fun s => ~ s_seq s <= since) (account_log acc db) =
    seqZ (since + 1) (max_seq acc db - since).
Proof.
  intros Hok Hs H0. destruct (ok_log _ Hok acc) as (n & k & Hl & Hn & [Hk Hm] & Hfull).
  rewrite (max_seq_ok acc db n k) in * by done.
  pose proof (filter_fmap s_seq (fun z => ~ z <= since) (account_log acc db)) as Hf.
  simpl in Hf. rewrite <- Hf, Hl, filter_seqZ by done.
  case_decide as Hk0.
  - rewrite !seqZ_nil by lia. done.
  - unfold MaxStatementsPerAccount in *. f_equal; lia.
Qed.

(** C36: a reader that polls the log with the last number it saw misses nothing,
    provided it is at most [MaxStatementsPerAccount] statements behind: it gets every
    later statement exactly once, in order, with consecutive numbers up to the latest;
    and never more than [MaxStatementsPerAccount] of them. *)
Theorem statement_reader_misses_nothing `{Crypto} (cs : list call) (acc : string)
    (since clock : Z) (rnd : bytes) :
  let db := run_calls cs empty_db in
  max_seq acc db - MaxStatementsPerAccount <= since <= max_seq acc db -> 0 <= since ->
  exists sts, (ListStatements acc since (mkSt db clock rnd [])).1 = inr sts /\
    st_seq <$> sts = seqZ (since + 1) (max_seq acc db - since) /\
    Z.of_nat (length sts) <= MaxStatementsPerAccount.
Proof.
  intros db Hs H0. assert (db_ok db) as Hok by apply run_calls_steps, ok_empty.
  eexists. split; [by apply list_statements_total|]. rewrite <- list_fmap_compose.
  pose proof (list_statements_seqs acc since db Hok Hs H0) as Hq. split; [exact Hq|].
  apply (f_equal length) in Hq. rewrite length_fmap, length_seqZ in Hq.
  rewrite length_fmap, Hq. lia.
Qed.

Lemma statement_reader_misses_nothing_witness :
  let cs := Demo.enrolled ++ [Demo.at_ (OpAppendStatement Demo.acc Demo.hello) 20 x00;
                              Demo.at_ (OpAppendStatement Demo.acc Demo.hello) 21 x00] in
  let db := run_calls (H := Toy.toy_crypto) cs empty_db in
  max_seq Demo.acc db = 2 /\
  exists sts, (ListStatements Demo.acc 1 (mkSt db Demo.t0 [] [])).1 = inr sts /\
    st_seq <$> sts = seqZ (1 + 1) (max_seq Demo.acc db - 1) /\
    Z.of_nat (length sts) <= MaxStatementsPerAccount.
Proof.
  intros cs db. split; [by vm_compute|].
  apply (statement_reader_misses_nothing (H := Toy.toy_crypto) cs Demo.acc 1 Demo.t0 []).
  - split; by vm_compute.
  - by vm_compute.
Defined.

(** Appending a statement stores exactly the bytes given under the next number of
    the account, one past every number ever given out, and a reader asking for what
    came after the previous one gets it and nothing else; the logs of other accounts
    are untouched. *)
Theorem statement_append_read `{Crypto} (acc acc' : string) (blob : bytes) (s : St) (st : Statement)
    (clock : Z) (rnd : bytes) :
  db_ok (st_db s) -> (AppendStatement acc blob s).1 = inr st ->
  let db := st_db s in
  let db' := st_db (AppendStatement acc blob s).2 in
  st = mkStatement (max_seq acc db + 1) blob (sec (st_clock s)) /\
  max_seq acc db' = max_seq acc db + 1 /\
  (ListStatements acc (max_seq acc db) (mkSt db' clock rnd [])).1 = inr [st] /\
  (acc' <> acc -> account_log acc' db' = account_log acc' db).
Proof.
  intros Hok Hst db db'.
  pose proof (AppendStatement_spec acc blob s) as Ha. unfold wp in Ha. rewrite Hst in Ha.
  destruct Ha as (_ & _ & [(? & _)|(-> & Hacc & Hb & Hmax & Hdb)]); [done|].
  assert (db_ok db') as Hok' by (unfold db'; rewrite Hdb; by apply ok_logged).
  assert (account_log acc db' = filter (fun s => ~ s_seq s <= max_seq acc db + 1 - MaxStatementsPerAccount)
    (account_log acc db ++ [mkStatementRow acc (max_seq acc db + 1) blob (sec (st_clock s))])) as Hlog
    by (unfold db'; rewrite Hdb, account_log_logged; by rewrite decide_True).
  destruct (ok_log _ Hok acc) as (n & k & Hl & Hn & [Hk Hm] & _).
  assert (Forall (fun x => s_seq x <= max_seq acc db) (account_log acc db)) as Hle.
  { apply (Forall_fmap s_seq (fun z => z <= max_seq acc db)). fold db in Hl. rewrite Hl.
    apply Forall_seqZ. fold db. rewrite (max_seq_ok acc db n k) by done. case_decide; lia. }
  set (row := mkStatementRow acc (max_seq acc db + 1) blob (sec (st_clock s))) in *.
  assert (filter (fun s => ~ s_seq s <= max_seq acc db) (account_log acc db') = [row]) as Hnew.
  { rewrite Hlog, list_filter_filter, filter_app.
    rewrite (filter_none _ (account_log acc db)), (filter_all _ [row]); [done|..].
    - apply Forall_singleton. simpl. unfold MaxStatementsPerAccount. lia.
    - eapply Forall_impl; [exact Hle|]. simpl. intros x Hx [? _]. lia. }
  split_and!; [done| | |].
  - destruct (ok_log _ Hok' acc) as (n' & k' & Hl' & Hn' & [Hk' _] & _).
    assert (row ∈ account_log acc db') as Hrow.
    { apply (list_elem_of_filter (fun s => ~ s_seq s <= max_seq acc db)). rewrite Hnew. left. }
    assert (Forall (fun z => z <= max_seq acc db + 1) (seqZ n' k')) as Hall.
    { rewrite <- Hl'. apply Forall_fmap, Forall_forall. intros x Hx. rewrite Hlog in Hx.
      apply list_elem_of_filter in Hx as [_ Hx]. rewrite Forall_forall in Hle.
      apply elem_of_app in Hx as [Hx| ->%list_elem_of_singleton]; simpl; [|lia].
      specialize (Hle x Hx). simpl in Hle. lia. }
    apply (list_elem_of_fmap_2 s_seq) in Hrow. rewrite Hl' in Hrow. apply elem_of_seqZ in Hrow.
    rewrite (max_seq_ok acc db' n' k') by done. rewrite Forall_seqZ in Hall.
    specialize (Hall (n' + k' - 1)). simpl in Hrow. case_decide; lia.
  - rewrite list_statements_total by done. by rewrite Hnew.
  - intros Hne. unfold db'. rewrite Hdb, account_log_logged. by rewrite decide_False.
Qed.

Lemma statement_append_read_witness :
  let s := mkSt Demo.db0 Demo.t0 [] [] in
  let db' := st_db (AppendStatement Demo.acc Demo.hello s).2 in
  mkStatement 1 Demo.hello (sec Demo.t0) =
    mkStatement (max_seq Demo.acc Demo.db0 + 1) Demo.hello (sec Demo.t0) /\
  max_seq Demo.acc db' = max_seq Demo.acc Demo.db0 + 1 /\
  (ListStatements Demo.acc (max_seq Demo.acc Demo.db0) (mkSt db' Demo.t0 [] [])).1 =
    inr [mkStatement 1 Demo.hello (sec Demo.t0)] /\
  ("other"%string <> Demo.acc -> account_log "other" db' = account_log "other" Demo.db0).
Proof.
  intros s db'.
  apply (statement_append_read (H := Toy.toy_crypto) Demo.acc "other" Demo.hello s
    (mkStatement 1 Demo.hello (sec Demo.t0))).
  - apply Demo.db0_ok.
  - by vm_compute.
Defined.
