(* ===== verification/Reread.v ===== *)
(** * What is written is read back

    A row a method of the store inserts, read again later by another method: both as the
    statements they send, so through the columns of the file and the scanning of results. *)

From S2P Require Import Prelude Encoding Clock Decimal Sql Schema StoreM Crypto Accounts Devices Queues Blobs.
From S2P Require Import Steps Invariants Evolution Refine Store Demo Sqlite SqlStore Rows Represent Simulation.
From S2P Require Import Catalog Persist Capacity Delivery Journal.

Local Open Scope Z_scope.

Section reread.
Context `{Crypto}.

(** Reading, later and by a working driver, the file a call has left. *)
Definition reread {A} (op : store_op A) (later : Z) (rnd : bytes) (s' : FileSt) : error + A :=
  (run_sql op (mkFileSt (fs_file s') later rnd [])).1.

(** ** On records *)

Lemma GetDevice_in (d : Device) (db : DB) (later : Z) (rnd : bytes) :
  integrity db -> d ∈ db.(devices) -> (GetDevice (d_id d) (mkSt db later rnd [])).1 = inr d.
Proof.
  intros Hi Hd. unfold GetDevice, on_no_rows, query_row, db_call. cbn.
  by rewrite (sql_first_key d_id _ d (pk_devices _ Hi) Hd).
Qed.

Lemma get_queue_in (q : Queue) (db : DB) (later : Z) (rnd : bytes) :
  integrity db -> q ∈ db.(queues) ->
  (GetQueueByRecipient (q_recipient_id q) (mkSt db later rnd [])).1 = inr q /\
  (GetQueueBySender (q_sender_id q) (mkSt db later rnd [])).1 = inr q.
Proof.
  intros Hi Hq. unfold GetQueueByRecipient, GetQueueBySender, on_no_rows, query_row, db_call. cbn.
  by rewrite (sql_first_key q_recipient_id _ q (pk_queues _ Hi) Hq), (sql_first_key q_sender_id _ q (uq_queues_sender _ Hi) Hq).
Qed.

Lemma RegisterDevice_stored (token push caps : string) (pub : bytes) (s : St) (d : Device) :
  db_ok (st_db s) -> (RegisterDevice token pub push caps s).1 = inr d ->
  let now := sec (st_clock s) in
  let db' := st_db (RegisterDevice token pub push caps s).2 in
  d = mkDevice (d_id d) (d_account_id d) pub push caps now now false (d_role d) 0 /\
  d ∈ db'.(devices) /\ integrity db'.
Proof.
  intros Hok Hr now db'. pose proof (RegisterDevice_spec token push caps pub s (ok_integrity _ Hok)) as Hsp.
  unfold wp in Hsp. rewrite Hr in Hsp. destruct Hsp as (_ & _ & [(? & _)|Hreg]); [done|].
  pose proof (registered_step token push caps pub s d _ Hreg) as Hstep.
  destruct Hreg as (i & a & _ & _ & _ & _ & _ & _ & Hd & Hdb). fold db' in Hdb.
  split_and!; [by rewrite Hd|rewrite Hdb; apply elem_of_app; right; by left|]. apply (db_step_ok _ _ _ _ Hok Hstep).
Qed.

Lemma CreateQueue_stored (owner : string) (key : bytes) (s : St) (q : Queue) :
  db_ok (st_db s) -> (CreateQueue owner key s).1 = inr q ->
  let db' := st_db (CreateQueue owner key s).2 in
  q = mkQueue (q_recipient_id q) (q_sender_id q) owner key None (sec (st_clock s)) false 0 /\
  q ∈ db'.(queues) /\ integrity db'.
Proof.
  intros Hok Hr db'. pose proof (CreateQueue_spec owner key s) as Hsp. unfold wp in Hsp. rewrite Hr in Hsp.
  destruct Hsp as (_ & _ & [(? & _)|Hstep]); [done|]. apply and_assoc. split; [|apply (db_step_ok _ _ _ _ Hok Hstep)].
  clear Hstep. revert q Hr. change (wp (CreateQueue owner key) s (fun r s' => forall q, r = inr q ->
    q = mkQueue (q_recipient_id q) (q_sender_id q) owner key None (sec (st_clock s)) false 0 /\ q ∈ (st_db s').(queues))).
  unfold CreateQueue. apply wp_if; intros Hk; [by wp_step|].
  do 2 (wp_step; wp_step; [done|]). wp_step. wp_step. wp_step. wp_step; [done|]. cbn.
  unfold insert_queue. case_decide; cbn; [|done]. destruct (sql_insert _ _ _) as [t|] eqn:E; cbn; [|done].
  apply sql_insert_Some in E as [-> _]. wp_step. intros q [= <-]. split; [done|].
  apply elem_of_app. right. by left.
Qed.

Lemma SetBundle_stored (dev : string) (blob : bytes) (s : St) (later : Z) (rnd : bytes) :
  db_ok (st_db s) -> (SetBundle dev blob s).1 = inr tt ->
  (GetBundle dev (mkSt (st_db (SetBundle dev blob s).2) later rnd [])).1 = inr (blob, sec (st_clock s)).
Proof.
  intros Hok. change (wp (SetBundle dev blob) s (fun r s' => r = inr tt ->
    (GetBundle dev (mkSt (st_db s') later rnd [])).1 = inr (blob, sec (st_clock s)))).
  unfold SetBundle. wp_step. wp_step. wp_step. wp_step; [done|]. cbn.
  destruct (upsert_bundle _ _) as [[db' n]|] eqn:E; [|done]. wp_step. intros _.
  assert (integrity db') as Hi'.
  { apply (db_step_ok _ _ _ _ Hok (step_bundle (sec (st_clock s)) _ _ _ _ E)). }
  set (b := mkBundle dev blob (sec (st_clock s))) in *.
  assert (b ∈ db'.(bundles)) as Hb.
  { unfold upsert_bundle in E. case_decide; [|done]. injection E as <- <-. cbn [bundles set_bundles b_device_id].
    destruct (decide (sql_count _ _ = 0)) as [Hc|Hc]; [apply elem_of_app; right; by left|].
    assert (0 < sql_count (fun x => b_device_id x = b_device_id b) (bundles (st_db s))) as Hp.
    { assert (sql_count (fun x => b_device_id x = b_device_id b) (bundles (st_db s)) <> 0) as Hc' by exact Hc.
      unfold sql_count in *. lia. }
    apply sql_count_pos in Hp as (x & Hx & Hid). apply elem_of_sql_update. exists x. by rewrite decide_True. }
  unfold GetBundle, on_no_rows, query_row, db_call. cbn.
  by rewrite (sql_first_key b_device_id _ b (pk_bundles _ Hi') Hb).
Qed.

Lemma BindSenderKey_stored (sid : string) (key : bytes) (s : St) (later : Z) (rnd : bytes) :
  db_ok (st_db s) -> (BindSenderKey sid key s).1 = inr true ->
  exists q, (GetQueueBySender sid (mkSt (st_db (BindSenderKey sid key s).2) later rnd [])).1 = inr q /\
    q_sender_id q = sid /\ q_sender_key q = Some key.
Proof.
  intros Hok Hb. destruct (BindSenderKey_true sid key s Hb) as (Hk & Hn & ->).
  assert (0 < sql_count (bindable sid) (queues (st_db s))) as Hc by lia.
  apply sql_count_pos in Hc as (q & Hq & Hbq). exists (q_bind key q).
  pose proof (db_step_ok 0 _ _ _ Hok (step_bind 0 (st_db s) sid key Hk)) as Hok'.
  destruct Hbq as (Hsid & Hnone & Hr). split; [|done]. rewrite <- Hsid at 1.
  apply (get_queue_in (q_bind key q)); [apply Hok'|]. apply elem_of_sql_update. exists q. by rewrite decide_True.
Qed.

(** ** On the file *)

Lemma run_then_reread {A B} (op : store_op A) (read : store_op B) (fs fs' : FileSt) (s : St) (a : A) (later : Z) (rnd : bytes) :
  agrees fs s -> typed_op op -> typed_op read -> sane_clock later -> run_sql op fs = (inr a, fs') ->
  (run_op op s).1 = inr a /\
  reread read later rnd fs' = (run_op read (mkSt (st_db (run_op op s).2) later rnd [])).1.
Proof using.
  intros Hs Hop Hread Hl E. destruct (sim_op op Hop fs s Hs) as [Hr Ha]. apply results_rel_eq in Hr.
  rewrite E in Hr, Ha. split; [done|]. unfold reread. apply results_rel_eq.
  apply (sim_op read Hread (mkFileSt _ later rnd []) (mkSt _ later rnd [])). split; try done. apply Ha.
Qed.

(** C21: what a method has inserted into the file, another reads back from it as it was
    given. On a file that holds a well-formed database, at any time a working driver:
    a device that has registered is what [GetDevice] scans, with the key, endpoint and
    capabilities it registered with; a queue that was created is found under both its
    identifiers, with the recipient key it was created with and no sender key; a sender key
    that was bound is the key the queue has; a bundle that was set and a statement that was
    appended are read byte for byte, with their times; and a message that was stored is the
    last one a drain returns while it is live. *)
Theorem stored_rows_read_back (fs : FileSt) (db : DB) (later : Z) (rnd : bytes) :
  represents (fs_file fs) db -> db_ok db -> sane_clock (fs_clock fs) -> sane_clock later ->
  let now := sec (fs_clock fs) in
  (forall token pub push caps d fs',
     run_sql (OpRegisterDevice token pub push caps) fs = (inr d, fs') ->
     reread (OpGetDevice (d_id d)) later rnd fs' = inr d /\
     d = mkDevice (d_id d) (d_account_id d) pub push caps now now false (d_role d) 0) /\
  (forall owner key q fs',
     run_sql (OpCreateQueue owner key) fs = (inr q, fs') ->
     reread (OpGetQueueByRecipient (q_recipient_id q)) later rnd fs' = inr q /\
     reread (OpGetQueueBySender (q_sender_id q)) later rnd fs' = inr q /\
     q = mkQueue (q_recipient_id q) (q_sender_id q) owner key None now false 0) /\
  (forall sid key fs',
     run_sql (OpBindSenderKey sid key) fs = (inr true, fs') ->
     exists q, reread (OpGetQueueBySender sid) later rnd fs' = inr q /\ q_sender_id q = sid /\ q_sender_key q = Some key) /\
  (forall dev blob fs',
     run_sql (OpSetBundle dev blob) fs = (inr tt, fs') -> reread (OpGetBundle dev) later rnd fs' = inr (blob, now)) /\
  (forall acc blob x fs',
     run_sql (OpAppendStatement acc blob) fs = (inr x, fs') ->
     reread (OpListStatements acc (st_seq x - 1)) later rnd fs' = inr [x] /\ x = mkStatement (st_seq x) blob now) /\
  (forall rid payload ttl m fs', is_int64 ttl ->
     run_sql (OpAppendMessage rid payload ttl) fs = (inr m, fs') -> sec later < msg_expires m -> fs_clock fs <= later ->
     (exists ms, reread (OpDrainMessages rid) later rnd fs' = inr (ms ++ [m])) /\
     m = mkMessage (msg_id m) rid payload now (sec (fs_clock fs + ttl))).
Proof.
  intros Hf Hok Hc Hl now. set (s := mkSt db (fs_clock fs) (fs_rnd fs) (fs_faults fs)).
  assert (agrees fs s) as Hs by by split.
  assert (integrity (st_db s)) as Hi by apply Hok.
  split_and!.
  - intros token pub push caps d fs' E.
    destruct (run_then_reread (OpRegisterDevice token pub push caps) (OpGetDevice (d_id d)) _ _ s _ later rnd Hs I I Hl E) as [Hr ->].
    destruct (RegisterDevice_stored token push caps pub s d Hok Hr) as (Hd & Hin & Hi').
    split; [by apply GetDevice_in|exact Hd].
  - intros owner key q fs' E.
    destruct (run_then_reread (OpCreateQueue owner key) (OpGetQueueByRecipient (q_recipient_id q)) _ _ s _ later rnd Hs I I Hl E) as [Hr ->].
    destruct (run_then_reread (OpCreateQueue owner key) (OpGetQueueBySender (q_sender_id q)) _ _ s _ later rnd Hs I I Hl E) as [_ ->].
    cbn [run_op] in Hr |- *. destruct (CreateQueue_stored owner key s q Hok Hr) as (Hq & Hin & Hi').
    destruct (get_queue_in q _ later rnd Hi' Hin) as [H1 H2]. by split_and!.
  - intros sid key fs' E.
    destruct (run_then_reread (OpBindSenderKey sid key) (OpGetQueueBySender sid) _ _ s _ later rnd Hs I I Hl E) as [Hr ->].
    by apply BindSenderKey_stored.
  - intros dev blob fs' E.
    destruct (run_then_reread (OpSetBundle dev blob) (OpGetBundle dev) _ _ s _ later rnd Hs I I Hl E) as [Hr ->].
    by apply SetBundle_stored.
  - intros acc blob x fs' E.
    destruct (run_then_reread (OpAppendStatement acc blob) (OpListStatements acc (st_seq x - 1)) _ _ s _ later rnd Hs I I Hl E) as [Hr ->].
    destruct (statement_append_read acc acc blob s x later rnd Hok Hr) as (Hx & _ & Hread & _).
    split; [|by rewrite Hx]. rewrite Hx at 1. cbn [st_seq]. by rewrite Z.add_simpl_r.
  - intros rid payload ttl m fs' Httl E Hexp Hle.
    destruct (run_then_reread (OpAppendMessage rid payload ttl) (OpDrainMessages rid) _ _ s _ later rnd Hs Httl I Hl E) as [Hr ->].
    cbn [run_op] in Hr |- *. destruct (append_succeeded rid payload ttl s m Hi Hr) as (Hm & Hfr & Hfit & Hdb).
    split; [|by rewrite Hm]. eexists. rewrite Hdb.
    rewrite (proj1 (drain_total rid _ later rnd (ok_integrity _
      (db_step_ok _ _ _ _ Hok (step_append _ _ _ _ _ _ _ Hfr Hfit))))).
    rewrite Hm in Hexp |- *. cbn [msg_expires msg_id] in Hexp |- *. rewrite live_messages_appended by (cbn in *; lia). by rewrite fmap_app.
Qed.
End reread.

(** ** On the demonstration file *)

Section example.

Lemma stored_rows_read_back_witness :
  let fs := mkFileSt (write_db Demo.db0) (Demo.t0 + 10 * Second) (repeat x08 64) [] in
  let out := run_sql (H := Toy.toy_crypto) (OpCreateQueue Demo.dev1 (repeat x01 32)) fs in
  exists q, out.1 = inr q /\
    reread (H := Toy.toy_crypto) (OpGetQueueByRecipient (q_recipient_id q)) (Demo.t0 + Hour) [] out.2 = inr q /\
    reread (H := Toy.toy_crypto) (OpGetQueueBySender (q_sender_id q)) (Demo.t0 + Hour) [] out.2 = inr q /\
    q = mkQueue (q_recipient_id q) (q_sender_id q) Demo.dev1 (repeat x01 32) None (sec (fs_clock fs)) false 0.
Proof.
  assert (sane_clock (Demo.t0 + 10 * Second)) as Hc by by vm_compute.
  assert (sane_clock (Demo.t0 + Hour)) as Hl by by vm_compute.
  intros fs out.
  destruct (stored_rows_read_back (H := Toy.toy_crypto) fs Demo.db0 (Demo.t0 + Hour) []
    demo_represents Demo.db0_ok Hc Hl) as (_ & Hqueue & _).
  assert (exists q, out.1 = inr q) as [q Hq] by (eexists; by vm_compute). exists q. split; [exact Hq|].
  apply (Hqueue Demo.dev1 (repeat x01 32) q out.2). rewrite <- Hq. apply surjective_pairing.
Defined.
End example.
