(* ===== verification/Isolation.v ===== *)
(** * Tenants do not touch each other

    Everything an account owns, as one value ([tenant]); the account each event of
    the store concerns ([touches]); and that no other account's value changes. *)

From S2P Require Import Prelude Encoding Clock Sql Schema StoreM Crypto Accounts Devices.
From S2P Require Import Queues Blobs Steps Invariants Evolution Refine Store Capacity.

Local Open Scope Z_scope.

(** ** What an account owns *)

Definition device_account (id : string) (db : DB) : option string :=
  d_account_id <$> sql_first (fun d => d_id d = id) db.(devices).

Record Tenant := mkTenant {
  t_account : list Account;
  t_invitations : list InvitationRow;
  t_devices : list Device;
  t_queues : list Queue;
  t_messages : list MessageRow;
  t_bundles : list Bundle;
  t_log : list StatementRow;
}.

Definition tenant (acc : string) (db : DB) : Tenant := mkTenant
  (filter (fun a => a_id a = acc) db.(accounts))
  (filter (fun i => i_account_id i = acc) db.(invitations))
  (filter (fun d => d_account_id d = acc) db.(devices))
  (filter (fun q => device_account (q_owner_device q) db = Some acc) db.(queues))
  (filter (fun m => queue_account (m_queue_id m) db = Some acc) db.(messages))
  (filter (fun b => device_account (b_device_id b) db = Some acc) db.(bundles))
  (account_log acc db).

(** The account an event concerns. Expiry concerns no one in particular. *)
Definition touches (acc : string) (db : DB) (ev : event) : Prop :=
  match ev with
  | EvCreateAccount a | EvInvite _ a | EvRevokeInvitation a | EvSetRole a _ _ | EvLog a => a = acc
  | EvRegister hash _ =>
      exists i, i ∈ db.(invitations) /\ i_token_hash i = hash /\ i_account_id i = acc
  | EvUpdateDevice id | EvRevoke _ id | EvBundle id | EvCreateQueue _ id =>
      device_account id db = Some acc
  | EvBind sid _ => exists q, q ∈ db.(queues) /\ q_sender_id q = sid /\
      device_account (q_owner_device q) db = Some acc
  | EvQueueQuota rid | EvRetire rid | EvAppend rid _ | EvAck rid _ =>
      queue_account rid db = Some acc
  | EvExpire => True
  end.

(** ** Selections that a change does not reach *)

Section selections.
Context {A : Type} (Q Q' : A -> Prop) `{!forall x, Decision (Q x), !forall x, Decision (Q' x)}.
Implicit Types l : list A.

Lemma filter_update_other (P : A -> Prop) `{!forall x, Decision (P x)} (f : A -> A) l :
  (forall x, x ∈ l -> ~ P x -> Q' x <-> Q x) ->
  (forall x, x ∈ l -> P x -> ~ Q x /\ ~ Q' (f x)) ->
  filter Q' (sql_update P f l) = filter Q l.
Proof.
  induction l as [|x l IH]; intros Hsame Hno; [done|].
  unfold sql_update. rewrite fmap_cons. fold (sql_update P f l). rewrite !filter_cons.
  rewrite IH; [|by intros y Hy; apply Hsame; right|by intros y Hy; apply Hno; right].
  destruct (decide (P x)) as [Hp|Hp].
  - destruct (Hno x ltac:(left) Hp). by rewrite !decide_False.
  - by rewrite (decide_ext (Q' x) (Q x)) by (apply Hsame; [left|done]).
Qed.

Lemma filter_delete_other (P : A -> Prop) `{!forall x, Decision (P x)} l :
  (forall x, x ∈ l -> Q' x <-> Q x) -> (forall x, x ∈ l -> P x -> ~ Q x) ->
  filter Q' (sql_delete P l) = filter Q l.
Proof.
  intros Hsame Hno. unfold sql_delete. rewrite list_filter_filter. apply filter_ext_in.
  intros x Hx. rewrite Hsame by done. split; [tauto|]. intros HQ. split; [done|].
  intros HP. by apply (Hno x).
Qed.

Lemma filter_app_other l x :
  (forall x, x ∈ l -> Q' x <-> Q x) -> ~ Q' x -> filter Q' (l ++ [x]) = filter Q l.
Proof.
  intros Hsame Hx. rewrite filter_app. rewrite (filter_none Q' [x]) by (by apply Forall_singleton).
  rewrite app_nil_r. by apply filter_ext_in.
Qed.
End selections.

(** ** Ownership is stable *)

Lemma device_account_in (db : DB) (d : Device) :
  integrity db -> d ∈ db.(devices) -> device_account (d_id d) db = Some (d_account_id d).
Proof. intros Hi Hd. unfold device_account. by rewrite (sql_first_key d_id _ d (pk_devices _ Hi) Hd). Qed.

Lemma device_account_evolves (db db' : DB) (id : string) :
  integrity db -> integrity db' -> evolves db db' -> id ∈ d_id <$> db.(devices) ->
  device_account id db' = device_account id db.
Proof.
  intros Hi Hi' He (d & -> & Hd)%list_elem_of_fmap.
  destruct (ev_devices _ _ He d Hd) as (d' & Hd' & Hid & Hacc & _).
  rewrite (device_account_in db d Hi Hd). rewrite <- Hid, (device_account_in db' d' Hi' Hd').
  by rewrite Hacc.
Qed.

Section isolation.
Context (db db' : DB) (now : Z) (ev : event) (B : string).
Context (Hok : db_ok db) (Hs : db_step now db ev db') (Ht : ~ touches B db ev).

Let Hi : integrity db := ok_integrity _ Hok.
Let Hi' : integrity db' := ok_integrity _ (db_step_ok _ _ _ _ Hok Hs).
Let He : evolves db db' := db_step_evolves _ _ _ _ Hs.

Lemma owner_stable (q : Queue) : q ∈ db.(queues) ->
  device_account (q_owner_device q) db' = device_account (q_owner_device q) db.
Proof using Hok Hs.
  intros Hq. apply device_account_evolves; try done.
  pose proof (fk_queues _ Hi) as Hfk. rewrite Forall_forall in Hfk. by apply Hfk.
Qed.

Lemma message_stable (m : MessageRow) : m ∈ db.(messages) ->
  queue_account (m_queue_id m) db' = queue_account (m_queue_id m) db.
Proof using Hok Hs.
  intros Hm. apply queue_account_evolves; try done.
  pose proof (fk_messages _ Hi) as Hfk. rewrite Forall_forall in Hfk. by apply Hfk.
Qed.

Lemma bundle_stable (b : Bundle) : b ∈ db.(bundles) ->
  device_account (b_device_id b) db' = device_account (b_device_id b) db.
Proof using Hok Hs.
  intros Hb. apply device_account_evolves; try done.
  pose proof (fk_bundles _ Hi) as Hfk. rewrite Forall_forall in Hfk. by apply Hfk.
Qed.

(** The account of a queue is the account of its owner. *)
Lemma queue_account_row (q : Queue) : q ∈ db.(queues) ->
  queue_account (q_recipient_id q) db = device_account (q_owner_device q) db.
Proof using Hok.
  intros Hq. unfold queue_account, queue_owner.
  by rewrite (sql_first_key q_recipient_id _ q (pk_queues _ Hi) Hq).
Qed.

Lemma same_tables :
  db'.(queues) = db.(queues) ->
  filter (fun q => device_account (q_owner_device q) db' = Some B) db'.(queues) = t_queues (tenant B db).
Proof using Hok Hs.
  intros ->. apply filter_ext_in. intros q Hq. by rewrite owner_stable.
Qed.

Lemma same_messages :
  db'.(messages) = db.(messages) ->
  filter (fun m => queue_account (m_queue_id m) db' = Some B) db'.(messages) = t_messages (tenant B db).
Proof using Hok Hs.
  intros ->. apply filter_ext_in. intros m Hm. by rewrite message_stable.
Qed.

Lemma same_bundles :
  db'.(bundles) = db.(bundles) ->
  filter (fun b => device_account (b_device_id b) db' = Some B) db'.(bundles) = t_bundles (tenant B db).
Proof using Hok Hs.
  intros ->. apply filter_ext_in. intros b Hb. by rewrite bundle_stable.
Qed.
End isolation.

(** The parts of a tenant an event leaves alone. *)
Ltac tenant_parts HQ HM HB :=
  unfold tenant; f_equal;
  first [reflexivity | apply HQ; reflexivity | apply HM; reflexivity | apply HB; reflexivity | idtac].

(** No event changes what another account owns. *)
Lemma db_step_isolated (now : Z) (db : DB) (ev : event) (db' : DB) (B : string) :
  db_ok db -> db_step now db ev db' -> ~ touches B db ev -> tenant B db' = tenant B db.
Proof.
  intros Hok Hs Ht. pose proof (ok_integrity _ Hok) as Hi.
  pose proof (same_tables db db' now ev B Hok Hs) as HQ.
  pose proof (same_messages db db' now ev B Hok Hs) as HM.
  pose proof (same_bundles db db' now ev B Hok Hs) as HB.
  pose proof (owner_stable db db' now ev Hok Hs) as HO.
  pose proof (message_stable db db' now ev Hok Hs) as HMs.
  pose proof (bundle_stable db db' now ev Hok Hs) as HBs.
  pose proof (queue_account_row db Hok) as HR.
  assert (forall id d, d ∈ db.(devices) -> d_id d = id -> device_account id db <> Some B ->
    d_account_id d <> B) as Hdev.
  { intros id d Hd <- Hn E. apply Hn. by rewrite device_account_in, E. }
  destruct Hs as [a Ha Hm Hq|i a Ha Hia Hh Hc Hr Hro Hf|id acc|hash i a d Hin Hr Ha Haid Hfr Hda Hk Hrev Hrole Hquo Hcr
    |id P HP f Hf HPid|acc id role d a Hr Ha Haid Hm Hd Hdid Hda Hl Hlast|caller id Hc|q Ho Hu Hk Hn Hr
    |sid key Hk|rid n|rid|id rid payload received expires Hid Hfit|P HP HPe|rid ids|b db' n Hu|acc blob created Hacc Hb Hmax];
    simpl in Ht.
  - tenant_parts HQ HM HB. by apply (filter_app_other _ _ _ a).
  - tenant_parts HQ HM HB. apply (filter_app_other _ _ _ i); [done|]. congruence.
  - tenant_parts HQ HM HB. apply filter_update_other; [done|]. intros x _ (_ & Hx & _). simpl. split; congruence.
  - tenant_parts HQ HM HB.
    + apply filter_update_other; [done|]. intros x Hx (Hxh & _). simpl.
      assert (i_account_id x <> B) by (intros E; apply Ht; eauto). done.
    + apply (filter_app_other _ _ _ d); [done|]. intros E. apply Ht. exists i.
      split_and!; [done|apply Hr|congruence].
  - tenant_parts HQ HM HB. apply filter_update_other; [done|]. intros x Hx Hp.
    pose proof (Hdev id x Hx (HPid x Hp) Ht). destruct (Hf x) as (_ & -> & _). done.
  - tenant_parts HQ HM HB. apply filter_update_other; [done|]. intros x Hx Hxid. simpl.
    assert (x = d) as -> by (eapply (NoDup_fmap_inj d_id); [apply Hi|..]; congruence).
    split; congruence.
  - tenant_parts HQ HM HB.
    + apply filter_update_other; [done|]. intros x Hx Hxid.
      pose proof (Hdev id x Hx Hxid Ht). done.
    + apply filter_update_other; intros x Hx; [by rewrite (HO x Hx)|]. intros Hxo. simpl.
      by rewrite (HO x Hx), Hxo.
    + apply filter_delete_other; intros m Hm; [by rewrite (HMs m Hm)|].
      intros (x & -> & [Hxo Hx]%list_elem_of_filter)%list_elem_of_fmap. by rewrite HR, Hxo.
    + apply filter_delete_other; intros b Hb; [by rewrite (HBs b Hb)|]. by intros ->.
  - tenant_parts HQ HM HB. apply filter_app_other; [|].
    + intros x Hx. by rewrite (HO x Hx).
    + exact Ht.
  - tenant_parts HQ HM HB. apply filter_update_other; intros x Hx; [by rewrite (HO x Hx)|].
    intros (Hxs & _). simpl. rewrite (HO x Hx). assert (device_account (q_owner_device x) db <> Some B);
      [|done]. intros E. apply Ht. eauto.
  - tenant_parts HQ HM HB. apply filter_update_other; intros x Hx; [by rewrite (HO x Hx)|].
    intros [Hxr _]. simpl. by rewrite (HO x Hx), <- HR, Hxr.
  - tenant_parts HQ HM HB.
    + apply filter_update_other; intros x Hx; [by rewrite (HO x Hx)|].
      intros Hxr. simpl. by rewrite (HO x Hx), <- HR, Hxr.
    + apply filter_delete_other; intros m Hm; [by rewrite (HMs m Hm)|]. by intros ->.
  - tenant_parts HQ HM HB. apply filter_app_other; [|exact Ht]. intros m Hm. by rewrite (HMs m Hm).
  - done.
  - tenant_parts HQ HM HB. apply filter_delete_other; intros m Hm; [by rewrite (HMs m Hm)|].
    by intros [-> _].
  - unfold upsert_bundle in Hu. case_decide as Hd; simplify_eq. case_decide as Hc; tenant_parts HQ HM HB.
    + apply filter_app_other; [|exact Ht]. intros x Hx. by rewrite (HBs x Hx).
    + apply filter_update_other; intros x Hx; [by rewrite (HBs x Hx)|]. by intros ->.
  - tenant_parts HQ HM HB. rewrite account_log_logged. by rewrite decide_False.
Qed.
