(* ===== verification/World.v ===== *)
(** * The running server: effects, handlers as programs, interleaving

    A request handler is a program over the effects the server has ([action]): calls
    of store methods, reads of the clock, reading the request body (which takes as
    long as the client likes), the nonce cache and wake-up pings. [run] executes one
    program by itself; [step] interleaves any number of them, with time passing in
    between. *)

From S2P Require Import Prelude Encoding Clock Sql Schema StoreM Crypto Accounts Devices.
From S2P Require Import Queues Blobs Steps Invariants Evolution Refine Store.

Local Open Scope Z_scope.

(** ** Wake-up priorities ([internal/push]) *)

Inductive Priority : Type := Normal | High.

#[export] Instance Priority_eq_dec : EqDecision Priority.
Proof. solve_decision. Defined.

(** ** The world *)

(** The store, the nonce cache (key to expiry, in nanoseconds) and the pings
    dispatched so far, newest last. *)
Record World := mkWorld {
  w_st : St;
  w_nonces : gmap string Z;
  w_pings : list (string * Priority);
}.

Definition w_db (w : World) : DB := st_db (w_st w).
Definition w_clock (w : World) : Z := st_clock (w_st w).

(** ** The nonce cache ([nonceCache] of [internal/server/auth.go]) *)

(** [checkAndAdd] at time [now]: forget what has expired, refuse a key that is still
    within its window, record it otherwise. *)
Definition checkAndAdd (key : string) (expiry now : Z) (seen : gmap string Z)
  : bool * gmap string Z :=
  let seen := filter (fun kv => ~ kv.2 < now) seen in
  match seen !! key with
  | Some exp => if decide (exp > now) then (false, seen) else (true, <[key := expiry]> seen)
  | None => (true, <[key := expiry]> seen)
  end.

(** The cache of a process that has just started. *)
Definition newNonceCache : gmap string Z := ∅.

(** ** Effects *)

Inductive action : Type -> Type :=
  | ACall {A} (op : store_op A) : action (error + A)
  | AClock : action Z
  | AReadBody : action unit
  | ANonce (key : string) (expiry : Z) : action bool
  | APing (endpoint : string) (priority : Priority) : action unit.

Section effects.
Context `{Crypto}.

Definition do_action {A} (e : action A) (w : World) : A * World :=
  match e with
  | ACall op => let '(r, s) := run_op op (w_st w) in (r, mkWorld s (w_nonces w) (w_pings w))
  | AClock => (w_clock w, w)
  | AReadBody => (tt, w)
  | ANonce key expiry =>
      let '(ok, seen) := checkAndAdd key expiry (w_clock w) (w_nonces w) in
      (ok, mkWorld (w_st w) seen (w_pings w))
  | APing endpoint priority =>
      (tt, mkWorld (w_st w) (w_nonces w) (w_pings w ++ [(endpoint, priority)]))
  end.

(** ** Programs *)

Inductive proc (A : Type) : Type :=
  | Ret (a : A)
  | Act {B : Type} (e : action B) (k : B -> proc A).
#[global] Arguments Ret {A} a.
#[global] Arguments Act {A B} e k.

#[export] Instance proc_ret : MRet proc := fun A a => Ret a.
#[export] Instance proc_bind : MBind proc := fun A B k =>
  fix go p := match p with Ret a => k a | Act e j => Act e (fun b => go (j b)) end.

Definition act {A} (e : action A) : proc A := Act e (fun a => Ret a).
Definition call_store {A} (op : store_op A) : proc (error + A) := act (ACall op).

Fixpoint run {A} (p : proc A) (w : World) : A * World :=
  match p with
  | Ret a => (a, w)
  | Act e k => let '(b, w') := do_action e w in run (k b) w'
  end.

Lemma run_bind {A B} (p : proc A) (k : A -> proc B) (w : World) :
  run (p ≫= k) w = let '(a, w') := run p w in run (k a) w'.
Proof.
  revert w. induction p as [a|C e j IH]; intros w; [done|]. simpl.
  destruct (do_action e w) as [b w']. apply IH.
Qed.

Lemma run_act {A} (e : action A) (w : World) : run (act e) w = do_action e w.
Proof. unfold act. simpl. by destruct (do_action e w). Qed.

Lemma run_ret {A} (a : A) (w : World) : run (mret a) w = (a, w).
Proof. done. Qed.

Lemma run_call {A B} (op : store_op A) (k : error + A -> proc B) (w : World) :
  run (call_store op ≫= k) w =
  run (k (run_op op (w_st w)).1) (mkWorld (run_op op (w_st w)).2 (w_nonces w) (w_pings w)).
Proof. unfold call_store. rewrite run_bind, run_act. simpl. by destruct (run_op op (w_st w)). Qed.

Lemma run_Act_call {A B} (op : store_op A) (k : error + A -> proc B) (w : World) :
  run (Act (ACall op) k) w =
  run (k (run_op op (w_st w)).1) (mkWorld (run_op op (w_st w)).2 (w_nonces w) (w_pings w)).
Proof. simpl. by destruct (run_op op (w_st w)). Qed.

(** ** Concurrency *)

(** What the environment does between two effects: time passes, and the random
    source and the driver's failures are what they are. *)
Definition env_step (w w' : World) : Prop :=
  w_clock w <= w_clock w' /\ w_db w' = w_db w /\ w_nonces w' = w_nonces w /\ w_pings w' = w_pings w.

(** The process stops and is started again on the same database, at a later time and with
    whatever random bytes and driver failures to come: the replay cache is empty. *)
Definition restarted (w w' : World) : Prop :=
  w_clock w <= w_clock w' /\ w_db w' = w_db w /\ w_nonces w' = newNonceCache /\ w_pings w' = w_pings w.

(** A pool of requests in progress; any of them may take its next effect. *)
Inductive step {A} : World * list (proc A) -> World * list (proc A) -> Prop :=
  | step_env w w' ps : env_step w w' -> step (w, ps) (w', ps)
  | step_request w ps B (p : action B) (k : B -> proc A) w' b i :
      ps !! i = Some (Act p k) -> do_action p w = (b, w') ->
      step (w, ps) (w', <[i := k b]> ps)
  | step_arrive w ps p : step (w, ps) (w, ps ++ [p]).

(** A schedule: let [ns] nanoseconds pass, with new random bytes, or let request [i]
    take its next effect. *)
Inductive turn : Type := Tick (ns : Z) (rnd : bytes) | Go (i : nat).

Definition take_turn {A} (c : World * list (proc A)) (t : turn) : World * list (proc A) :=
  match t with
  | Tick ns rnd =>
      (mkWorld (mkSt (w_db c.1) (w_clock c.1 + Z.max 0 ns) rnd (st_faults (w_st c.1)))
         (w_nonces c.1) (w_pings c.1), c.2)
  | Go i =>
      match c.2 !! i with
      | Some (Act e k) => let '(b, w') := do_action e c.1 in (w', <[i := k b]> c.2)
      | _ => c
      end
  end.

Definition schedule {A} (ts : list turn) (c : World * list (proc A)) : World * list (proc A) :=
  foldl take_turn c ts.

Lemma schedule_steps {A} (ts : list turn) (c : World * list (proc A)) : rtc step c (schedule ts c).
Proof.
  revert c. induction ts as [|t ts IH]; intros [w ps]; [done|].
  trans (take_turn (w, ps) t); [|apply IH]. destruct t as [ns rnd|i]; simpl.
  - apply rtc_once, step_env. unfold env_step, w_clock, w_db. simpl. split_and!; [lia|done..].
  - destruct (ps !! i) as [[a|B e k]|] eqn:E; [done| |done].
    destruct (do_action e w) as [b w'] eqn:Ee. apply rtc_once. by eapply step_request.
Qed.

(** ** What no program can break *)

Lemma do_action_steps {A} (e : action A) (w : World) :
  db_ok (w_db w) -> db_steps (w_db w) (w_db (do_action e w).2) /\
    w_clock (do_action e w).2 = w_clock w.
Proof.
  intros Hok. destruct e as [B op| | |key expiry|]; simpl; try (split; [constructor|done]).
  - destruct (run_op_outcome op (w_st w) (ok_integrity _ Hok)) as (Hc & _ & Ho).
    unfold w_db, w_clock in *. destruct (run_op op (w_st w)) as [r s]. simpl in *. split; [|done].
    destruct Ho as [(_ & _ & ->)|[[->|(ev & Hev & _)] _]]; [constructor..|].
    by econstructor; [|constructor].
  - destruct (checkAndAdd _ _ _ _) as [ok seen]. split; [constructor|done].
Qed.

Lemma db_steps_trans (db db' db'' : DB) : db_steps db db' -> db_steps db' db'' -> db_steps db db''.
Proof. induction 1; [done|]. intros. econstructor; eauto. Qed.

Lemma db_steps_ok (db db' : DB) : db_steps db db' -> db_ok db -> db_ok db'.
Proof. induction 1; [done|]. intros. eauto using db_step_ok. Qed.

Lemma run_steps {A} (p : proc A) (w : World) :
  db_ok (w_db w) -> db_steps (w_db w) (w_db (run p w).2) /\ w_clock (run p w).2 = w_clock w.
Proof.
  revert w. induction p as [a|B e k IH]; intros w Hok; simpl; [split; [constructor|done]|].
  destruct (do_action_steps e w Hok) as [Hs Hc]. destruct (do_action e w) as [b w']. simpl in *.
  destruct (IH b w') as [Hs' Hc']; [by eapply db_steps_ok|].
  split; [by eapply db_steps_trans|congruence].
Qed.

Lemma step_steps {A} (c c' : World * list (proc A)) :
  step c c' -> db_ok (w_db c.1) -> db_steps (w_db c.1) (w_db c'.1) /\ w_clock c.1 <= w_clock c'.1.
Proof.
  intros Hs Hok. destruct Hs as [w w' ps (Hc & Hdb & _)|w ps B e k w' b i Hi He|]; simpl in *.
  - split; [rewrite Hdb; constructor|done].
  - destruct (do_action_steps e w Hok) as [Hs Hc]. rewrite He in *. simpl in *. split; [done|lia].
  - split; [constructor|lia].
Qed.

Lemma steps_steps {A} (c c' : World * list (proc A)) :
  rtc step c c' -> db_ok (w_db c.1) ->
  db_steps (w_db c.1) (w_db c'.1) /\ w_clock c.1 <= w_clock c'.1 /\ db_ok (w_db c'.1).
Proof.
  induction 1 as [c|c c1 c2 Hs _ IH]; intros Hok; [split_and!; [constructor|lia|done]|].
  destruct (step_steps _ _ Hs Hok) as [Hs1 Hc1].
  destruct (IH (db_steps_ok _ _ Hs1 Hok)) as (Hs2 & Hc2 & Hok2).
  split_and!; [by eapply db_steps_trans|lia|done].
Qed.
End effects.

(** One step of running a program: the next effect, or the next part of it. *)
Ltac run_step :=
  first [rewrite run_call | rewrite run_Act_call | rewrite run_bind | rewrite run_act | rewrite run_ret];
  cbn [fst snd w_st w_nonces w_pings run_op do_action].
