(* ===== verification/Grain.v ===== *)
(** * Interleaving at the grain of statements

    [World.step] lets a store method happen at one moment. Here a method takes its turns
    statement by statement: what SQLite makes indivisible is one statement or one
    transaction, and other requests may come in between. A statement may also carry a time
    that was read before it waited for its turn. *)

From S2P Require Import Prelude Encoding Clock Sql Schema StoreM Crypto Accounts Devices Queues Blobs.
From S2P Require Import Steps Invariants Evolution Refine Store World Demo.

Local Open Scope Z_scope.

(** ** Methods in pieces *)

(** A method as the pieces that are indivisible, each with what comes after its result. *)
Inductive piece (A : Type) : Type :=
  | Done (r : error + A)
  | Piece {B : Type} (m : M B) (k : error + B -> piece A).
Arguments Done {A} r.
Arguments Piece {A B} m k.

(** [if err != nil { return err }] between two pieces. *)
Definition and_then {A B} (k : A -> piece B) (r : error + A) : piece B :=
  match r with inl e => Done (inl e) | inr a => k a end.

(** The pieces one after the other, with nothing in between. *)
Fixpoint run_piece {A} (q : piece A) (s : St) : (error + A) * St :=
  match q with
  | Done r => (r, s)
  | Piece m k => let '(r, s') := m s in run_piece (k r) s'
  end.

Section pieces.
Context `{Crypto}.

(** [CreateInvitation]: the mode of the account is read, then the invitation is stored. *)
Definition invitation_mode (accountID grantsRole : string) : M (string * string * string) :=
  raw ← rand_read 32;
  let token := base64_rawurl_encode raw in
  id ← newID "inv_";
  let grantsRole := if decide (grantsRole = ""%string) then RoleMember else grantsRole in
  if decide (grantsRole <> RoleAdmin /\ grantsRole <> RoleMember)
  then throw (Errorf "role") else
  mode ← on_no_rows ErrDeviceNotFound
    (query_row (fun db =>
       a_admin_mode <$> sql_first (fun a => a_id a = accountID) db.(accounts)));
  mret (token, id, if decide (mode <> AdminModeManaged) then RoleAdmin else grantsRole).

Definition invitation_stored (accountID : string) (ttl : Z) (x : string * string * string)
  : M (string * Invitation) :=
  let '(token, id, grantsRole) := x in
  now ← now_ns;
  let expires := now + ttl in
  _ ← exec (insert_invitation
              (mkInvitationRow (hashToken token) id accountID (sec now) (sec expires)
                 false false grantsRole));
  mret (token, mkInvitation id accountID (sec now) (sec expires) grantsRole).

(** [PromoteDevice]: the mode of the device's account is read, then the role is set. *)
Definition promotion_mode (deviceID : string) : M string :=
  on_no_rows ErrDeviceNotFound (query_row (fun db =>
    head (d ← filter (fun d => d_id d = deviceID /\ d_revoked d = false) db.(devices);
          a ← filter (fun a => a_id a = d_account_id d) db.(accounts);
          [a_admin_mode a]))).

Definition promotion_stored (deviceID : string) : M unit :=
  _ ← exec (update_devices (fun d => d_id d = deviceID) (dev_set_role RoleAdmin));
  mret tt.

(** [DrainMessages]: what has expired is deleted, then what is left is read. *)
Definition drain_expired (recipientID : string) : M Z :=
  now ← nowStr;
  exec (delete_messages (fun m => m_queue_id m = recipientID /\ m_expires m <= now)).

Definition drain_read (recipientID : string) : M (list Message) :=
  query (fun db =>
    to_message <$> sql_order seq_le
      (filter (fun m => m_queue_id m = recipientID) db.(messages))).

(** All other methods are one statement or one transaction. *)
Definition pieces {A} (op : store_op A) : piece A :=
  match op with
  | OpCreateInvitation acc ttl role =>
      Piece (invitation_mode acc role) (and_then (fun x => Piece (invitation_stored acc ttl x) Done))
  | OpPromoteDevice id =>
      Piece (promotion_mode id) (and_then (fun mode =>
        if decide (mode <> AdminModeManaged) then Done (inl ErrRoleChangeNotApplicable)
        else Piece (promotion_stored id) Done))
  | OpDrainMessages rid => Piece (drain_expired rid) (and_then (fun _ => Piece (drain_read rid) Done))
  | op => Piece (run_op op) Done
  end.

(** ** Threads *)

(** A request in progress: between two effects, or inside a call of the store, after a
    statement that carried the time [began] or after the call began then. *)
Inductive thread (A : Type) : Type :=
  | At (p : proc A)
  | In {B : Type} (began : Z) (q : piece B) (k : error + B -> proc A).
#[global] Arguments At {A} p.
#[global] Arguments In {A B} began q k.

Definition at_time (t : Z) (s : St) : St := mkSt (st_db s) t (st_rnd s) (st_faults s).

Definition with_st (s : St) (w : World) : World := mkWorld s (w_nonces w) (w_pings w).

Definition is_call {A} (e : action A) : bool := match e with ACall _ => true | _ => false end.

(** One turn: time passes or a request arrives; an effect other than a store call; a call
    begins, has one of its pieces carried out, with a time between the last one it read
    and now, or returns. *)
Inductive fine {A} : World * list (thread A) -> World * list (thread A) -> Prop :=
  | fine_env w w' ts : env_step w w' -> fine (w, ts) (w', ts)
  | fine_arrive w ts p : fine (w, ts) (w, ts ++ [At p])
  | fine_effect w ts B (e : action B) (k : B -> proc A) w' b i :
      ts !! i = Some (At (Act e k)) -> is_call e = false -> do_action e w = (b, w') ->
      fine (w, ts) (w', <[i := At (k b)]> ts)
  | fine_call w ts B (op : store_op B) (k : error + B -> proc A) i :
      ts !! i = Some (At (Act (ACall op) k)) ->
      fine (w, ts) (w, <[i := In (w_clock w) (pieces op) k]> ts)
  | fine_piece w ts B C began (m : M C) (j : error + C -> piece B) (k : error + B -> proc A) i t r s' :
      ts !! i = Some (In began (Piece m j) k) -> began <= t <= w_clock w ->
      m (at_time t (w_st w)) = (r, s') ->
      fine (w, ts) (with_st (at_time (w_clock w) s') w, <[i := In t (j r) k]> ts)
  | fine_return w ts B began (r : error + B) (k : error + B -> proc A) i :
      ts !! i = Some (In began (Done r) k) -> fine (w, ts) (w, <[i := At (k r)]> ts).

(** A run of the server: turns, and crashes at any moment. After one the requests in
    progress are gone and the process starts again on the database. *)
Inductive life {A} : World * list (thread A) -> World * list (thread A) -> Prop :=
  | life_turn c c' : fine c c' -> life c c'
  | life_crash w w' ts : restarted w w' -> life (w, ts) (w', []).

(** ** One method at a time is a special case *)

Lemma run_piece_one {A} (m : M A) (s : St) : run_piece (Piece m Done) s = m s.
Proof. cbn. by destruct (m s). Qed.

Lemma run_pieces {A} (op : store_op A) (s : St) : run_piece (pieces op) s = run_op op s.
Proof.
  destruct op; try apply run_piece_one; cbn [pieces run_piece run_op].
  - unfold CreateInvitation, invitation_mode, mbind, M_bind.
    destruct (rand_read 32 s) as [[e|raw] s1]; [done|].
    destruct (newID "inv_" s1) as [[e|id] s2]; [done|].
    case_decide; [done|].
    destruct (on_no_rows _ _ s2) as [[e|mode] s3]; [done|]. apply run_piece_one.
  - unfold PromoteDevice, promotion_mode, mbind, M_bind.
    destruct (on_no_rows _ _ s) as [[e|mode] s1]; [done|]. cbn. case_decide; [done|]. apply run_piece_one.
  - unfold DrainMessages, drain_expired, mbind, M_bind.
    destruct (nowStr s) as [[e|now] s1]; [done|].
    destruct (exec _ s1) as [[e|n] s2]; [done|]. apply run_piece_one.
Qed.

(** ** What a statement may do *)

(** One event of the specification at second [now], or the second half of a promotion whose
    device has been revoked since the first. *)
Inductive change (now : Z) (db : DB) : DB -> Prop :=
  | change_event ev db' : db_step now db ev db' -> change now db db'
  | change_late_promotion (d : Device) :
      d ∈ db.(devices) -> d_revoked d = true ->
      change now db (set_devices (sql_update (fun x => d_id x = d_id d) (dev_set_role RoleAdmin) db.(devices)) db).

(** What one statement does at second [now]: nothing, or one change. *)
Definition changed (now : Z) (db db' : DB) : Prop := db' = db \/ change now db db'.

(** Any number of changes, each at its own second. *)
Definition changes : relation DB := rtc (fun db db' => exists now, change now db db').

Lemma change_ok (now : Z) (db db' : DB) : change now db db' -> db_ok db -> db_ok db' /\ evolves db db'.
Proof.
  intros [ev db1 Hs|d Hd Hr] Hok.
  - split; [by eapply db_step_ok|by eapply db_step_evolves].
  - split; [apply ok_update_devices; [done|done|intros; split; [by left|done]]|].
    constructor; simpl; try reflexivity; [|by left].
    apply table_le_update; [apply _|]. by intros [] _.
Qed.

Lemma changed_ok (now : Z) (db db' : DB) : changed now db db' -> db_ok db -> db_ok db' /\ evolves db db'.
Proof. intros [->|Hc] Hok; [done|by eapply change_ok]. Qed.

Lemma changes_ok (db db' : DB) : changes db db' -> db_ok db -> db_ok db' /\ evolves db db'.
Proof.
  induction 1 as [|db db1 db2 [now Hc] _ IH]; intros Hok; [done|].
  destruct (change_ok _ _ _ Hc Hok) as [Hok1 He]. destruct (IH Hok1) as [? ?]. split; [done|by etrans].
Qed.

Lemma changed_changes (now : Z) (db db' : DB) : changed now db db' -> changes db db'.
Proof. intros [->|Hc]; [done|]. apply rtc_once. by exists now. Qed.

(** From [db] on, whatever the others do in between, every piece only makes changes, and
    leaves the clock alone. *)
Fixpoint safe {A} (db : DB) (q : piece A) : Prop :=
  match q with
  | Done _ => True
  | Piece m k => forall s, db_ok (st_db s) -> evolves db (st_db s) ->
      wp m s (fun r s' => changed (sec (st_clock s)) (st_db s) (st_db s') /\ st_clock s' = st_clock s /\
        safe (st_db s') (k r))
  end.

Lemma safe_mono {A} (db db' : DB) (q : piece A) : evolves db db' -> safe db q -> safe db' q.
Proof. destruct q as [r|B m k]; [done|]. intros He Hs s Hok Hs'. apply Hs; [done|by etrans]. Qed.

Lemma moves_changed {A} (op : store_op A) (now : Z) (db db' : DB) : moves op now db db' -> changed now db db'.
Proof. intros [->|(ev & Hs & _)]; [by left|]. right. by apply (change_event _ _ ev). Qed.

Lemma safe_op {A} (op : store_op A) (db : DB) : safe db (Piece (run_op op) Done).
Proof.
  intros s Hok He. eapply wp_mono; [apply run_op_outcome, Hok|].
  intros r s' (Hc & _ & [(_ & _ & ->)|[Hm _]]).
  - split; [by left|done].
  - split; [by eapply moves_changed|done].
Qed.

(** An account is never changed or removed. *)
Lemma account_kept (db db' : DB) (a : Account) : evolves db db' -> a ∈ db.(accounts) -> a ∈ db'.(accounts).
Proof. intros He Ha. by destruct (ev_accounts _ _ He a Ha) as (? & ? & <-). Qed.

(** What the first piece has found out. *)
Lemma invitation_mode_spec (acc role : string) (s : St) :
  wp (invitation_mode acc role) s (fun r s' => st_db s' = st_db s /\ st_clock s' = st_clock s /\
    match r with
    | inl _ => True
    | inr (_, _, g) => is_role g /\ exists a, a ∈ (st_db s).(accounts) /\ a_id a = acc /\
        (a_admin_mode a <> AdminModeManaged -> g = RoleAdmin)
    end).
Proof.
  unfold invitation_mode. do 2 (wp_step; wp_step; [done|]).
  set (g := if decide (role = _) then _ else _). apply wp_if; intros Hg; [by wp_step|].
  wp_step. wp_step. wp_step; [done|].
  destruct (_ <$> sql_first _ _) as [mode|] eqn:Ea; [|done].
  apply sql_first_fmap_Some in Ea as (a & Ha & <- & <-). wp_step. split; [done|]. split; [done|]. split.
  - case_decide; [by left|exact (not_and_not _ _ Hg)].
  - exists a. split_and!; [done..|]. intros Hm. by rewrite decide_True.
Qed.

Lemma invitation_stored_spec (acc : string) (ttl : Z) (token id g : string) (a : Account) (s : St) :
  a ∈ (st_db s).(accounts) -> a_id a = acc -> is_role g -> (a_admin_mode a <> AdminModeManaged -> g = RoleAdmin) ->
  wp (invitation_stored acc ttl (token, id, g)) s (fun _ s' => changed (sec (st_clock s)) (st_db s) (st_db s') /\ st_clock s' = st_clock s).
Proof.
  intros Ha <- Hr Hg. unfold invitation_stored. wp_step. wp_step. wp_step. wp_step; [by split; [left|]|]. simpl.
  unfold insert_invitation. case_decide; simpl; [|by split; [left|]].
  destruct (sql_insert _ _ _) as [t|] eqn:E; simpl; [|by split; [left|]]. apply sql_insert_Some in E as [-> Hf].
  wp_step. split; [|done]. right. apply (change_event _ _ (EvInvite (hashToken token) (a_id a))).
  by apply (step_invite _ _ (mkInvitationRow _ _ _ _ _ _ _ _) a).
Qed.

Lemma promotion_mode_spec (id : string) (s : St) :
  wp (promotion_mode id) s (fun r s' => st_db s' = st_db s /\ st_clock s' = st_clock s /\
    match r with
    | inl _ => True
    | inr mode => exists d a, d ∈ (st_db s).(devices) /\ d_id d = id /\ a ∈ (st_db s).(accounts) /\
        a_id a = d_account_id d /\ a_admin_mode a = mode
    end).
Proof.
  unfold promotion_mode. wp_step. wp_step; [done|]. destruct (head _) as [mode|] eqn:E; [|done].
  apply head_elem_of, list_elem_of_bind in E as (d & E & Hd%list_elem_of_filter).
  apply list_elem_of_bind in E as (a & E & Ha%list_elem_of_filter).
  apply list_elem_of_singleton in E as ->. destruct Hd as [[Hid _] Hd], Ha as [Haid Ha].
  split; [done|]. split; [done|]. by exists d, a.
Qed.

Lemma promotion_stored_spec (id : string) (d : Device) (a : Account) (s : St) :
  d ∈ (st_db s).(devices) -> d_id d = id -> a ∈ (st_db s).(accounts) -> a_id a = d_account_id d ->
  a_admin_mode a = AdminModeManaged ->
  wp (promotion_stored id) s (fun _ s' => changed (sec (st_clock s)) (st_db s) (st_db s') /\ st_clock s' = st_clock s).
Proof.
  intros Hd <- Ha Hacc Hm. unfold promotion_stored. wp_step. wp_step; [by split; [left|]|]. simpl. wp_step.
  split; [|done]. right. destruct (d_revoked d) eqn:Hr; [by apply change_late_promotion|].
  apply (change_event _ _ (EvSetRole (d_account_id d) (d_id d) RoleAdmin)).
  by apply (step_set_role _ _ _ _ RoleAdmin d a); [left|..].
Qed.

Lemma drain_expired_spec (rid : string) (s : St) :
  wp (drain_expired rid) s (fun _ s' => changed (sec (st_clock s)) (st_db s) (st_db s') /\ st_clock s' = st_clock s).
Proof.
  unfold drain_expired. wp_step. wp_step. wp_step; [by split; [left|]|]. simpl. split; [|done]. right.
  apply (change_event _ _ EvExpire). apply (step_expire _ _ (fun m => _)). tauto.
Qed.

(** Every method, whatever happens between its pieces. *)
Lemma safe_pieces {A} (op : store_op A) (db : DB) : safe db (pieces op).
Proof.
  destruct op; try apply safe_op; intros s Hok He.
  - eapply wp_mono; [apply invitation_mode_spec|]. intros r s1 (-> & Hc & Hr).
    split_and!; [by left|done|].
    destruct r as [e|[[token id] g]]; [done|]. destruct Hr as (Hg & a & Ha & Hid & Hm).
    intros s2 _ He2.
    eapply wp_mono; [apply (invitation_stored_spec _ _ _ _ _ a); [by eapply account_kept|done..]|].
    by intros r2 s3 [].
  - eapply wp_mono; [apply promotion_mode_spec|]. intros r s1 (-> & Hc & Hr).
    split_and!; [by left|done|].
    destruct r as [e|mode]; [done|]. destruct Hr as (d & a & Hd & <- & Ha & Hacc & <-). unfold and_then.
    case_decide as Hm; [done|]. intros s2 _ He2.
    destruct (ev_devices _ _ He2 d Hd) as (d2 & Hd2 & Hid & Hacc2 & _).
    eapply wp_mono; [apply (promotion_stored_spec _ d2 a); try done|by intros r2 s3 []].
    + by eapply account_kept.
    + congruence.
  - eapply wp_mono; [apply drain_expired_spec|]. intros [e|n] s1 []; [done|]. split_and!; [done..|].
    intros s2 _ _. unfold drain_read. wp_step; (split_and!; [by left|done..]).
Qed.

(** ** What no interleaving can break *)

Definition ok_thread {A} (db : DB) (th : thread A) : Prop :=
  match th with At _ => True | In _ q _ => safe db q end.

Lemma ok_threads_mono {A} (db db' : DB) (ts : list (thread A)) :
  evolves db db' -> Forall (ok_thread db) ts -> Forall (ok_thread db') ts.
Proof. intros He Hts. eapply Forall_impl; [exact Hts|]. intros []; [done|]. by apply safe_mono. Qed.

Lemma do_action_other {A} (e : action A) (w : World) :
  is_call e = false -> w_db (do_action e w).2 = w_db w /\ w_clock (do_action e w).2 = w_clock w.
Proof. destruct e; try done. intros _. cbn. by destruct (checkAndAdd _ _ _ _). Qed.

Lemma fine_step_ok {A} (c c' : World * list (thread A)) :
  fine c c' -> db_ok (w_db c.1) -> Forall (ok_thread (w_db c.1)) c.2 ->
  (exists now, now <= sec (w_clock c'.1) /\ changed now (w_db c.1) (w_db c'.1)) /\
  w_clock c.1 <= w_clock c'.1 /\ Forall (ok_thread (w_db c'.1)) c'.2.
Proof.
  intros Hf Hok Hts.
  assert (forall w : World, exists now, now <= sec (w_clock w) /\ changed now (w_db w) (w_db w)) as Hsame
    by (intros w; exists (sec (w_clock w)); split; [done|by left]).
  destruct Hf as [w w' ts (Hc & Hdb & _)|w ts p|w ts B e k w' b i Hi He Ha|w ts B op k i Hi|
    w ts B C began m j k i t r s' Hi Ht Hm|w ts B began r k i Hi]; cbn [fst snd] in *.
  - rewrite <- Hdb. split_and!; [apply Hsame|done|by rewrite Hdb].
  - split_and!; [apply Hsame|done|]. apply Forall_app. by split; [|constructor].
  - destruct (do_action_other e w He) as [Hdb Hc]. rewrite Ha in Hdb, Hc. cbn in Hdb, Hc. rewrite Hdb, Hc.
    split_and!; [apply Hsame|done|]. by apply Forall_insert.
  - split_and!; [apply Hsame|done|]. apply Forall_insert; [done|apply safe_pieces].
  - pose proof (Forall_lookup_1 _ _ _ _ Hts Hi (at_time t (w_st w)) Hok) as Hs.
    unfold wp in Hs. rewrite Hm in Hs. destruct Hs as (Hch & _ & Hs); [done|].
    split_and!; [exists (sec t); split; [apply sec_mono, Ht|exact Hch]|done|]. cbn. apply Forall_insert; [|exact Hs].
    apply (ok_threads_mono (w_db w)); [|done]. by eapply changed_ok.
  - split_and!; [apply Hsame|done|]. by apply Forall_insert.
Qed.

Lemma life_step_ok {A} (c c' : World * list (thread A)) :
  life c c' -> db_ok (w_db c.1) -> Forall (ok_thread (w_db c.1)) c.2 ->
  (exists now, now <= sec (w_clock c'.1) /\ changed now (w_db c.1) (w_db c'.1)) /\
  w_clock c.1 <= w_clock c'.1 /\ Forall (ok_thread (w_db c'.1)) c'.2.
Proof.
  intros [d d' Hf|w w' ts (Hc & Hdb & _)]; [by apply fine_step_ok|]. intros _ _. cbn. rewrite Hdb.
  split_and!; [|done|constructor]. exists (sec (w_clock w')). split; [done|by left].
Qed.

Lemma life_steps_ok {A} (c c' : World * list (thread A)) :
  rtc life c c' -> db_ok (w_db c.1) -> Forall (ok_thread (w_db c.1)) c.2 ->
  changes (w_db c.1) (w_db c'.1) /\ w_clock c.1 <= w_clock c'.1 /\ Forall (ok_thread (w_db c'.1)) c'.2.
Proof.
  induction 1 as [c|c c1 c2 Hs _ IH]; intros Hok Hts; [done|].
  destruct (life_step_ok _ _ Hs Hok Hts) as ((now & _ & Hc) & Ht & Hts1).
  destruct (changed_ok _ _ _ Hc Hok) as [Hok1 _]. destruct (IH Hok1 Hts1) as (? & ? & ?).
  split_and!; [etrans; [by eapply changed_changes|done]|lia|done].
Qed.

Lemma fine_is_life {A} (c c' : World * list (thread A)) : rtc fine c c' -> rtc life c c'.
Proof. intros Hr. eapply rtc_congruence with (f := id); [|exact Hr]. intros x y. apply life_turn. Qed.

Lemma fresh_threads {A} (db : DB) (ps : list (proc A)) : Forall (ok_thread db) (At <$> ps).
Proof. by apply Forall_fmap, Forall_true. Qed.

(** C7: however requests interleave, statement by statement - other requests' statements
    between the two of a promotion, a minting or a drain, and every statement carrying a
    time read at any moment since its call began - and at whatever moments the process
    crashes and is started again, the database changes only by events of the specification
    and by promotions that come too late; it stays well formed, only moves forward, and the
    clock does not run backwards. *)
Theorem statements_interleave_safely {A} (w w' : World) (ps : list (proc A)) (ts' : list (thread A)) :
  rtc life (w, At <$> ps) (w', ts') -> db_ok (w_db w) ->
  changes (w_db w) (w_db w') /\ db_ok (w_db w') /\ evolves (w_db w) (w_db w') /\ w_clock w <= w_clock w'.
Proof.
  intros Hr Hok. destruct (life_steps_ok _ _ Hr Hok (fresh_threads _ _)) as (Hc & Ht & _).
  split; [done|]. by destruct (changes_ok _ _ Hc Hok).
Qed.

(** ** One moment per method is a special case *)

Lemma at_now (s : St) : at_time (st_clock s) s = s.
Proof. by destruct s. Qed.

Lemma run_piece_fine {A B} (q : piece B) (k : error + B -> proc A) (w : World) ts i began :
  ts !! i = Some (In began q k) -> began <= w_clock w -> db_ok (w_db w) -> safe (w_db w) q ->
  rtc fine (w, ts) (with_st (run_piece q (w_st w)).2 w, <[i := At (k (run_piece q (w_st w)).1)]> ts).
Proof.
  revert w ts began. induction q as [r|C m j IH]; intros w ts began Hi Hb Hok Hs.
  - apply rtc_once. destruct w as [s n pi]. by eapply fine_return.
  - specialize (Hs (w_st w) Hok (reflexivity _)). unfold wp in Hs. cbn [run_piece].
    destruct (m (w_st w)) as [r s1] eqn:Em. destruct Hs as (Hc & Hclock & Hs1). cbn [fst snd] in *.
    eapply rtc_l.
    { eapply (fine_piece w ts B C began m j k i (w_clock w)); [exact Hi|split; [done|reflexivity]|].
      unfold w_clock. rewrite at_now. exact Em. }
    unfold w_clock. rewrite <- Hclock, at_now.
    assert (i < length ts)%nat by (by eapply lookup_lt_Some).
    pose proof (IH r (with_st s1 w) (<[i := In (st_clock s1) (j r) k]> ts) (st_clock s1)) as IH'.
    cbn [with_st w_st w_nonces w_pings] in IH'. rewrite list_insert_insert_eq in IH'.
    apply IH'; [by apply list_lookup_insert_eq|reflexivity|by apply (changed_ok _ _ _ Hc Hok)|done].
Qed.

Lemma coarse_step_is_fine {A} (c c' : World * list (proc A)) :
  step c c' -> db_ok (w_db c.1) -> rtc fine (c.1, At <$> c.2) (c'.1, At <$> c'.2).
Proof.
  intros Hs Hok. destruct Hs as [w w' ps He|w ps B e k w' b i Hi He|w ps p]; cbn [fst snd] in *.
  - by apply rtc_once, fine_env.
  - assert ((At <$> ps) !! i = Some (At (Act e k))) as Hi' by (by rewrite list_lookup_fmap, Hi).
    rewrite list_fmap_insert. destruct (is_call e) eqn:Ec; [|by apply rtc_once; eapply fine_effect].
    destruct e as [B op| | | |]; try done. cbn in He. destruct (run_op op (w_st w)) as [r s'] eqn:Er.
    simplify_eq. eapply rtc_l; [by eapply fine_call|].
    assert (i < length (At <$> ps))%nat by (by eapply lookup_lt_Some).
    pose proof (run_piece_fine (pieces op) k w (<[i := In (w_clock w) (pieces op) k]> (At <$> ps)) i (w_clock w)) as Hp.
    rewrite run_pieces, Er, list_insert_insert_eq in Hp.
    apply Hp; [by apply list_lookup_insert_eq|reflexivity|done|apply safe_pieces].
  - rewrite fmap_app. apply rtc_once, fine_arrive.
Qed.

(** Every run in which methods happen at one moment is one of the finer runs. *)
Lemma coarse_is_fine {A} (c c' : World * list (proc A)) :
  rtc step c c' -> db_ok (w_db c.1) -> rtc fine (c.1, At <$> c.2) (c'.1, At <$> c'.2).
Proof.
  induction 1 as [c|c c1 c2 Hs _ IH]; intros Hok; [done|].
  etrans; [by apply coarse_step_is_fine|]. apply IH.
  destruct (step_steps _ _ Hs Hok) as [Hd _]. by eapply db_steps_ok.
Qed.

(** ** Schedules *)

(** Let time pass, or let request [i] take its next turn, a statement carrying a time up to
    [lag] nanoseconds ago. *)
Inductive fine_turn : Type := Pass (ns : Z) (rnd : bytes) | Next (i : nat) (lag : Z).

Definition start {A B} (e : action B) (w : World) : (B -> proc A) -> World * thread A :=
  match e with
  | ACall op => fun k => (w, In (w_clock w) (pieces op) k)
  | AClock => fun k => (w, At (k (w_clock w)))
  | AReadBody => fun k => (w, At (k tt))
  | ANonce key expiry => fun k => let '(b, w') := do_action (ANonce key expiry) w in (w', At (k b))
  | APing endpoint priority => fun k => let '(b, w') := do_action (APing endpoint priority) w in (w', At (k b))
  end.

Definition next_turn {A} (th : thread A) (lag : Z) (w : World) : World * thread A :=
  match th with
  | At (Act e k) => start e w k
  | At (Ret a) => (w, th)
  | In _ (Done r) k => (w, At (k r))
  | In began (Piece m j) k =>
      let t := Z.max began (w_clock w - Z.max 0 lag) in
      if decide (began <= w_clock w) then
        let '(r, s') := m (at_time t (w_st w)) in (with_st (at_time (w_clock w) s') w, In t (j r) k)
      else (w, th)
  end.

Definition take_fine {A} (c : World * list (thread A)) (t : fine_turn) : World * list (thread A) :=
  match t with
  | Pass ns rnd =>
      (with_st (mkSt (w_db c.1) (w_clock c.1 + Z.max 0 ns) rnd (st_faults (w_st c.1))) c.1, c.2)
  | Next i lag =>
      match c.2 !! i with
      | Some th => let '(w', th') := next_turn th lag c.1 in (w', <[i := th']> c.2)
      | None => c
      end
  end.

Lemma take_fine_step {A} (c : World * list (thread A)) (t : fine_turn) : take_fine c t = c \/ fine c (take_fine c t).
Proof.
  destruct c as [w ts], t as [ns rnd|i lag]; cbn.
  - right. apply fine_env. unfold env_step, w_clock. cbn. split_and!; [lia|done..].
  - destruct (ts !! i) as [th|] eqn:Hi; [|by left]. destruct th as [[a|B e k]|B began [r|C m j] k]; cbn.
    + left. by rewrite list_insert_id.
    + right. destruct e; cbn; try (by eapply fine_effect); [by eapply fine_call|].
      destruct (checkAndAdd _ _ _ _) as [ok seen] eqn:E. eapply fine_effect; [exact Hi|done|].
      cbn. by rewrite E.
    + right. by eapply fine_return.
    + case_decide; [|left; by rewrite list_insert_id]. right. destruct (m _) as [r s'] eqn:E.
      eapply fine_piece; [exact Hi| |exact E]. lia.
Qed.

Lemma fine_schedule {A} (ts : list fine_turn) (c : World * list (thread A)) : rtc fine c (foldl take_fine c ts).
Proof.
  revert c. induction ts as [|t ts IH]; intros c; [done|]. cbn.
  destruct (take_fine_step c t) as [->|Hs]; [apply IH|]. by eapply rtc_l.
Qed.

End pieces.

(** ** A promotion that comes too late *)

Section example.
Import Demo.

(** The operator promotes the member [dev2]; between the two statements of it the admin
    [dev1] revokes that device. *)
Definition late_promotion : World * list (thread (error + unit)) :=
  foldl take_fine (mkWorld s0 ∅ [], At <$> [call_store (OpPromoteDevice dev2); call_store (OpRevokeDevice dev1 dev2)])
    [Next 0 0; Next 0 0; Next 1 0; Next 1 0; Next 1 0; Pass Second (rnd x09); Next 0 Second; Next 0 0].

(** Although [PromoteDevice] refuses a revoked device, the promotion succeeds on one: the
    check and the update are two statements. The device stays revoked. *)
Lemma promotion_outlives_revocation :
  late_promotion.2 = [At (Ret (inr tt)); At (Ret (inr tt))] /\
  (fun d => (d_id d, d_revoked d, d_role d)) <$> (w_db late_promotion.1).(devices) =
    [(dev1, false, RoleAdmin); (dev2, true, RoleAdmin)].
Proof. by vm_compute. Qed.

Lemma statements_interleave_safely_witness :
  changes db0 (w_db late_promotion.1) /\ db_ok (w_db late_promotion.1) /\
  evolves db0 (w_db late_promotion.1) /\ w_clock (mkWorld s0 ∅ []) <= w_clock late_promotion.1.
Proof.
  apply (statements_interleave_safely (mkWorld s0 ∅ []) late_promotion.1
           [call_store (OpPromoteDevice dev2); call_store (OpRevokeDevice dev1 dev2)] late_promotion.2).
  - rewrite <- surjective_pairing. apply fine_is_life, fine_schedule.
  - apply db0_ok.
Defined.
End example.
