(* ===== verification/Ceilings.v ===== *)
(** * The account's quota at the grain of statements

    [AppendMessage] reads the time, then waits for its transaction. However requests
    interleave, and however long the wait, no account ever holds more than its quota. *)

From S2P Require Import Prelude Encoding Clock Sql Schema StoreM Crypto Accounts Devices Queues Blobs.
From S2P Require Import Steps Invariants Evolution Refine Store Demo Capacity World Grain.

Local Open Scope Z_scope.

(** The bytes of all messages, expired or not. *)
Definition total_bytes (db : DB) : Z := sql_sum m_size db.(messages).

Lemma account_bytes_total (db : DB) (acc : string) (now : Z) :
  integrity db -> account_bytes acc now db <= total_bytes db.
Proof.
  intros Hi. rewrite account_bytes_eq, sql_sum_filter by done.
  apply sql_sum_le; [done|intros m _; case_decide; pose proof (m_size_nonneg m); lia|apply m_size_nonneg].
Qed.

Lemma step_payload (now : Z) (db : DB) (ev : event) (db' : DB) (p : bytes) :
  db_step now db ev db' -> event_payload ev = Some p -> total_bytes db' = total_bytes db + Z.of_nat (length p).
Proof.
  intros Hs E. destruct Hs; try done. injection E as ->. unfold total_bytes, appended_db.
  cbn [messages set_messages set_messages_seq]. rewrite sql_sum_app. f_equal. unfold sql_sum, m_size. cbn. lia.
Qed.

(** The quotas survive a statement, whatever time it carries. *)
Lemma changed_within_quotas (t now : Z) (db db' : DB) :
  db_ok db -> changed now db db' -> total_bytes db' < 2 ^ 63 ->
  within_quotas t db -> within_quotas (Z.max t now) db'.
Proof.
  intros Hok [->|Hc] Hsmall Hw; [intros a u Ha Hu; apply Hw; [done|lia]|].
  destruct (change_ok _ _ _ Hc Hok) as [Hok' He]. destruct Hc as [ev db' Hs|d Hd Hr].
  - apply (within_quotas_step t now db ev); try done. intros a p Ha Hp.
    pose proof (account_bytes_total db (a_id a) now (ok_integrity _ Hok)).
    pose proof (step_payload now db ev db' p Hs Hp). lia.
  - apply (within_quotas_keep _ db); try done. intros a u Ha Hu. apply Hw; [done|lia].
Qed.

Section grain.
Context `{Crypto}.

(** A turn or a crash after which the stored bytes can be counted in an [int64]. *)
Definition small_life {A} (c c' : World * list (thread A)) : Prop :=
  life c c' /\ total_bytes (w_db c'.1) < 2 ^ 63.

Lemma small_life_steps {A} (c c' : World * list (thread A)) :
  rtc small_life c c' -> db_ok (w_db c.1) -> Forall (ok_thread (w_db c.1)) c.2 ->
  within_quotas (sec (w_clock c.1)) (w_db c.1) -> within_quotas (sec (w_clock c'.1)) (w_db c'.1).
Proof.
  induction 1 as [c|c c1 c2 [Hs Hsmall] _ IH]; intros Hok Hts Hw; [done|].
  destruct (life_step_ok _ _ Hs Hok Hts) as ((now & Hn & Hc) & Ht & Hts1).
  destruct (changed_ok _ _ _ Hc Hok) as [Hok1 _]. apply IH; try done.
  pose proof (changed_within_quotas _ _ _ _ Hok Hc Hsmall Hw) as Hw1. pose proof (sec_mono _ _ Ht).
  intros a u Ha Hu. apply Hw1; [done|lia].
Qed.

(** C13: the account's quota bounds what is stored for it, at every moment, however
    requests interleave statement by statement and however long a send waits between
    reading the time and its transaction, crashes and restarts included: if no account is over its quota at the start,
    none ever holds more bytes of unexpired messages than its quota - as long as the file
    holds fewer than 2^63 bytes, so that the sums do not overflow. *)
Theorem quota_holds_between_statements {A} (w w' : World) (ps : list (proc A)) (ts' : list (thread A)) (a : Account) :
  rtc small_life (w, At <$> ps) (w', ts') -> db_ok (w_db w) -> within_quotas (sec (w_clock w)) (w_db w) ->
  a ∈ (w_db w').(accounts) ->
  account_bytes (a_id a) (sec (w_clock w')) (w_db w') <= a_quota_bytes a.
Proof.
  intros Hr Hok Hw Ha.
  by apply (small_life_steps _ _ Hr Hok (fresh_threads _ _) Hw).
Qed.

(** ** Schedules *)

Fixpoint small_schedule {A} (ts : list fine_turn) (c : World * list (thread A)) : bool :=
  match ts with
  | [] => true
  | t :: ts => bool_decide (total_bytes (w_db (take_fine c t).1) < 2 ^ 63) && small_schedule ts (take_fine c t)
  end.

Lemma small_schedule_steps {A} (ts : list fine_turn) (c : World * list (thread A)) :
  small_schedule ts c = true -> rtc small_life c (foldl take_fine c ts).
Proof.
  revert c. induction ts as [|t ts IH]; intros c Hs; [done|]. cbn in *.
  apply andb_prop in Hs as [Hb%bool_decide_eq_true Hs].
  destruct (take_fine_step c t) as [E|Hf]; [rewrite E in *; by apply IH|].
  eapply rtc_l; [split; [by apply life_turn|done]|by apply IH].
Qed.
End grain.

(** ** Two sends, one waiting *)

Section example.
Import Demo.

(** An account of twelve bytes that holds five. *)
Definition tight_calls : list call := at_ (OpCreateAccount "standard" 12 AdminModeManaged) 0 x01 :: drop 1 running.

Definition tight : DB := run_calls tight_calls empty_db.

Lemma tight_ok : db_ok tight.
Proof. apply run_calls_steps, ok_empty. Qed.

Lemma tight_within : within_quotas (sec (t0 + 10 * Second)) tight.
Proof.
  apply (within_quotas_run tight_calls empty_db t0); [apply ok_empty|intros a u Ha; by apply not_elem_of_nil in Ha|..].
  - vm_compute. repeat constructor; by vm_compute.
  - repeat constructor; by vm_compute.
  - by vm_compute.
  - cbv [tight_calls running enrolled app drop]. repeat (apply Forall_cons; split; [by vm_compute|]).
    by apply Forall_nil.
  - intros a Ha. vm_compute in Ha. by apply list_elem_of_singleton in Ha as ->.
Qed.

(** Two sends of five bytes: both have begun before either is stored, and the second
    carries a time from before the first. *)
Definition two_sends : World * list (thread (error + Message)) :=
  let send := call_store (OpAppendMessage rcp hello Hour) in
  foldl take_fine (mkWorld (mkSt tight (t0 + 10 * Second) (rnd x08) []) ∅ [], At <$> [send; send])
    [Next 0 0; Next 1 0; Next 0 0; Pass Second (rnd x09); Next 1 Second; Next 0 0; Next 1 0].

Lemma quota_holds_between_statements_witness :
  (exists m, two_sends.2 = [At (Ret (inr m)); At (Ret (inl ErrQuotaExceeded))]) /\
  exists a, a_quota_bytes a = 12 /\ account_bytes (a_id a) (sec (w_clock two_sends.1)) (w_db two_sends.1) = 10 /\
    account_bytes (a_id a) (sec (w_clock two_sends.1)) (w_db two_sends.1) <= a_quota_bytes a.
Proof.
  split; [eexists; by vm_compute|].
  exists (mkAccount acc 1700000000 "standard" "active" 12 AdminModeManaged).
  split; [done|]. split; [by vm_compute|].
  apply (quota_holds_between_statements (mkWorld (mkSt tight (t0 + 10 * Second) (rnd x08) []) ∅ []) two_sends.1
           (let send := call_store (OpAppendMessage rcp hello Hour) in [send; send]) two_sends.2).
  - rewrite <- surjective_pairing. apply small_schedule_steps. by vm_compute.
  - apply tight_ok.
  - apply tight_within.
  - vm_compute. left.
Defined.
End example.
