(* ===== verification/Url.v ===== *)
(** * Request paths

    What the source uses of [net/url] when a client builds a request from a path and
    the server reads it back: the query and fragment are cut off, the path is split
    into segments and each is unescaped. A path of plain segments is read back as it
    was written. *)

From S2P Require Import Prelude Encoding.

Local Open Scope Z_scope.

(** ** Cutting and splitting *)

(** [strings.Cut] at a character: what comes before, and what comes after if there
    is one. *)
Fixpoint cut (c : ascii) (s : string) : string * option string :=
  match s with
  | EmptyString => (EmptyString, None)
  | String a s =>
      if decide (a = c) then (EmptyString, Some s)
      else let '(before, after) := cut c s in (String a before, after)
  end.

(** [strings.LastIndex] at a character, and what starts there. *)
Fixpoint from_last (c : ascii) (s : string) : option string :=
  match s with
  | EmptyString => None
  | String a t =>
      match from_last c t with
      | Some u => Some u
      | None => if decide (a = c) then Some s else None
      end
  end.

(** [strings.Split] at a character. *)
Fixpoint split (c : ascii) (s : string) : list string :=
  match s with
  | EmptyString => [EmptyString]
  | String a s =>
      if decide (a = c) then EmptyString :: split c s
      else match split c s with
           | [] => [String a EmptyString]
           | x :: xs => String a x :: xs
           end
  end.

(** ** Percent escapes *)

(** [url.PathUnescape]. *)
Fixpoint unescape (s : string) : option string :=
  match s with
  | EmptyString => Some EmptyString
  | String c s1 =>
      if decide (c = "%"%char) then
        match s1 with
        | String a (String b s2) =>
            h ← unhex a; l ← unhex b; t ← unescape s2;
            Some (String (ascii_of_N (Z.to_N (16 * h + l))) t)
        | _ => None
        end
      else t ← unescape s1; Some (String c t)
  end.

(** ** Reading a path *)

(** A control character, which [url.Parse] refuses. *)
Definition is_ctl (c : ascii) : bool :=
  bool_decide (N_of_ascii c < 32)%N || bool_decide (N_of_ascii c = 127)%N.

(** No segment to clean: [path.Clean] keeps [.] and [..] out, and an empty segment
    only at the end. *)
Definition clean_segments (segs : list string) : bool :=
  forallb (fun s => negb (bool_decide (s = "."%string \/ s = ".."%string))) segs &&
  forallb (fun s => negb (bool_decide (s = ""%string))) (take (length segs - 1) segs).

(** [url.Parse] of a base and [s], as far as the path goes: its segments, unescaped,
    and whether the server's router takes it as it is. *)
Definition url_path (s : string) : option (list string * bool) :=
  if existsb is_ctl (String.list_ascii_of_string s) then None else
  let '(s, fragment) := cut "#" s in
  _ ← unescape (default ""%string fragment);
  let '(s, _) := cut "?" s in
  match s with
  | String "/" p =>
      let segs := split "/" p in
      decoded ← mapM unescape segs;
      Some (decoded, clean_segments segs)
  | _ => None
  end.

(** ** Plain segments *)

(** The characters of the identifiers the server makes up: letters, digits, [-] and
    [_]. *)
Definition plain_char (c : ascii) : Prop := c ∈ base64_url_alphabet.

Definition plain (s : string) : Prop :=
  s <> ""%string /\ Forall plain_char (String.list_ascii_of_string s).

#[export] Instance plain_dec (s : string) : Decision (plain s).
Proof. unfold plain, plain_char. apply _. Defined.

(** What a plain character is not. *)
Lemma plain_char_spec (c : ascii) :
  plain_char c -> c <> "#"%char /\ c <> "?"%char /\ c <> "/"%char /\ c <> "%"%char /\ c <> "."%char /\
    is_ctl c = false.
Proof.
  unfold plain_char. intros Hc.
  assert (Forall (fun c => c <> "#"%char /\ c <> "?"%char /\ c <> "/"%char /\ c <> "%"%char /\
    c <> "."%char /\ is_ctl c = false) base64_url_alphabet) as HF
    by (apply (bool_decide_unpack _); by vm_compute).
  rewrite Forall_forall in HF. by apply HF.
Qed.

(** A character of a path made of plain segments. *)
Definition path_char (c : ascii) : Prop := plain_char c \/ c = "/"%char.

Lemma path_char_spec (c : ascii) :
  path_char c -> c <> "#"%char /\ c <> "?"%char /\ is_ctl c = false.
Proof.
  intros [Hc| ->]; [|by vm_compute]. apply plain_char_spec in Hc. tauto.
Qed.

Lemma cut_none (c : ascii) (s : string) :
  Forall (fun a => a <> c) (String.list_ascii_of_string s) -> cut c s = (s, None).
Proof.
  induction s as [|a s IH]; simpl; [done|]. rewrite Forall_cons. intros [Ha Hs].
  rewrite decide_False by done. by rewrite IH.
Qed.

Lemma unescape_plain (s : string) :
  Forall plain_char (String.list_ascii_of_string s) -> unescape s = Some s.
Proof.
  induction s as [|a s IH]; simpl; [done|]. rewrite Forall_cons.
  intros [(_ & _ & _ & Ha & _)%plain_char_spec Hs]. rewrite decide_False by done. by rewrite IH.
Qed.

Lemma split_segment (s : string) (rest : string) :
  Forall plain_char (String.list_ascii_of_string s) ->
  split "/" (s +:+ String "/" rest) = s :: split "/" rest.
Proof.
  induction s as [|a s IH]; [done|]. cbn [String.list_ascii_of_string]. rewrite Forall_cons.
  intros [(_ & _ & Ha & _)%plain_char_spec Hs]. change (String a s +:+ String "/" rest) with
    (String a (s +:+ String "/" rest)). cbn [split]. rewrite decide_False by done. by rewrite IH.
Qed.

Lemma split_last_segment (s : string) :
  Forall plain_char (String.list_ascii_of_string s) -> split "/" s = [s].
Proof.
  induction s as [|a s IH]; [done|]. cbn [String.list_ascii_of_string]. rewrite Forall_cons.
  intros [(_ & _ & Ha & _)%plain_char_spec Hs]. cbn [split]. rewrite decide_False by done. by rewrite IH.
Qed.

Lemma concat_cons2 (s x : string) (l : list string) :
  String.concat "/" (s :: x :: l) = (s +:+ String "/" (String.concat "/" (x :: l)))%string.
Proof. done. Qed.

Lemma split_concat (segs : list string) :
  segs <> [] -> Forall plain segs -> split "/" (String.concat "/" segs) = segs.
Proof.
  intros Hne Hp. induction Hp as [|s segs [_ Hs] Hp IH]; [done|].
  destruct segs as [|x segs]; [by apply split_last_segment|].
  by rewrite concat_cons2, split_segment, IH.
Qed.

Lemma concat_chars (segs : list string) :
  Forall plain segs -> Forall path_char (String.list_ascii_of_string (String.concat "/" segs)).
Proof.
  induction 1 as [|s segs [_ Hs] Hp IH]; [constructor|].
  assert (Forall path_char (String.list_ascii_of_string s)) as Hs'
    by (eapply Forall_impl; [exact Hs|by left]).
  destruct segs as [|x segs]; [done|]. rewrite concat_cons2, chars_app.
  apply Forall_app. split; [done|]. constructor; [by right|exact IH].
Qed.

Lemma clean_plain (segs : list string) : Forall plain segs -> clean_segments segs = true.
Proof.
  intros Hp. assert (forall s, plain s -> s <> "."%string /\ s <> ".."%string) as Hd.
  { intros s [_ Hs]. split; intros ->; apply Forall_cons in Hs as [(_ & _ & _ & _ & Hc & _)%plain_char_spec _];
      done. }
  unfold clean_segments. apply andb_true_iff. split; apply forallb_forall; intros s Hs.
  - apply list_elem_of_In in Hs. rewrite Forall_forall in Hp. apply Hp, Hd in Hs as [? ?].
    rewrite bool_decide_false by tauto. done.
  - apply list_elem_of_In in Hs. eapply elem_of_sublist in Hs; [|apply sublist_take].
    rewrite Forall_forall in Hp. apply Hp in Hs as [? _]. by rewrite bool_decide_false.
Qed.

(** Nothing to cut off. *)
Lemma url_path_chars (p : string) :
  Forall path_char (String.list_ascii_of_string p) ->
  url_path (String "/" p) =
    decoded ← mapM unescape (split "/" p); Some (decoded, clean_segments (split "/" p)).
Proof.
  intros Hp. assert (Forall path_char (String.list_ascii_of_string (String "/" p))) as Hc
    by (constructor; [by right|done]).
  unfold url_path.
  assert (existsb is_ctl (String.list_ascii_of_string (String "/" p)) = false) as ->.
  { apply not_true_iff_false. rewrite existsb_exists. intros (c & Hin & Hctl).
    apply list_elem_of_In in Hin. rewrite Forall_forall in Hc.
    apply Hc, path_char_spec in Hin as (_ & _ & ?). congruence. }
  rewrite cut_none by (eapply Forall_impl; [exact Hc|by intros c (? & _)%path_char_spec]).
  rewrite cut_none by (eapply Forall_impl; [exact Hc|by intros c (_ & ? & _)%path_char_spec]).
  done.
Qed.

(** A path of plain segments is read back as it was written. *)
Lemma url_path_plain (segs : list string) :
  segs <> [] -> Forall plain segs ->
  url_path ("/" +:+ String.concat "/" segs) = Some (segs, true).
Proof.
  intros Hne Hp. change ("/" +:+ ?s) with (String "/" s).
  rewrite url_path_chars by by apply concat_chars. rewrite split_concat by done.
  assert (mapM unescape segs = Some segs) as ->.
  { apply mapM_Some, Forall_Forall2_diag. eapply Forall_impl; [exact Hp|].
    intros s [_ Hs]. by apply unescape_plain. }
  simpl. by rewrite clean_plain.
Qed.

Example url_path_example :
  url_path "/v1/devices/a%2Fb/revoke?x=1" = Some (["v1"; "devices"; "a/b"; "revoke"]%string, true).
Proof. by vm_compute. Qed.
