(* ===== verification/Http.v ===== *)
(** * Requests and responses of the HTTP API ([internal/server])

    The request as [net/http] hands it to a handler, and the request and response
    structures of the API. *)

From S2P Require Import Prelude Encoding Clock Schema.

(** ** Requests *)

(** [r_segments] are the decoded segments of the URL path; [r_headers] is keyed by
    canonical header name; [r_body_err] says that reading the body fails after
    [r_body]; [r_clean] says that the path as sent has no empty, [.] or [..]
    segment. *)
Record Request := mkRequest {
  r_method : string;
  r_segments : list string;
  r_clean : bool;
  r_headers : gmap string string;
  r_body : bytes;
  r_body_err : bool;
}.

(** [r.URL.Path]. *)
Definition r_path (r : Request) : string := "/" +:+ String.concat "/" (r_segments r).

(** [r.Header.Get]. *)
Definition header (r : Request) (name : string) : string := default ""%string (r_headers r !! name).

(** [maxBodyBytes], and [io.LimitReader(r.Body, maxBodyBytes)]. *)
Definition maxBodyBytes : Z := Z.shiftl 1 20.
Definition limited_body (r : Request) : bytes := take (Z.to_nat maxBodyBytes) (r_body r).

(** Reading at most [maxBodyBytes] meets the error only if it comes before. *)
Definition body_read_fails (r : Request) : bool :=
  r_body_err r && bool_decide (Z.of_nat (length (r_body r)) < maxBodyBytes)%Z.

(** ** Request structures *)

Record registerRequest := mkRegisterRequest {
  rr_token : string; rr_public_key : string; rr_push_endpoint : string; rr_capabilities : string }.
Record createInvitationRequest := mkCreateInvitationRequest { ci_grants_role : string }.
Record setRoleRequest := mkSetRoleRequest { sr_role : string }.
Record updatePushRequest := mkUpdatePushRequest { up_push_endpoint : string }.
Record bundleRequest := mkBundleRequest { br_bundle : string }.
Record appendStatementRequest := mkAppendStatementRequest { as_statement : string }.
Record createQueueRequest := mkCreateQueueRequest { cq_recipient_key : string }.
Record sendRequest := mkSendRequest { snd_payload : string; snd_ttl : Z; snd_priority : bool }.
Record ackRequest := mkAckRequest { ack_ids : list string }.
Record setQueueQuotaRequest := mkSetQueueQuotaRequest { sq_quota_bytes : Z }.

(** ** Responses *)

Record deviceView := mkDeviceView {
  dv_id : string; dv_role : string; dv_public_key : string; dv_push_endpoint : string;
  dv_capabilities : string; dv_created : string; dv_last_seen : string; dv_revoked : bool }.
Record invitationView := mkInvitationView { iv_id : string; iv_created : string; iv_expires : string }.
Record statementView := mkStatementView { sv_seq : Z; sv_statement : string; sv_created : string }.
Record messageView := mkMessageView {
  mv_id : string; mv_payload : string; mv_received_at : string; mv_expires : string }.

(** The bodies of the responses, before encoding. [BMux] is the plain-text body of
    an answer by the router itself. *)
Inductive body : Type :=
  | BError (msg : string)
  | BHealth (version : string)
  | BRegister (device_id account_id : string)
  | BRevoked
  | BDevices (devices : list deviceView)
  | BInvitation (token id expires : string)
  | BInvitations (invitations : list invitationView)
  | BQuota (quota_bytes stored_bytes account_quota_bytes : Z)
  | BRole (role : string)
  | BStatusOK
  | BBundle (bundle updated : string)
  | BStatement (st : statementView)
  | BStatements (sts : list statementView)
  | BQueue (recipient_id sender_id : string)
  | BMessageID (id : string)
  | BMessages (messages : list messageView)
  | BDeleted (n : Z)
  | BRetired
  | BQueueQuota (quota_bytes : Z)
  | BMux.

Record Response := mkResponse { status : Z; resp_body : body }.

Definition StatusOK : Z := 200.
Definition StatusCreated : Z := 201.
Definition StatusAccepted : Z := 202.
Definition StatusMovedPermanently : Z := 301.
Definition StatusBadRequest : Z := 400.
Definition StatusUnauthorized : Z := 401.
Definition StatusForbidden : Z := 403.
Definition StatusNotFound : Z := 404.
Definition StatusMethodNotAllowed : Z := 405.
Definition StatusConflict : Z := 409.
Definition StatusRequestEntityTooLarge : Z := 413.
Definition StatusInternalServerError : Z := 500.
Definition StatusInsufficientStorage : Z := 507.

Definition writeJSON (status : Z) (b : body) : Response := mkResponse status b.
Definition writeError (status : Z) (msg : string) : Response := writeJSON status (BError msg).

Definition unauthorized : Response := writeError StatusUnauthorized "unauthorized".
Definition internal_error : Response := writeError StatusInternalServerError "internal error".
