(* ===== verification/Decoder.v ===== *)
(** * Decoding into structures ([encoding/json])

    What [Unmarshal] and [Decoder.Decode] do with a tree, by the type they decode into,
    and the decoders of the API's request structures. *)

From S2P Require Import Prelude Encoding Clock Decimal Json Scanner Schema Http.

Local Open Scope Z_scope.

(** ** By type *)

(** Decoding into a variable of type [A]: from what it holds and the tree to what it holds
    afterwards, or an error. A [null] leaves a variable as it is. *)
Definition target (A : Type) : Type := A -> json -> option A.

Definition into_string : target string := fun old j =>
  match j with JNull => Some old | JStr s => Some s | _ => None end.

Definition into_int64 : target Z := fun old j =>
  match j with JNull => Some old | JNumber text => ParseInt text | _ => None end.

Definition into_bool : target bool := fun old j =>
  match j with JNull => Some old | JBool b => Some b | _ => None end.

(** A slice: the array behind it as far as it has been written, and its length. Decoding
    starts over at the front of the array, so that an element left as it is shows what the
    array held before. *)
Record slice (A : Type) : Type := mkSlice { sl_array : list A; sl_len : nat }.
#[global] Arguments mkSlice {A} sl_array sl_len.
#[global] Arguments sl_array {A} s.
#[global] Arguments sl_len {A} s.

Definition no_slice {A} : slice A := mkSlice [] 0.
Definition elements {A} (s : slice A) : list A := take (sl_len s) (sl_array s).

Fixpoint fill {A} (zero : A) (elem : target A) (old : list A) (l : list json) : option (list A) :=
  match l with
  | [] => Some old
  | j :: l =>
      x ← elem (default zero (head old)) j;
      rest ← fill zero elem (tail old) l;
      Some (x :: rest)
  end.

Definition into_slice {A} (zero : A) (elem : target A) : target (slice A) := fun old j =>
  match j with
  | JNull | JArr [] => Some no_slice
  | JArr l => a ← fill zero elem (sl_array old) l; Some (mkSlice a (length l))
  | _ => None
  end.

(** [foldName]: ASCII letters in upper case, and the two characters outside ASCII that fold
    to one, U+017F and U+212A. Field names are ASCII, so no others matter. *)
Definition upper (c : ascii) : ascii :=
  if in_range 97 122 c then ascii_of_N (N_of_ascii c - 32) else c.

Fixpoint foldName (s : string) : string :=
  match s with
  | EmptyString => ""
  | String a s1 =>
      match s1 with
      | String b s2 =>
          if decide (N_of_ascii a = 197 /\ N_of_ascii b = 191)%N then String "S" (foldName s2) else
          match s2 with
          | String c s3 =>
              if decide (N_of_ascii a = 226 /\ N_of_ascii b = 132 /\ N_of_ascii c = 170)%N
              then String "K" (foldName s3) else String (upper a) (foldName s1)
          | EmptyString => String (upper a) (foldName s1)
          end
      | EmptyString => String (upper a) ""
      end
  end.

(** A structure's fields by name, each with what decoding into it does to the whole. *)
Abbreviation fields A := (list (string * target A)).

(** The field a key names: the one of that name, or of that name but for case. *)
Definition find_field {A} (fs : fields A) (key : string) : option (target A) :=
  match list_find (fun f => f.1 = key) fs with
  | Some (_, f) => Some f.2
  | None =>
      match list_find (fun f => foldName f.1 = foldName key) fs with
      | Some (_, f) => Some f.2
      | None => None
      end
  end.

(** The members one after the other; those that name no field are skipped. *)
Fixpoint decode_members {A} (fs : fields A) (a : A) (ms : list (string * json)) : option A :=
  match ms with
  | [] => Some a
  | (key, j) :: ms =>
      match find_field fs key with
      | Some into => a ← into a j; decode_members fs a ms
      | None => decode_members fs a ms
      end
  end.

Definition into_struct {A} (fs : fields A) : target A := fun old j =>
  match j with
  | JNull => Some old
  | JObj ms => decode_members fs old ms
  | _ => None
  end.

(** Part of a structure. *)
Definition part {A B} (get : A -> B) (set : A -> B -> A) (into : target B) : target A := fun a j =>
  b ← into (get a) j; Some (set a b).

(** [json.Unmarshal] and [json.NewDecoder(...).Decode] into a variable that holds [zero]. *)
Definition unmarshal {A} (zero : A) (into : target A) (b : bytes) : decoded A :=
  match Unmarshal (string_of_bytes b) ≫= into zero with
  | Some a => DOk a
  | None => DErr
  end.

Definition decode_first {A} (zero : A) (into : target A) (b : bytes) : decoded A :=
  match Decode (string_of_bytes b) with
  | DOk j => match into zero j with Some a => DOk a | None => DErr end
  | DEOF => DEOF
  | DErr => DErr
  end.

(** ** The request structures *)

Definition decode_register : bytes -> decoded registerRequest :=
  decode_first (mkRegisterRequest "" "" "" "") (into_struct [
    ("token", part rr_token (fun r s => mkRegisterRequest s (rr_public_key r) (rr_push_endpoint r) (rr_capabilities r)) into_string);
    ("public_key", part rr_public_key (fun r s => mkRegisterRequest (rr_token r) s (rr_push_endpoint r) (rr_capabilities r)) into_string);
    ("push_endpoint", part rr_push_endpoint (fun r s => mkRegisterRequest (rr_token r) (rr_public_key r) s (rr_capabilities r)) into_string);
    ("capabilities", part rr_capabilities (fun r s => mkRegisterRequest (rr_token r) (rr_public_key r) (rr_push_endpoint r) s) into_string)
  ]%string).

Definition decode_invitation : bytes -> decoded createInvitationRequest :=
  decode_first (mkCreateInvitationRequest "") (into_struct [
    ("grants_role"%string, part ci_grants_role (fun _ => mkCreateInvitationRequest) into_string)]).

Definition decode_role : bytes -> decoded setRoleRequest :=
  decode_first (mkSetRoleRequest "") (into_struct [
    ("role"%string, part sr_role (fun _ => mkSetRoleRequest) into_string)]).

Definition decode_push : bytes -> decoded updatePushRequest :=
  decode_first (mkUpdatePushRequest "") (into_struct [
    ("push_endpoint"%string, part up_push_endpoint (fun _ => mkUpdatePushRequest) into_string)]).

Definition decode_bundle : bytes -> decoded bundleRequest :=
  decode_first (mkBundleRequest "") (into_struct [
    ("bundle"%string, part br_bundle (fun _ => mkBundleRequest) into_string)]).

Definition decode_statement : bytes -> decoded appendStatementRequest :=
  decode_first (mkAppendStatementRequest "") (into_struct [
    ("statement"%string, part as_statement (fun _ => mkAppendStatementRequest) into_string)]).

Definition decode_queue : bytes -> decoded createQueueRequest :=
  decode_first (mkCreateQueueRequest "") (into_struct [
    ("recipient_key"%string, part cq_recipient_key (fun _ => mkCreateQueueRequest) into_string)]).

Definition decode_send : bytes -> decoded sendRequest :=
  unmarshal (mkSendRequest "" 0 false) (into_struct [
    ("payload", part snd_payload (fun r s => mkSendRequest s (snd_ttl r) (snd_priority r)) into_string);
    ("ttl", part snd_ttl (fun r n => mkSendRequest (snd_payload r) n (snd_priority r)) into_int64);
    ("priority", part snd_priority (fun r b => mkSendRequest (snd_payload r) (snd_ttl r) b) into_bool)
  ]%string).

Definition decode_ack (b : bytes) : decoded ackRequest :=
  match unmarshal no_slice (into_struct [("ids"%string, into_slice ""%string into_string)]) b with
  | DOk ids => DOk (mkAckRequest (elements ids))
  | DEOF => DEOF
  | DErr => DErr
  end.

Definition decode_quota : bytes -> decoded setQueueQuotaRequest :=
  unmarshal (mkSetQueueQuotaRequest 0) (into_struct [
    ("quota_bytes"%string, part sq_quota_bytes (fun _ => mkSetQueueQuotaRequest) into_int64)]).

Example decode_ack_example :
  let ids s := match decode_ack (bytes_of_string (quotes s)) with DOk r => Some (ack_ids r) | _ => None end in
  ids "{'ids':['a','b']}"%string = Some ["a"; "b"]%string /\
  ids "{'IDS':['a',null],'x':{}}"%string = Some ["a"; ""]%string /\
  ids "{'ids':['a','b'],'ids':['c'],'ids':[null,null]}"%string = Some ["c"; "b"]%string /\
  ids "{'ids':['a'],'ids':null}"%string = Some [] /\ ids "{'ids':[1]}"%string = None.
Proof. by vm_compute. Qed.

Example decode_send_example :
  let send s := decode_send (bytes_of_string (quotes s)) in
  send "{'payload':'YQ==','ttl':60}"%string = DOk (mkSendRequest "YQ==" 60 false) /\
  send "null"%string = DOk (mkSendRequest "" 0 false) /\
  send "{'ttl':9223372036854775808}"%string = DErr /\ send "{'ttl':1.0}"%string = DErr /\
  send "{} x"%string = DErr /\ send ""%string = DErr.
Proof. by vm_compute. Qed.
