(* ===== verification/Reply.v ===== *)
(** * Response bodies as JSON

    The tree of each response body: the field names and their order are those of the
    response structures, and of maps in key order. *)

From S2P Require Import Prelude Encoding Clock Decimal Json Schema Http.

Local Open Scope Z_scope.

(** ** The bodies of the API *)

Definition json_device (v : deviceView) : json :=
  let endpoint := if decide (dv_push_endpoint v = ""%string) then []
                  else [("push_endpoint"%string, JStr (dv_push_endpoint v))] in
  JObj ([("id", JStr (dv_id v)); ("role", JStr (dv_role v));
         ("public_key", JStr (dv_public_key v))]%string ++ endpoint ++
        [("capabilities", JStr (dv_capabilities v)); ("created", JStr (dv_created v));
         ("last_seen", JStr (dv_last_seen v)); ("revoked", JBool (dv_revoked v))]%string).

Definition json_invitation (v : invitationView) : json := JObj
  [("id", JStr (iv_id v)); ("created", JStr (iv_created v)); ("expires", JStr (iv_expires v))]%string.

Definition json_statement (v : statementView) : json := JObj
  [("seq", JInt (sv_seq v)); ("statement", JStr (sv_statement v)); ("created", JStr (sv_created v))]%string.

Definition json_message (v : messageView) : json := JObj
  [("id", JStr (mv_id v)); ("payload", JStr (mv_payload v));
   ("received_at", JStr (mv_received_at v)); ("expires", JStr (mv_expires v))]%string.

(** [None] is the router's plain text. *)
Definition json_of_body (b : body) : option json :=
  match b with
  | BError msg => Some (JObj [("error", JStr msg)])
  | BHealth version => Some (JObj [("status", JStr "ok"); ("version", JStr version)])
  | BRegister dev acc => Some (JObj [("device_id", JStr dev); ("account_id", JStr acc)])
  | BRevoked => Some (JObj [("revoked", JBool true)])
  | BDevices l => Some (JObj [("devices", JArr (json_device <$> l))])
  | BInvitation token id expires =>
      Some (JObj [("invitation_token", JStr token); ("invitation_id", JStr id); ("expires", JStr expires)])
  | BInvitations l => Some (JObj [("invitations", JArr (json_invitation <$> l))])
  | BQuota q used acc =>
      Some (JObj [("quota_bytes", JInt q); ("stored_bytes", JInt used); ("account_quota_bytes", JInt acc)])
  | BRole role => Some (JObj [("role", JStr role)])
  | BStatusOK => Some (JObj [("status", JStr "ok")])
  | BBundle bundle updated => Some (JObj [("bundle", JStr bundle); ("updated", JStr updated)])
  | BStatement st => Some (json_statement st)
  | BStatements l => Some (JObj [("statements", JArr (json_statement <$> l))])
  | BQueue rcp snd => Some (JObj [("recipient_id", JStr rcp); ("sender_id", JStr snd)])
  | BMessageID id => Some (JObj [("message_id", JStr id)])
  | BMessages l => Some (JObj [("messages", JArr (json_message <$> l))])
  | BDeleted n => Some (JObj [("deleted", JInt n)])
  | BRetired => Some (JObj [("retired", JBool true)])
  | BQueueQuota q => Some (JObj [("quota_bytes", JInt q)])
  | BMux => None
  end%string.

(** The text of a response: [json.NewEncoder(w).Encode] ends it with a line feed,
    which is left out here. *)
Definition body_text (b : body) : string :=
  match json_of_body b with Some j => print j | None => "not found" end.

Example body_text_example :
  apostrophes (body_text (BStatements [mkStatementView 7 "YQ==" "<"])) =
  "{'statements':[{'seq':7,'statement':'YQ==','created':'\u003c'}]}"%string.
Proof. by vm_compute. Qed.

(** ** Sizes *)

Lemma message_length (v : messageView) (b : bytes) :
  mv_payload v = base64_std_encode b ->
  (String.length (mv_payload v) <= String.length (print (json_message v)))%nat.
Proof.
  intros E. unfold json_message. cbn [print map fst snd]. unfold print_string.
  rewrite E, base64_copied. repeat rewrite ?str_length_app, ?concat_cons_length. lia.
Qed.

(** The reply to a receive is longer than the payloads it carries. *)
Lemma messages_length (l : list messageView) :
  Forall (fun v => exists b, mv_payload v = base64_std_encode b) l ->
  (sum_list ((fun v => String.length (mv_payload v)) <$> l) <= String.length (body_text (BMessages l)))%nat.
Proof.
  intros Hl. unfold body_text. cbn [json_of_body print map fst snd].
  assert (sum_list ((fun v => String.length (mv_payload v)) <$> l) <=
    String.length (String.concat "," (map print (json_message <$> l))))%nat as Hs.
  { etrans; [|apply concat_length]. change (map print (json_message <$> l)) with (print <$> (json_message <$> l)).
    rewrite <- !list_fmap_compose. apply sum_list_mono.
    eapply Forall_impl; [exact Hl|]. intros v [b Hb]. by eapply message_length. }
  revert Hs. generalize (String.concat "," (map print (json_message <$> l))). intros t Ht.
  cbn [String.concat]. rewrite !str_length_app. lia.
Qed.
