(* ===== verification/Auth.v ===== *)
(** * Request authentication ([internal/server/auth.go])

    The signature envelope, its verification against a key, the nonce cache, and the
    gate in front of the management plane. *)

From S2P Require Import Prelude Encoding Clock Sql Schema StoreM Crypto Sigauth Accounts Devices.
From S2P Require Import Queues Blobs Steps Invariants Evolution Refine Store World Http.

Local Open Scope Z_scope.

Definition defaultClockSkew : Z := 5 * Minute.

Record sigEnvelope := mkSigEnvelope {
  env_timestamp : string;
  env_nonce : string;
  env_signature : bytes;
  env_body : bytes;
}.

Section auth.
Context `{Crypto}.

(** The timestamp is compared with the clock before the body is read. *)
Definition extractSignature (r : Request) : proc (option sigEnvelope) :=
  let ts := header r HeaderTimestamp in
  let nonce := header r HeaderNonce in
  let sigB64 := header r HeaderSignature in
  if decide (ts = ""%string \/ nonce = ""%string \/ sigB64 = ""%string) then mret None else
  match parse_rfc3339 ts with
  | None => mret None
  | Some tsTime =>
      now ← act AClock;
      let skew := now - tsTime in
      if decide (skew > defaultClockSkew \/ skew < - defaultClockSkew) then mret None else
      _ ← act AReadBody;
      if body_read_fails r then mret None else
      match base64_std_decode sigB64 with
      | None => mret None
      | Some sig => mret (Some (mkSigEnvelope ts nonce sig (limited_body r)))
      end
  end.

(** The key a nonce is remembered under: the principal, a NUL and the nonce. *)
Definition nonce_key (principal nonce : string) : string :=
  principal +:+ String "000"%char nonce.

Definition verifyAndRecord (r : Request) (env : sigEnvelope) (principal : string) (key : bytes)
  : proc bool :=
  let msg := SigningString (r_method r) (r_path r) (env_timestamp env) (env_nonce env) (env_body env) in
  if negb (ed25519_verify key msg (env_signature env)) then mret false else
  let tsTime := default 0 (parse_rfc3339 (env_timestamp env)) in
  act (ANonce (nonce_key principal (env_nonce env)) (tsTime + defaultClockSkew)).

(** [requireSignature] up to the call of the handler: the calling device and the
    buffered body. *)
Definition authenticate (r : Request) : proc (option (Device * bytes)) :=
  let deviceID := header r HeaderDeviceID in
  if decide (deviceID = ""%string) then mret None else
  env ← extractSignature r;
  match env with
  | None => mret None
  | Some env =>
      dev ← call_store (OpGetDevice deviceID);
      match dev with
      | inl _ => mret None
      | inr dev =>
          if d_revoked dev then mret None else
          ok ← verifyAndRecord r env deviceID (d_public_key dev);
          if negb ok then mret None else
          _ ← call_store (OpTouchLastSeen deviceID);
          mret (Some (dev, env_body env))
      end
  end.

(** [next] is the handler behind the gate: it gets the authenticated device and the
    buffered body. *)
Definition requireSignature (next : Device -> bytes -> proc Response) (r : Request)
  : proc Response :=
  a ← authenticate r;
  match a with
  | None => mret unauthorized
  | Some (dev, body) => next dev body
  end.
End auth.
