(* ===== verification/Push.v ===== *)
(** * Wake-up pings ([internal/push], [internal/server/push.go])

    Which devices are pinged, and that a ping carries nothing. *)

From S2P Require Import Prelude Encoding Clock Sql Schema StoreM Crypto Accounts Devices.
From S2P Require Import Queues Blobs Store World Http.

Local Open Scope Z_scope.

(** ** Delivery: [UnifiedPush.Ping] *)

(** The HTTP request a ping is, and what the client's round trip answers: an error
    or a status. *)
Record PingRequest := mkPingRequest {
  ping_method : string;
  ping_url : string;
  ping_headers : list (string * string);
  ping_body : bytes;
}.

(** [url_ok] is what [http.NewRequestWithContext] accepts, [client] what
    [http.Client.Do] returns. *)
Definition Ping (url_ok : string -> bool) (client : PingRequest -> option Z)
    (endpoint : string) (priority : Priority) : option PingRequest * option error :=
  if negb (url_ok endpoint) then (None, Some (Errorf "url")) else
  let headers := match priority with
                 | High => [("Priority"%string, "high"%string)]
                 | Normal => []
                 end in
  let req := mkPingRequest "POST" endpoint headers [] in
  match client req with
  | None => (Some req, Some (Errorf "push"))
  | Some code => (Some req, if decide (code >= 400) then Some (Errorf "push endpoint returned") else None)
  end.

(** An implementation of the interface [Pinger]: for an endpoint and a priority, the request
    it makes, if any, and its error. *)
Definition Pinger : Type := string -> Priority -> option PingRequest * option error.

Definition NoopPinger : Pinger := fun _ _ => (None, None).

(** [UnifiedPush] over the client it is given, or over [http.DefaultClient]. *)
Definition NewUnifiedPush (url_ok : string -> bool) (DefaultClient : PingRequest -> option Z)
    (client : option (PingRequest -> option Z)) : Pinger :=
  Ping url_ok (default DefaultClient client).

(** The pinger [server.New] takes from its configuration. *)
Definition New_pinger (cfg_pinger : option Pinger) : Pinger := default NoopPinger cfg_pinger.

(** Whichever of them it is, a ping carries nothing: the request, if there is one, goes to
    the endpoint with an empty body, and has no header but the priority. *)
Lemma ping_contentless (url_ok : string -> bool) (DefaultClient : PingRequest -> option Z)
    (client : option (PingRequest -> option Z)) (cfg : option Pinger) (endpoint : string) (priority : Priority)
    (req : PingRequest) :
  cfg = None \/ cfg = Some (NewUnifiedPush url_ok DefaultClient client) ->
  (New_pinger cfg endpoint priority).1 = Some req ->
  ping_method req = "POST"%string /\ ping_url req = endpoint /\ ping_body req = [] /\
  ping_headers req = (if decide (priority = High) then [("Priority"%string, "high"%string)] else []) /\
  url_ok endpoint = true.
Proof.
  intros [->| ->]; [done|]. unfold New_pinger, NewUnifiedPush, Ping. cbn.
  destruct (url_ok endpoint) eqn:Eu; [|done]. cbn. by destruct (default DefaultClient client _); intros [= <-]; destruct priority.
Qed.

(** ** Dispatch *)

(** [dispatchPing] starts the delivery and does not wait for it. *)
Definition dispatchPing (endpoint : string) (priority : Priority) : proc unit :=
  act (APing endpoint priority).

Definition wakeQueueOwner (ownerDevice : string) (priority : Priority) : proc unit :=
  dev ← call_store (OpGetDevice ownerDevice);
  match dev with
  | inl _ => mret tt
  | inr dev =>
      if decide (d_revoked dev = true \/ d_push_endpoint dev = ""%string) then mret tt
      else dispatchPing (d_push_endpoint dev) priority
  end.

(** The loop over the listed devices. *)
Fixpoint ping_devices (exceptDeviceID : string) (devs : list Device) : proc unit :=
  match devs with
  | [] => mret tt
  | d :: devs =>
      if decide (d_id d = exceptDeviceID \/ d_revoked d = true \/ d_push_endpoint d = ""%string)
      then ping_devices exceptDeviceID devs
      else _ ← dispatchPing (d_push_endpoint d) Normal; ping_devices exceptDeviceID devs
  end.

Definition wakeAccountDevices (accountID exceptDeviceID : string) : proc unit :=
  devs ← call_store (OpListDevices accountID);
  match devs with
  | inl _ => mret tt
  | inr devs => ping_devices exceptDeviceID devs
  end.

(** The endpoints [wakeAccountDevices] pings, in order. *)
Definition wake_targets (except : string) (devs : list Device) : list (string * Priority) :=
  (fun d => (d_push_endpoint d, Normal)) <$>
    filter (fun d => ~ (d_id d = except \/ d_revoked d = true \/ d_push_endpoint d = ""%string)) devs.

Lemma run_ping_devices `{Crypto} (except : string) (devs : list Device) (w : World) :
  run (ping_devices except devs) w =
  (tt, mkWorld (w_st w) (w_nonces w) (w_pings w ++ wake_targets except devs)).
Proof.
  revert w. induction devs as [|d devs IH]; intros w.
  - cbn. rewrite app_nil_r. by destruct w.
  - cbn [ping_devices]. unfold wake_targets. rewrite filter_cons. case_decide as Hd.
    + rewrite IH, decide_False by tauto. done.
    + rewrite run_bind. unfold dispatchPing. rewrite run_act. cbn. rewrite IH, decide_True by done.
      cbn. by rewrite <- app_assoc.
Qed.
