(* ===== verification/Management.v ===== *)
(** * Management-plane handlers

    [internal/server/devices.go], [bundles.go], [statements.go] and the handlers of
    [push.go]: what each answers and does, given the device the gate authenticated
    and the buffered body. *)

From S2P Require Import Prelude Encoding Clock Decimal Sql Schema StoreM Crypto Sigauth Accounts Devices.
From S2P Require Import Queues Blobs Store World Json Scanner Http Decoder Auth Push.

Local Open Scope Z_scope.

Definition defaultInvitationTTL : Z := 15 * Minute.
Definition maxPushEndpointLen : Z := 2048.
Definition maxBundleBytes : Z := Z.shiftl 8 10.

(** [toDeviceView]: a device's push endpoint is shown to itself only. *)
Definition toDeviceView (d : Device) (callerID : string) : deviceView :=
  let endpoint := if decide (d_id d = callerID) then d_push_endpoint d else ""%string in
  mkDeviceView (d_id d) (d_role d) (base64_std_encode (d_public_key d)) endpoint
    (d_capabilities d) (rfc3339 (d_created d)) (rfc3339 (d_last_seen d)) (d_revoked d).

Section handlers.
Context `{Crypto}.

(** ** Enrolment, unsigned: the token is the credential *)

Definition handleRegister (r : Request) : proc Response :=
  match decode_register (limited_body r) with
  | DEOF | DErr => mret (writeError StatusBadRequest "invalid json")
  | DOk req =>
      match base64_std_decode (rr_public_key req) with
      | None => mret (writeError StatusBadRequest "invalid public_key")
      | Some pub =>
          if decide (length pub <> PublicKeySize)
          then mret (writeError StatusBadRequest "invalid public_key") else
          dev ← call_store (OpRegisterDevice (rr_token req) pub (rr_push_endpoint req)
                              (rr_capabilities req));
          match dev with
          | inl ErrInvalidInvitation =>
              mret (writeError StatusUnauthorized "invalid or expired invitation")
          | inl _ => mret internal_error
          | inr dev =>
              _ ← wakeAccountDevices (d_account_id dev) (d_id dev);
              mret (writeJSON StatusCreated (BRegister (d_id dev) (d_account_id dev)))
          end
      end
  end.

(** ** Devices *)

Definition handleRevoke (targetID : string) (caller : Device) (body : bytes) : proc Response :=
  target ← call_store (OpGetDevice targetID);
  match target with
  | inl ErrDeviceNotFound => mret (writeError StatusNotFound "no such device")
  | inl _ => mret internal_error
  | inr target =>
      if decide (d_account_id target <> d_account_id caller)
      then mret (writeError StatusNotFound "no such device") else
      if decide (targetID <> d_id caller /\ RequireAdmin caller <> None)
      then mret (writeError StatusForbidden "admin role required") else
      let targetEndpoint := d_push_endpoint target in
      res ← call_store (OpRevokeDevice (d_id caller) targetID);
      match res with
      | inl ErrLastAdmin => mret (writeError StatusConflict "account would lose its last admin")
      | inl ErrDeviceNotFound => mret (writeError StatusNotFound "no such device")
      | inl _ => mret internal_error
      | inr _ =>
          _ ← wakeAccountDevices (d_account_id caller) (d_id caller);
          _ ← (if decide (targetEndpoint <> ""%string /\ targetID <> d_id caller)
               then dispatchPing targetEndpoint Normal else mret tt);
          mret (writeJSON StatusOK BRevoked)
      end
  end.

Definition handleListDevices (dev : Device) (body : bytes) : proc Response :=
  devs ← call_store (OpListDevices (d_account_id dev));
  match devs with
  | inl _ => mret internal_error
  | inr devs => mret (writeJSON StatusOK (BDevices ((fun d => toDeviceView d (d_id dev)) <$> devs)))
  end.

Definition handleSetRole (targetID : string) (caller : Device) (body : bytes) : proc Response :=
  if decide (RequireAdmin caller <> None)
  then mret (writeError StatusForbidden "admin role required") else
  match decode_role (take (Z.to_nat maxBodyBytes) body) with
  | DEOF | DErr => mret (writeError StatusBadRequest "invalid json")
  | DOk req =>
      res ← call_store (OpSetDeviceRole (d_account_id caller) targetID (sr_role req));
      match res with
      | inl ErrRoleChangeNotApplicable =>
          mret (writeError StatusConflict "roles are not changeable in a flat account")
      | inl ErrLastAdmin => mret (writeError StatusConflict "account would lose its last admin")
      | inl ErrDeviceNotFound => mret (writeError StatusNotFound "no such device")
      | inl _ => mret (writeError StatusBadRequest "invalid role")
      | inr _ =>
          _ ← wakeAccountDevices (d_account_id caller) (d_id caller);
          mret (writeJSON StatusOK (BRole (sr_role req)))
      end
  end.

Definition handleGetQuota (dev : Device) (body : bytes) : proc Response :=
  used ← call_store (OpDeviceStoredBytes (d_id dev));
  match used with
  | inl _ => mret internal_error
  | inr used =>
      accountQuota ← call_store (OpAccountQuotaBytes (d_account_id dev));
      match accountQuota with
      | inl _ => mret internal_error
      | inr accountQuota =>
          mret (writeJSON StatusOK (BQuota (d_quota_bytes dev) used accountQuota))
      end
  end.

(** ** Invitations *)

Definition handleCreateInvitation (dev : Device) (body : bytes) : proc Response :=
  if decide (RequireAdmin dev <> None)
  then mret (writeError StatusForbidden "admin role required") else
  match decode_invitation (take (Z.to_nat maxBodyBytes) body) with
  | DErr => mret (writeError StatusBadRequest "invalid json")
  | (DOk _ | DEOF) as d =>
      let role := match d with DOk req => ci_grants_role req | _ => ""%string end in
      if decide (role <> ""%string /\ role <> RoleAdmin /\ role <> RoleMember)
      then mret (writeError StatusBadRequest "grants_role must be admin or member") else
      res ← call_store (OpCreateInvitation (d_account_id dev) defaultInvitationTTL role);
      match res with
      | inl _ => mret internal_error
      | inr (token, inv) =>
          _ ← wakeAccountDevices (d_account_id dev) (d_id dev);
          mret (writeJSON StatusCreated (BInvitation token (inv_id inv) (rfc3339 (inv_expires inv))))
      end
  end.

Definition handleListInvitations (dev : Device) (body : bytes) : proc Response :=
  invs ← call_store (OpListInvitations (d_account_id dev));
  match invs with
  | inl _ => mret internal_error
  | inr invs =>
      mret (writeJSON StatusOK (BInvitations
        ((fun i => mkInvitationView (inv_id i) (rfc3339 (inv_created i)) (rfc3339 (inv_expires i)))
           <$> invs)))
  end.

Definition handleRevokeInvitation (id : string) (dev : Device) (body : bytes) : proc Response :=
  revoked ← call_store (OpRevokeInvitation (d_account_id dev) id);
  match revoked with
  | inl _ => mret internal_error
  | inr false => mret (writeError StatusNotFound "no such invitation")
  | inr true => mret (writeJSON StatusOK BRevoked)
  end.

(** ** Wake-up endpoint *)

Definition handleUpdatePush (dev : Device) (body : bytes) : proc Response :=
  match decode_push (take (Z.to_nat maxBodyBytes) body) with
  | DEOF | DErr => mret (writeError StatusBadRequest "invalid json")
  | DOk req =>
      if decide (Z.of_nat (String.length (up_push_endpoint req)) > maxPushEndpointLen)
      then mret (writeError StatusBadRequest "push_endpoint too long") else
      res ← call_store (OpUpdatePushEndpoint (d_id dev) (up_push_endpoint req));
      match res with
      | inl _ => mret internal_error
      | inr _ => mret (writeJSON StatusOK BStatusOK)
      end
  end.

(** ** Key bundles *)

Definition handleSetBundle (dev : Device) (body : bytes) : proc Response :=
  match decode_bundle (take (Z.to_nat maxBodyBytes) body) with
  | DEOF | DErr => mret (writeError StatusBadRequest "invalid json")
  | DOk req =>
      match base64_std_decode (br_bundle req) with
      | None => mret (writeError StatusBadRequest "invalid bundle")
      | Some blob =>
          if decide (length blob = 0%nat) then mret (writeError StatusBadRequest "empty bundle") else
          if decide (Z.of_nat (length blob) > maxBundleBytes)
          then mret (writeError StatusRequestEntityTooLarge "bundle too large") else
          res ← call_store (OpSetBundle (d_id dev) blob);
          match res with
          | inl _ => mret internal_error
          | inr _ => mret (writeJSON StatusOK BStatusOK)
          end
      end
  end.

Definition handleGetBundle (targetID : string) (caller : Device) (body : bytes) : proc Response :=
  target ← call_store (OpGetDevice targetID);
  match target with
  | inl ErrDeviceNotFound => mret (writeError StatusNotFound "no such bundle")
  | inl _ => mret internal_error
  | inr target =>
      if decide (d_account_id target <> d_account_id caller \/ d_revoked target = true)
      then mret (writeError StatusNotFound "no such bundle") else
      res ← call_store (OpGetBundle targetID);
      match res with
      | inl ErrBundleNotFound => mret (writeError StatusNotFound "no such bundle")
      | inl _ => mret internal_error
      | inr (blob, updated) =>
          mret (writeJSON StatusOK (BBundle (base64_std_encode blob) (rfc3339 updated)))
      end
  end.

(** ** Administrative statements *)

Definition to_statement_view (st : Statement) : statementView :=
  mkStatementView (st_seq st) (base64_std_encode (st_blob st)) (rfc3339 (st_created st)).

Definition handleAppendStatement (dev : Device) (body : bytes) : proc Response :=
  if decide (RequireAdmin dev <> None)
  then mret (writeError StatusForbidden "admin role required") else
  match decode_statement (take (Z.to_nat maxBodyBytes) body) with
  | DEOF | DErr => mret (writeError StatusBadRequest "invalid json")
  | DOk req =>
      match base64_std_decode (as_statement req) with
      | None => mret (writeError StatusBadRequest "invalid statement")
      | Some blob =>
          if decide (length blob = 0%nat)
          then mret (writeError StatusBadRequest "invalid statement") else
          st ← call_store (OpAppendStatement (d_account_id dev) blob);
          match st with
          | inl ErrStatementTooLarge =>
              mret (writeError StatusRequestEntityTooLarge "statement too large")
          | inl _ => mret internal_error
          | inr st => mret (writeJSON StatusCreated (BStatement (to_statement_view st)))
          end
      end
  end.

Definition handleListStatements (since : string) (dev : Device) (body : bytes) : proc Response :=
  match ParseInt since with
  | None => mret (writeError StatusBadRequest "invalid since")
  | Some since =>
      if decide (since < 0) then mret (writeError StatusBadRequest "invalid since") else
      sts ← call_store (OpListStatements (d_account_id dev) since);
      match sts with
      | inl _ => mret internal_error
      | inr sts => mret (writeJSON StatusOK (BStatements (to_statement_view <$> sts)))
      end
  end.
End handlers.
