(* ===== verification/Transport.v ===== *)
(** * Transport-plane handlers ([internal/server/transport.go])

    Queue creation, and the routes authenticated by per-queue keys: send, receive,
    acknowledge, retire and the queue's own ceiling. *)

From S2P Require Import Prelude Encoding Clock Sql Schema StoreM Crypto Sigauth Accounts Devices.
From S2P Require Import Queues Blobs Store World Json Scanner Http Decoder Auth Push.

Local Open Scope Z_scope.

Definition maxPayloadBytes : Z := Z.shiftl 64 10.
Definition defaultMessageTTL : Z := 24 * Hour.
Definition maxMessageTTL : Z := 7 * 24 * Hour.

(** [clampMessageTTL]: the multiplication is Go's 64-bit one. *)
Definition clampMessageTTL (seconds : Z) : Z :=
  if decide (seconds <= 0) then defaultMessageTTL else
  let d := wrap64 (seconds * Second) in
  if decide (d > maxMessageTTL) then maxMessageTTL else d.

(** [resolveSenderKey]: the key to verify a send against, and whether it is to be
    bound. *)
Definition resolveSenderKey (r : Request) (q : Queue) : option (bytes * bool) :=
  let hdr := header r HeaderSenderKey in
  match q_sender_key q with
  | None =>
      if decide (hdr = ""%string) then None else
      raw ← base64_std_decode hdr;
      if decide (length raw <> PublicKeySize) then None else Some (raw, true)
  | Some key =>
      if decide (hdr <> ""%string /\ hdr <> base64_std_encode key) then None else Some (key, false)
  end.

Definition to_message_view (m : Message) : messageView :=
  mkMessageView (msg_id m) (base64_std_encode (msg_payload m)) (rfc3339 (msg_received_at m))
    (rfc3339 (msg_expires m)).

Section handlers.
Context `{Crypto}.

Definition handleCreateQueue (dev : Device) (body : bytes) : proc Response :=
  match decode_queue body with
  | DEOF | DErr => mret (writeError StatusBadRequest "invalid json")
  | DOk req =>
      match base64_std_decode (cq_recipient_key req) with
      | None => mret (writeError StatusBadRequest "invalid recipient_key")
      | Some key =>
          if decide (length key <> PublicKeySize)
          then mret (writeError StatusBadRequest "invalid recipient_key") else
          q ← call_store (OpCreateQueue (d_id dev) key);
          match q with
          | inl _ => mret internal_error
          | inr q => mret (writeJSON StatusCreated (BQueue (q_recipient_id q) (q_sender_id q)))
          end
      end
  end.

(** The part of [handleSend] after authentication and binding. *)
Definition storeMessage (q : Queue) (body : bytes) : proc Response :=
  match decode_send body with
  | DEOF | DErr => mret (writeError StatusBadRequest "invalid json")
  | DOk req =>
      match base64_std_decode (snd_payload req) with
      | None => mret (writeError StatusBadRequest "invalid payload")
      | Some payload =>
          if decide (length payload = 0%nat)
          then mret (writeError StatusBadRequest "empty payload") else
          if decide (Z.of_nat (length payload) > maxPayloadBytes)
          then mret (writeError StatusRequestEntityTooLarge "payload too large") else
          msg ← call_store (OpAppendMessage (q_recipient_id q) payload (clampMessageTTL (snd_ttl req)));
          match msg with
          | inl ErrQuotaExceeded =>
              mret (writeError StatusInsufficientStorage "storage quota exceeded")
          | inl _ => mret internal_error
          | inr msg =>
              let priority := if snd_priority req then High else Normal in
              _ ← wakeQueueOwner (q_owner_device q) priority;
              mret (writeJSON StatusAccepted (BMessageID (msg_id msg)))
          end
      end
  end.

Definition handleSend (senderID : string) (r : Request) : proc Response :=
  q ← call_store (OpGetQueueBySender senderID);
  match q with
  | inl ErrQueueNotFound => mret (writeError StatusNotFound "no such queue")
  | inl _ => mret internal_error
  | inr q =>
      if q_retired q then mret (writeError StatusNotFound "no such queue") else
      env ← extractSignature r;
      match env with
      | None => mret unauthorized
      | Some env =>
          match resolveSenderKey r q with
          | None => mret unauthorized
          | Some (key, binding) =>
              ok ← verifyAndRecord r env senderID key;
              if negb ok then mret unauthorized else
              if negb binding then storeMessage q (env_body env) else
              bound ← call_store (OpBindSenderKey senderID key);
              match bound with
              | inl _ => mret internal_error
              | inr false => mret unauthorized
              | inr true => storeMessage q (env_body env)
              end
          end
      end
  end.

(** [authorizeRecipient]: on failure the response to give. *)
Definition authorizeRecipient (recipientID : string) (r : Request)
  : proc (Response + Queue * bytes) :=
  q ← call_store (OpGetQueueByRecipient recipientID);
  match q with
  | inl ErrQueueNotFound => mret (inl (writeError StatusNotFound "no such queue"))
  | inl _ => mret (inl internal_error)
  | inr q =>
      if q_retired q then mret (inl (writeError StatusNotFound "no such queue")) else
      env ← extractSignature r;
      match env with
      | None => mret (inl unauthorized)
      | Some env =>
          ok ← verifyAndRecord r env recipientID (q_recipient_key q);
          if negb ok then mret (inl unauthorized) else mret (inr (q, env_body env))
      end
  end.

(** A handler behind [authorizeRecipient]. *)
Definition requireRecipient (next : Queue -> bytes -> proc Response) (recipientID : string)
    (r : Request) : proc Response :=
  a ← authorizeRecipient recipientID r;
  match a with
  | inl resp => mret resp
  | inr (q, body) => next q body
  end.

Definition recv_queue (q : Queue) (body : bytes) : proc Response :=
  msgs ← call_store (OpDrainMessages (q_recipient_id q));
  match msgs with
  | inl _ => mret internal_error
  | inr msgs => mret (writeJSON StatusOK (BMessages (to_message_view <$> msgs)))
  end.

Definition ack_queue (q : Queue) (body : bytes) : proc Response :=
  match decode_ack body with
  | DEOF | DErr => mret (writeError StatusBadRequest "invalid json")
  | DOk req =>
      n ← call_store (OpDeleteMessages (q_recipient_id q) (ack_ids req));
      match n with
      | inl _ => mret internal_error
      | inr n => mret (writeJSON StatusOK (BDeleted n))
      end
  end.

Definition retire_queue (q : Queue) (body : bytes) : proc Response :=
  res ← call_store (OpRetireQueue (q_recipient_id q));
  match res with
  | inl _ => mret internal_error
  | inr _ => mret (writeJSON StatusOK BRetired)
  end.

Definition quota_queue (q : Queue) (body : bytes) : proc Response :=
  match decode_quota body with
  | DEOF | DErr => mret (writeError StatusBadRequest "invalid json")
  | DOk req =>
      if decide (sq_quota_bytes req < 0)
      then mret (writeError StatusBadRequest "quota_bytes must not be negative") else
      res ← call_store (OpSetQueueQuota (q_recipient_id q) (sq_quota_bytes req));
      match res with
      | inl ErrQuotaNotChanged => mret (writeError StatusNotFound "no such queue")
      | inl _ => mret internal_error
      | inr _ => mret (writeJSON StatusOK (BQueueQuota (sq_quota_bytes req)))
      end
  end.

Definition handleRecv : string -> Request -> proc Response := requireRecipient recv_queue.
Definition handleAck : string -> Request -> proc Response := requireRecipient ack_queue.
Definition handleRetire : string -> Request -> proc Response := requireRecipient retire_queue.
Definition handleSetQueueQuota : string -> Request -> proc Response := requireRecipient quota_queue.
End handlers.
