(* ===== verification/Router.v ===== *)
(** * The router and the server's loop ([internal/server/server.go])

    [New]'s table of routes, the matching [http.ServeMux] does on it, the health
    endpoint and the background purge. *)

From S2P Require Import Prelude Encoding Clock Sql Schema StoreM Crypto Sigauth Accounts Devices.
From S2P Require Import Queues Blobs Store World Http Auth Push Management Transport.

Local Open Scope Z_scope.

(** ** Patterns *)

Inductive segment : Type := Lit (s : string) | Wild.

(** The values of the wildcards, if the segments match. A wildcard stands for one
    non-empty segment. *)
Fixpoint match_segments (p : list segment) (segs : list string) : option (list string) :=
  match p, segs with
  | [], [] => Some []
  | Lit s :: p, x :: segs => if decide (s = x) then match_segments p segs else None
  | Wild :: p, x :: segs =>
      if decide (x = ""%string) then None else
      vs ← match_segments p segs; Some (x :: vs)
  | _, _ => None
  end.

(** [GET] patterns also match [HEAD]. *)
Definition method_matches (pattern method : string) : bool :=
  bool_decide (pattern = method) || (bool_decide (pattern = "GET"%string) && bool_decide (method = "HEAD"%string)).

Section router.
Context `{Crypto} (version : string).

Definition handleHealth : proc Response := mret (writeJSON StatusOK (BHealth version)).

(** A route: method, pattern, and the handler of the wildcard values. *)
Record route := mkRoute {
  rt_method : string;
  rt_pattern : list segment;
  rt_handler : list string -> Request -> proc Response;
}.

(** A handler with one wildcard: [r.PathValue]. *)
Definition one (h : string -> Request -> proc Response) (vs : list string) : Request -> proc Response :=
  h (default ""%string (head vs)).

Definition routes : list route := [
  mkRoute "GET" [Lit "health"] (fun _ _ => handleHealth);
  mkRoute "POST" [Lit "v1"; Lit "devices"; Lit "register"] (fun _ => handleRegister);
  mkRoute "GET" [Lit "v1"; Lit "devices"] (fun _ => requireSignature handleListDevices);
  mkRoute "POST" [Lit "v1"; Lit "devices"; Wild; Lit "revoke"]
    (one (fun id => requireSignature (handleRevoke id)));
  mkRoute "POST" [Lit "v1"; Lit "devices"; Wild; Lit "role"]
    (one (fun id => requireSignature (handleSetRole id)));
  mkRoute "GET" [Lit "v1"; Lit "devices"; Wild; Lit "bundle"]
    (one (fun id => requireSignature (handleGetBundle id)));
  mkRoute "PUT" [Lit "v1"; Lit "me"; Lit "bundle"] (fun _ => requireSignature handleSetBundle);
  mkRoute "POST" [Lit "v1"; Lit "invitations"] (fun _ => requireSignature handleCreateInvitation);
  mkRoute "GET" [Lit "v1"; Lit "invitations"] (fun _ => requireSignature handleListInvitations);
  mkRoute "POST" [Lit "v1"; Lit "invitations"; Wild; Lit "revoke"]
    (one (fun id => requireSignature (handleRevokeInvitation id)));
  mkRoute "PUT" [Lit "v1"; Lit "me"; Lit "push"] (fun _ => requireSignature handleUpdatePush);
  mkRoute "GET" [Lit "v1"; Lit "me"; Lit "quota"] (fun _ => requireSignature handleGetQuota);
  mkRoute "POST" [Lit "v1"; Lit "statements"] (fun _ => requireSignature handleAppendStatement);
  mkRoute "GET" [Lit "v1"; Lit "statements"; Wild]
    (one (fun since => requireSignature (handleListStatements since)));
  mkRoute "POST" [Lit "v1"; Lit "queues"] (fun _ => requireSignature handleCreateQueue);
  mkRoute "POST" [Lit "v1"; Lit "send"; Wild] (one handleSend);
  mkRoute "GET" [Lit "v1"; Lit "recv"; Wild] (one handleRecv);
  mkRoute "POST" [Lit "v1"; Lit "ack"; Wild] (one handleAck);
  mkRoute "POST" [Lit "v1"; Lit "retire"; Wild] (one handleRetire);
  mkRoute "POST" [Lit "v1"; Lit "quota"; Wild] (one handleSetQueueQuota) ].

(** The routes whose pattern matches, whatever the method. *)
Definition path_routes (segs : list string) : list (route * list string) :=
  omap (fun rt => vs ← match_segments (rt_pattern rt) segs; Some (rt, vs)) routes.

(** [ServeHTTP] of the mux: redirect an unclean path, find the route, or answer 405
    if only the method is wrong and 404 otherwise. *)
Definition ServeHTTP (r : Request) : proc Response :=
  if negb (r_clean r) then mret (mkResponse StatusMovedPermanently BMux) else
  let candidates := path_routes (r_segments r) in
  match filter (fun rv => method_matches (rt_method rv.1) (r_method r) = true) candidates with
  | (rt, vs) :: _ => rt_handler rt vs r
  | [] => mret (mkResponse (if decide (length candidates = 0%nat) then StatusNotFound
                            else StatusMethodNotAllowed) BMux)
  end.

(** ** The background purge *)

Definition PurgeInterval : Z := Hour.

(** [RunPurgeLoop] for a number of ticks of its timer; a failed purge is logged and
    the loop goes on. *)
Fixpoint RunPurgeLoop (ticks : nat) : proc unit :=
  match ticks with
  | O => mret tt
  | S ticks => _ ← call_store OpPurgeExpired; RunPurgeLoop ticks
  end.
End router.
