(* ===== verification/Client.v ===== *)
(** * The client library ([client])

    Signing and sending a request, reading the reply, and the calls of the three
    principals: a device, a queue's recipient and a queue's sender, over a network that
    may fail. *)

From S2P Require Import Prelude Encoding Clock Decimal Sql Schema StoreM Crypto Sigauth Accounts Devices.
From S2P Require Import Queues Blobs Store World Json Scanner Url Http Decoder Reply Auth Push.
From S2P Require Import Management Transport Router.

Local Open Scope Z_scope.

Definition maxResponseBytes : Z := Z.shiftl 1 20.

(** What a round trip fails with: the platform's verification of the certificate
    ([tls.CertificateVerificationError]), the pin check ([tlsid.ErrIdentity]), or anything
    else. *)
Inductive transport_error : Type :=
  | CertificateVerificationError
  | TlsidErrIdentity
  | OtherTransport.

(** What a call fails with: the request could not be built, the server's identity could not
    be verified, the network failed, the server answered with another status than 2xx, or
    the reply could not be read. *)
Inductive client_error : Type :=
  | ErrRequest
  | ErrServerIdentity
  | ErrNetwork
  | APIError (StatusCode : Z) (Message : string)
  | ErrReply.

Definition wrapTransportErr (e : transport_error) : client_error :=
  match e with
  | CertificateVerificationError | TlsidErrIdentity => ErrServerIdentity
  | OtherTransport => ErrNetwork
  end.

(** [APIError.Error], and [StatusCode] of an error. *)
Definition APIError_Error (status : Z) (message : string) : string :=
  if decide (message = ""%string) then "sund: HTTP " +:+ print_int status
  else "sund: HTTP " +:+ print_int status +:+ ": " +:+ message.

Definition StatusCode (e : client_error) : Z :=
  match e with APIError status _ => status | _ => 0 end.

(** The client's clock and what its random source will return. *)
Record Env := mkEnv { e_clock : Z; e_rnd : bytes }.

(** ** Reading a reply *)

(** The zero [time.Time], the first instant of the year 1. *)
Definition zero_time : Z := -62135596800 * Second.

(** [parseTime]: the zero time if the text is not a time. *)
Definition parseTime (s : string) : Z := default zero_time (parse_rfc3339 s).

(** What [json.Unmarshal] makes of a reply, which is read up to [maxResponseBytes]; the
    encoder ends it with a line feed. *)
Definition read_reply (b : body) : option json :=
  Unmarshal (str_take (Z.to_nat maxResponseBytes) (body_text b +:+ String "010" "")).

(** ** The structures replies are decoded into *)

(** One field, two strings, and a list. *)
Definition into_one {A} (name : string) (into : target A) : target A := into_struct [(name, into)].

Definition into_pair (a b : string) : target (string * string) := into_struct [
  (a, part fst (fun p s => (s, p.2)) into_string); (b, part snd (fun p s => (p.1, s)) into_string)].

Definition into_list {A} (name : string) (zero : A) (elem : target A) (j : json) : option (list A) :=
  l ← into_one name (into_slice zero elem) no_slice j; Some (elements l).

Definition into_device : target deviceView :=
  let set f := fun v s => let '(mkDeviceView a b c d e g h i) := v in f a b c d e g h i s in
  into_struct [
    ("id", part dv_id (set (fun _ b c d e g h i s => mkDeviceView s b c d e g h i)) into_string);
    ("public_key", part dv_public_key (set (fun a b _ d e g h i s => mkDeviceView a b s d e g h i)) into_string);
    ("role", part dv_role (set (fun a _ c d e g h i s => mkDeviceView a s c d e g h i)) into_string);
    ("push_endpoint", part dv_push_endpoint (set (fun a b c _ e g h i s => mkDeviceView a b c s e g h i)) into_string);
    ("capabilities", part dv_capabilities (set (fun a b c d _ g h i s => mkDeviceView a b c d s g h i)) into_string);
    ("created", part dv_created (set (fun a b c d e _ h i s => mkDeviceView a b c d e s h i)) into_string);
    ("last_seen", part dv_last_seen (set (fun a b c d e g _ i s => mkDeviceView a b c d e g s i)) into_string);
    ("revoked", part dv_revoked (fun v s => let '(mkDeviceView a b c d e g h _) := v in mkDeviceView a b c d e g h s) into_bool)
  ]%string.

Definition no_device : deviceView := mkDeviceView "" "" "" "" "" "" "" false.

Definition into_statement : target statementView := into_struct [
  ("seq", part sv_seq (fun v n => mkStatementView n (sv_statement v) (sv_created v)) into_int64);
  ("statement", part sv_statement (fun v s => mkStatementView (sv_seq v) s (sv_created v)) into_string);
  ("created", part sv_created (fun v s => mkStatementView (sv_seq v) (sv_statement v) s) into_string)]%string.

Definition no_statement : statementView := mkStatementView 0 "" "".

Definition into_message : target messageView := into_struct [
  ("id", part mv_id (fun v s => mkMessageView s (mv_payload v) (mv_received_at v) (mv_expires v)) into_string);
  ("payload", part mv_payload (fun v s => mkMessageView (mv_id v) s (mv_received_at v) (mv_expires v)) into_string);
  ("received_at", part mv_received_at (fun v s => mkMessageView (mv_id v) (mv_payload v) s (mv_expires v)) into_string);
  ("expires", part mv_expires (fun v s => mkMessageView (mv_id v) (mv_payload v) (mv_received_at v) s) into_string)]%string.

Definition no_message : messageView := mkMessageView "" "" "" "".

(** A token, an identifier and a time; three byte counts. *)
Definition into_invitation : target (string * string * string) := into_struct [
  ("invitation_token", part (fun p => p.1.1) (fun p s => (s, p.1.2, p.2)) into_string);
  ("invitation_id", part (fun p => p.1.2) (fun p s => (p.1.1, s, p.2)) into_string);
  ("expires", part snd (fun p s => (p.1, s)) into_string)]%string.

Definition into_quota : target (Z * Z * Z) := into_struct [
  ("quota_bytes", part (fun p => p.1.1) (fun p n => (n, p.1.2, p.2)) into_int64);
  ("stored_bytes", part (fun p => p.1.2) (fun p n => (p.1.1, n, p.2)) into_int64);
  ("account_quota_bytes", part snd (fun p n => (p.1, n)) into_int64)]%string.

(** ** What a caller sees *)

Record DeviceInfo := mkDeviceInfo {
  di_id : string; di_public_key : bytes; di_role : string; di_push_endpoint : string;
  di_capabilities : string; di_created : Z; di_last_seen : Z; di_revoked : bool }.
Record ClientInvitation := mkClientInvitation { cin_id : string; cin_token : string; cin_expires : Z }.
Record QueueIDs := mkQueueIDs { qi_recipient_id : string; qi_sender_id : string }.
Record ClientQuota := mkClientQuota {
  cq_quota_bytes : Z; cq_stored_bytes : Z; cq_account_quota_bytes : Z }.
Record ClientStatement := mkClientStatement { cs_seq : Z; cs_blob : bytes; cs_created : Z }.
Record ClientMessage := mkClientMessage {
  cm_id : string; cm_payload : bytes; cm_received_at : Z; cm_expires : Z }.

(** The principals, each with its private key; [ClientDevice] is the package's
    [Device]. *)
Record ClientDevice := mkClientDevice { cd_id : string; cd_account_id : string; cd_key : bytes }.
Record Recipient := mkRecipient { rc_recipient_id : string; rc_key : bytes }.
Record Sender := mkSender { sn_sender_id : string; sn_key : bytes }.

(** A device, a recipient and a sender resumed from what the application has stored; what
    account the device belongs to is not. *)
Definition NewDevice (deviceID : string) (key : bytes) : ClientDevice := mkClientDevice deviceID "" key.
Definition NewRecipient (recipientID : string) (key : bytes) : Recipient := mkRecipient recipientID key.
Definition NewSender (senderID : string) (key : bytes) : Sender := mkSender senderID key.
Definition Device_PublicKey `{Crypto} (d : ClientDevice) : bytes := ed25519_public (cd_key d).

(** [ttl] in nanoseconds. *)
Record SendOptions := mkSendOptions { so_ttl : Z; so_priority : bool }.

(** ** The bodies of the requests *)

(** [b64]. *)
Definition b64 (b : bytes) : string := base64_std_encode b.

(** Maps are printed in the order of their keys. *)
Definition register_body `{Crypto} (token : string) (key : bytes) (pushEndpoint capabilities : string) : json :=
  JObj [("capabilities", JStr capabilities); ("public_key", JStr (b64 (ed25519_public key)));
        ("push_endpoint", JStr pushEndpoint); ("token", JStr token)]%string.
Definition grants_body (role : string) : json := JObj [("grants_role"%string, JStr role)].
Definition role_body (role : string) : json := JObj [("role"%string, JStr role)].
Definition push_body (endpoint : string) : json := JObj [("push_endpoint"%string, JStr endpoint)].
Definition bundle_body (blob : bytes) : json := JObj [("bundle"%string, JStr (b64 blob))].
Definition queue_body (recipientKey : bytes) : json := JObj [("recipient_key"%string, JStr (b64 recipientKey))].
Definition statement_body (blob : bytes) : json := JObj [("statement"%string, JStr (b64 blob))].
Definition ack_body (ids : list string) : json := JObj [("ids"%string, JArr (JStr <$> ids))].
Definition quota_body (quotaBytes : Z) : json := JObj [("quota_bytes"%string, JInt quotaBytes)].
Definition send_body (ciphertext : bytes) (opts : SendOptions) : json :=
  JObj [("payload"%string, JStr (b64 ciphertext)); ("priority"%string, JBool (so_priority opts));
        ("ttl"%string, JInt (Z.quot (so_ttl opts) Second))].

(** [http.Client.Do] between this client and the server: the response or what went wrong,
    and the server's state afterwards. *)
Definition network : Type := Request -> World -> (transport_error + Response) * World.

(** A network that fails no request. *)
Definition direct `{Crypto} (version : string) : network := fun r w =>
  let '(resp, w) := run (ServeHTTP version r) w in (inr resp, w).

Section client.
Context `{Crypto} (net : network).

(** ** Requests *)

Definition sign (h : gmap string string) (key : bytes) (method path : string) (body : bytes)
    (e : Env) : option (gmap string string) :=
  if decide (length (e_rnd e) < 16)%nat then None else
  let ts := rfc3339 (sec (e_clock e)) in
  let n := hex_encode (take 16 (e_rnd e)) in
  let sig := ed25519_sign key (SigningString method path ts n body) in
  Some (<[HeaderSignature := base64_std_encode sig]> (<[HeaderNonce := n]> (<[HeaderTimestamp := ts]> h))).

(** The first part of [Conn.do], up to the round trip. The transport's own headers
    are left out. *)
Definition new_request (key : option bytes) (method path : string) (extra : gmap string string)
    (inp : option json) (e : Env) : option Request :=
  let body := match inp with Some j => bytes_of_string (print j) | None => [] end in
  '(segs, clean) ← url_path path;
  let h := match inp with
           | Some _ => <["Content-Type"%string := "application/json"%string]> ∅
           | None => ∅
           end in
  let h := extra ∪ h in
  h ← match key with
      | Some key => sign h key method path body e
      | None => Some h
      end;
  Some (mkRequest method segs clean h body false).

(** [Conn.do]: the reply of a 2xx answer, as far as it can be read. *)
Definition exchange (key : option bytes) (method path : string) (extra : gmap string string)
    (inp : option json) (e : Env) (w : World) : (client_error + option json) * World :=
  match new_request key method path extra inp e with
  | None => (inl ErrRequest, w)
  | Some r =>
      let '(res, w) := net r w in
      match res with
      | inl err => (inl (wrapTransportErr err), w)
      | inr resp =>
          if decide (status resp < 200 \/ status resp > 299) then
            let message := default ""%string
              (j ← read_reply (resp_body resp); into_one "error" into_string ""%string j) in
            (inl (APIError (status resp) message), w)
          else (inr (read_reply (resp_body resp)), w)
      end
  end.

(** ... with the reply decoded into [out]. *)
Definition do {A} (key : option bytes) (method path : string) (extra : gmap string string)
    (inp : option json) (out : json -> option A) (e : Env) (w : World) : (client_error + A) * World :=
  match exchange key method path extra inp e w with
  | (inl err, w) => (inl err, w)
  | (inr j, w) => match j ≫= out with
                  | None => (inl ErrReply, w)
                  | Some a => (inr a, w)
                  end
  end.

(** ... or left unread. *)
Definition do_unit (key : option bytes) (method path : string) (extra : gmap string string)
    (inp : option json) (e : Env) (w : World) : (client_error + unit) * World :=
  match exchange key method path extra inp e w with
  | (inl err, w) => (inl err, w)
  | (inr _, w) => (inr tt, w)
  end.

Definition Health : Env -> World -> (client_error + string) * World :=
  do None "GET" "/health" ∅ None (fun j => snd <$> into_pair "status" "version" (""%string, ""%string) j).

(** ** A device *)

Definition Register (token : string) (key : bytes) (pushEndpoint capabilities : string)
  : Env -> World -> (client_error + ClientDevice) * World :=
  do None "POST" "/v1/devices/register" ∅ (Some (register_body token key pushEndpoint capabilities)) (fun j =>
    '(id, acc) ← into_pair "device_id" "account_id" (""%string, ""%string) j;
    Some (mkClientDevice id acc key)).

(** [Device.do]: signed with the device's key, its identifier in a header. *)
Definition device_headers (d : ClientDevice) : gmap string string := {[HeaderDeviceID := cd_id d]}.
Definition Device_do {A} (d : ClientDevice) (method path : string) (inp : option json)
    (out : json -> option A) : Env -> World -> (client_error + A) * World :=
  do (Some (cd_key d)) method path (device_headers d) inp out.
Definition Device_do_unit (d : ClientDevice) (method path : string) (inp : option json)
  : Env -> World -> (client_error + unit) * World :=
  do_unit (Some (cd_key d)) method path (device_headers d) inp.

Definition read_device (v : deviceView) : DeviceInfo :=
  mkDeviceInfo (dv_id v) (default [] (base64_std_decode (dv_public_key v))) (dv_role v)
    (dv_push_endpoint v) (dv_capabilities v) (parseTime (dv_created v)) (parseTime (dv_last_seen v))
    (dv_revoked v).

Definition Device_ListDevices (d : ClientDevice) : Env -> World -> (client_error + list DeviceInfo) * World :=
  Device_do d "GET" "/v1/devices" None (fun j =>
    l ← into_list "devices" no_device into_device j; Some (read_device <$> (l : list deviceView))).

Definition Device_RevokeDevice (d : ClientDevice) (deviceID : string) : Env -> World -> (client_error + unit) * World :=
  Device_do_unit d "POST" ("/v1/devices/" +:+ deviceID +:+ "/revoke") None.

Definition Device_CreateInvitationAs (d : ClientDevice) (role : string)
  : Env -> World -> (client_error + ClientInvitation) * World :=
  let inp := if decide (role = ""%string) then None else Some (grants_body role) in
  Device_do d "POST" "/v1/invitations" inp (fun j =>
    '(token, id, expires) ← into_invitation (""%string, ""%string, ""%string) j;
    Some (mkClientInvitation id token (parseTime expires))).

Definition Device_CreateInvitation (d : ClientDevice)
  : Env -> World -> (client_error + ClientInvitation) * World := Device_CreateInvitationAs d "".

Definition Device_SetRole (d : ClientDevice) (deviceID role : string)
  : Env -> World -> (client_error + unit) * World :=
  Device_do_unit d "POST" ("/v1/devices/" +:+ deviceID +:+ "/role")
    (Some (role_body role)).

Definition Device_Quota (d : ClientDevice) : Env -> World -> (client_error + ClientQuota) * World :=
  Device_do d "GET" "/v1/me/quota" None (fun j =>
    '(q, used, acc) ← into_quota (0, 0, 0) j; Some (mkClientQuota q used acc)).

Definition Device_ListInvitations (d : ClientDevice)
  : Env -> World -> (client_error + list ClientInvitation) * World :=
  Device_do d "GET" "/v1/invitations" None (fun j =>
    l ← into_list "invitations" (""%string, ""%string) (into_pair "id" "expires") j;
    Some ((fun v => mkClientInvitation v.1 "" (parseTime v.2)) <$> (l : list (string * string)))).

Definition Device_RevokeInvitation (d : ClientDevice) (invitationID : string)
  : Env -> World -> (client_error + unit) * World :=
  Device_do_unit d "POST" ("/v1/invitations/" +:+ invitationID +:+ "/revoke") None.

Definition Device_SetPushEndpoint (d : ClientDevice) (endpoint : string)
  : Env -> World -> (client_error + unit) * World :=
  Device_do_unit d "PUT" "/v1/me/push" (Some (push_body endpoint)).

Definition Device_PublishBundle (d : ClientDevice) (blob : bytes)
  : Env -> World -> (client_error + unit) * World :=
  Device_do_unit d "PUT" "/v1/me/bundle" (Some (bundle_body blob)).

Definition Device_GetBundle (d : ClientDevice) (deviceID : string)
  : Env -> World -> (client_error + bytes) * World :=
  Device_do d "GET" ("/v1/devices/" +:+ deviceID +:+ "/bundle") None (fun j =>
    b ← into_one "bundle" into_string ""%string j; base64_std_decode b).

Definition Device_CreateQueue (d : ClientDevice) (recipientKey : bytes)
  : Env -> World -> (client_error + QueueIDs) * World :=
  Device_do d "POST" "/v1/queues" (Some (queue_body recipientKey))
    (fun j => '(rcp, snd) ← into_pair "recipient_id" "sender_id" (""%string, ""%string) j;
              Some (mkQueueIDs rcp snd)).

Definition Device_AppendStatement (d : ClientDevice) (blob : bytes)
  : Env -> World -> (client_error + ClientStatement) * World :=
  Device_do d "POST" "/v1/statements" (Some (statement_body blob)) (fun j =>
    v ← into_statement no_statement j;
    Some (mkClientStatement (sv_seq v) blob (parseTime (sv_created v)))).

Definition read_statement (v : statementView) : option ClientStatement :=
  blob ← base64_std_decode (sv_statement v);
  Some (mkClientStatement (sv_seq v) blob (parseTime (sv_created v))).

(** [strconv.FormatInt(since, 10)] is what JSON prints for an integer. *)
Definition Device_Statements (d : ClientDevice) (since : Z)
  : Env -> World -> (client_error + list ClientStatement) * World :=
  Device_do d "GET" ("/v1/statements/" +:+ print_int since) None (fun j =>
    l ← into_list "statements" no_statement into_statement j; mapM read_statement l).

(** ** A queue's recipient *)

Definition read_message (v : messageView) : option ClientMessage :=
  payload ← base64_std_decode (mv_payload v);
  Some (mkClientMessage (mv_id v) payload (parseTime (mv_received_at v)) (parseTime (mv_expires v))).

Definition Recipient_Recv (r : Recipient) : Env -> World -> (client_error + list ClientMessage) * World :=
  do (Some (rc_key r)) "GET" ("/v1/recv/" +:+ rc_recipient_id r) ∅ None (fun j =>
    l ← into_list "messages" no_message into_message j; mapM read_message l).

Definition Recipient_Ack (r : Recipient) (ids : list string) (e : Env) (w : World)
  : (client_error + Z) * World :=
  if decide (length ids = 0%nat) then (inr 0, w) else
  do (Some (rc_key r)) "POST" ("/v1/ack/" +:+ rc_recipient_id r) ∅
    (Some (ack_body ids)) (into_one "deleted" into_int64 0) e w.

Definition Recipient_Retire (r : Recipient) : Env -> World -> (client_error + unit) * World :=
  do_unit (Some (rc_key r)) "POST" ("/v1/retire/" +:+ rc_recipient_id r) ∅ None.

Definition Recipient_SetQuota (r : Recipient) (quotaBytes : Z) : Env -> World -> (client_error + unit) * World :=
  do_unit (Some (rc_key r)) "POST" ("/v1/quota/" +:+ rc_recipient_id r) ∅
    (Some (quota_body quotaBytes)).

(** ** A queue's sender *)

Definition Sender_Send (s : Sender) (ciphertext : bytes) (opts : SendOptions)
  : Env -> World -> (client_error + string) * World :=
  do (Some (sn_key s)) "POST" ("/v1/send/" +:+ sn_sender_id s)
    {[HeaderSenderKey := b64 (ed25519_public (sn_key s))]} (Some (send_body ciphertext opts))
    (into_one "message_id" into_string ""%string).
End client.
