(* ===== verification/DemoServer.v ===== *)
(** * The small deployment behind its HTTP interface

    Requests signed with the demonstration keys, to evaluate the handlers on. *)

From S2P Require Import Prelude Encoding Clock Sql Schema StoreM Crypto Sigauth Accounts Devices.
From S2P Require Import Queues Blobs Steps Invariants Store Demo World Json Http Auth.

Local Open Scope Z_scope.

Module Web.
Export Demo.

(** A request body: an object of strings. *)
Definition json_body (fields : list (string * string)) : bytes :=
  bytes_of_string (print (JObj ((fun kv => (kv.1, JStr kv.2)) <$> fields))).

(** A request signed with [key] at second [t]. *)
Definition signed (method : string) (segs : list string) (key : bytes) (id : string) (t : Z)
    (nonce : string) (extra : gmap string string) (body : bytes) : Request :=
  let path := ("/" +:+ String.concat "/" segs)%string in
  let sig := ed25519_sign key (SigningString method path (rfc3339 t) nonce body) in
  mkRequest method segs true
    (<[HeaderDeviceID := id]> (<[HeaderTimestamp := rfc3339 t]> (<[HeaderNonce := nonce]>
       (<[HeaderSignature := base64_std_encode sig]> extra)))) body false.

(** The server ten seconds in. *)
Definition w0 : World := mkWorld s0 ∅ [].

Definition create_queue : Request :=
  signed "POST" ["v1"; "queues"] key1 dev1 1700000000 "nonce-1" ∅
    (json_body [("recipient_key", base64_std_encode (ed25519_public qkey))]%string).

Definition send_hello : Request :=
  signed "POST" ["v1"; "send"; snd] skey "" 1700000000 "nonce-2" ∅
    (json_body [("payload", base64_std_encode hello)]%string).

Definition recv_all : Request :=
  signed "GET" ["v1"; "recv"; rcp] qkey "" 1700000000 "nonce-3" ∅ [].

Definition retire_it : Request :=
  signed "POST" ["v1"; "retire"; rcp] qkey "" 1700000000 "nonce-4" ∅ [].
End Web.
