(* ===== verification/Gate.v ===== *)
(** * What the gate lets through

    The nonce cache remembers a nonce until it expires; a request passes the gate
    only with a live device's signature on exactly that request within the clock
    skew; and, however requests interleave, a request that has passed does not pass
    again before its timestamp leaves the window. *)

From S2P Require Import Prelude Encoding Clock Sql Schema StoreM Crypto Sigauth Accounts Devices.
From S2P Require Import Queues Blobs Steps Invariants Evolution Refine Store Demo World Http Auth.
From S2P Require Import Push Transport DemoServer.

Local Open Scope Z_scope.

(** ** The nonce cache *)

Lemma checkAndAdd_keeps (key key' : string) (e e' now : Z) (seen : gmap string Z) :
  seen !! key = Some e -> now < e -> (checkAndAdd key' e' now seen).2 !! key = Some e.
Proof.
  intros Hk He. unfold checkAndAdd.
  assert (filter (fun kv => ~ kv.2 < now) seen !! key = Some e) as Hf
    by (apply map_lookup_filter_Some; simpl; split; [done|lia]).
  destruct (decide (key = key')) as [<-|Hne].
  - rewrite Hf. by rewrite decide_True by lia.
  - destruct (filter _ seen !! key') as [e''|]; [case_decide|]; simpl; [done|..];
      by rewrite lookup_insert_ne.
Qed.

Lemma checkAndAdd_refuses (key : string) (e e' now : Z) (seen : gmap string Z) :
  seen !! key = Some e -> now < e -> (checkAndAdd key e' now seen).1 = false.
Proof.
  intros Hk He. unfold checkAndAdd.
  assert (filter (fun kv => ~ kv.2 < now) seen !! key = Some e) as ->
    by (apply map_lookup_filter_Some; simpl; split; [done|lia]).
  by rewrite decide_True by lia.
Qed.

Lemma checkAndAdd_records (key : string) (e now : Z) (seen : gmap string Z) :
  (checkAndAdd key e now seen).1 = true -> (checkAndAdd key e now seen).2 !! key = Some e.
Proof.
  unfold checkAndAdd. destruct (filter _ seen !! key) as [e'|]; [case_decide|]; simpl; try done;
    intros _; apply lookup_insert_eq.
Qed.

(** A sequence of uses of the cache: key, expiry and time of each. *)
Definition nonce_uses (uses : list (string * Z * Z)) (seen : gmap string Z) : gmap string Z :=
  foldl (fun seen u => (checkAndAdd u.1.1 u.1.2 u.2 seen).2) seen uses.

(** A nonce is accepted once in its window: after it was accepted with expiry
    [e], every further use before [e] is refused, whatever other nonces are checked
    and pruned in between. *)
Theorem nonce_accepted_once (key : string) (e e' now later : Z) (seen : gmap string Z)
    (uses : list (string * Z * Z)) :
  (checkAndAdd key e now seen).1 = true -> Forall (fun u => u.2 < e) uses -> later < e ->
  (checkAndAdd key e' later (nonce_uses uses (checkAndAdd key e now seen).2)).1 = false.
Proof.
  intros Hok Hu Hl. apply checkAndAdd_refuses with e; [|done].
  assert (forall seen', seen' !! key = Some e -> nonce_uses uses seen' !! key = Some e) as Hk.
  { induction Hu as [|u uses Hu _ IH]; [done|]. intros seen' Hs. simpl.
    apply IH. by apply checkAndAdd_keeps. }
  apply Hk. by apply checkAndAdd_records.
Qed.

Lemma nonce_accepted_once_witness :
  (checkAndAdd "n" 100 20 (nonce_uses [("m"%string, 50, 30); ("n"%string, 60, 40)]
     (checkAndAdd "n" 100 10 ∅).2)).1 = false.
Proof.
  apply (nonce_accepted_once "n" 100 100 10 20 ∅ [("m"%string, 50, 30); ("n"%string, 60, 40)]).
  - by vm_compute.
  - repeat (apply Forall_cons; split; [simpl; lia|]). by apply Forall_nil.
  - lia.
Defined.

(** ** Running the gate *)

(** The envelope of a request whose headers are checked at time [now]. *)
Definition envelope_at (now : Z) (r : Request) (env : sigEnvelope) : Prop :=
  exists ts, parse_rfc3339 (header r HeaderTimestamp) = Some ts /\
    - defaultClockSkew <= now - ts <= defaultClockSkew /\
    base64_std_decode (header r HeaderSignature) = Some (env_signature env) /\
    env_timestamp env = header r HeaderTimestamp /\ env_nonce env = header r HeaderNonce /\
    env_nonce env <> ""%string /\ env_body env = limited_body r /\ body_read_fails r = false.

Section gate.
Context `{Crypto}.

Lemma run_extractSignature (r : Request) (w : World) :
  (run (extractSignature r) w).2 = w /\
  forall env, (run (extractSignature r) w).1 = Some env -> envelope_at (w_clock w) r env.
Proof.
  unfold extractSignature. case_decide as Hh; [done|].
  destruct (parse_rfc3339 _) as [ts|] eqn:Ets; [|done].
  rewrite run_bind, run_act. simpl. case_decide as Hs; [done|].
  simpl. destruct (body_read_fails r) eqn:Eb; [done|].
  destruct (base64_std_decode _) as [sig|] eqn:Esig; [|done]. simpl. split; [done|].
  intros env [= <-]. exists ts. simpl. split_and!; try done; [lia..|]. tauto.
Qed.

Lemma GetDevice_result (id : string) (s : St) :
  st_db (GetDevice id s).2 = st_db s /\ st_clock (GetDevice id s).2 = st_clock s /\
  forall d, (GetDevice id s).1 = inr d -> d ∈ (st_db s).(devices) /\ d_id d = id.
Proof.
  unfold GetDevice. destruct (reads_query_row ErrDeviceNotFound
    (fun db => sql_first (fun d => d_id d = id) db.(devices)) s) as (Hc & _ & Ho).
  split; [by destruct Ho as [(_ & _ & ->)| ->]|]. split; [done|]. intros d.
  unfold on_no_rows, query_row, db_call.
  destruct (st_faults s) as [|[] fs]; simpl; try done;
    destruct (sql_first _ _) as [x|] eqn:E; simpl; try done; intros [= <-];
    by apply sql_first_Some in E.
Qed.

Lemma TouchLastSeen_result (id : string) (s : St) :
  st_clock (TouchLastSeen id s).2 = st_clock s /\
  (st_db (TouchLastSeen id s).2 = st_db s \/
   st_db (TouchLastSeen id s).2 =
     set_devices (sql_update (fun d => d_id d = id) (dev_touch (sec (st_clock s)))
       (st_db s).(devices)) (st_db s)).
Proof.
  unfold TouchLastSeen, nowStr, now_ns, exec, db_call, mbind, M_bind, mret, M_ret. simpl.
  destruct (st_faults s) as [|[] fs]; simpl; auto.
Qed.

(** The database with a device's last-seen time refreshed, or as it was. *)
Definition touched (id : string) (now : Z) (db db' : DB) : Prop :=
  db' = db \/ db' = set_devices (sql_update (fun d => d_id d = id) (dev_touch now) db.(devices)) db.

(** What passing the gate at world [w] means. *)
Definition passed (r : Request) (w : World) (dev : Device) (body : bytes) : Prop :=
  exists env ts, envelope_at (w_clock w) r env /\ parse_rfc3339 (env_timestamp env) = Some ts /\
    body = limited_body r /\
    dev ∈ (w_db w).(devices) /\ d_id dev = header r HeaderDeviceID /\ live dev /\
    ed25519_verify (d_public_key dev)
      (SigningString (r_method r) (r_path r) (env_timestamp env) (env_nonce env) body)
      (env_signature env) = true /\
    (checkAndAdd (nonce_key (d_id dev) (env_nonce env)) (ts + defaultClockSkew) (w_clock w)
       (w_nonces w)).1 = true.

Lemma run_authenticate (r : Request) (w : World) :
  let out := run (authenticate r) w in
  w_pings out.2 = w_pings w /\ w_clock out.2 = w_clock w /\
  match out.1 with
  | None => w_db out.2 = w_db w
  | Some (dev, body) => passed r w dev body /\
      touched (d_id dev) (sec (w_clock w)) (w_db w) (w_db out.2) /\
      exists ts, parse_rfc3339 (header r HeaderTimestamp) = Some ts /\
        w_nonces out.2 !! nonce_key (d_id dev) (header r HeaderNonce) = Some (ts + defaultClockSkew)
  end.
Proof.
  unfold authenticate. case_decide as Hid; [done|]. run_step.
  destruct (run_extractSignature r w) as [Hw He].
  destruct (run (extractSignature r) w) as [[env|] w0]; cbn in Hw, He; subst w0; [|done].
  specialize (He env eq_refl). pose proof He as (ts & Hts & _ & _ & Ets & Hnonce & _ & Hbody & _).
  run_step. destruct (GetDevice_result (header r HeaderDeviceID) (w_st w)) as (Hdb & Hc & Hd).
  destruct (GetDevice (header r HeaderDeviceID) (w_st w)) as [[e|dev] s1]; cbn in *; [done|].
  destruct (Hd dev eq_refl) as [Hin Hdid]. destruct (d_revoked dev) eqn:Erev; [done|].
  run_step. unfold verifyAndRecord. destruct (ed25519_verify _ _ _) eqn:Ev; cbn [negb]; [|by cbn].
  run_step. unfold w_clock in *. cbn [w_st]. rewrite Hc, Ets, Hts. cbn [default from_option id].
  pose proof (checkAndAdd_records (nonce_key (header r HeaderDeviceID) (env_nonce env))
    (ts + defaultClockSkew) (st_clock (w_st w)) (w_nonces w)) as Hrec.
  destruct (checkAndAdd _ _ _ _) as [ok seen] eqn:Ec. destruct ok; cbn [negb]; [|by cbn].
  specialize (Hrec eq_refl). run_step.
  destruct (TouchLastSeen_result (header r HeaderDeviceID) s1) as [Hc' Ht]. rewrite Hc, Hdb in Ht.
  destruct (TouchLastSeen (header r HeaderDeviceID) s1) as [rt s2]. cbn in *.
  split_and!; [done|congruence|..].
  - exists env, ts. rewrite Hdid. unfold w_clock. rewrite Ets, Hts.
    split_and!; try done; [by rewrite <- Ets|by rewrite Ec].
  - by rewrite Hdid.
  - exists ts. by rewrite Hdid, <- Hnonce.
Qed.
(** While a nonce is in its window, no interleaving of requests forgets it. *)
Lemma step_keeps_nonce {A} (c c' : World * list (proc A)) (key : string) (e : Z) :
  step c c' -> w_clock c.1 < e -> w_nonces c.1 !! key = Some e -> w_nonces c'.1 !! key = Some e.
Proof.
  intros Hs Hc Hk. destruct Hs as [w w' ps (_ & _ & Hn & _)|w ps B a k w' b i _ Ha|]; simpl in *;
    [by rewrite Hn| |done].
  destruct a as [C op| | |key' e'|]; simpl in Ha; simplify_eq/=; try done.
  - destruct (run_op op (w_st w)). by simplify_eq/=.
  - pose proof (checkAndAdd_keeps key key' e e' (w_clock w) (w_nonces w) Hk Hc) as Hkeep.
    destruct (checkAndAdd _ _ _ _). by simplify_eq/=.
Qed.

Lemma steps_keep_nonce {A} (c c' : World * list (proc A)) (key : string) (e : Z) :
  rtc step c c' -> db_ok (w_db c.1) -> w_clock c'.1 < e -> w_nonces c.1 !! key = Some e ->
  w_nonces c'.1 !! key = Some e.
Proof.
  induction 1 as [c|c c1 c2 Hs Hr IH]; intros Hok Hc Hk; [done|].
  destruct (step_steps _ _ Hs Hok) as [Hs1 Hc1]. pose proof (db_steps_ok _ _ Hs1 Hok) as Hok1.
  destruct (steps_steps _ _ Hr Hok1) as (_ & Hc2 & _).
  apply IH; [done|done|]. eapply step_keeps_nonce; [done|lia|done].
Qed.

(** The two ways through [requireSignature]. *)
Lemma gate_cases (next : Device -> bytes -> proc Response) (r : Request) (w : World) :
  let out := run (requireSignature next r) w in
  (out.1 = unauthorized /\ w_db out.2 = w_db w /\ w_pings out.2 = w_pings w) \/
  exists dev body w1, passed r w dev body /\
    touched (d_id dev) (sec (w_clock w)) (w_db w) (w_db w1) /\
    w_pings w1 = w_pings w /\ w_clock w1 = w_clock w /\ out = run (next dev body) w1.
Proof.
  unfold requireSignature. simpl. run_step. pose proof (run_authenticate r w) as Ha. simpl in Ha.
  destruct (run (authenticate r) w) as [[[dev body]|] w1]; simpl in *.
  - destruct Ha as (Hp & Hc & Hpass & Ht & _). right. by exists dev, body, w1.
  - destruct Ha as (Hp & _ & Hdb). by left.
Qed.

(** C9: the gate of the management plane: a request either gets the uniform 401,
    leaving the database and the devices alone, or its handler runs, on behalf of a
    live device whose key verifies the signature over exactly this method, path,
    timestamp, nonce and body, with a timestamp within the clock skew and a nonce not
    seen in its window; only that device's last-seen time may have changed by then. *)
Theorem gate_admits_only_signed (next : Device -> bytes -> proc Response) (r : Request) (w : World) :
  let out := run (requireSignature next r) w in
  (out.1 = unauthorized /\ w_db out.2 = w_db w /\ w_pings out.2 = w_pings w) \/
  exists dev body w1, passed r w dev body /\
    touched (d_id dev) (sec (w_clock w)) (w_db w) (w_db w1) /\
    w_pings w1 = w_pings w /\ w_clock w1 = w_clock w /\ out = run (next dev body) w1.
Proof. apply gate_cases. Qed.

(** C10: a captured request cannot be replayed: after a request has passed the gate,
    and however other requests interleave meanwhile, the same request is refused for
    as long as its timestamp plus the clock skew lies in the future. *)
Theorem replay_rejected {A} (r : Request) (w w2 : World) (ts : Z) (dev : Device) (body : bytes)
    (ps ps2 : list (proc A)) :
  db_ok (w_db w) -> (run (authenticate r) w).1 = Some (dev, body) ->
  parse_rfc3339 (header r HeaderTimestamp) = Some ts ->
  rtc step ((run (authenticate r) w).2, ps) (w2, ps2) -> w_clock w2 < ts + defaultClockSkew ->
  (run (authenticate r) w2).1 = None /\ w_db (run (authenticate r) w2).2 = w_db w2.
Proof.
  intros Hok Ha Hts Hs Hc. pose proof (run_authenticate r w) as Hr. simpl in Hr. rewrite Ha in Hr.
  destruct Hr as (_ & _ & (env & ts0 & He & _ & _ & _ & Hid & _) & _ & ts' & Hts' & Hn).
  rewrite Hts in Hts'. injection Hts' as <-.
  apply steps_keep_nonce with (key := nonce_key (d_id dev) (header r HeaderNonce))
    (e := ts + defaultClockSkew) in Hs; [|by eapply db_steps_ok; [apply run_steps|]|done|done].
  pose proof (run_authenticate r w2) as Hr2. simpl in *.
  destruct (run (authenticate r) w2) as [[[dev2 body2]|] w3]; simpl in *; [|by destruct Hr2 as (_ & _ & ?)].
  exfalso. destruct Hr2 as (_ & _ & (env2 & ts2 & He2 & Hts2 & _ & _ & Hid2 & _ & _ & Hfresh) & _).
  destruct He2 as (ts3 & Hts3 & _ & _ & _ & Hnonce & _).
  rewrite Hid2, Hnonce, <- Hid in Hfresh.
  rewrite (checkAndAdd_refuses _ _ _ _ _ Hs Hc) in Hfresh. done.
Qed.
End gate.

Section examples.
Import Web.

Lemma replay_rejected_witness :
  let r := Web.create_queue in
  let w2 := (run (authenticate r) Web.w0).2 in
  (run (authenticate r) w2).1 = None /\
  w_db (run (authenticate r) w2).2 = w_db w2.
Proof.
  intros r w2.
  apply (replay_rejected (A := unit) r Web.w0 w2 Demo.t0
    (mkDevice Demo.dev1 Demo.acc (ed25519_public (Crypto := Toy.toy_crypto) Demo.key1)
      "https://push/1" "" 1700000003 1700000003 false RoleAdmin 0)
    (r_body r) [] []).
  - apply Demo.db0_ok.
  - by vm_compute.
  - by vm_compute.
  - apply rtc_refl.
  - by vm_compute.
Defined.

(** The clock is read before the body is, and the nonce is looked up after it:
    a captured request whose body the sender holds back until its nonce has expired
    passes the gate a second time. Here one signed request creates two queues. *)
Theorem slow_body_replay :
  let replay := requireSignature handleCreateQueue create_queue in
  let c := schedule ([Tick (290 * Second - 1) (rnd x20)] ++ replicate 10 (Go 0) ++ [Go 1] ++
                     [Tick 2 (rnd x21)] ++ replicate 10 (Go 1)) (w0, [replay; replay]) in
  w_clock c.1 = Demo.t0 + defaultClockSkew + 1 /\
  c.2 = [Ret (writeJSON StatusCreated (BQueue (fresh_id "rcp_" (rnd x20)) (fresh_id "snd_" (rnd x20))));
         Ret (writeJSON StatusCreated (BQueue (fresh_id "rcp_" (rnd x21)) (fresh_id "snd_" (rnd x21))))] /\
  length (w_db c.1).(queues) = S (S (length (w_db w0).(queues))).
Proof. by vm_compute. Qed.
End examples.
