(* ===== verification/Planes.v ===== *)
(** * The two planes of the API

    What unsigned requests can do, what a queue's keys protect, and the message
    lifetime a sender asks for. *)

From S2P Require Import Prelude Encoding Clock Sql Schema StoreM Crypto Sigauth Accounts Devices.
From S2P Require Import Queues Blobs Steps Invariants Evolution Refine Store Demo World Http Auth.
From S2P Require Import Json Scanner Decoder.
From S2P Require Import Push Management Transport Router DemoServer Delivery Gate.

Local Open Scope Z_scope.

(** ** Any interleaving *)

(** However requests arrive and interleave, whatever they contain, and whatever
    the driver and the clock do meanwhile, the database stays well formed and only
    moves forward. *)
Theorem server_keeps_database `{Crypto} {A} (w w' : World) (ps ps' : list (proc A)) :
  db_ok (w_db w) -> rtc step (w, ps) (w', ps') ->
  db_ok (w_db w') /\ evolves (w_db w) (w_db w') /\ w_clock w <= w_clock w'.
Proof.
  intros Hok Hs. destruct (steps_steps _ _ Hs Hok) as (Hdb & Hc & Hok').
  split_and!; [done|by apply db_steps_evolves|done].
Qed.

Section examples.
Import Web.

(** A send and a retirement of the same queue, interleaved. *)
Definition race : World * list (proc Response) :=
  schedule (replicate 3 (Go 0) ++ replicate 10 (Go 1) ++ replicate 10 (Go 0))
    (w0, [handleSend snd send_hello; handleRetire rcp retire_it]).

Lemma server_keeps_database_witness :
  db_ok (w_db race.1) /\ evolves (w_db w0) (w_db race.1) /\ w_clock w0 <= w_clock race.1.
Proof.
  apply (server_keeps_database w0 race.1 [handleSend snd send_hello; handleRetire rcp retire_it] race.2).
  - apply db0_ok.
  - rewrite <- surjective_pairing. apply schedule_steps.
Defined.

(** A send that was authorised before its queue was retired is not stopped by
    the retirement: both requests succeed, and the message is left on a retired queue,
    where no receive can reach it. *)
Theorem send_outlives_retirement :
  race.2 = [Ret (writeJSON StatusAccepted (BMessageID (fresh_id "msg_" (rnd x08))));
            Ret (writeJSON StatusOK BRetired)] /\
  m_queue_id <$> (w_db race.1).(messages) = [rcp] /\
  (q_retired <$> (w_db race.1).(queues)) = [true] /\
  (run (handleRecv rcp recv_all) race.1).1 = writeError StatusNotFound "no such queue".
Proof. by vm_compute. Qed.

(** The first send that verifies binds its key to an open queue even when the
    send itself is refused: here one with an empty payload, answered 400. *)
Theorem refused_send_binds :
  let db := run_calls (take 6 running) empty_db in
  let empty_send := signed "POST" ["v1"; "send"; snd] skey "" 1700000000 "n"
    {[ HeaderSenderKey := base64_std_encode (ed25519_public skey) ]} (json_body []) in
  let out := run (ServeHTTP "v" empty_send) (mkWorld (mkSt db (t0 + 10 * Second) (rnd x08) []) ∅ []) in
  q_sender_key <$> db.(queues) = [None] /\
  out.1 = writeError StatusBadRequest "empty payload" /\
  q_sender_key <$> (w_db out.2).(queues) = [Some (ed25519_public skey)].
Proof. by vm_compute. Qed.
End examples.

(** ** The lifetime of a message *)

(** A lifetime in the range a 64-bit duration can hold is clamped as documented:
    none or a negative one is a day, anything longer than a week is a week, and the
    rest is taken as it is; so the result lies between a second and a week. *)
Theorem clamp_message_ttl (seconds : Z) :
  seconds * Second < 2 ^ 63 ->
  clampMessageTTL seconds =
    (if decide (seconds <= 0) then 24 * Hour else Z.min (seconds * Second) (7 * 24 * Hour)) /\
  Second <= clampMessageTTL seconds <= 7 * 24 * Hour.
Proof.
  intros Hs. unfold clampMessageTTL, defaultMessageTTL, maxMessageTTL, Hour, Minute, Second in *.
  case_decide as H0; [split; [done|lia]|].
  rewrite wrap64_id by (unfold is_int64; lia). case_decide; split; lia.
Qed.

Lemma clamp_message_ttl_witness :
  clampMessageTTL 1000000 = Z.min (1000000 * Second) (7 * 24 * Hour) /\
  Second <= clampMessageTTL 1000000 <= 7 * 24 * Hour.
Proof. apply (clamp_message_ttl 1000000). by vm_compute. Defined.

(** A lifetime beyond that range wraps around instead of being clamped: the
    64-bit product of [9223372037] seconds is negative, and a message sent with it
    expires before it is stored. *)
Theorem clamp_message_ttl_overflows :
  clampMessageTTL 9223372037 < 0 /\
  let r := AppendMessage Demo.rcp Demo.hello (clampMessageTTL 9223372037) Demo.s0 in
  (exists m, r.1 = inr m /\ msg_expires m < msg_received_at m) /\
  live_messages Demo.rcp (sec (st_clock Demo.s0)) (st_db r.2) =
    live_messages Demo.rcp (sec (st_clock Demo.s0)) (st_db Demo.s0).
Proof. split; [by vm_compute|]. split; [|by vm_compute]. eexists. split; by vm_compute. Qed.

(** ** Requests without a signature *)

Section unsigned.
Context `{Crypto}.

(** A program that leaves the database alone. *)
Definition idle {A} (p : proc A) : Prop := forall w, w_db (run p w).2 = w_db w.

Lemma idle_ret {A} (a : A) : idle (mret a).
Proof. done. Qed.

Lemma idle_bind {A B} (p : proc A) (k : A -> proc B) :
  idle p -> (forall a, idle (k a)) -> idle (p ≫= k).
Proof.
  intros Hp Hk w. rewrite run_bind. specialize (Hp w). destruct (run p w) as [a w'].
  simpl in *. by rewrite Hk.
Qed.

Lemma idle_read {A} (op : store_op A) : read_op op = true -> idle (call_store op).
Proof.
  intros Hop w. unfold call_store. rewrite run_act. simpl.
  pose proof (read_op_db op (w_st w) Hop) as Hdb. by destruct (run_op op (w_st w)).
Qed.

Lemma extractSignature_unsigned (r : Request) :
  header r HeaderSignature = ""%string -> extractSignature r = mret None.
Proof. intros Hs. unfold extractSignature. rewrite decide_True; auto. Qed.

Lemma requireSignature_unsigned (next : Device -> bytes -> proc Response) (r : Request) :
  header r HeaderSignature = ""%string -> idle (requireSignature next r).
Proof.
  intros Hs w. unfold requireSignature, authenticate. rewrite extractSignature_unsigned by done.
  by case_decide.
Qed.

Lemma handleSend_unsigned (sid : string) (r : Request) :
  header r HeaderSignature = ""%string -> idle (handleSend sid r).
Proof.
  intros Hs. unfold handleSend. apply idle_bind; [by apply idle_read|]. intros [e|q].
  - destruct e; apply idle_ret.
  - destruct (q_retired q); [apply idle_ret|]. by rewrite extractSignature_unsigned.
Qed.

Lemma requireRecipient_unsigned (next : Queue -> bytes -> proc Response) (rid : string) (r : Request) :
  header r HeaderSignature = ""%string -> idle (requireRecipient next rid r).
Proof.
  intros Hs. unfold requireRecipient, authorizeRecipient. rewrite extractSignature_unsigned by done.
  intros w. run_step. run_step.
  pose proof (read_op_db (OpGetQueueByRecipient rid) (w_st w) eq_refl) as Hdb. simpl in Hdb.
  destruct (GetQueueByRecipient rid (w_st w)) as [[e|q] s]; simpl in *; [by destruct e|].
  by destruct (q_retired q).
Qed.

(** A request is answered by the router itself or by one of its routes. *)
Lemma serve_cases (version : string) (r : Request) :
  (exists code, ServeHTTP version r = mret (mkResponse code BMux)) \/
  exists rt vs, rt ∈ routes version /\ match_segments (rt_pattern rt) (r_segments r) = Some vs /\
    method_matches (rt_method rt) (r_method r) = true /\ ServeHTTP version r = rt_handler rt vs r.
Proof.
  unfold ServeHTTP. destruct (r_clean r); simpl; [|eauto].
  destruct (filter _ _) as [|[rt vs] l] eqn:Ef; [eauto|]. right. exists rt, vs.
  assert ((rt, vs) ∈ filter (fun rv => method_matches (rt_method rv.1) (r_method r) = true)
    (path_routes version (r_segments r))) as Hin by (rewrite Ef; left).
  apply list_elem_of_filter in Hin as [Hm Hin]. unfold path_routes in Hin.
  apply list_elem_of_omap in Hin as (rt' & Hrt & (vs' & Hvs & [= -> ->])%bind_Some). done.
Qed.

(** C26: without a signature the only request that can change the database is a
    registration, whose credential is its invitation token: every other unsigned
    request, to any route, leaves it exactly as it was. *)
Theorem unsigned_requests_change_nothing (version : string) (r : Request) (w : World) :
  header r HeaderSignature = ""%string ->
  r_segments r <> ["v1"; "devices"; "register"]%string ->
  w_db (run (ServeHTTP version r) w).2 = w_db w.
Proof.
  intros Hs Hreg. destruct (serve_cases version r) as [[resp ->]|(rt & vs & Hrt & Hm & _ & ->)]; [done|].
  assert (idle (rt_handler rt vs r)) as Hidle; [|done].
  unfold routes in Hrt. repeat (apply elem_of_cons in Hrt as [->|Hrt]); simpl in *.
  all: try (by apply requireSignature_unsigned); try (by apply handleSend_unsigned);
    try (by apply requireRecipient_unsigned); try (by apply idle_ret); try (by apply not_elem_of_nil in Hrt).
  exfalso. apply Hreg. destruct (r_segments r) as [|a [|b [|c [|]]]]; simpl in Hm;
    repeat case_decide; simplify_eq/=; done.
Qed.
End unsigned.

Section unsigned_examples.
Import Web.

Lemma unsigned_requests_change_nothing_witness :
  w_db (run (ServeHTTP "v" (mkRequest "POST" ["v1"; "retire"; rcp]%string true ∅ [] false)) w0).2 = w_db w0.
Proof.
  apply (unsigned_requests_change_nothing "v"
    (mkRequest "POST" ["v1"; "retire"; rcp]%string true ∅ [] false) w0); by vm_compute.
Defined.
End unsigned_examples.
