(* ===== verification/Promise.v ===== *)
(** * What an answered send promises

    When [handleSend] answers with the identifier of a message, it has stored a message
    with that identifier and the payload of the request, on the queue the request named.
    Here this is said of the handler as a program, whatever the store and the clock answer
    it; [Recovery] draws the conclusion for runs of the server. *)

From S2P Require Import Prelude Encoding Clock Sql Schema StoreM Crypto Sigauth Accounts Devices Queues Blobs.
From S2P Require Import Steps Invariants Evolution Refine Store World Json Scanner Http Decoder Auth Push Management.
From S2P Require Import Transport Router Planes Capacity Delivery Grain.

Local Open Scope Z_scope.

(** ** What a program knows to be stored *)

(** A set of messages and queues that have been in the database at some time. *)
Definition known : Type := MessageRow + Queue -> Prop.

(** What the answer of a store call tells of the database: the stored message, or the queue
    of a sender identifier. *)
Definition told {A} (op : store_op A) : error + A -> known :=
  match op with
  | OpAppendMessage rid payload ttl => fun r x =>
      match r, x with
      | inr msg, inl m => m_id m = msg_id msg /\ m_queue_id m = rid /\ m_payload m = payload /\
          exists t, m_received_at m = sec t /\ m_expires m = sec (t + ttl)
      | _, _ => False
      end
  | OpGetQueueBySender sid => fun r x =>
      match r, x with inr q, inr q' => q' = q /\ q_sender_id q = sid | _, _ => False end
  | _ => fun _ _ => False
  end.

(** The answers that tell something. *)
Definition informs {A} (op : store_op A) : error + A -> Prop :=
  match op with
  | OpAppendMessage _ _ _ | OpGetQueueBySender _ => fun r => match r with inr _ => True | inl _ => False end
  | _ => fun _ => False
  end.

(** After an effect the program knows what it knew, and what the answer tells. *)
Definition learns {A} (e : action A) : A -> known -> known -> Prop :=
  match e with
  | ACall op => fun r K K' => (forall x, K x -> K' x) /\ (informs op r -> exists x, told op r x /\ K' x)
  | _ => fun _ K K' => forall x, K x -> K' x
  end.

Lemma learns_grows {A} (e : action A) (a : A) (K K' : known) (x : MessageRow + Queue) :
  learns e a K K' -> K x -> K' x.
Proof. destruct e; cbn; [intros [Hg _]|intros Hg..]; apply Hg. Qed.

Lemma learns_weaken {A} (e : action A) (a : A) (K K2 K' : known) :
  (forall x, K x -> K2 x) -> learns e a K2 K' -> learns e a K K'.
Proof. destruct e; cbn; intros HK; [intros [Hg Hi]; split; [by auto|done]|by auto..]. Qed.

(** ** Programs *)

(** A program that gives a message's identifier as its answer only when [P] holds of what it
    has been told. *)
Fixpoint honest (P : string -> known -> Prop) (K : known) (p : proc Response) : Prop :=
  match p with
  | Ret resp => forall id, resp_body resp = BMessageID id -> P id K
  | Act e k => forall b K', learns e b K K' -> honest P K' (k b)
  end.

(** Every result of a program, whatever it is answered. *)
Fixpoint returns {A} (Q : A -> Prop) (p : proc A) : Prop :=
  match p with Ret a => Q a | Act e k => forall b, returns Q (k b) end.

Lemma returns_any {A} (p : proc A) : returns (fun _ => True) p.
Proof. induction p as [a|B e k IH]; cbn; auto. Qed.

Lemma returns_bind {A B} (Q : A -> Prop) (R : B -> Prop) (p : proc A) (k : A -> proc B) :
  returns Q p -> (forall a, Q a -> returns R (k a)) -> returns R (p ≫= k).
Proof. intros Hp Hk. induction p as [a|C e j IH]; [by apply Hk|]. intros b. by apply IH. Qed.

Lemma returns_then {A B} (R : B -> Prop) (p : proc A) (k : A -> proc B) :
  (forall a, returns R (k a)) -> returns R (p ≫= k).
Proof. intros Hk. eapply returns_bind; [apply returns_any|]. intros a _. apply Hk. Qed.

Lemma returns_ret {A} (R : A -> Prop) (a : A) : R a -> returns R (mret a).
Proof. done. Qed.

(** A response that is not a message's identifier. *)
Definition tacit (resp : Response) : Prop := forall id, resp_body resp <> BMessageID id.

Section honest.
Context (P : string -> known -> Prop).
Context (HP : forall id (K K' : known), (forall x, K x -> K' x) -> P id K -> P id K').

Lemma honest_mono (K K' : known) (p : proc Response) :
  (forall x, K x -> K' x) -> honest P K p -> honest P K' p.
Proof using HP.
  intros HK. destruct p as [resp|B e k]; cbn.
  - intros Hp id E. by apply (HP id K), Hp.
  - intros Hp b K2 Hl. apply Hp. by eapply learns_weaken.
Qed.

Lemma honest_bind {A} (Q : A -> Prop) (K : known) (p : proc A) (k : A -> proc Response) :
  returns Q p -> (forall a K', (forall x, K x -> K' x) -> Q a -> honest P K' (k a)) -> honest P K (p ≫= k).
Proof using.
  revert K. induction p as [a|C e j IH]; intros K Hp Hk; [by apply Hk|].
  intros b K' Hl. apply IH; [apply Hp|]. intros a K2 HK. apply Hk. intros x Hx.
  by apply HK, (learns_grows e b K).
Qed.

Lemma honest_then {A} (K : known) (p : proc A) (k : A -> proc Response) :
  (forall a, honest P K (k a)) -> honest P K (p ≫= k).
Proof using HP.
  intros Hk. eapply honest_bind; [apply returns_any|]. intros a K' HK _. by eapply honest_mono.
Qed.

Lemma honest_call {A} (op : store_op A) (K : known) (k : error + A -> proc Response) :
  (forall r K', learns (ACall op) r K K' -> honest P K' (k r)) -> honest P K (call_store op ≫= k).
Proof using. done. Qed.

(** A program that never answers with an identifier. *)
Lemma honest_quiet (K : known) (p : proc Response) :
  returns tacit p -> honest P K p.
Proof using.
  revert K. induction p as [resp|B e k IH]; intros K Hq; cbn in *; [|by auto]. intros id E. by destruct (Hq id).
Qed.
End honest.

(** ** The handlers *)

(** What an answer with identifier [id] to request [r] promises: its message was stored, on
    the queue of the sender identifier in the path, for the lifetime the request asks for. *)
Definition promised (r : Request) (id : string) (K : known) : Prop :=
  exists sid req m q,
    r_segments r = ["v1"; "send"; sid]%string /\
    decode_send (limited_body r) = DOk req /\ base64_std_decode (snd_payload req) = Some (m_payload m) /\
    (exists t, m_received_at m = sec t /\ m_expires m = sec (t + clampMessageTTL (snd_ttl req))) /\
    K (inl m) /\ m_id m = id /\
    K (inr q) /\ q_sender_id q = sid /\ q_recipient_id q = m_queue_id m.

Lemma promised_mono (r : Request) (id : string) (K K' : known) :
  (forall x, K x -> K' x) -> promised r id K -> promised r id K'.
Proof. intros HK (sid & req & m & q & ?). exists sid, req, m, q. destruct_and?; split_and?; auto. Qed.

(** Walk through a handler. *)
Ltac walk :=
  cbv zeta;
  repeat (lazymatch goal with
          | |- returns _ (mbind _ _) => apply returns_then; intros
          | |- returns tacit (mret _) => try (intros ?; discriminate)
          | |- returns tacit (match ?x with _ => _ end) => destruct x
          | |- returns _ (mret _) => apply returns_ret
          | |- returns _ (match _ with _ => _ end) => case_match
          end; cbv zeta).

Section handlers.
Context `{Crypto}.

Lemma extractSignature_body (r : Request) :
  returns (fun env => forall e, env = Some e -> env_body e = limited_body r) (extractSignature r).
Proof.
  unfold extractSignature. walk; intros; by simplify_eq/=.
Qed.

Lemma honest_storeMessage (r : Request) (sid : string) (q : Queue) (K : known) :
  r_segments r = ["v1"; "send"; sid]%string -> K (inr q) -> q_sender_id q = sid ->
  honest (promised r) K (storeMessage q (limited_body r)).
Proof.
  intros Hr Hq Hs. unfold storeMessage.
  destruct (decode_send _) as [req| |] eqn:Ed; [|by intros id|by intros id].
  destruct (base64_std_decode _) as [payload|] eqn:Eb; [|by intros id].
  do 2 (case_decide; [by intros id|]).
  apply honest_call. intros res K' [HK Ht]. destruct res as [e|msg]; [by destruct e; intros id|].
  destruct Ht as ([m|?] & Hm & HKm); [done| |done]. destruct Hm as (Hid & Hqid & Hp & Ht).
  apply honest_then; [apply promised_mono|]. intros _ id [= <-].
  exists sid, req, m, q. rewrite Hp. split_and!; auto.
Qed.

Lemma honest_send (r : Request) (sid : string) (K : known) :
  r_segments r = ["v1"; "send"; sid]%string -> honest (promised r) K (handleSend sid r).
Proof.
  intros Hr. unfold handleSend. apply honest_call. intros res K1 [_ Ht].
  destruct res as [e|q]; [by destruct e; intros id|].
  destruct Ht as ([?|q'] & Hq & HK1); [done|done|]. destruct Hq as [-> Hs].
  case_match; [by intros id|].
  eapply honest_bind; [apply extractSignature_body|]. intros [env|] K2 HK2 Hb; [|by intros id].
  rewrite (Hb env eq_refl). destruct (resolveSenderKey r q) as [[key binding]|]; [|by intros id].
  eapply honest_bind; [apply returns_any|]. intros ok K3 HK3 _. case_match; [by intros id|].
  case_match; [by apply (honest_storeMessage r sid); auto|].
  eapply honest_bind; [apply returns_any|]. intros [e|[]] K4 HK4 _; [by intros id| |by intros id].
  apply (honest_storeMessage r sid); auto.
Qed.

Lemma tacit_signed (next : Device -> bytes -> proc Response) (r : Request) :
  (forall dev body, returns tacit (next dev body)) -> returns tacit (requireSignature next r).
Proof. intros Hn. unfold requireSignature. walk. apply Hn. Qed.

Lemma tacit_recipient (next : Queue -> bytes -> proc Response) (rid : string) (r : Request) :
  (forall q body, returns tacit (next q body)) -> returns tacit (requireRecipient next rid r).
Proof.
  intros Hn. unfold requireRecipient.
  eapply (returns_bind (fun a => forall resp, a = inl resp -> tacit resp)).
  - unfold authorizeRecipient. walk; intros resp E; by simplify_eq.
  - intros [resp|[q body]] Hq; [|apply Hn]. apply returns_ret. by apply Hq.
Qed.

Lemma send_segments (segs vs : list string) :
  match_segments [Lit "v1"; Lit "send"; Wild] segs = Some vs ->
  exists sid, vs = [sid] /\ segs = ["v1"; "send"; sid]%string.
Proof.
  destruct segs as [|a [|b [|c [|]]]]; cbn; repeat case_decide; intros E; simplify_eq/=; try done. by eexists.
Qed.

(** No request is answered with an identifier but a send that has been stored. *)
Lemma honest_serve (version : string) (r : Request) (K : known) : honest (promised r) K (ServeHTTP version r).
Proof.
  destruct (serve_cases version r) as [[code ->]|(rt & vs & Hrt & Hm & _ & ->)]; [by intros id|].
  unfold routes in Hrt. repeat (apply elem_of_cons in Hrt as [->|Hrt]); cbn [rt_handler rt_pattern] in *;
    try (by apply not_elem_of_nil in Hrt);
    try (apply send_segments in Hm as (sid & -> & Hm); by apply honest_send);
    apply honest_quiet; unfold one;
    try (apply tacit_signed; intros dev body); try (apply tacit_recipient; intros q body);
    unfold handleHealth, handleRegister, handleListDevices, handleRevoke, handleSetRole, handleGetBundle, handleSetBundle,
      handleCreateInvitation, handleListInvitations, handleRevokeInvitation, handleUpdatePush, handleGetQuota,
      handleAppendStatement, handleListStatements, handleCreateQueue, recv_queue, ack_queue, retire_queue, quota_queue;
    walk.
Qed.
End handlers.
