(* ===== verification/Recovery.v ===== *)
(** * Crashes and restarts

    A run of the server that may stop at any moment and start again on the same file: the
    requests in progress and the replay cache are gone, the database is what it was. A
    message whose send was answered outlives any number of restarts; a captured request,
    on the other hand, may pass the gate again after one. *)

From S2P Require Import Prelude Encoding Clock Sql Schema StoreM Crypto Sigauth Accounts Devices Queues Blobs.
From S2P Require Import Steps Invariants Evolution Refine Store World Json Scanner Http Decoder Auth Transport Router Capacity Delivery Demo.
From S2P Require Import DemoServer Grain Promise.

Local Open Scope Z_scope.

(** ** Runs with restarts *)

(** The server's state and its requests in progress. *)
Definition config : Type := World * list (thread Response).

Definition db_of (c : config) : DB := w_db c.1.

Section life.
Context `{Crypto}.

(** A run with all it goes through, [c] and [c'] included. *)
Inductive path (R : relation config) (c : config) : list config -> config -> Prop :=
  | path_start : path R c [c] c
  | path_step l d d' : path R c l d -> R d d' -> path R c (l ++ [d']) d'.

Lemma path_weaken (R R' : relation config) (c c' : config) (l : list config) :
  (forall d d', R d d' -> R' d d') -> path R c l c' -> path R' c l c'.
Proof using. intros HR. induction 1; [constructor|]. econstructor; eauto. Qed.

Lemma path_first (R : relation config) (c c' : config) (l : list config) : path R c l c' -> c ∈ l.
Proof using. induction 1; [by left|]. apply elem_of_app. by left. Qed.

Lemma path_last (R : relation config) (c c' : config) (l : list config) : path R c l c' -> c' ∈ l.
Proof using. destruct 1; [by left|]. apply elem_of_app. right. by left. Qed.

Lemma path_head (R : relation config) (c c' : config) (l : list config) : path R c l c' -> l = c :: tail l.
Proof using. induction 1 as [|l d d' Hp IH Hd]; [done|]. by rewrite IH. Qed.

Lemma path_app (R : relation config) (c d e : config) (l l' : list config) :
  path R c l d -> path R d l' e -> path R c (l ++ tail l') e.
Proof using.
  intros Hl Hp. induction Hp as [|l' e e' Hp IH He]; [by rewrite app_nil_r|].
  assert (tail (l' ++ [e']) = tail l' ++ [e']) as -> by (by destruct Hp as [|[]]).
  rewrite app_assoc. by econstructor.
Qed.

(** A configuration all of whose threads come from programs. *)
Definition sound (c : config) : Prop := db_ok (db_of c) /\ Forall (ok_thread (db_of c)) c.2.

Lemma life_step (c c' : config) :
  life c c' -> sound c ->
  sound c' /\ evolves (db_of c) (db_of c') /\ w_clock c.1 <= w_clock c'.1 /\
  exists now, now <= sec (w_clock c'.1) /\ changed now (db_of c) (db_of c').
Proof.
  intros Hl [Hok Hts]. destruct (life_step_ok _ _ Hl Hok Hts) as ((now & Hn & Hch) & Hc & Hts').
  destruct (changed_ok _ _ _ Hch Hok) as [Hok' He]. split; [by split|]. split; [done|]. split; [done|]. by exists now.
Qed.

Lemma path_sound (c c' : config) (l : list config) :
  path life c l c' -> sound c -> sound c' /\ evolves (db_of c) (db_of c') /\ w_clock c.1 <= w_clock c'.1.
Proof.
  induction 1 as [|l d d' Hp IH Hs]; intros Hc; [done|]. destruct (IH Hc) as (Hd & He & Ht).
  destruct (life_step _ _ Hs Hd) as (? & ? & ? & _). split_and!; [done|by etrans|lia].
Qed.

Lemma path_evolves (c c' d : config) (l : list config) :
  path life c l c' -> sound c -> d ∈ l -> evolves (db_of d) (db_of c').
Proof.
  intros Hp Hs Hd. induction Hp as [|l e e' Hp IH He]; [by apply list_elem_of_singleton in Hd as ->|].
  apply elem_of_app in Hd as [Hd| ->%list_elem_of_singleton]; [|done].
  destruct (path_sound _ _ _ Hp Hs) as (Hse & _). destruct (life_step _ _ He Hse) as (_ & Hev & _).
  etrans; [by apply IH|done].
Qed.
End life.

(** ** Methods at one moment *)

Section coarse.
Context `{Crypto}.

(** The same with every store call at one moment. *)
Inductive coarse_life : World * list (proc Response) -> World * list (proc Response) -> Prop :=
  | coarse_turn c c' : step c c' -> coarse_life c c'
  | coarse_crash w w' ps : restarted w w' -> coarse_life (w, ps) (w', []).

Lemma coarse_life_ok (c c' : World * list (proc Response)) :
  coarse_life c c' -> db_ok (w_db c.1) ->
  db_ok (w_db c'.1) /\ evolves (w_db c.1) (w_db c'.1) /\ w_clock c.1 <= w_clock c'.1.
Proof.
  intros [d d' Hs|w w' ps (Hc & Hdb & _)] Hok.
  - destruct (step_steps _ _ Hs Hok) as [Hd Ht]. split_and!; [by eapply db_steps_ok|by apply db_steps_evolves|done].
  - cbn. rewrite Hdb. by split_and!.
Qed.

Lemma coarse_lives_ok (c c' : World * list (proc Response)) :
  rtc coarse_life c c' -> db_ok (w_db c.1) ->
  db_ok (w_db c'.1) /\ evolves (w_db c.1) (w_db c'.1) /\ w_clock c.1 <= w_clock c'.1.
Proof.
  induction 1 as [c|c c1 c2 Hs _ IH]; intros Hok; [done|]. destruct (coarse_life_ok _ _ Hs Hok) as (Hok1 & He & Ht).
  destruct (IH Hok1) as (? & ? & ?). split_and!; [done|by etrans|lia].
Qed.

Lemma coarse_is_life (c c' : World * list (proc Response)) :
  rtc coarse_life c c' -> db_ok (w_db c.1) -> rtc life (c.1, At <$> c.2) (c'.1, At <$> c'.2).
Proof.
  induction 1 as [c|c c1 c2 Hs _ IH]; intros Hok; [done|].
  etrans; [|by apply IH, (coarse_life_ok _ _ Hs Hok)].
  destruct Hs as [d d' Hs|w w' ps Hr]; [by apply fine_is_life, coarse_step_is_fine|by apply rtc_once, life_crash].
Qed.
End coarse.

(** ** What a request knows *)

Definition stored (db : DB) : known :=
  fun x => match x with inl m => m ∈ db.(messages) | inr q => q ∈ db.(queues) end.

(** What a statement carrying second [now] shows of the database it leaves: the messages
    received at that second. *)
Definition shown (now : Z) (db : DB) : known :=
  fun x => stored db x /\ match x with inl m => m_received_at m = now | inr _ => True end.

Section backed.
Context `{Crypto} (P : string -> known -> Prop).
Context (HP : forall id (K K' : known), (forall x, K x -> K' x) -> P id K -> P id K').

(** [honest], for a call in pieces: what a piece answers is in the database. *)
Fixpoint backed {B} (K : known) (q : piece B) (k : error + B -> proc Response) : Prop :=
  match q with
  | Done r => honest P K (k r)
  | Piece m j => forall s, db_ok (st_db s) ->
      wp m s (fun r s' => forall K' : known, (forall x, K x -> K' x) ->
        (forall x, shown (sec (st_clock s)) (st_db s') x -> K' x) -> backed K' (j r) k)
  end.

Lemma backed_any {B} (K : known) (q : piece B) (k : error + B -> proc Response) :
  (forall r K', (forall x, K x -> K' x) -> honest P K' (k r)) -> backed K q k.
Proof using.
  revert K. induction q as [r|C m j IH]; intros K Hk; [by apply Hk|]. intros s _ K' HK _. apply IH.
  intros r K2 HK2. apply Hk. auto.
Qed.

Lemma backed_mono {B} (K K' : known) (q : piece B) (k : error + B -> proc Response) :
  (forall x, K x -> K' x) -> backed K q k -> backed K' q k.
Proof using HP.
  intros HK. destruct q as [r|C m j]; [by apply honest_mono|]. intros Hq s Hok.
  eapply wp_mono; [by apply Hq|]. intros r s' Hb K2 HK2. apply Hb. auto.
Qed.

Lemma GetQueueBySender_found (sid : string) (s : St) :
  wp (GetQueueBySender sid) s (fun r s' => st_db s' = st_db s /\
    forall q, r = inr q -> q ∈ (st_db s).(queues) /\ q_sender_id q = sid).
Proof using.
  unfold GetQueueBySender. wp_step. wp_step; [done|]. destruct (sql_first _ _) as [q|] eqn:E; [|done].
  apply sql_first_Some in E. split; [done|]. by intros q' [= <-].
Qed.

Lemma AppendMessage_stored (rid : string) (payload : bytes) (ttl : Z) (s : St) :
  integrity (st_db s) ->
  wp (AppendMessage rid payload ttl) s (fun r s' => forall msg, r = inr msg -> exists m,
    told (OpAppendMessage rid payload ttl) r (inl m) /\ shown (sec (st_clock s)) (st_db s') (inl m)).
Proof using.
  intros Hi msg E. destruct (append_succeeded _ _ _ _ _ Hi E) as (Hm & _ & _ & ->).
  exists (mkMessageRow ((st_db s).(messages_seq) + 1) (msg_id msg) rid payload (sec (st_clock s)) (sec (st_clock s + ttl))).
  rewrite E. split; [split_and!; [done..|by exists (st_clock s)]|].
  split; [|done]. apply elem_of_app. right. by left.
Qed.

Lemma backed_call {B} (op : store_op B) (K : known) (k : error + B -> proc Response) :
  (forall r K', learns (ACall op) r K K' -> honest P K' (k r)) -> backed K (pieces op) k.
Proof using.
  intros Hk. destruct op; try (by apply backed_any; intros r K' HK; apply Hk; split; [done|by destruct r]).
  - intros s Hok. eapply wp_mono; [apply GetQueueBySender_found|]. intros r s' [Hdb Hq] K' HK Hs.
    apply Hk. split; [done|]. destruct r as [e|q]; [done|]. intros _. exists (inr q).
    destruct (Hq q eq_refl) as [Hin Hsid]. split; [done|]. apply Hs. split; [|done]. by rewrite Hdb.
  - intros s Hok. eapply wp_mono; [apply AppendMessage_stored, Hok|]. intros r s' Hm K' HK Hs.
    apply Hk. split; [done|]. destruct r as [e|msg]; [done|]. intros _.
    destruct (Hm msg eq_refl) as (m & Ht & Hsh). exists (inl m). auto.
Qed.

(** A request at any point, that began at [from] or later. *)
Definition honest_thread (from : Z) (K : known) (th : thread Response) : Prop :=
  match th with At p => honest P K p | In began q k => from <= began /\ backed K q k end.

Lemma honest_thread_mono (from : Z) (K K' : known) (th : thread Response) :
  (forall x, K x -> K' x) -> honest_thread from K th -> honest_thread from K' th.
Proof using HP. intros HK. destruct th; [by apply honest_mono|]. intros [Hf Hb]. split; [done|]. by eapply backed_mono. Qed.

(** What has been in the database along a run, of the messages those received since [from]. *)
Definition seen (from : Z) (l : list config) : known :=
  fun x => (exists d, d ∈ l /\ stored (db_of d) x) /\ match x with inl m => sec from <= m_received_at m | inr _ => True end.

Lemma seen_app (from : Z) (l l' : list config) (x : MessageRow + Queue) : seen from l x -> seen from (l ++ l') x.
Proof using. intros [(d & Hd & Hx) Hm]. split; [|done]. exists d. split; [apply elem_of_app; by left|done]. Qed.

Lemma fine_honest (c c' : config) (from : Z) (l : list config) (i : nat) (th : thread Response) :
  fine c c' -> sound c -> from <= w_clock c.1 -> c.2 !! i = Some th -> honest_thread from (seen from l) th ->
  exists th', c'.2 !! i = Some th' /\ honest_thread from (seen from (l ++ [c'])) th'.
Proof using HP.
  intros Hf [Hok Hts] Hfrom Hi Hth.
  pose proof (honest_thread_mono from _ _ th (seen_app from l [c']) Hth) as Hth'.
  assert (forall (ts : list (thread Response)) (j : nat) (th' : thread Response), ts !! i = Some th ->
    (j = i -> honest_thread from (seen from (l ++ [c'])) th') ->
    exists th2, <[j := th']> ts !! i = Some th2 /\ honest_thread from (seen from (l ++ [c'])) th2) as Hins.
  { intros ts j th' Hts' Hj. destruct (decide (j = i)) as [->|Hne].
    - exists th'. split; [apply list_lookup_insert_eq; by eapply lookup_lt_Some|auto].
    - exists th. by rewrite list_lookup_insert_ne. }
  destruct Hf as [w w' ts He|w ts p|w ts B e k w' b j Hj He Ha|w ts B op k j Hj|
    w ts B C began m g k j t r s' Hj Ht Hm|w ts B began r k j Hj]; cbn [fst snd] in *.
  - by exists th.
  - exists th. split; [by apply lookup_app_l_Some|done].
  - apply Hins; [done|]. intros ->. rewrite Hi in Hj. simplify_eq. apply Hth'. destruct e; by cbn.
  - apply Hins; [done|]. intros ->. rewrite Hi in Hj. simplify_eq. split; [done|]. by apply backed_call.
  - apply Hins; [done|]. intros ->. rewrite Hi in Hj. simplify_eq. destruct Hth as [Hb Hq], Hth' as [_ Hq'].
    split; [lia|]. specialize (Hq' (at_time t (w_st w)) Hok). unfold wp in Hq'. rewrite Hm in Hq'. apply Hq'; [done|].
    intros x [Hx Hr]. split; [|destruct x; [cbn in Hr; rewrite Hr; apply sec_mono; lia|done]].
    eexists. split; [apply elem_of_app; right; by left|exact Hx].
  - apply Hins; [done|]. intros ->. rewrite Hi in Hj. simplify_eq. apply Hth'.
Qed.

Lemma path_honest (c c' : config) (l : list config) (i : nat) (th : thread Response) :
  path fine c l c' -> sound c -> c.2 !! i = Some th -> honest_thread (w_clock c.1) (seen (w_clock c.1) [c]) th ->
  exists th', c'.2 !! i = Some th' /\ honest_thread (w_clock c.1) (seen (w_clock c.1) l) th'.
Proof using HP.
  intros Hp Hs Hi Hth. induction Hp as [|l d d' Hp IH Hf]; [by exists th|].
  destruct IH as (th1 & Hi1 & Hth1). destruct (path_sound c d l) as (Hd & _ & Ht); [|done|].
  { eapply path_weaken; [|done]. apply life_turn. }
  by eapply fine_honest.
Qed.
End backed.

(** ** What can become of a stored message *)

Definition retired (rid : string) (db : DB) : Prop :=
  exists q, q ∈ db.(queues) /\ q_recipient_id q = rid /\ q_retired q = true.

(** [m] is still there, or has expired by second [now], or its queue is retired. *)
Definition accounted (m : MessageRow) (now : Z) (db : DB) : Prop :=
  m ∈ db.(messages) \/ m_expires m <= now \/ retired (m_queue_id m) db.

(** A request about to acknowledge [m]. *)
Definition acknowledges (m : MessageRow) (th : thread Response) : Prop :=
  exists ids k, th = At (Act (ACall (OpDeleteMessages (m_queue_id m) ids)) k) /\ m_id m ∈ ids.

Lemma accounted_later (m : MessageRow) (now now' : Z) (db db' : DB) :
  (m ∈ db.(messages) -> accounted m now' db') -> now <= now' -> evolves db db' ->
  accounted m now db -> accounted m now' db'.
Proof.
  intros Hm Hn He [Hin|[Hx|(q & Hq & Hid & Hr)]]; [by apply Hm|right; left; lia|]. right. right.
  destruct (ev_queues _ _ He q Hq) as (q' & Hq' & Hid' & _ & _ & _ & _ & Hr').
  exists q'. split_and!; [done|congruence|auto].
Qed.

Section fate.
Context `{Crypto} (m : MessageRow).

Lemma retired_update (db : DB) (P : Queue -> Prop) `{!forall q, Decision (P q)} (q : Queue) (db' : DB) :
  db'.(queues) = sql_update P q_retire db.(queues) -> q ∈ db.(queues) -> q_recipient_id q = m_queue_id m -> P q ->
  retired (m_queue_id m) db'.
Proof using.
  intros E Hq Hid HP. exists (q_retire q). split; [|done]. rewrite E. apply elem_of_sql_update. exists q. by rewrite decide_True.
Qed.

(** Only an acknowledgement takes a message that is neither expired nor on a retired queue. *)
Lemma event_accounts (now : Z) (db db' : DB) (ev : event) :
  db_ok db -> db_step now db ev db' -> m ∈ db.(messages) ->
  (forall ids, ev = EvAck (m_queue_id m) ids -> m_id m ∉ ids) -> accounted m now db'.
Proof using.
  intros Hok Hs Hm Hack. destruct (decide (m ∈ db'.(messages))) as [Hin|Hout]; [by left|].
  pose proof (db_step_keeps_message _ _ _ _ m (ok_integrity _ Hok) Hs Hm Hout) as Hev.
  destruct (message_queue db (ok_integrity _ Hok) m Hm) as (q & Hq & Hid & _).
  destruct Hs; try done.
  - right. right. unfold queue_owner in Hev. apply fmap_Some in Hev as (q' & Hq' & Ho).
    apply sql_first_Some in Hq' as [Hq' Hid']. by eapply (retired_update _ _ q').
  - right. right. subst. by eapply (retired_update _ _ q).
  - right. by left.
  - destruct Hev as [-> Hids]. by destruct (Hack ids eq_refl).
Qed.

(** From here on a call, whatever the others do in between, leaves [m] accounted for. *)
Fixpoint gentle {B} (q : piece B) : Prop :=
  match q with
  | Done _ => True
  | Piece f k => forall s, wp f s (fun r s' =>
      (db_ok (st_db s) -> m ∈ (st_db s).(messages) -> accounted m (sec (st_clock s)) (st_db s')) /\ gentle (k r))
  end.

Lemma gentle_op {B} (op : store_op B) :
  (forall ids, op_event op (EvAck (m_queue_id m) ids) -> m_id m ∉ ids) -> gentle (Piece (run_op op) Done).
Proof using.
  intros Hack s. split; [|done]. intros Hok Hm.
  destruct (run_op_outcome op s (ok_integrity _ Hok)) as (_ & _ & Ho).
  destruct Ho as [(_ & _ & ->)|[[->|(ev & Hev & Hop)] _]]; [by left|by left|].
  eapply event_accounts; [done..|]. intros ids ->. by apply Hack.
Qed.

(** A statement that does not write the messages. *)
Lemma gentle_quiet {B C} (f : M C) (k : error + C -> piece B) :
  (forall s, wp f s (fun _ s' => messages (st_db s') = messages (st_db s))) -> (forall r, gentle (k r)) ->
  gentle (Piece f k).
Proof using.
  intros Hf Hk s. eapply wp_mono; [apply Hf|]. intros r s' E. split; [|apply Hk]. intros _ Hm. left. by rewrite E.
Qed.

Lemma gentle_pieces {B} (op : store_op B) :
  (forall ids, op_event op (EvAck (m_queue_id m) ids) -> m_id m ∉ ids) -> gentle (pieces op).
Proof using.
  intros Hack. destruct op; try by apply gentle_op.
  - apply gentle_quiet; [intros s; eapply wp_mono; [apply invitation_mode_spec|]; by intros r s' (-> & _)|].
    intros [e|[[token id] g]]; [done|]. apply gentle_quiet; [|done]. intros s. unfold invitation_stored.
    do 4 wp_step; [done|]. cbn. unfold insert_invitation. case_decide; [|done]. by destruct (sql_insert _ _ _).
  - apply gentle_quiet; [intros s; eapply wp_mono; [apply promotion_mode_spec|]; by intros r s' (-> & _)|].
    intros [e|mode]; [done|]. unfold and_then. case_decide; [done|]. apply gentle_quiet; [|done]. intros s.
    unfold promotion_stored. wp_step. wp_step; done.
  - intros s. unfold drain_expired. wp_step. wp_step. wp_step; [by split; [left|]|]. split.
    + intros _ Hm. cbn. destruct (decide (m_expires m <= sec (st_clock s))); [by right; left|].
      left. apply elem_of_sql_delete. split; [tauto|done].
    + intros s2. unfold drain_read. wp_step; (split; [by left|done]).
Qed.

Definition gentle_thread (th : thread Response) : Prop := match th with At _ => True | In _ q _ => gentle q end.

(** Along a run that starts without requests in progress, whoever acknowledges [m] is seen
    to do so. *)
Definition acknowledged (l : list config) : Prop := exists d th, d ∈ l /\ th ∈ d.2 /\ acknowledges m th.

Lemma acknowledged_mono (l l' : list config) : l ⊆ l' -> acknowledged l -> acknowledged l'.
Proof using. intros Hl (d & th & Hd & ?). exists d, th. split; [by apply Hl|done]. Qed.

Lemma acknowledged_app (l l' : list config) : acknowledged l -> acknowledged (l ++ l').
Proof using. apply acknowledged_mono. set_solver. Qed.

Lemma life_gentle (c c' : config) :
  life c c' -> Forall gentle_thread c.2 -> acknowledged [c] \/ Forall gentle_thread c'.2.
Proof using.
  intros Hl Hg. destruct Hl as [c c' Hf|w w' ts _]; [|by right; constructor].
  destruct Hf as [w w' ts _|w ts p|w ts B e k w' b i Hi He Ha|w ts B op k i Hi|
    w ts B C began f j k i t r s' Hi Ht Hm|w ts B began r k i Hi]; cbn [fst snd] in *;
    try (right; by (done || apply Forall_insert)).
  - right. apply Forall_app. by split; [|constructor].
  - assert (acknowledges m (At (Act (ACall op) k)) \/
      forall ids, op_event op (EvAck (m_queue_id m) ids) -> m_id m ∉ ids) as [Ha|Ha].
    { destruct op; try (by right). destruct (decide (rid = m_queue_id m /\ m_id m ∈ ids)) as [[-> Hin]|Hno].
      - left. by exists ids, k.
      - right. intros ids' [<- ->] Hin. tauto. }
    + left. exists (w, ts), (At (Act (ACall op) k)). split_and!; [by left|by eapply list_elem_of_lookup_2|done].
    + right. apply Forall_insert; [done|]. by apply gentle_pieces.
  - right. apply Forall_insert; [done|].
    destruct (Forall_lookup_1 _ _ _ _ Hg Hi (at_time t (w_st w))) as [_ Hj]. by rewrite Hm in Hj.
Qed.

Lemma life_accounts (c c' : config) :
  life c c' -> sound c -> Forall gentle_thread c.2 -> m ∈ (db_of c).(messages) ->
  accounted m (sec (w_clock c'.1)) (db_of c').
Proof using.
  intros Hl [Hok Hts] Hg Hin. destruct Hl as [c c' Hf|w w' ts (_ & Hdb & _)];
    [|left; unfold db_of; cbn; by rewrite Hdb].
  destruct Hf as [w w' ts (_ & Hdb & _)|w ts p|w ts B e k w' b i Hi He Ha|w ts B op k i Hi|
    w ts B C began f j k i t r s' Hi Ht Hm|w ts B began r k i Hi]; unfold db_of in *; cbn [fst snd] in *; try by left.
  - left. by rewrite Hdb.
  - left. destruct (do_action_other e w He) as [Hdb _]. rewrite Ha in Hdb. cbn in Hdb. by rewrite Hdb.
  - destruct (Forall_lookup_1 _ _ _ _ Hg Hi (at_time t (w_st w))) as [Hs _]. rewrite Hm in Hs. specialize (Hs Hok Hin).
    eapply accounted_later; [by left| |reflexivity|exact Hs]. apply sec_mono, Ht.
Qed.

Lemma path_gentle (c c' : config) (l : list config) :
  path life c l c' -> c.2 = [] -> acknowledged l \/ Forall gentle_thread c'.2.
Proof using.
  intros Hp Hc. induction Hp as [|l d d' Hp [Ha|Hg] Hs]; [right; by rewrite Hc|left; by apply acknowledged_app|].
  destruct (life_gentle _ _ Hs Hg) as [(d2 & th & ->%list_elem_of_singleton & Hth)|Hg']; [left|by right].
  apply acknowledged_app. exists d, th. split; [by eapply path_last|done].
Qed.

(** What has been stored at some moment of a run is accounted for at the end of it. *)
Lemma path_accounts (c c' : config) (l : list config) (d : config) :
  path life c l c' -> sound c -> c.2 = [] -> d ∈ l -> m ∈ (db_of d).(messages) ->
  acknowledged l \/ accounted m (sec (w_clock c'.1)) (db_of c').
Proof using.
  intros Hp Hs Hc Hd Hm. induction Hp as [|l e e' Hp IH He].
  - apply list_elem_of_singleton in Hd as ->. right. by left.
  - apply elem_of_app in Hd as [Hd| ->%list_elem_of_singleton]; [|right; by left].
    destruct (IH Hd) as [Ha|Hacc]; [left; by apply acknowledged_app|].
    destruct (path_gentle _ _ _ Hp Hc) as [Ha|Hg]; [left; by apply acknowledged_app|]. right.
    destruct (path_sound _ _ _ Hp Hs) as (Hse & _). destruct (life_step _ _ He Hse) as (_ & Hev & Ht & _).
    eapply accounted_later; [by apply (life_accounts _ _ He)|apply sec_mono, Ht|done|done].
Qed.
End fate.

(** ** An answered send *)

Section survives.
Context `{Crypto}.

(** Request [r] arrives. *)
Definition arrive (version : string) (r : Request) (c : config) : config :=
  (c.1, c.2 ++ [At (ServeHTTP version r)]).

(** C8: a send that was answered survives crashes. Let a server run, crash and restart as
    often as it does; let a request arrive and be answered with a message identifier,
    however requests interleave with it statement by statement. Then the request was a send,
    and a message with that identifier, the decoded payload of the request and the lifetime
    it asks for was stored while it was served, on the queue of the sender identifier in its
    path. And however the server runs, crashes and restarts after that, the message is still
    in the database, unless it has expired, its queue has been retired, or some request was
    seen to acknowledge it on its queue. *)
Theorem answered_send_survives_crashes (version id : string) (w : World) (r : Request) (resp : Response)
    (c1 c2 c3 : config) (l1 l2 l3 : list config) :
  db_ok (w_db w) -> path life (w, []) l1 c1 ->
  path fine (arrive version r c1) l2 c2 -> c2.2 !! length c1.2 = Some (At (Ret resp)) ->
  resp_body resp = BMessageID id -> path life c2 l3 c3 ->
  exists sid req m q,
    r_segments r = ["v1"; "send"; sid]%string /\
    decode_send (limited_body r) = DOk req /\ base64_std_decode (snd_payload req) = Some (m_payload m) /\
    (exists t, m_received_at m = sec t /\ m_expires m = sec (t + clampMessageTTL (snd_ttl req))) /\
    sec (w_clock c1.1) <= m_received_at m /\
    (exists d, d ∈ l2 /\ m ∈ (db_of d).(messages)) /\ m_id m = id /\
    q ∈ (db_of c2).(queues) /\ q_sender_id q = sid /\ q_recipient_id q = m_queue_id m /\
    (acknowledged m (l1 ++ l2 ++ l3) \/ accounted m (sec (w_clock c3.1)) (db_of c3)).
Proof.
  intros Hok H1 H2 Hi Hid H3.
  assert (sound (w, [])) as Hs by (split; [exact Hok|constructor]).
  destruct (path_sound _ _ _ H1 Hs) as (Hs1 & _).
  assert (life c1 (arrive version r c1)) as Ha by (destruct c1; apply life_turn, fine_arrive).
  destruct (life_step _ _ Ha Hs1) as (Hsa & _).
  assert ((arrive version r c1).2 !! length c1.2 = Some (At (ServeHTTP version r))) as Hia
    by (apply list_lookup_middle; done).
  destruct (path_honest (promised r) (promised_mono r) _ _ _ _ _ H2 Hsa Hia (honest_serve version r _))
    as (th & Hith & Hth). rewrite Hi in Hith. simplify_eq.
  destruct (Hth id Hid) as (sid & req & m & q & Hr & Hd & Hb & Ht & [(d & Hdl & Hm) Hrec] & Hmid & [(d' & Hdl' & Hq) _] & Hsid & Hrid).
  assert (path life (arrive version r c1) l2 c2) as H2' by (eapply path_weaken; [|exact H2]; apply life_turn).
  destruct (ev_queues _ _ (path_evolves _ _ _ _ H2' Hsa Hdl') q Hq) as (q' & Hq' & Erid & Esid & _).
  pose proof (path_app _ _ _ _ _ _ (path_app _ _ _ _ _ _ (path_step _ _ _ _ _ H1 Ha) H2') H3) as Hall.
  exists sid, req, m, q'. split_and!; try done; [by exists d|congruence..|].
  assert (d ∈ (l1 ++ [arrive version r c1]) ++ tail l2) as Hin.
  { rewrite (path_head _ _ _ _ H2') in Hdl. clear -Hdl. set_solver. }
  destruct (path_accounts m _ _ _ d Hall Hs eq_refl) as [Hack|Hacc];
    [clear -Hin; set_solver|done|left|by right].
  eapply acknowledged_mono; [|exact Hack]. rewrite (path_head _ _ _ _ H2'), (path_head _ _ _ _ H3). cbn. clear. set_solver.
Qed.
End survives.

(** ** A send, an acknowledged crash, and a replay *)

Section examples.
Import Web.

Lemma rtc_path (R : relation config) (c c' : config) : rtc R c c' -> exists l, path R c l c'.
Proof.
  revert c'. apply rtc_ind_r; [by exists [c]; constructor|].
  intros d e _ He [l Hl]. exists (l ++ [e]). by econstructor.
Qed.

Definition turns (ts : list fine_turn) (c : config) : config := foldl take_fine c ts.

(** The process dies and is started again a second later. *)
Definition crash (rnd : bytes) (c : config) : config :=
  (mkWorld (mkSt (db_of c) (w_clock c.1 + Second) rnd []) ∅ (w_pings c.1), []).

Lemma crash_life (rnd : bytes) (c : config) : life c (crash rnd c).
Proof.
  destruct c as [w ts]. apply life_crash. split_and!; try done. unfold w_clock. cbn.
  unfold Second. lia.
Qed.

(** A send is served; the process dies, and is started again. *)
Definition sent : config := turns (replicate 30 (Next 0 0)) (arrive "v" send_hello (w0, [])).

Lemma answered_send_survives_crashes_witness :
  exists sid req m q l1 l2 l3,
    r_segments send_hello = ["v1"; "send"; sid]%string /\
    decode_send (limited_body send_hello) = DOk req /\ base64_std_decode (snd_payload req) = Some (m_payload m) /\
    (exists t, m_received_at m = sec t /\ m_expires m = sec (t + clampMessageTTL (snd_ttl req))) /\
    sec (w_clock w0) <= m_received_at m /\
    (exists d, d ∈ l2 /\ m ∈ (db_of d).(messages)) /\ m_id m = fresh_id "msg_" (rnd x08) /\
    q ∈ (db_of sent).(queues) /\ q_sender_id q = sid /\ q_recipient_id q = m_queue_id m /\
    (acknowledged m (l1 ++ l2 ++ l3) \/
     accounted m (sec (w_clock (crash (rnd x20) sent).1)) (db_of (crash (rnd x20) sent))).
Proof.
  destruct (rtc_path fine _ _ (fine_schedule (replicate 30 (Next 0 0)) (arrive "v" send_hello (w0, [])))) as [l2 H2].
  destruct (answered_send_survives_crashes "v" (fresh_id "msg_" (rnd x08)) w0 send_hello
    (writeJSON StatusAccepted (BMessageID (fresh_id "msg_" (rnd x08)))) (w0, []) sent (crash (rnd x20) sent)
    [(w0, [])] l2 ([sent] ++ [crash (rnd x20) sent]) Demo.db0_ok (path_start _ _) H2) as (sid & req & m & q & Hp).
  - by vm_compute.
  - done.
  - eapply path_step; [apply path_start|apply crash_life].
  - by exists sid, req, m, q, [(w0, [])], l2, ([sent] ++ [crash (rnd x20) sent]).
Defined.

(** The replay cache does not survive a restart. One signed request is accepted and
    its replay refused; the process is started again a second later, and the same request,
    whose timestamp is still within the clock skew, is accepted again and creates a second
    queue. *)
Theorem restart_forgets_nonces :
  let c1 := turns (replicate 30 (Next 0 0) ++ replicate 30 (Next 1 0))
    (arrive "v" create_queue (arrive "v" create_queue (w0, []))) in
  let c2 := crash (rnd x20) c1 in
  let c3 := turns (replicate 30 (Next 0 0)) (arrive "v" create_queue c2) in
  c1.2 = [At (Ret (writeJSON StatusCreated (BQueue (fresh_id "rcp_" (rnd x08)) (fresh_id "snd_" (rnd x08)))));
          At (Ret unauthorized)] /\
  life c1 c2 /\
  c3.2 = [At (Ret (writeJSON StatusCreated (BQueue (fresh_id "rcp_" (rnd x20)) (fresh_id "snd_" (rnd x20)))))] /\
  length (db_of c3).(queues) = S (S (length (w_db w0).(queues))).
Proof. split_and!; [by vm_compute|apply crash_life|by vm_compute|by vm_compute]. Qed.
End examples.
