(* ===== verification/FileServer.v ===== *)
(** * The server on its database file

    The handlers run with every store call carried out as SQL statements on a file. What
    they answer, remember and send is what they do on records, however requests
    interleave and however often the process is started again on its file; so what the other
    files show of the server is true of the server on a file. *)

From S2P Require Import Prelude Encoding Clock Decimal Sql Schema StoreM Crypto Sigauth Accounts Devices Queues Blobs.
From S2P Require Import Steps Invariants Evolution Refine Store Demo Sqlite SqlStore Rows Represent.
From S2P Require Import Schema Migrate Simulation Catalog Persist Reopen World Json Http Decoder Auth Push Management Transport.
From S2P Require Import Router DemoServer Planes Grain Recovery.

Local Open Scope Z_scope.

(** The server's state, with the file in the place of the records. *)
Record FileWorld := mkFileWorld {
  fw_st : FileSt;
  fw_nonces : gmap string Z;
  fw_pings : list (string * Priority);
}.

Definition fw_clock (fw : FileWorld) : Z := fs_clock (fw_st fw).
Definition fw_file (fw : FileWorld) : file := fs_file (fw_st fw).

(** The file holds the database of [w], and the rest is the same. *)
Record holds_world (fw : FileWorld) (w : World) : Prop := mkHoldsWorld {
  hw_st : agrees (fw_st fw) (w_st w);
  hw_nonces : fw_nonces fw = w_nonces w;
  hw_pings : fw_pings fw = w_pings w;
}.

Section server.
Context `{Crypto}.

Definition do_action_file {A} (e : action A) (fw : FileWorld) : A * FileWorld :=
  match e with
  | ACall op => let '(r, s) := run_sql op (fw_st fw) in (r, mkFileWorld s (fw_nonces fw) (fw_pings fw))
  | AClock => (fw_clock fw, fw)
  | AReadBody => (tt, fw)
  | ANonce key expiry =>
      let '(ok, seen) := checkAndAdd key expiry (fw_clock fw) (fw_nonces fw) in
      (ok, mkFileWorld (fw_st fw) seen (fw_pings fw))
  | APing endpoint priority => (tt, mkFileWorld (fw_st fw) (fw_nonces fw) (fw_pings fw ++ [(endpoint, priority)]))
  end.

Fixpoint run_file {A} (p : proc A) (fw : FileWorld) : A * FileWorld :=
  match p with
  | Ret a => (a, fw)
  | Act e k => let '(b, fw') := do_action_file e fw in run_file (k b) fw'
  end.

(** ** Durations handlers pass to the store *)

Definition typed_action {A} (e : action A) : Prop :=
  match e with ACall op => typed_op op | _ => True end.

(** Every duration a program passes to the store is an [int64]. *)
Fixpoint typed {A} (p : proc A) : Prop :=
  match p with Ret _ => True | Act e k => typed_action e /\ forall b, typed (k b) end.

Lemma typed_bind {A B} (p : proc A) (k : A -> proc B) : typed p -> (forall a, typed (k a)) -> typed (p ≫= k).
Proof. intros Hp Hk. induction p as [a|C e j IH]; [apply Hk|]. destruct Hp as [He Hj]. split; [done|]. intros b. by apply IH. Qed.

Lemma typed_call {A} (op : store_op A) : typed_op op -> typed (call_store op).
Proof. by split. Qed.

Lemma typed_ret {A} (a : A) : typed (mret a).
Proof. done. Qed.

Lemma clampMessageTTL_int64 (seconds : Z) : is_int64 (clampMessageTTL seconds).
Proof. unfold clampMessageTTL. do 2 (case_decide; [by vm_compute|]). apply wrap64_range. Qed.

(** Walk through a handler. *)
Ltac typed_go :=
  repeat first
    [ apply typed_ret | apply typed_call; solve [exact I | apply clampMessageTTL_int64 | by vm_compute]
    | apply typed_bind; [|intros ?] | case_match | by split ].

Lemma typed_ping_devices (except : string) (devs : list Device) : typed (ping_devices except devs).
Proof. induction devs as [|d devs IH]; cbn [ping_devices]; [done|]. case_decide; [done|]. by apply typed_bind. Qed.

Lemma typed_wakeAccountDevices (acc except : string) : typed (wakeAccountDevices acc except).
Proof. unfold wakeAccountDevices. typed_go. apply typed_ping_devices. Qed.

Lemma typed_wakeQueueOwner (owner : string) (priority : Priority) : typed (wakeQueueOwner owner priority).
Proof. unfold wakeQueueOwner. typed_go. Qed.

Lemma typed_verify (r : Request) (env : sigEnvelope) (principal : string) (key : bytes) :
  typed (verifyAndRecord r env principal key).
Proof. unfold verifyAndRecord. typed_go. Qed.

Lemma typed_extract (r : Request) : typed (extractSignature r).
Proof. unfold extractSignature. typed_go. Qed.

Lemma typed_signed (next : Device -> bytes -> proc Response) (r : Request) :
  (forall dev body, typed (next dev body)) -> typed (requireSignature next r).
Proof.
  intros Hn. unfold requireSignature, authenticate. typed_go; try apply typed_extract; try apply typed_verify. apply Hn.
Qed.

Lemma typed_recipient (next : Queue -> bytes -> proc Response) (rid : string) (r : Request) :
  (forall q body, typed (next q body)) -> typed (requireRecipient next rid r).
Proof.
  intros Hn. unfold requireRecipient, authorizeRecipient. typed_go; try apply typed_extract; try apply typed_verify. apply Hn.
Qed.

Lemma typed_storeMessage (q : Queue) (body : bytes) : typed (storeMessage q body).
Proof. unfold storeMessage. typed_go; apply typed_wakeQueueOwner. Qed.

Lemma typed_send (sid : string) (r : Request) : typed (handleSend sid r).
Proof.
  unfold handleSend. typed_go; try apply typed_extract; try apply typed_verify; apply typed_storeMessage.
Qed.

Lemma typed_serve (version : string) (r : Request) : typed (ServeHTTP version r).
Proof.
  destruct (serve_cases version r) as [[resp ->]|(rt & vs & Hrt & _ & _ & ->)]; [done|].
  unfold routes in Hrt. repeat (apply elem_of_cons in Hrt as [->|Hrt]); cbn [rt_handler]; unfold one;
    try (apply typed_signed; intros dev body); try (apply typed_recipient; intros q body);
    try exact I; try apply typed_send; try (by apply not_elem_of_nil in Hrt);
    unfold handleHealth, handleRegister, handleListDevices, handleRevoke, handleSetRole, handleGetBundle, handleSetBundle,
      handleCreateInvitation, handleListInvitations, handleRevokeInvitation, handleUpdatePush, handleGetQuota,
      handleAppendStatement, handleListStatements, handleCreateQueue, recv_queue, ack_queue, retire_queue, quota_queue;
    typed_go; try apply typed_ping_devices.
Qed.

(** ** The two servers side by side *)

Lemma do_action_sim {A} (e : action A) (fw : FileWorld) (w : World) :
  holds_world fw w -> typed_action e ->
  (do_action_file e fw).1 = (do_action e w).1 /\ holds_world (do_action_file e fw).2 (do_action e w).2.
Proof.
  intros [Hs Hn Hp] He. assert (fw_clock fw = w_clock w) as Hc by apply Hs.
  destruct e as [B op| | |key expiry|endpoint priority]; cbn.
  - destruct (sim_op op He _ _ Hs) as [Hr Ha]. apply results_rel_eq in Hr.
    destruct (run_sql op _) as [r' s'], (run_op op _) as [r s]. cbn in *. by split.
  - by split.
  - by split.
  - rewrite Hn, Hc. destruct (checkAndAdd _ _ _ _). by split.
  - by rewrite Hp.
Qed.

Lemma run_file_sim {A} (p : proc A) (fw : FileWorld) (w : World) :
  holds_world fw w -> typed p ->
  (run_file p fw).1 = (run p w).1 /\ holds_world (run_file p fw).2 (run p w).2.
Proof.
  revert fw w. induction p as [a|B e k IH]; intros fw w Hw Hp; [done|]. destruct Hp as [He Hk]. cbn.
  destruct (do_action_sim e fw w Hw He) as [Hr Hw'].
  destruct (do_action_file e fw) as [b' fw'], (do_action e w) as [b w']. cbn in *. subst b'. by apply IH.
Qed.

(** Requests in progress on the file: time passes, up to the year 9575, with whatever
    random bytes and driver failures to come; a request takes its next effect; a request
    arrives; the process stops and is started again on the file, perhaps after attempts in
    which the driver fails a statement of the migration. *)
Inductive file_step (version : string) :
    FileWorld * list (proc Response) -> FileWorld * list (proc Response) -> Prop :=
  | file_time fw ps clock rnd faults :
      fw_clock fw <= clock -> sane_clock clock ->
      file_step version (fw, ps)
        (mkFileWorld (mkFileSt (fw_file fw) clock rnd faults) (fw_nonces fw) (fw_pings fw), ps)
  | file_effect fw ps B (e : action B) (k : B -> proc Response) fw' b i :
      ps !! i = Some (Act e k) -> do_action_file e fw = (b, fw') ->
      file_step version (fw, ps) (fw', <[i := k b]> ps)
  | file_arrive fw ps r : file_step version (fw, ps) (fw, ps ++ [ServeHTTP version r])
  | file_restart fw ps f clock rnd faults :
      reopens (fw_file fw) f -> fw_clock fw <= clock -> sane_clock clock ->
      file_step version (fw, ps) (mkFileWorld (mkFileSt f clock rnd faults) ∅ (fw_pings fw), []).

Lemma file_step_sim (version : string) (c c' : FileWorld * list (proc Response)) (w : World) :
  file_step version c c' -> holds_world c.1 w -> Forall typed c.2 ->
  exists w', coarse_life (w, c.2) (w', c'.2) /\ holds_world c'.1 w' /\ Forall typed c'.2.
Proof.
  intros Hs Hw Hp. destruct Hs as [fw ps clock rnd faults Hc Hsane|fw ps B e k fw' b i Hi He|fw ps r|
    fw ps f clock rnd faults Hf Hc Hsane]; cbn [fst snd] in *.
  - destruct Hw as [Ha Hn Hpi]. exists (mkWorld (mkSt (w_db w) clock rnd faults) (w_nonces w) (w_pings w)).
    split; [|split; [|done]].
    + apply coarse_turn, step_env. unfold env_step. split_and!; [|done..]. cbn.
      replace (w_clock w) with (fw_clock fw) by apply Ha. done.
    + split; [|done|done]. split; try done. apply Ha.
  - assert (typed (Act e k)) as [Hte Htk] by (by eapply Forall_lookup_1).
    destruct (do_action_sim e fw w Hw Hte) as [Hr Hw']. rewrite He in Hr, Hw'. cbn in Hr, Hw'.
    destruct (do_action e w) as [b' w'] eqn:Ew. cbn in *. subst b'. exists w'.
    split; [by eapply coarse_turn, step_request|]. split; [done|]. by apply Forall_insert.
  - exists w. split; [apply coarse_turn, step_arrive|]. split; [done|]. apply Forall_app. split; [done|].
    constructor; [apply typed_serve|done].
  - destruct Hw as [Ha Hn Hpi]. exists (mkWorld (mkSt (w_db w) clock rnd faults) ∅ (w_pings w)). split; [|split; [|constructor]].
    + apply coarse_crash. unfold restarted. split_and!; [|done..]. cbn.
      replace (w_clock w) with (fw_clock fw) by apply Ha. done.
    + split; [|done|done]. split; try done. eapply reopens_represents; [exact Hf|]. apply Ha.
Qed.

Lemma file_steps_sim (version : string) (c c' : FileWorld * list (proc Response)) (w : World) :
  rtc (file_step version) c c' -> holds_world c.1 w -> Forall typed c.2 ->
  exists w', rtc coarse_life (w, c.2) (w', c'.2) /\ holds_world c'.1 w'.
Proof.
  intros Hs. revert w. induction Hs as [c|c c1 c2 Hs _ IH]; intros w Hw Hp; [by exists w|].
  destruct (file_step_sim version c c1 w Hs Hw Hp) as (w1 & Hw1 & Hh & Hp1).
  destruct (IH w1 Hh Hp1) as (w2 & Hw2 & ?). exists w2. split; [by eapply rtc_l|done].
Qed.

(** C6: the server on its database file does what the server on records does. Whatever
    requests are in progress or arrive, however they interleave, with whatever random bytes and driver
    failures, and however often the process stops and is started again on its file, until
    the year 9575: the requests are at the same points - with the same responses where they
    have finished - and the replay cache, the pings and the contents of the file are those
    of a run on records with the same restarts, so the file holds a well-formed database and
    has only moved forward. *)
Theorem file_server_refines_records (version : string) (rs : list Request) (fw fw' : FileWorld) (w : World)
    (ps' : list (proc Response)) :
  rtc (file_step version) (fw, ServeHTTP version <$> rs) (fw', ps') -> holds_world fw w -> db_ok (w_db w) ->
  exists w', rtc coarse_life (w, ServeHTTP version <$> rs) (w', ps') /\ holds_world fw' w' /\
    represents (fw_file fw') (w_db w') /\ db_ok (w_db w') /\ evolves (w_db w) (w_db w').
Proof.
  intros Hs Hw Hok. destruct (file_steps_sim version _ _ w Hs Hw) as (w' & Hr & Hw').
  { apply Forall_fmap, Forall_true. intros r. apply typed_serve. }
  exists w'. destruct (coarse_lives_ok _ _ Hr Hok) as (Hok' & He & _). split_and!; try done.
  apply (hw_st fw' w' Hw').
Qed.

Lemma run_file_steps (version : string) (p : proc Response) (fw : FileWorld) (ps : list (proc Response)) (i : nat) :
  ps !! i = Some p ->
  rtc (file_step version) (fw, ps) ((run_file p fw).2, <[i := Ret (run_file p fw).1]> ps).
Proof.
  revert fw ps. induction p as [a|B e k IH]; intros fw ps Hi; cbn; [by rewrite list_insert_id|].
  destruct (do_action_file e fw) as [b fw'] eqn:E. eapply rtc_l; [by eapply file_effect|].
  rewrite <- (list_insert_insert_eq ps i (Ret (run_file (k b) fw').1) (k b)).
  apply IH, list_lookup_insert_eq. by eapply lookup_lt_Some.
Qed.

End server.

(** ** A send, on the file *)

Section example.
Import Web.

Definition file_world : FileWorld :=
  mkFileWorld (mkFileSt (write_db db0) (st_clock s0) (st_rnd s0) (st_faults s0)) ∅ [].

(** The process is started again on the file a second later. *)
Definition restart_file (fw : FileWorld) : FileWorld :=
  mkFileWorld (mkFileSt (mkFile (migrate (f_cat (fw_file fw), [])).2.1 (f_seq (fw_file fw)))
    (fw_clock fw + Second) (rnd x20) []) ∅ (fw_pings fw).

Lemma file_server_refines_records_witness :
  let out := run_file (ServeHTTP "v" send_hello) file_world in
  let fw := restart_file out.2 in
  status out.1 = StatusAccepted /\ length (rows (fw_file fw) "messages") = 2%nat /\
  exists w', rtc coarse_life (w0, [ServeHTTP "v" send_hello]) (w', []) /\ holds_world fw w' /\
    represents (fw_file fw) (w_db w') /\ db_ok (w_db w') /\ evolves (w_db w0) (w_db w').
Proof.
  intros out fw. split; [by vm_compute|]. split; [by vm_compute|].
  apply (file_server_refines_records "v" [send_hello] file_world fw w0).
  - eapply rtc_r.
    + apply (run_file_steps "v" (ServeHTTP "v" send_hello) file_world [ServeHTTP "v" send_hello] 0). done.
    + apply file_restart; [|by vm_compute|by vm_compute]. eapply (reopens_at_once _ []).
      apply injective_projections; [by vm_compute|apply surjective_pairing].
  - split; [|done|done]. split; [apply demo_represents|done|done|done|by vm_compute].
  - apply db0_ok.
Defined.
End example.
