(* ===== verification/QueueKeys.v ===== *)
(** * What a queue's keys protect

    The transport plane: only the holder of the bound sender key can store a message
    on a queue, only the holder of the recipient key can read, acknowledge, retire or
    cap it. *)

From S2P Require Import Prelude Encoding Clock Sql Schema StoreM Crypto Sigauth Accounts Devices.
From S2P Require Import Queues Blobs Steps Invariants Evolution Refine Store Demo World Http Auth.
From S2P Require Import Scanner Decoder.
From S2P Require Import Push Management Transport Router DemoServer Delivery Gate Planes.

Local Open Scope Z_scope.

(** A lookup returns a row of the table, and changes nothing. *)
Lemma query_row_result {A} (e : error) (f : DB -> option A) (s : St) :
  let out := on_no_rows e (query_row f) s in
  st_db out.2 = st_db s /\ st_clock out.2 = st_clock s /\
  forall a, out.1 = inr a -> f (st_db s) = Some a.
Proof.
  simpl. destruct (reads_query_row e f s) as (Hc & _ & Ho).
  split; [by destruct Ho as [(_ & _ & ->)| ->]|]. split; [done|]. intros a.
  unfold on_no_rows, query_row, db_call.
  destruct (st_faults s) as [|[] fs]; simpl; try done; destruct (f (st_db s)); simpl; congruence.
Qed.

Section keys.
Context `{Crypto}.

(** The request carries [key]'s signature on itself, made within the clock skew, with
    a nonce [principal] has not used in its window. *)
Definition signed_with (key : bytes) (principal : string) (r : Request) (w : World) : Prop :=
  exists env ts, envelope_at (w_clock w) r env /\ parse_rfc3339 (env_timestamp env) = Some ts /\
    ed25519_verify key (SigningString (r_method r) (r_path r) (env_timestamp env) (env_nonce env)
                          (limited_body r)) (env_signature env) = true /\
    (checkAndAdd (nonce_key principal (env_nonce env)) (ts + defaultClockSkew) (w_clock w)
       (w_nonces w)).1 = true.

Lemma run_verifyAndRecord (r : Request) (env : sigEnvelope) (principal : string) (key : bytes)
    (w w0 : World) :
  envelope_at (w_clock w0) r env -> w_clock w = w_clock w0 -> w_nonces w = w_nonces w0 ->
  let out := run (verifyAndRecord r env principal key) w in
  w_st out.2 = w_st w /\ w_pings out.2 = w_pings w /\
  (out.1 = true -> signed_with key principal r w0).
Proof.
  intros He Hc Hn. pose proof He as (ts & Hts & _ & _ & Ets & _ & _ & Hb & _). simpl.
  unfold verifyAndRecord. destruct (ed25519_verify _ _ _) eqn:Ev; simpl; [|done].
  unfold run. simpl. rewrite Ets, Hts, Hc, Hn. simpl.
  destruct (checkAndAdd _ _ _ _) as [ok seen] eqn:Ec. simpl. split_and!; [done|done|]. intros ->.
  exists env, ts. split_and!; [done|by rewrite Ets|by rewrite <- Hb|by rewrite Ec].
Qed.

(** C16: a recipient route runs only for the holder of the queue's recipient key: any
    other request gets 401, 404 or 500 and changes nothing; the handler runs on a live
    queue of that identifier whose recipient key verifies the signature over exactly
    this request, fresh and within the clock skew, with the database as it was. *)
Theorem recipient_gate (next : Queue -> bytes -> proc Response) (rid : string) (r : Request) (w : World) :
  let out := run (requireRecipient next rid r) w in
  (status out.1 ∈ [StatusUnauthorized; StatusNotFound; StatusInternalServerError] /\
     w_db out.2 = w_db w /\ w_pings out.2 = w_pings w) \/
  exists q w1, q ∈ (w_db w).(queues) /\ q_recipient_id q = rid /\ q_retired q = false /\
    signed_with (q_recipient_key q) rid r w /\
    w_db w1 = w_db w /\ w_clock w1 = w_clock w /\ w_pings w1 = w_pings w /\
    out = run (next q (limited_body r)) w1.
Proof.
  unfold requireRecipient, authorizeRecipient. cbn zeta. run_step. run_step.
  pose proof (query_row_result ErrQueueNotFound
    (fun db => sql_first (fun q => q_recipient_id q = rid) db.(queues)) (w_st w)) as (Hdb & Hc & Hq).
  fold (GetQueueByRecipient rid) in Hdb, Hc, Hq.
  destruct (GetQueueByRecipient rid (w_st w)) as [[e|q] s1]; cbn in Hdb, Hc, Hq |- *.
  { left. destruct e; (split; [|done]); repeat (first [left | right]). }
  destruct (sql_first_Some _ _ _ (Hq q eq_refl)) as [Hin Hqid].
  destruct (q_retired q) eqn:Er; [left; split; [right; left|done]|].
  rewrite run_bind. set (w1 := mkWorld s1 (w_nonces w) (w_pings w)).
  destruct (run_extractSignature r w1) as [Hw He].
  destruct (run (extractSignature r) w1) as [[env|] w2]; cbn in Hw, He |- *; subst w2;
    [|left; split; [left|done]].
  specialize (He env eq_refl).
  assert (envelope_at (w_clock w) r env) as He' by (unfold w_clock in *; by rewrite <- Hc).
  destruct (run_verifyAndRecord r env rid (q_recipient_key q) w1 w He' Hc eq_refl) as (Hst & Hp & Hok).
  rewrite run_bind. destruct (run (verifyAndRecord _ _ _ _) w1) as [[] w3]; cbn in Hst, Hp, Hok |- *.
  - right. exists q, w3. destruct He' as (? & _ & _ & _ & _ & _ & _ & -> & _).
    unfold w_db, w_clock in *. rewrite Hst. split_and!; try done. by apply Hok.
  - left. split; [left|]. unfold w_db. rewrite Hst. done.
Qed.
(** A ping is not a change of the database. *)
Lemma wakeQueueOwner_idle (dev : string) (p : Priority) : idle (wakeQueueOwner dev p).
Proof.
  apply idle_bind; [by apply idle_read|]. intros [e|d]; [apply idle_ret|].
  case_decide; [apply idle_ret|]. done.
Qed.

(** What the last part of a send has done when it answers 202. *)
Lemma storeMessage_accepted (q : Queue) (body : bytes) (w : World) (id : string) :
  db_ok (w_db w) -> (run (storeMessage q body) w).1 = writeJSON StatusAccepted (BMessageID id) ->
  exists payload expires, 0 < Z.of_nat (length payload) <= maxPayloadBytes /\
    fits (q_recipient_id q) (Z.of_nat (length payload)) (sec (w_clock w)) (w_db w) /\
    w_db (run (storeMessage q body) w).2 =
      appended_db id (q_recipient_id q) payload (sec (w_clock w)) expires (w_db w).
Proof.
  intros Hok. unfold storeMessage.
  destruct (decode_send body) as [req| |]; [|done|done].
  destruct (base64_std_decode _) as [payload|]; [|done].
  case_decide as Hz; [done|]. case_decide as Hmax; [done|]. run_step.
  pose proof (append_succeeded (q_recipient_id q) payload (clampMessageTTL (snd_ttl req)) (w_st w))
    as Ha.
  destruct (AppendMessage _ _ _ (w_st w)) as [[e|m] s1]; [by destruct e|]. cbn [fst snd].
  run_step. pose proof (wakeQueueOwner_idle (q_owner_device q) (if snd_priority req then High else Normal)
    (mkWorld s1 (w_nonces w) (w_pings w))) as Hw.
  destruct (run (wakeQueueOwner _ _) _) as [u w2]. cbn in Hw |- *. intros [= <-].
  destruct (Ha m (ok_integrity _ Hok) eq_refl) as (Hm & _ & Hfit & Hdb). cbn in Hdb.
  exists payload, (sec (st_clock (w_st w) + clampMessageTTL (snd_ttl req))).
  split_and!; [lia|lia|done|]. rewrite Hw. exact Hdb.
Qed.

(** The key a send is checked with is the bound one, or one that is about to be bound. *)
Lemma resolveSenderKey_cases (r : Request) (q : Queue) (key : bytes) (binding : bool) :
  resolveSenderKey r q = Some (key, binding) ->
  (binding = false /\ q_sender_key q = Some key) \/ (binding = true /\ q_sender_key q = None).
Proof using.
  intros Ek. unfold resolveSenderKey in Ek. destruct (q_sender_key q) as [k|].
  - case_decide; simplify_eq. by left.
  - case_decide; [done|]. destruct (base64_std_decode _); simpl in Ek; [|done].
    case_decide; simplify_eq. by right.
Qed.

(** C15: only the holder of a queue's sender key can store a message on it: when a
    send is answered 202, the request carried a fresh signature over itself by the key
    the queue is bound to from then on, which is the key it was bound to before if it
    was; exactly the message of the returned identifier was added, on the queue of
    that sender identifier, of 1 to 65536 bytes. *)
Theorem send_requires_sender_key (sid : string) (r : Request) (w : World) (id : string) :
  db_ok (w_db w) -> (run (handleSend sid r) w).1 = writeJSON StatusAccepted (BMessageID id) ->
  let db' := w_db (run (handleSend sid r) w).2 in
  exists q key payload expires, q ∈ (w_db w).(queues) /\ q_sender_id q = sid /\ q_retired q = false /\
    signed_with key sid r w /\ (q_sender_key q = Some key \/ q_sender_key q = None) /\
    (exists q', q' ∈ db'.(queues) /\ q_recipient_id q' = q_recipient_id q /\ q_sender_key q' = Some key) /\
    0 < Z.of_nat (length payload) <= maxPayloadBytes /\
    db'.(messages) = (w_db w).(messages) ++
      [mkMessageRow ((w_db w).(messages_seq) + 1) id (q_recipient_id q) payload (sec (w_clock w)) expires].
Proof.
  intros Hok. unfold handleSend. cbn zeta. run_step.
  pose proof (query_row_result ErrQueueNotFound
    (fun db => sql_first (fun q => q_sender_id q = sid) db.(queues)) (w_st w)) as (Hdb & Hc & Hq).
  fold (GetQueueBySender sid) in Hdb, Hc, Hq.
  destruct (GetQueueBySender sid (w_st w)) as [[e|q] s1]; cbn in Hdb, Hc, Hq |- *; [by destruct e|].
  destruct (sql_first_Some _ _ _ (Hq q eq_refl)) as [Hin Hqid].
  destruct (q_retired q) eqn:Er; [done|].
  rewrite run_bind. set (w1 := mkWorld s1 (w_nonces w) (w_pings w)).
  destruct (run_extractSignature r w1) as [Hw He].
  destruct (run (extractSignature r) w1) as [[env|] w2]; cbn in Hw, He |- *; subst w2; [|done].
  specialize (He env eq_refl).
  assert (envelope_at (w_clock w) r env) as He' by (unfold w_clock in *; by rewrite <- Hc).
  destruct (resolveSenderKey r q) as [[key binding]|] eqn:Ek; [|done].
  destruct (run_verifyAndRecord r env sid key w1 w He' Hc eq_refl) as (Hst & _ & Hsig).
  rewrite run_bind. destruct (run (verifyAndRecord _ _ _ _) w1) as [[] w3]; cbn in Hst, Hsig |- *; [|done].
  specialize (Hsig eq_refl).
  assert (w_db w3 = w_db w /\ w_clock w3 = w_clock w) as [Hdb3 Hc3]
    by (unfold w_db, w_clock; by rewrite Hst).
  destruct (resolveSenderKey_cases r q key binding Ek) as [[-> Hk]|[-> Hk]]; cbn [negb].
  - intros Hr. destruct (storeMessage_accepted q (env_body env) w3 id) as (payload & expires & Hlen & _ & Hdb');
      [by rewrite Hdb3|exact Hr|]. exists q, key, payload, expires. rewrite Hdb', Hdb3, Hc3.
    split_and!; auto; try lia. by exists q.
  - rewrite run_Act_call. cbn [run_op].
    pose proof (BindSenderKey_true sid key (w_st w3)) as Hb.
    destruct (BindSenderKey_spec sid key (w_st w3)) as (Hc4 & _ & _).
    destruct (BindSenderKey sid key (w_st w3)) as [[e|[]] s4]; cbn in Hb, Hc4 |- *; [by destruct e| |done].
    destruct (Hb eq_refl) as (Hlen & _ & Hdb4). fold (w_db w3) in Hdb4. rewrite Hdb3 in Hdb4.
    set (w4 := mkWorld s4 (w_nonces w3) (w_pings w3)). intros Hr.
    assert (w_db w4 = set_queues (sql_update (bindable sid) (q_bind key) (queues (w_db w))) (w_db w))
      as Hw4 by exact Hdb4.
    destruct (storeMessage_accepted q (env_body env) w4 id) as (payload & expires & Hpl & _ & Hdb').
    { rewrite Hw4. eapply (db_step_ok 0); [exact Hok|]. by apply step_bind. }
    { exact Hr. }
    assert (w_clock w4 = w_clock w) as Hc5 by (rewrite <- Hc3; exact Hc4).
    exists q, key, payload, expires. rewrite Hdb', Hc5, Hw4. split_and!; auto; try lia.
    exists (q_bind key q). split_and!; [|done|done]. apply elem_of_sql_update. exists q.
    by rewrite decide_True.
Qed.
End keys.

Section examples.
Import Web.

Lemma send_requires_sender_key_witness :
  let db' := w_db (run (handleSend snd send_hello) w0).2 in
  exists q key payload expires, q ∈ (w_db w0).(queues) /\ q_sender_id q = snd /\ q_retired q = false /\
    signed_with key snd send_hello w0 /\ (q_sender_key q = Some key \/ q_sender_key q = None) /\
    (exists q', q' ∈ db'.(queues) /\ q_recipient_id q' = q_recipient_id q /\ q_sender_key q' = Some key) /\
    0 < Z.of_nat (length payload) <= maxPayloadBytes /\
    db'.(messages) = (w_db w0).(messages) ++
      [mkMessageRow ((w_db w0).(messages_seq) + 1) (fresh_id "msg_" (rnd x08)) (q_recipient_id q) payload
         (sec (w_clock w0)) expires].
Proof.
  apply (send_requires_sender_key snd send_hello w0 (fresh_id "msg_" (rnd x08))).
  - apply db0_ok.
  - by vm_compute.
Defined.
End examples.
