(* ===== verification/Protocol.v ===== *)
(** * Client and server agree on the wire

    What one side prints, the other side's decoder reads: the bodies of the client's
    requests, and the server's responses as far as the client reads them. *)

From S2P Require Import Prelude Encoding Clock Decimal Schema Crypto Sigauth World Json Scanner.
From S2P Require Import Url Http Decoder Reply Client.

Local Open Scope Z_scope.

(** ** Printed text and the decoders *)

(** [json.Marshal] of the body, if there is one. *)
Definition request_body (inp : option json) : bytes :=
  match inp with Some j => bytes_of_string (print j) | None => [] end.

Lemma unmarshal_printed {A} (zero : A) (into : target A) (j : json) :
  printable_json j ->
  unmarshal zero into (request_body (Some j)) = match into zero j with Some a => DOk a | None => DErr end.
Proof.
  intros Hj. unfold unmarshal, request_body. rewrite string_of_bytes_of_string.
  assert (Unmarshal (print j) = Some j) as ->; [|done].
  rewrite <- (str_app_nil_r (print j)). by apply Unmarshal_printed.
Qed.

Lemma decode_printed {A} (zero : A) (into : target A) (j : json) :
  printable_json j ->
  decode_first zero into (request_body (Some j)) = match into zero j with Some a => DOk a | None => DErr end.
Proof.
  intros Hj. unfold decode_first, request_body. rewrite string_of_bytes_of_string.
  assert (Decode (print j) = DOk j) as ->; [|done].
  rewrite <- (str_app_nil_r (print j)). by apply Decode_printed.
Qed.

(** Members one by one. *)
Lemma read_member {A} (fs : fields A) (a a' r : A) (key : string) (j : json)
    (ms : list (string * json)) (into : target A) :
  find_field fs key = Some into -> into a j = Some a' -> decode_members fs a' ms = Some r ->
  decode_members fs a ((key, j) :: ms) = Some r.
Proof. intros Hf Hi <-. cbn [decode_members]. rewrite Hf. by rewrite Hi. Qed.

Lemma read_part {A B} (get : A -> B) (set : A -> B -> A) (into : target B) (a : A) (j : json) (b : B) :
  into (get a) j = Some b -> part get set into a j = Some (set a b).
Proof. intros Hi. unfold part. by rewrite Hi. Qed.

Lemma read_int (old z : Z) : is_int64 z -> into_int64 old (JInt z) = Some z.
Proof. apply ParseInt_print_int64. Qed.

Ltac read_value := first [by apply read_int | reflexivity].
Ltac read_members :=
  lazymatch goal with
  | |- into_struct ?fs ?a (JObj ?ms) = ?r => change (decode_members fs a ms = r)
  | |- _ => idtac
  end;
  repeat (eapply read_member; [reflexivity|first [apply read_part; read_value | read_value]|]);
  reflexivity.

(** A slice that has not been used holds exactly the elements read. *)
Lemma fill_fresh {A B} (zero : B) (elem : target B) (f : A -> json) (g : A -> B) (l : list A) :
  Forall (fun x => elem zero (f x) = Some (g x)) l -> fill zero elem [] (f <$> l) = Some (g <$> l).
Proof.
  induction 1 as [|x l Hx _ IH]; [done|]. rewrite !fmap_cons. cbn [fill head tail default from_option].
  unfold id. rewrite Hx. cbn [mbind option_bind]. by rewrite IH.
Qed.

Lemma into_list_fresh {A B} (name : string) (zero : B) (elem : target B) (f : A -> json) (g : A -> B) (l : list A) :
  Forall (fun x => elem zero (f x) = Some (g x)) l ->
  into_list name zero elem (JObj [(name, JArr (f <$> l))]) = Some (g <$> l).
Proof.
  intros Hl. unfold into_list, into_one. cbn [into_struct decode_members]. unfold find_field.
  cbn [list_find fst]. rewrite decide_True by done. cbn [snd]. unfold into_slice.
  destruct l as [|x l]; [done|]. rewrite fmap_cons. cbn [sl_array no_slice mbind option_bind].
  pose proof (fill_fresh zero elem f g (x :: l) Hl) as Hf. rewrite fmap_cons in Hf. rewrite Hf.
  cbn [mbind option_bind]. unfold elements. cbn [sl_len sl_array]. f_equal.
  apply take_ge. rewrite length_fmap. cbn [length]. by rewrite length_fmap.
Qed.

(** ** Text in UTF-8 *)

Lemma utf8_ascii (s : string) : Forall (fun c => (N_of_ascii c < 128)%N) (chars s) -> utf8 s.
Proof.
  induction s as [|c s IH]; [constructor|]. cbn [String.list_ascii_of_string]. rewrite Forall_cons.
  intros [Hc Hs]. constructor; auto.
Qed.

(** A literal. *)
Ltac utf8_literal := apply utf8_ascii; apply (bool_decide_unpack _); by vm_compute.

Lemma utf8_base64 (b : bytes) : utf8 (b64 b).
Proof.
  apply utf8_ascii. eapply Forall_impl; [apply base64_encode_chars|].
  assert (Forall (fun c => (N_of_ascii c < 128)%N) ("="%char :: base64_std_alphabet)) as HF
    by (apply (bool_decide_unpack _); by vm_compute).
  rewrite Forall_forall in HF. exact HF.
Qed.

(** ** Requests *)

(** Printability of a body whose texts are known to be UTF-8. *)
Ltac body_printable :=
  exists 2%nat; split; [done|];
  repeat first
    [ progress cbn [readable fst snd] | apply Forall_nil_2 | apply Forall_cons_2 | split
    | assumption | apply utf8_base64 | (eexists; split; [|reflexivity]; assumption) | utf8_literal ].

Lemma decode_send_body (blob : bytes) (opts : SendOptions) :
  is_int64 (so_ttl opts) ->
  decode_send (request_body (Some (send_body blob opts))) =
    DOk (mkSendRequest (b64 blob) (Z.quot (so_ttl opts) Second) (so_priority opts)).
Proof.
  intros Ho. assert (is_int64 (Z.quot (so_ttl opts) Second)) as Ho'.
  { unfold is_int64 in *. pose proof (Z.quot_rem' (so_ttl opts) Second). unfold Second in *.
    pose proof (Z.rem_bound_abs (so_ttl opts) 1000000000 ltac:(lia)). lia. }
  unfold decode_send. rewrite unmarshal_printed by body_printable.
  match goal with |- match ?x with _ => _ end = DOk ?r => enough (x = Some r) as -> by done end.
  unfold send_body. read_members.
Qed.

Lemma readable_strings (n : nat) (l : list string) : Forall utf8 l -> Forall (readable n) (JStr <$> l).
Proof. intros Hl. apply Forall_fmap. eapply Forall_impl; [exact Hl|]. by destruct n. Qed.

(** C31: what the client library asks for is what the server's handlers are given: every
    request body it builds, from any texts that are UTF-8 and any integers of 64 bits, is
    decoded by the handler of its route into the structure with exactly those contents. *)
Theorem requests_agree `{Crypto} (token endpoint capabilities role : string) (key blob : bytes)
    (ids : list string) (quota : Z) (opts : SendOptions) :
  utf8 token -> utf8 endpoint -> utf8 capabilities -> utf8 role -> Forall utf8 ids ->
  is_int64 quota -> is_int64 (so_ttl opts) ->
  let body j := request_body (Some j) in
  decode_register (body (register_body token key endpoint capabilities)) =
    DOk (mkRegisterRequest token (b64 (ed25519_public key)) endpoint capabilities) /\
  decode_invitation (body (grants_body role)) = DOk (mkCreateInvitationRequest role) /\
  decode_role (body (role_body role)) = DOk (mkSetRoleRequest role) /\
  decode_push (body (push_body endpoint)) = DOk (mkUpdatePushRequest endpoint) /\
  decode_bundle (body (bundle_body blob)) = DOk (mkBundleRequest (b64 blob)) /\
  decode_queue (body (queue_body key)) = DOk (mkCreateQueueRequest (b64 key)) /\
  decode_statement (body (statement_body blob)) = DOk (mkAppendStatementRequest (b64 blob)) /\
  decode_send (body (send_body blob opts)) =
    DOk (mkSendRequest (b64 blob) (Z.quot (so_ttl opts) Second) (so_priority opts)) /\
  decode_ack (body (ack_body ids)) = DOk (mkAckRequest ids) /\
  decode_quota (body (quota_body quota)) = DOk (mkSetQueueQuotaRequest quota).
Proof.
  intros Ht He Hc Hr Hids Hq Ho. cbn zeta.
  split_and!;
    try (unfold decode_register, decode_invitation, decode_role, decode_push, decode_bundle, decode_queue,
      decode_statement; rewrite decode_printed by body_printable; reflexivity).
  - by apply decode_send_body.
  - unfold decode_ack. rewrite unmarshal_printed.
    + pose proof (into_list_fresh "ids" ""%string into_string JStr id ids) as Hl. unfold into_list, into_one in Hl.
      fold (ack_body ids) in Hl. rewrite list_fmap_id in Hl.
      specialize (Hl ltac:(by apply Forall_true)).
      destruct (into_struct _ no_slice (ack_body ids)) as [l|]; [|done]. cbn in Hl |- *. congruence.
    + exists 2%nat. split; [done|]. cbn [readable ack_body]. apply Forall_cons_2; [|apply Forall_nil_2].
      split; [utf8_literal|]. change (Forall (readable 0) (JStr <$> ids)). by apply readable_strings.
  - unfold decode_quota. rewrite unmarshal_printed by body_printable.
    match goal with |- match ?x with _ => _ end = DOk ?r => enough (x = Some r) as -> by done end.
    unfold quota_body. read_members.
Qed.

(** ** Replies *)

(** The texts and the numbers of a response. *)
Definition device_texts (v : deviceView) : list string :=
  [dv_id v; dv_role v; dv_public_key v; dv_push_endpoint v; dv_capabilities v; dv_created v; dv_last_seen v].
Definition statement_texts (v : statementView) : list string := [sv_statement v; sv_created v].

Definition body_texts (b : body) : list string :=
  match b with
  | BError msg => [msg]
  | BHealth version => [version]
  | BRegister dev acc => [dev; acc]
  | BDevices l => l ≫= device_texts
  | BInvitation token id expires => [token; id; expires]
  | BInvitations l => l ≫= (fun v => [iv_id v; iv_created v; iv_expires v])
  | BRole role => [role]
  | BBundle bundle updated => [bundle; updated]
  | BStatement v => statement_texts v
  | BStatements l => l ≫= statement_texts
  | BQueue rcp snd => [rcp; snd]
  | BMessageID id => [id]
  | BMessages l => l ≫= (fun v => [mv_id v; mv_payload v; mv_received_at v; mv_expires v])
  | BRevoked | BQuota _ _ _ | BStatusOK | BDeleted _ | BRetired | BQueueQuota _ | BMux => []
  end.

Definition body_numbers (b : body) : list Z :=
  match b with
  | BQuota q used acc => [q; used; acc]
  | BStatement v => [sv_seq v]
  | BStatements l => sv_seq <$> l
  | BDeleted n | BQueueQuota n => [n]
  | _ => []
  end.

Definition body_ok (b : body) : Prop := Forall utf8 (body_texts b) /\ Forall is_int64 (body_numbers b).

Lemma Forall_bind_elem {A B} (P : B -> Prop) (f : A -> list B) (l : list A) :
  Forall P (l ≫= f) <-> Forall (fun x => Forall P (f x)) l.
Proof.
  induction l as [|x l IH]; [by split|]. rewrite bind_cons, Forall_app, Forall_cons, IH. done.
Qed.

(** Readability of a tree whose texts and numbers are known to be. *)
Ltac readable_tree :=
  repeat match goal with H : Forall _ (_ :: _) |- _ => apply Forall_cons in H as [? H] end;
  cbn [readable];
  repeat first
    [ apply Forall_nil_2 | apply Forall_cons_2 | split; [utf8_literal|]; cbn [readable snd]
    | assumption | exact I | (eexists; split; [|reflexivity]; assumption) | utf8_literal ].

Lemma readable_device (n : nat) (v : deviceView) :
  Forall utf8 (device_texts v) -> readable (S n) (json_device v).
Proof.
  unfold device_texts. intros Ht. unfold json_device. case_decide; cbn [app]; destruct n; readable_tree.
Qed.

Lemma readable_statement (n : nat) (v : statementView) :
  Forall utf8 (statement_texts v) -> is_int64 (sv_seq v) -> readable (S n) (json_statement v).
Proof. unfold statement_texts. intros Ht Hs. unfold json_statement. destruct n; readable_tree. Qed.

Lemma readable_list {A} (n : nat) (name : string) (f : A -> json) (l : list A) :
  utf8 name -> Forall (fun x => readable n (f x)) l -> readable (S (S n)) (JObj [(name, JArr (f <$> l))]).
Proof.
  intros Hn Hl. change (Forall (fun kv => utf8 kv.1 /\ readable (S n) kv.2) [(name, JArr (f <$> l))]).
  apply Forall_cons_2; [|by apply Forall_nil_2]. split; [done|]. by apply Forall_fmap.
Qed.

Lemma body_printable_json (b : body) (j : json) :
  body_ok b -> json_of_body b = Some j -> printable_json j.
Proof.
  intros [Ht Hn] Hj. exists 3%nat. split; [done|]. destruct b; cbn [json_of_body] in Hj; try discriminate;
    injection Hj as <-; cbn [body_texts body_numbers] in Ht, Hn;
    try (readable_tree; fail).
  - apply readable_list; [utf8_literal|]. apply Forall_bind_elem in Ht.
    eapply Forall_impl; [exact Ht|]. intros v Hv. by apply readable_device.
  - apply readable_list; [utf8_literal|]. apply Forall_bind_elem in Ht.
    eapply Forall_impl; [exact Ht|]. intros v Hv. cbn beta in Hv. unfold json_invitation. readable_tree.
  - apply Forall_cons in Hn as [Hn _]. by apply readable_statement.
  - apply readable_list; [utf8_literal|]. apply Forall_bind_elem in Ht. rewrite (Forall_fmap sv_seq) in Hn.
    eapply Forall_impl; [exact (proj2 (Forall_and _ _) (conj Ht Hn))|]. intros v [Hv Hs]. by apply readable_statement.
  - apply readable_list; [utf8_literal|]. apply Forall_bind_elem in Ht.
    eapply Forall_impl; [exact Ht|]. intros v Hv. cbn beta in Hv. unfold json_message. readable_tree.
Qed.

(** The text of a response, cut where the client stops reading, is its tree or nothing. *)
Lemma read_reply_spec (b : body) :
  body_ok b ->
  read_reply b = if decide (Z.of_nat (String.length (body_text b)) > maxResponseBytes) then None
                 else json_of_body b.
Proof.
  intros Hb. pose proof (body_printable_json b) as Hp. unfold read_reply.
  assert (0 <= maxResponseBytes) as Hmax by by vm_compute. revert Hmax.
  destruct (json_of_body b) as [j|] eqn:Ej.
  - specialize (Hp j Hb eq_refl).
    assert (body_text b = print j) as -> by by (unfold body_text; rewrite Ej).
    assert (exists ms, j = JObj ms) as [ms ->] by (clear -Ej; destruct b; cbn in Ej; simplify_eq; by eexists).
    generalize maxResponseBytes. intros n Hmax. case_decide as Hn.
    + rewrite str_take_app_le by lia. apply Unmarshal_cut_off; [done|lia].
    + rewrite str_take_app_ge by lia. apply Unmarshal_printed; [done| |].
      * destruct (Z.to_nat n - _)%nat as [|k]; [exact I|]. cbn [str_take]. apply delimited_cons. set_solver.
      * destruct (Z.to_nat n - _)%nat as [|[|k]]; reflexivity.
  - assert (b = BMux) as -> by by destruct b. intros _. rewrite str_take_whole; [by vm_compute|].
    change (String.length (body_text BMux +:+ String "010" "")) with 10%nat. change maxResponseBytes with 1048576. lia.
Qed.

Lemma device_read (v : deviceView) : into_device no_device (json_device v) = Some v.
Proof.
  destruct v as [a b c d e g h i]. unfold json_device. cbn [dv_push_endpoint].
  destruct (decide (d = ""%string)) as [->|Hd]; cbn [app]; unfold into_device; read_members.
Qed.

Lemma statement_read (v : statementView) : is_int64 (sv_seq v) -> into_statement no_statement (json_statement v) = Some v.
Proof.
  destruct v as [n s c]. intros Hn. cbn [sv_seq] in Hn. unfold into_statement, json_statement.
  cbn [sv_seq sv_statement sv_created]. read_members.
Qed.

Lemma message_read (v : messageView) : into_message no_message (json_message v) = Some v.
Proof. destruct v as [a b c d]. unfold into_message, json_message. read_members. Qed.

Lemma read_list {A} (name : string) (zero : A) (elem : target A) (f : A -> json) (l : list A) :
  Forall (fun x => elem zero (f x) = Some x) l ->
  into_list name zero elem (JObj [(name, JArr (f <$> l))]) = Some l.
Proof. intros Hl. rewrite (into_list_fresh name zero elem f id l Hl). by rewrite list_fmap_id. Qed.

(** C32: what the server answers is what the client library reads: for every response body
    with texts in UTF-8 and numbers of 64 bits that is no longer than the client reads,
    the call that expects it gets exactly the contents, field by field and element by
    element, and any call gets the message of an error. *)
Theorem replies_agree (b : body) :
  body_ok b -> Z.of_nat (String.length (body_text b)) <= maxResponseBytes ->
  match b with
  | BError msg => read_reply b ≫= into_one "error" into_string ""%string = Some msg
  | BHealth version => read_reply b ≫= into_pair "status" "version" (""%string, ""%string) = Some ("ok"%string, version)
  | BRegister dev acc => read_reply b ≫= into_pair "device_id" "account_id" (""%string, ""%string) = Some (dev, acc)
  | BDevices l => read_reply b ≫= into_list "devices" no_device into_device = Some l
  | BInvitation token id expires =>
      read_reply b ≫= into_invitation (""%string, ""%string, ""%string) = Some (token, id, expires)
  | BInvitations l =>
      read_reply b ≫= into_list "invitations" (""%string, ""%string) (into_pair "id" "expires") =
        Some ((fun v => (iv_id v, iv_expires v)) <$> l)
  | BQuota q used acc => read_reply b ≫= into_quota (0, 0, 0) = Some (q, used, acc)
  | BBundle bundle _ => read_reply b ≫= into_one "bundle" into_string ""%string = Some bundle
  | BStatement v => read_reply b ≫= into_statement no_statement = Some v
  | BStatements l => read_reply b ≫= into_list "statements" no_statement into_statement = Some l
  | BQueue rcp snd => read_reply b ≫= into_pair "recipient_id" "sender_id" (""%string, ""%string) = Some (rcp, snd)
  | BMessageID id => read_reply b ≫= into_one "message_id" into_string ""%string = Some id
  | BMessages l => read_reply b ≫= into_list "messages" no_message into_message = Some l
  | BDeleted n => read_reply b ≫= into_one "deleted" into_int64 0 = Some n
  | BRevoked | BRole _ | BStatusOK | BRetired | BQueueQuota _ | BMux => True
  end.
Proof.
  intros Hb Hl. pose proof Hb as [_ Hn]. pose proof (read_reply_spec b Hb) as Hr.
  rewrite decide_False in Hr by lia.
  destruct b; try exact I; rewrite Hr; clear Hr Hl Hb; cbn [json_of_body mbind option_bind body_numbers] in *;
    repeat match goal with H : Forall _ (_ :: _) |- _ => apply Forall_cons in H as [? H] end;
    try (unfold into_one, into_pair, into_invitation, into_quota; read_members; fail).
  - apply read_list, Forall_true, device_read.
  - apply into_list_fresh, Forall_true. intros [a b c]. unfold into_pair, json_invitation. read_members.
  - by apply statement_read.
  - apply read_list. rewrite (Forall_fmap sv_seq) in Hn. eapply Forall_impl; [exact Hn|apply statement_read].
  - apply read_list, Forall_true, message_read.
Qed.

(** ** Times *)

Lemma utf8_digits (n : nat) (v : Z) (rest : string) :
  0 <= v < 10 ^ Z.of_nat n -> utf8 rest -> utf8 (digits n v rest).
Proof.
  revert v. induction n as [|n IH]; intros v Hv Hr; [done|]. destruct (digit_split n v Hv) as (Hd & Hm & _).
  cbn [digits]. constructor; [|by apply IH]. rewrite dec_char_code by done. lia.
Qed.

Lemma utf8_rfc3339 (s : Z) : four_digit_year s -> utf8 (rfc3339 s).
Proof.
  intros Hs. unfold rfc3339. destruct (civil_of_spec s) as [Hok _]. pose proof Hok as (? & ? & ? & ? & ?).
  pose proof (civil_of_year s Hs).
  pose proof (month_length_le (c_year (civil_of s)) (c_month (civil_of s))).
  destruct (civil_of s) as [y mo d h mi se]. unfold c_year, c_month, c_day, c_hour, c_min, c_sec in *.
  repeat first [apply utf8_digits; [simpl; lia|] | apply utf8_one; [by vm_compute|] | apply utf8_nil].
Qed.

(** ** Evaluated *)

Lemma ascii_texts (l : list string) :
  forallb (fun s => forallb (fun c => (N_of_ascii c <? 128)%N) (chars s)) l = true -> Forall utf8 l.
Proof.
  rewrite forallb_forall. intros Hl. apply Forall_forall. intros s Hs%list_elem_of_In.
  apply utf8_ascii, Forall_forall. intros c Hc%list_elem_of_In. specialize (Hl s Hs).
  rewrite forallb_forall in Hl. by apply N.ltb_lt, Hl.
Qed.

Section examples.
Import Toy.

Lemma requests_agree_witness :
  let body j := request_body (Some j) in
  decode_send (body (send_body [x01; x02] (mkSendOptions (-1) true))) = DOk (mkSendRequest "AQI=" 0 true) /\
  decode_ack (body (ack_body ["m<1>"; "m2"]%string)) = DOk (mkAckRequest ["m<1>"; "m2"]%string) /\
  decode_quota (body (quota_body (-9223372036854775808))) = DOk (mkSetQueueQuotaRequest (-9223372036854775808)).
Proof.
  pose proof (requests_agree "token" "endpoint" "caps" "admin" [x03] [x01; x02] ["m<1>"; "m2"]%string
    (-9223372036854775808) (mkSendOptions (-1) true)) as Ha.
  assert (Forall utf8 ["token"; "endpoint"; "caps"; "admin"]%string) as Ht by by apply ascii_texts.
  assert (Forall utf8 ["m<1>"; "m2"]%string) as Hi by by apply ascii_texts.
  repeat (apply Forall_cons in Ht as [? Ht]).
  destruct Ha as (_ & _ & _ & _ & _ & _ & _ & Hs & Hk & Hq); [done..|by vm_compute|by vm_compute|].
  split; [exact Hs|split; [exact Hk|exact Hq]].
Defined.

Definition two_messages : body := BMessages [mkMessageView "msg_1" "aGk=" "t" "t"; mkMessageView "msg_2" "" "t" "t"].

Lemma replies_agree_witness :
  body_ok two_messages /\
  read_reply two_messages ≫= into_list "messages" no_message into_message =
    Some [mkMessageView "msg_1" "aGk=" "t" "t"; mkMessageView "msg_2" "" "t" "t"].
Proof.
  assert (body_ok two_messages) as Hok by (split; [by apply ascii_texts|constructor]).
  split; [exact Hok|]. apply (replies_agree two_messages Hok). by vm_compute.
Defined.
End examples.
