(* ===== verification/EndToEnd.v ===== *)
(** * Client and server together

    What the server's gates do not refuse: a request the client library signs is let
    through, a sent message is received unaltered, and how much a receive can carry. *)

From S2P Require Import Prelude Encoding Clock Decimal Sql Schema StoreM Crypto Sigauth Accounts Devices.
From S2P Require Import Queues Blobs Steps Invariants Evolution Refine Store Demo Capacity Delivery.
From S2P Require Import World Json Scanner Url Http Decoder Reply Auth Push Management Transport.
From S2P Require Import Router DemoServer Gate Planes QueueKeys Client Protocol.

Local Open Scope Z_scope.

(** ** A signed request is accepted *)

(** The nonce the client will use. *)
Definition client_nonce (e : Env) : string := hex_encode (take 16 (e_rnd e)).

(** The client can sign, its clock agrees with the server's up to the skew less the
    second that is cut off, and the nonce is new to [principal]. *)
Definition in_time (e : Env) (principal : string) (w : World) : Prop :=
  (16 <= length (e_rnd e))%nat /\ four_digit_year (sec (e_clock e)) /\
  - defaultClockSkew <= w_clock w - e_clock e <= defaultClockSkew - Second /\
  w_nonces w !! nonce_key principal (client_nonce e) = None.

(** [r] carries the signature [sign] makes. *)
Definition signed_by `{Crypto} (key : bytes) (e : Env) (r : Request) : Prop :=
  header r HeaderTimestamp = rfc3339 (sec (e_clock e)) /\
  header r HeaderNonce = client_nonce e /\
  header r HeaderSignature = base64_std_encode (ed25519_sign key (SigningString (r_method r) (r_path r)
    (rfc3339 (sec (e_clock e))) (client_nonce e) (r_body r))) /\
  Z.of_nat (length (r_body r)) <= maxBodyBytes /\ r_body_err r = false.

Lemma rfc3339_nonempty (s : Z) : rfc3339 s <> ""%string.
Proof. unfold rfc3339. by cbn. Qed.

Lemma base64_nonempty (b : bytes) : b <> [] -> base64_std_encode b <> ""%string.
Proof. intros Hb E. apply Hb, (inj base64_std_encode). by rewrite E. Qed.

Section accepted.
Context `{Crypto}.

Lemma client_nonce_nonempty (e : Env) : (16 <= length (e_rnd e))%nat -> client_nonce e <> ""%string.
Proof.
  intros He E. apply (f_equal String.length) in E. unfold client_nonce in E.
  rewrite hex_encode_length, length_take in E. change (String.length "") with 0%nat in E. lia.
Qed.

Lemma limited_body_small (r : Request) :
  Z.of_nat (length (r_body r)) <= maxBodyBytes -> limited_body r = r_body r.
Proof. intros Hl. unfold limited_body. apply take_ge. lia. Qed.

Lemma run_extract_signed `{!CryptoLaws _} (key : bytes) (e : Env) (p : string) (r : Request) (w : World) :
  in_time e p w -> signed_by key e r ->
  run (extractSignature r) w =
    (Some (mkSigEnvelope (rfc3339 (sec (e_clock e))) (client_nonce e)
       (ed25519_sign key (SigningString (r_method r) (r_path r) (rfc3339 (sec (e_clock e)))
          (client_nonce e) (r_body r))) (r_body r)), w).
Proof.
  intros (Hr & Hy & Hc & _) (Hts & Hn & Hsig & Hb & Hbe).
  assert (header r HeaderSignature <> ""%string) as Hne
    by (rewrite Hsig; apply base64_nonempty, ed25519_sign_nonempty).
  unfold extractSignature.
  rewrite Hts, Hn. rewrite decide_False
    by (pose proof (rfc3339_nonempty (sec (e_clock e))); pose proof (client_nonce_nonempty e Hr); tauto).
  rewrite parse_rfc3339_format by done. run_step. run_step.
  assert (Second = 1000000000) as HS by done. unfold sec in *.
  rewrite decide_False by (pose proof (Z.div_mod (e_clock e) Second);
    pose proof (Z.mod_pos_bound (e_clock e) Second); unfold w_clock in *; lia).
  run_step. run_step. unfold body_read_fails. rewrite Hbe. cbn [andb].
  rewrite Hsig, base64_std_decode_encode, limited_body_small by done. by rewrite run_ret.
Qed.

Lemma checkAndAdd_new (key : string) (expiry now : Z) (seen : gmap string Z) :
  seen !! key = None -> (checkAndAdd key expiry now seen).1 = true.
Proof.
  intros Hk. unfold checkAndAdd.
  assert (filter (fun kv => ~ kv.2 < now) seen !! key = None) as ->; [|done].
  by apply map_lookup_filter_None_2; left.
Qed.

Lemma run_verify_signed `{!CryptoLaws _} (key : bytes) (e : Env) (p : string) (r : Request) (w : World) :
  in_time e p w ->
  exists seen, run (verifyAndRecord r (mkSigEnvelope (rfc3339 (sec (e_clock e))) (client_nonce e)
       (ed25519_sign key (SigningString (r_method r) (r_path r) (rfc3339 (sec (e_clock e)))
          (client_nonce e) (r_body r))) (r_body r)) p (ed25519_public key)) w =
    (true, mkWorld (w_st w) seen (w_pings w)).
Proof.
  intros (_ & Hy & _ & Hn). unfold verifyAndRecord. cbn [env_timestamp env_nonce env_signature env_body].
  rewrite ed25519_verify_sign. cbn [negb]. run_step.
  rewrite parse_rfc3339_format by done. cbn [default from_option id].
  pose proof (checkAndAdd_new (nonce_key p (client_nonce e)) (sec (e_clock e) * Second + defaultClockSkew)
    (w_clock w) (w_nonces w) Hn) as Hc.
  destruct (checkAndAdd _ _ _ _) as [ok seen]. simpl in Hc. subst ok. by exists seen.
Qed.

(** ** The request the client builds *)

(** A header the client does not set itself. *)
Definition other_header (name : string) : Prop :=
  name <> HeaderSignature /\ name <> HeaderNonce /\ name <> HeaderTimestamp /\
  name <> "Content-Type"%string.

Lemma new_request_signed (key : bytes) (method : string) (segs : list string)
    (extra : gmap string string) (inp : option json) (e : Env) :
  segs <> [] -> Forall plain segs -> (16 <= length (e_rnd e))%nat ->
  Z.of_nat (length (request_body inp)) <= maxBodyBytes ->
  exists r, new_request (Some key) method ("/" +:+ String.concat "/" segs) extra inp e = Some r /\
    r_method r = method /\ r_segments r = segs /\ r_clean r = true /\ r_body r = request_body inp /\
    signed_by key e r /\
    (forall name, other_header name -> header r name = default ""%string (extra !! name)).
Proof.
  intros Hne Hp Hr Hb. unfold new_request. rewrite url_path_plain by done. rewrite bind_Some_l.
  unfold sign. rewrite decide_False by lia. rewrite bind_Some_l. eexists. split; [reflexivity|].
  cbn [r_method r_segments r_clean r_body]. split_and!; [done..| |].
  - unfold signed_by, header, r_path. cbn [r_method r_segments r_body r_headers r_body_err].
    split_and!; [..|done|done].
    + by rewrite !lookup_insert_ne, lookup_insert_eq by done.
    + by rewrite lookup_insert_ne, lookup_insert_eq by done.
    + by rewrite lookup_insert_eq.
  - intros name (H1 & H2 & H3 & H4). unfold header. cbn [r_headers].
    rewrite !lookup_insert_ne by done. f_equal.
    destruct inp; [rewrite lookup_union_l by by rewrite lookup_insert_ne|rewrite (right_id _ (∪))]; done.
Qed.

(** ** The management plane *)

Lemma GetDevice_found (dev : Device) (s : St) :
  integrity (st_db s) -> st_faults s = [] -> dev ∈ (st_db s).(devices) ->
  GetDevice (d_id dev) s = (inr dev, s).
Proof.
  intros Hi Hf Hd. destruct s as [db clock rnd faults]. cbn in *. subst faults.
  unfold GetDevice, on_no_rows, query_row, db_call. cbn.
  by rewrite (sql_first_key d_id _ dev (pk_devices _ Hi) Hd).
Qed.

(** The database with [dev]'s last-seen time refreshed. *)
Definition seen_at (id : string) (now : Z) (db : DB) : DB :=
  set_devices (sql_update (fun d => d_id d = id) (dev_touch now) db.(devices)) db.

Lemma TouchLastSeen_total (id : string) (s : St) :
  st_faults s = [] ->
  TouchLastSeen id s = (inr tt, mkSt (seen_at id (sec (st_clock s)) (st_db s)) (st_clock s) (st_rnd s) []).
Proof. intros Hf. destruct s as [db clock rnd faults]. cbn in Hf. by subst faults. Qed.

(** The management plane admits what the client library signs: with a working
    driver, a request built with a live device's key, whose clock agrees with the
    server's up to five minutes less a second and whose nonce is new, is built, and
    reaches its handler with that device and the body sent; only the device's
    last-seen time and the nonce cache have changed by then. *)
Theorem client_request_admitted `{!CryptoLaws _} (d : ClientDevice) (dev : Device) (method : string)
    (segs : list string) (inp : option json) (e : Env) (w : World)
    (next : Device -> bytes -> proc Response) :
  db_ok (w_db w) -> st_faults (w_st w) = [] ->
  dev ∈ (w_db w).(devices) -> d_id dev = cd_id d -> live dev -> cd_id d <> ""%string ->
  d_public_key dev = ed25519_public (cd_key d) ->
  segs <> [] -> Forall plain segs -> Z.of_nat (length (request_body inp)) <= maxBodyBytes ->
  in_time e (cd_id d) w ->
  exists r seen, new_request (Some (cd_key d)) method ("/" +:+ String.concat "/" segs)
      (device_headers d) inp e = Some r /\
    r_method r = method /\ r_segments r = segs /\ r_clean r = true /\
    run (requireSignature next r) w =
      run (next dev (request_body inp))
        (mkWorld (mkSt (seen_at (cd_id d) (sec (w_clock w)) (w_db w)) (w_clock w) (st_rnd (w_st w)) [])
           seen (w_pings w)).
Proof.
  intros Hok Hf Hdev Hid Hlive Hne Hkey Hsegs Hp Hb Ht. pose proof Ht as (Hr & _).
  destruct (new_request_signed (cd_key d) method segs (device_headers d) inp e Hsegs Hp Hr Hb)
    as (r & Hnew & Hm & Hs & Hc & Hbody & Hsig & Hh).
  destruct (run_verify_signed (cd_key d) e (cd_id d) r w Ht) as (seen & Hv).
  exists r, seen. split_and!; [done..|]. unfold requireSignature, authenticate.
  assert (header r HeaderDeviceID = cd_id d) as ->
    by (rewrite Hh by done; unfold device_headers; by rewrite lookup_singleton_eq).
  rewrite decide_False by done. run_step. run_step.
  rewrite (run_extract_signed _ _ _ _ _ Ht Hsig). run_step.
  rewrite <- Hid, GetDevice_found by (done || apply Hok). cbn [fst snd].
  unfold live in Hlive. rewrite Hlive. run_step. rewrite Hkey, Hid.
  destruct w as [s nonces pings]. cbn [w_st w_nonces w_pings] in *. rewrite Hv. cbn [negb].
  run_step. rewrite TouchLastSeen_total by done. cbn [fst snd]. by rewrite run_ret, Hbody.
Qed.
End accepted.

(** ** The queues *)

Section queues.
Context `{Crypto, !CryptoLaws _} (version : string).

(** A working driver keeps working. *)
Lemma run_quiet {A} (p : proc A) (w : World) :
  db_ok (w_db w) -> st_faults (w_st w) = [] ->
  st_faults (w_st (run p w).2) = [] /\ w_clock (run p w).2 = w_clock w.
Proof.
  intros Hok Hf. split; [|by apply run_steps]. revert w Hok Hf.
  induction p as [a|B e k IH]; intros w Hok Hf; simpl; [done|].
  destruct (do_action_steps e w Hok) as [Hs _].
  assert (st_faults (w_st (do_action e w).2) = []) as Hf'.
  { destruct e as [C op| | |key expiry|]; simpl; try done.
    - destruct (run_op_outcome op (w_st w) (ok_integrity _ Hok)) as (_ & Hq & _).
      destruct (run_op op (w_st w)). simpl in *. by apply Hq.
    - by destruct (checkAndAdd _ _ _ _). }
  destruct (do_action e w) as [b w']. simpl in *. apply IH; [by eapply db_steps_ok|done].
Qed.

Lemma queue_found (P : Queue -> Prop) `{!forall q, Decision (P q)} (q : Queue) (s : St) :
  st_faults s = [] -> sql_first P (st_db s).(queues) = Some q ->
  on_no_rows ErrQueueNotFound (query_row (fun db => sql_first P db.(queues))) s = (inr q, s).
Proof.
  intros Hf Hq. destruct s as [db clock rnd faults]. cbn in *. subst faults.
  unfold on_no_rows, query_row, db_call. cbn. by rewrite Hq.
Qed.

(** Looking a path up in the table, entry by entry. *)
Definition table_routes (segs : list string) (l : list route) : list (route * list string) :=
  omap (fun rt => vs ← match_segments (rt_pattern rt) segs; Some (rt, vs)) l.

Lemma table_skip (segs : list string) (rt : route) (l : list route) (out : list (route * list string)) :
  match_segments (rt_pattern rt) segs = None -> table_routes segs l = out ->
  table_routes segs (rt :: l) = out.
Proof. intros Hm <-. unfold table_routes. cbn [omap list_omap]. by rewrite Hm. Qed.

Lemma table_take (segs vs : list string) (rt : route) (l : list route) (out : list (route * list string)) :
  match_segments (rt_pattern rt) segs = Some vs -> table_routes segs l = out ->
  table_routes segs (rt :: l) = (rt, vs) :: out.
Proof. intros Hm <-. unfold table_routes. cbn [omap list_omap]. by rewrite Hm. Qed.

Lemma match_wild (x : string) :
  x <> ""%string -> match_segments [Wild] [x] = Some [x].
Proof. intros Hx. cbn [match_segments]. by rewrite decide_False. Qed.

Ltac find_route :=
  repeat first
    [ apply table_skip; [reflexivity|]
    | apply table_take; [by apply match_wild|]
    | reflexivity ].

Lemma path_send (sid : string) :
  sid <> ""%string -> path_routes version ["v1"; "send"; sid]%string =
    [(mkRoute "POST" [Lit "v1"; Lit "send"; Wild] (one handleSend), [sid])].
Proof.
  intros Hne. change (path_routes version ?s) with (table_routes s (routes version)). find_route.
Qed.

Lemma path_recv (rid : string) :
  rid <> ""%string -> path_routes version ["v1"; "recv"; rid]%string =
    [(mkRoute "GET" [Lit "v1"; Lit "recv"; Wild] (one handleRecv), [rid])].
Proof.
  intros Hne. change (path_routes version ?s) with (table_routes s (routes version)). find_route.
Qed.

(** A single candidate of the right method. *)
Lemma serve_one (r : Request) (rt : route) (vs : list string) :
  r_clean r = true -> path_routes version (r_segments r) = [(rt, vs)] -> rt_method rt = r_method r ->
  ServeHTTP version r = rt_handler rt vs r.
Proof.
  intros Hc Hp Hm. unfold ServeHTTP. rewrite Hc, Hp. cbn [negb].
  rewrite filter_cons, decide_True; [done|]. cbn [fst]. unfold method_matches.
  by rewrite bool_decide_true.
Qed.

(** ** Sending *)

Lemma append_fits (rid : string) (payload : bytes) (ttl : Z) (s : St) :
  integrity (st_db s) -> st_faults s = [] -> (9 <= length (st_rnd s))%nat ->
  fresh_id "msg_" (st_rnd s) ∉ m_id <$> (st_db s).(messages) ->
  fits rid (Z.of_nat (length payload)) (sec (st_clock s)) (st_db s) ->
  let id := fresh_id "msg_" (st_rnd s) in
  let now := st_clock s in
  (AppendMessage rid payload ttl s).1 = inr (mkMessage id rid payload (sec now) (sec (now + ttl))) /\
  st_db (AppendMessage rid payload ttl s).2 =
    appended_db id rid payload (sec now) (sec (now + ttl)) (st_db s).
Proof.
  intros Hi Hf Hr Hid Hfit id now. pose proof (AppendMessage_spec rid payload ttl s Hi) as Ha.
  unfold wp in Ha. destruct (AppendMessage rid payload ttl s) as [[err|m] s']; simpl in *;
    destruct Ha as (_ & _ & [(_ & ? & _)|Ha]); try done.
  - exfalso. destruct Ha as [_ Ha]. pose proof Hfit as (q & d & a & Hq & Hqid & Hd & Hdid & Ha' & Haid & _).
    destruct err; simpl in Ha; try done; [|by destruct Ha|lia].
    revert Ha. unfold queue_ceilings.
    rewrite <- Hqid, (filter_key q_recipient_id _ q (pk_queues _ Hi) Hq). cbn [mbind list_bind app].
    rewrite <- Hdid, (filter_key d_id _ d (pk_devices _ Hi) Hd). cbn [mbind list_bind app].
    by rewrite <- Haid, (filter_key a_id _ a (pk_accounts _ Hi) Ha').
  - by destruct Ha as (-> & _ & _ & ->).
Qed.

(** What the server is asked to store. *)
Definition send_ttl (opts : SendOptions) : Z := clampMessageTTL (Z.quot (so_ttl opts) Second).

Lemma storeMessage_fits (q : Queue) (ciphertext : bytes) (opts : SendOptions) (w : World) :
  db_ok (w_db w) -> st_faults (w_st w) = [] -> (9 <= length (st_rnd (w_st w)))%nat ->
  is_int64 (so_ttl opts) -> 0 < Z.of_nat (length ciphertext) <= maxPayloadBytes ->
  fresh_id "msg_" (st_rnd (w_st w)) ∉ m_id <$> (w_db w).(messages) ->
  fits (q_recipient_id q) (Z.of_nat (length ciphertext)) (sec (w_clock w)) (w_db w) ->
  let id := fresh_id "msg_" (st_rnd (w_st w)) in
  let out := run (storeMessage q (request_body (Some (send_body ciphertext opts)))) w in
  out.1 = writeJSON StatusAccepted (BMessageID id) /\
  w_db out.2 = appended_db id (q_recipient_id q) ciphertext (sec (w_clock w))
    (sec (w_clock w + send_ttl opts)) (w_db w).
Proof.
  intros Hok Hf Hr Hread Hlen Hid Hfit id out. subst out. unfold storeMessage. rewrite decode_send_body by done.
  cbn [snd_payload snd_ttl snd_priority]. unfold b64. rewrite base64_std_decode_encode.
  rewrite decide_False by lia. rewrite decide_False by lia. run_step.
  destruct (append_fits (q_recipient_id q) ciphertext (send_ttl opts) (w_st w) (ok_integrity _ Hok) Hf Hr
    Hid Hfit) as [Hres Hdb]. fold (send_ttl opts).
  destruct (AppendMessage _ _ _ (w_st w)) as [res s1]. cbn [fst snd] in *. subst res. run_step.
  pose proof (wakeQueueOwner_idle (q_owner_device q) (if so_priority opts then High else Normal)
    (mkWorld s1 (w_nonces w) (w_pings w))) as Hw.
  destruct (run (wakeQueueOwner _ _) _) as [u w2]. cbn in Hw |- *. split; [done|].
  rewrite Hw. exact Hdb.
Qed.

(** The database with the queue of sender identifier [sid] bound to [key]. *)
Definition bound_db (sid : string) (key : bytes) (db : DB) : DB :=
  set_queues (sql_update (bindable sid) (q_bind key) db.(queues)) db.

Lemma queue_owner_bound (sid rid : string) (key : bytes) (db : DB) :
  queue_owner rid (bound_db sid key db) = queue_owner rid db.
Proof.
  unfold queue_owner, bound_db, sql_first. cbn [queues set_queues].
  induction (queues db) as [|q l IH]; [done|]. unfold sql_update. rewrite fmap_cons, !filter_cons.
  assert (q_recipient_id (if decide (bindable sid q) then q_bind key q else q) = q_recipient_id q) as ->
    by by case_decide.
  destruct (decide (q_recipient_id q = rid)); [|exact IH]. cbn. by case_decide.
Qed.

Lemma queue_account_bound (sid rid : string) (key : bytes) (db : DB) :
  queue_account rid (bound_db sid key db) = queue_account rid db.
Proof. unfold queue_account. by rewrite queue_owner_bound. Qed.

(** Binding a queue's sender does not change what fits on it. *)
Lemma fits_bound (sid rid : string) (key : bytes) (size now : Z) (db : DB) :
  integrity db -> integrity (bound_db sid key db) ->
  fits rid size now db -> fits rid size now (bound_db sid key db).
Proof.
  intros Hi Hi' (q & d & a & Hq & Hqid & Hd & Hdid & Ha & Haid & Hwq & Hwd & Hwa).
  exists (if decide (bindable sid q) then q_bind key q else q), d, a. split_and!.
  - apply elem_of_sql_update. by exists q.
  - by case_decide.
  - done.
  - by case_decide.
  - done.
  - done.
  - case_decide; exact Hwq.
  - rewrite device_bytes_eq in Hwd |- * by done. cbn [messages bound_db set_queues].
    erewrite list_filter_iff; [exact Hwd|]. intros m. by rewrite queue_owner_bound.
  - rewrite account_bytes_eq in Hwa |- * by done. cbn [messages bound_db set_queues].
    erewrite list_filter_iff; [exact Hwa|]. intros m. by rewrite queue_account_bound.
Qed.

Lemma BindSenderKey_total (key : bytes) (q : Queue) (s : St) :
  integrity (st_db s) -> st_faults s = [] -> length key = PublicKeySize ->
  q ∈ (st_db s).(queues) -> bindable (q_sender_id q) q ->
  BindSenderKey (q_sender_id q) key s =
    (inr true, mkSt (bound_db (q_sender_id q) key (st_db s)) (st_clock s) (st_rnd s) []).
Proof.
  intros Hi Hf Hl Hq Hb. destruct s as [db clock rnd faults]. cbn in *. subst faults.
  assert (sql_count (bindable (q_sender_id q)) db.(queues) = 1) as Hn.
  { assert (0 < sql_count (bindable (q_sender_id q)) db.(queues)) by (apply sql_count_pos; eauto).
    destruct (sql_count_le_one q_sender_id (q_sender_id q) (bindable (q_sender_id q)) db.(queues));
      [apply Hi|by intros x [? _]|lia|done]. }
  unfold BindSenderKey. rewrite decide_False by tauto.
  unfold exec, db_call, mbind, M_bind, mret, M_ret. cbn. by rewrite Hn.
Qed.

Lemma bytes_of_string_length (s : string) : length (bytes_of_string s) = String.length s.
Proof.
  unfold bytes_of_string, String.list_byte_of_string. rewrite length_map.
  induction s as [|c s IH]; [done|]. exact (f_equal S IH).
Qed.

Lemma send_body_length (ciphertext : bytes) (opts : SendOptions) :
  Z.of_nat (length ciphertext) <= maxPayloadBytes ->
  Z.of_nat (length (request_body (Some (send_body ciphertext opts)))) <= maxBodyBytes.
Proof.
  intros Hl. unfold request_body, send_body. rewrite bytes_of_string_length.
  cbn [print map fst snd]. unfold print_string, b64. rewrite base64_copied.
  pose proof (base64_length ciphertext) as Hb. pose proof (print_int_length (so_ttl opts ÷ Second)) as Hi.
  assert (String.length (print_bool (so_priority opts)) <= 5)%nat as Hp by (destruct (so_priority opts); cbn; lia).
  pose proof (Nat.mod_upper_bound (3 - length ciphertext mod 3) 3 ltac:(done)).
  assert (escape "payload" = "payload"%string /\ escape "priority" = "priority"%string /\
    escape "ttl" = "ttl"%string) as (-> & -> & ->) by by vm_compute.
  change maxPayloadBytes with 65536 in Hl. change maxBodyBytes with 1048576.
  repeat rewrite ?str_length_app, ?concat_cons_length. cbn [String.concat].
  repeat rewrite ?str_length_app. cbn [String.length quote]. lia.
Qed.

(** The queue takes messages from this sender. *)
Definition accepts (q : Queue) (s : Sender) : Prop :=
  q_sender_id q = sn_sender_id s /\ q_retired q = false /\
  (q_sender_key q = None \/ q_sender_key q = Some (ed25519_public (sn_key s))).

(** The database the message is added to: the queue is bound by now. *)
Definition ready_db (q : Queue) (s : Sender) (db : DB) : DB :=
  match q_sender_key q with
  | None => bound_db (q_sender_id q) (ed25519_public (sn_key s)) db
  | Some _ => db
  end.

Lemma resolveSenderKey_accepts (r : Request) (q : Queue) (s : Sender) :
  accepts q s -> header r HeaderSenderKey = b64 (ed25519_public (sn_key s)) ->
  resolveSenderKey r q = Some (ed25519_public (sn_key s), bool_decide (q_sender_key q = None)).
Proof.
  intros (_ & _ & Hk) Hh. unfold resolveSenderKey. rewrite Hh. unfold b64.
  destruct Hk as [-> | ->].
  - rewrite decide_False.
    + rewrite base64_std_decode_encode. cbn [mbind option_bind].
      rewrite decide_False by (rewrite ed25519_public_length; tauto). done.
    + apply base64_nonempty. intros E. pose proof (ed25519_public_length (sn_key s)) as Hl.
      by rewrite E in Hl.
  - by rewrite decide_False by tauto.
Qed.

(** A send the server has no reason to refuse is stored. *)
Lemma run_send (q : Queue) (s : Sender) (r : Request) (ciphertext : bytes) (opts : SendOptions)
    (e : Env) (w : World) :
  let db := ready_db q s (w_db w) in
  let id := fresh_id "msg_" (st_rnd (w_st w)) in
  db_ok (w_db w) -> st_faults (w_st w) = [] -> (9 <= length (st_rnd (w_st w)))%nat ->
  q ∈ (w_db w).(queues) -> accepts q s -> in_time e (sn_sender_id s) w ->
  signed_by (sn_key s) e r -> header r HeaderSenderKey = b64 (ed25519_public (sn_key s)) ->
  r_body r = request_body (Some (send_body ciphertext opts)) -> is_int64 (so_ttl opts) ->
  0 < Z.of_nat (length ciphertext) <= maxPayloadBytes -> id ∉ m_id <$> (w_db w).(messages) ->
  fits (q_recipient_id q) (Z.of_nat (length ciphertext)) (sec (w_clock w)) (w_db w) ->
  (run (handleSend (sn_sender_id s) r) w).1 = writeJSON StatusAccepted (BMessageID id) /\
  w_db (run (handleSend (sn_sender_id s) r) w).2 = appended_db id (q_recipient_id q) ciphertext
    (sec (w_clock w)) (sec (w_clock w + send_ttl opts)) db.
Proof.
  intros db id Hok Hf Hr Hq Ha Ht Hs Hh Hb Hread Hlen Hid Hfit. pose proof Ha as (Hsid & Hret & Hkey).
  pose proof (ok_integrity _ Hok) as Hi.
  assert (sql_first (fun x => q_sender_id x = sn_sender_id s) (w_db w).(queues) = Some q) as Hfirst
    by (rewrite <- Hsid; by apply sql_first_key; [apply Hi|]).
  destruct (run_verify_signed (sn_key s) e (sn_sender_id s) r w Ht) as (seen & Hv).
  unfold handleSend. run_step. unfold GetQueueBySender. rewrite (queue_found _ q) by done.
  cbn [fst snd]. rewrite Hret. destruct w as [st nonces pings]. cbn [w_st w_nonces w_pings] in *.
  rewrite run_bind, (run_extract_signed _ _ _ _ _ Ht Hs), (resolveSenderKey_accepts _ _ _ Ha Hh).
  rewrite run_bind, Hv. cbn [negb]. cbn [env_body]. rewrite Hb. unfold w_db, w_clock in *. cbn [w_st] in *.
  subst db. unfold ready_db. destruct (q_sender_key q) as [k|] eqn:Ek; cbn [negb];
    [rewrite bool_decide_false by done|rewrite bool_decide_true by done]; cbn [negb].
  - by apply storeMessage_fits.
  - assert (length (ed25519_public (sn_key s)) = PublicKeySize) as Hl by apply ed25519_public_length.
    assert (bindable (q_sender_id q) q) as Hbind by done.
    assert (db_ok (bound_db (q_sender_id q) (ed25519_public (sn_key s)) (st_db st))) as Hok'.
    { eapply (db_step_ok 0); [exact Hok|]. by apply step_bind. }
    run_step. rewrite <- Hsid, BindSenderKey_total by done. cbn [fst snd].
    match goal with |- context [run _ ?w1] =>
      apply (storeMessage_fits q ciphertext opts w1); try done end.
    apply fits_bound; [done|apply Hok'|done].
Qed.

(** ** Receiving *)

(** What the client makes of a stored message. *)
Definition client_message (m : MessageRow) : ClientMessage :=
  mkClientMessage (m_id m) (m_payload m) (parseTime (rfc3339 (m_received_at m)))
    (parseTime (rfc3339 (m_expires m))).

(** The reply to a receive. *)
Definition recv_reply (rid : string) (w : World) : body :=
  BMessages ((fun m => to_message_view (to_message m)) <$>
    live_messages rid (sec (w_clock w)) (w_db w)).

Lemma run_recv (q : Queue) (key : bytes) (r : Request) (e : Env) (w : World) :
  db_ok (w_db w) -> st_faults (w_st w) = [] ->
  q ∈ (w_db w).(queues) -> q_retired q = false -> q_recipient_key q = ed25519_public key ->
  in_time e (q_recipient_id q) w -> signed_by key e r ->
  (run (handleRecv (q_recipient_id q) r) w).1 = writeJSON StatusOK (recv_reply (q_recipient_id q) w).
Proof.
  intros Hok Hf Hq Hret Hkey Ht Hs. pose proof (ok_integrity _ Hok) as Hi.
  destruct (run_verify_signed key e (q_recipient_id q) r w Ht) as (seen & Hv).
  unfold handleRecv, requireRecipient, authorizeRecipient. run_step. run_step.
  unfold GetQueueByRecipient. rewrite (queue_found _ q) by (done || by apply sql_first_key; [apply Hi|]).
  cbn [fst snd]. rewrite Hret. destruct w as [[db clock rnd faults] nonces pings].
  cbn [w_st w_nonces w_pings st_faults] in *. unfold w_db, w_clock in *. cbn in Hf, Hi. subst faults.
  rewrite run_bind, (run_extract_signed _ _ _ _ _ Ht Hs), run_bind, Hkey, Hv. cbn [negb].
  rewrite run_ret. unfold recv_queue. run_step.
  rewrite (proj1 (drain_total (q_recipient_id q) db clock rnd Hi)). rewrite run_ret.
  unfold recv_reply, w_clock, w_db. cbn [w_st fst]. by rewrite <- list_fmap_compose.
Qed.

Lemma read_message_view (m : MessageRow) :
  read_message (to_message_view (to_message m)) = Some (client_message m).
Proof. unfold read_message. cbn. by rewrite base64_std_decode_encode. Qed.

(** A message whose identifier and times can be written. *)
Definition legible (m : MessageRow) : Prop :=
  utf8 (m_id m) /\ four_digit_year (m_received_at m) /\ four_digit_year (m_expires m).

Lemma recv_reply_ok (rid : string) (w : World) :
  Forall legible (live_messages rid (sec (w_clock w)) (w_db w)) -> body_ok (recv_reply rid w).
Proof.
  intros Hl. split; [|constructor]. unfold recv_reply. cbn [body_texts]. apply Forall_bind_elem, Forall_fmap.
  eapply Forall_impl; [exact Hl|]. intros m (Hid & Hr & He). cbn.
  repeat apply Forall_cons_2; [done|apply utf8_base64|by apply utf8_rfc3339..|constructor].
Qed.

Lemma plain_nonempty (s : string) : plain s -> s <> ""%string.
Proof. by intros [? _]. Qed.

(** The literal segments of the queue routes are plain. *)
Lemma plain_route (verb id : string) :
  verb ∈ ["send"; "recv"; "ack"; "retire"; "quota"]%string -> plain id ->
  Forall plain ["v1"; verb; id]%string.
Proof.
  intros Hv Hid. assert (Forall plain ["v1"; "send"; "recv"; "ack"; "retire"; "quota"]%string) as Hp
    by (apply (bool_decide_unpack _); by vm_compute).
  apply Forall_cons in Hp as [Hv1 Hp]. rewrite Forall_forall in Hp. by repeat (apply Forall_cons; split; [auto|]).
Qed.

(** The client's receive is what the server's handler answers to it, if the reply can
    be read. *)
Lemma client_recv (q : Queue) (rc : Recipient) (e : Env) (w : World) :
  db_ok (w_db w) -> st_faults (w_st w) = [] -> plain (rc_recipient_id rc) ->
  q ∈ (w_db w).(queues) -> q_recipient_id q = rc_recipient_id rc -> q_retired q = false ->
  q_recipient_key q = ed25519_public (rc_key rc) -> in_time e (rc_recipient_id rc) w ->
  Forall legible (live_messages (rc_recipient_id rc) (sec (w_clock w)) (w_db w)) ->
  (Recipient_Recv (direct version) rc e w).1 =
    if decide (Z.of_nat (String.length (body_text (recv_reply (rc_recipient_id rc) w))) > maxResponseBytes)
    then inl ErrReply
    else inr (client_message <$> live_messages (rc_recipient_id rc) (sec (w_clock w)) (w_db w)).
Proof.
  intros Hok Hf Hp Hq Hid Hret Hkey Ht Hleg. pose proof Ht as (Hr & _).
  destruct (new_request_signed (rc_key rc) "GET" ["v1"; "recv"; rc_recipient_id rc]%string ∅ None e)
    as (r & Hnew & Hm & Hs & Hc & _ & Hsig & _); [done| |done|done|].
  { apply plain_route; [by right; left|done]. }
  unfold Recipient_Recv, do, exchange, direct.
  change ("/v1/recv/" +:+ rc_recipient_id rc)
    with ("/" +:+ String.concat "/" ["v1"; "recv"; rc_recipient_id rc]%string).
  rewrite Hnew. rewrite (serve_one r (mkRoute "GET" [Lit "v1"; Lit "recv"; Wild] (one handleRecv))
    [rc_recipient_id rc]) by (done || (rewrite Hs; by apply path_recv, plain_nonempty)).
  cbn [rt_handler]. unfold one. cbn [head default from_option id].
  rewrite <- Hid in Ht |- *. pose proof (run_recv q (rc_key rc) r e w Hok Hf Hq Hret Hkey Ht Hsig) as Hrun.
  destruct (run (handleRecv (q_recipient_id q) r) w) as [resp w']. cbn in Hrun. subst resp.
  rewrite decide_False by (cbn; unfold StatusOK; lia). cbn [resp_body writeJSON].
  rewrite read_reply_spec by (apply recv_reply_ok; by rewrite Hid).
  case_decide as Hsize; [done|]. unfold recv_reply. cbn [json_of_body mbind option_bind].
  set (msgs := live_messages _ _ _).
  rewrite (read_list "messages" no_message into_message json_message) by (apply Forall_true, message_read).
  cbn [mbind option_bind].
  assert (mapM read_message ((fun m => to_message_view (to_message m)) <$> msgs) =
    Some (client_message <$> msgs)) as ->; [|done].
  induction msgs as [|m l IH]; [done|]. rewrite !fmap_cons. cbn [mapM].
  rewrite read_message_view. cbn [mbind option_bind]. by rewrite IH.
Qed.

(** The reply to a send is short, and can be written. *)
Lemma message_id_reply (r : bytes) :
  utf8 (fresh_id "msg_" r) /\
  Z.of_nat (String.length (body_text (BMessageID (fresh_id "msg_" r)))) <= maxResponseBytes.
Proof.
  assert (Forall copied (chars (fresh_id "msg_" r))) as Hc.
  { unfold fresh_id. rewrite chars_app. apply Forall_app. split.
    - unfold copied. apply (bool_decide_unpack _). by vm_compute.
    - eapply Forall_impl; [apply hex_encode_chars|].
      assert (Forall copied hex_alphabet) as HF
        by (unfold copied; apply (bool_decide_unpack _); by vm_compute).
      rewrite Forall_forall in HF. exact HF. }
  split; [apply utf8_ascii; eapply Forall_impl; [exact Hc|by intros c [? _]]|].
  unfold body_text. cbn [json_of_body print map fst snd String.concat]. unfold print_string.
  rewrite (escape_copied _ Hc). assert (escape "message_id" = "message_id"%string) as -> by by vm_compute.
  unfold fresh_id. rewrite !str_length_app, hex_encode_length, length_take.
  change maxResponseBytes with 1048576. cbn [String.length quote]. lia.
Qed.

Lemma client_send (q : Queue) (s : Sender) (ciphertext : bytes) (opts : SendOptions) (e : Env) (w : World) :
  let mid := fresh_id "msg_" (st_rnd (w_st w)) in
  db_ok (w_db w) -> st_faults (w_st w) = [] -> (9 <= length (st_rnd (w_st w)))%nat ->
  q ∈ (w_db w).(queues) -> accepts q s -> plain (sn_sender_id s) -> in_time e (sn_sender_id s) w ->
  is_int64 (so_ttl opts) -> 0 < Z.of_nat (length ciphertext) <= maxPayloadBytes ->
  mid ∉ m_id <$> (w_db w).(messages) ->
  fits (q_recipient_id q) (Z.of_nat (length ciphertext)) (sec (w_clock w)) (w_db w) ->
  (Sender_Send (direct version) s ciphertext opts e w).1 = inr mid /\
  w_db (Sender_Send (direct version) s ciphertext opts e w).2 = appended_db mid (q_recipient_id q) ciphertext
    (sec (w_clock w)) (sec (w_clock w + send_ttl opts)) (ready_db q s (w_db w)).
Proof.
  intros mid Hok Hf Hrnd Hq Ha Hp Ht Hread Hlen Hid Hfit. pose proof Ht as (Hr & _).
  destruct (new_request_signed (sn_key s) "POST" ["v1"; "send"; sn_sender_id s]%string
    {[HeaderSenderKey := b64 (ed25519_public (sn_key s))]} (Some (send_body ciphertext opts)) e)
    as (r & Hnew & Hm & Hs & Hc & Hb & Hsig & Hh);
    [done|by apply plain_route; [left|]|done|by apply send_body_length; lia|].
  assert (header r HeaderSenderKey = b64 (ed25519_public (sn_key s))) as Hhdr
    by (rewrite Hh by done; by rewrite lookup_singleton_eq).
  unfold Sender_Send, do, exchange, direct. change ("/v1/send/" +:+ sn_sender_id s)
    with ("/" +:+ String.concat "/" ["v1"; "send"; sn_sender_id s]%string).
  rewrite Hnew. rewrite (serve_one r (mkRoute "POST" [Lit "v1"; Lit "send"; Wild] (one handleSend))
    [sn_sender_id s]) by (done || (rewrite Hs; by apply path_send, plain_nonempty)).
  cbn [rt_handler]. unfold one. cbn [head default from_option id].
  destruct (run_send q s r ciphertext opts e w) as [Hres Hdb]; try done.
  destruct (run (handleSend (sn_sender_id s) r) w) as [resp w']. cbn in Hres. subst resp.
  destruct (message_id_reply (st_rnd (w_st w))) as [Hu Hlong].
  rewrite decide_False by (cbn; unfold StatusAccepted; lia). cbn [resp_body writeJSON].
  rewrite read_reply_spec by (by split; [apply Forall_singleton|]). rewrite decide_False by (subst mid; lia).
  by split.
Qed.

(** The queue a message was sent to, afterwards. *)
Lemma queue_after_send (q : Queue) (s : Sender) (db : DB) :
  q ∈ db.(queues) ->
  exists q', q' ∈ (ready_db q s db).(queues) /\ q_recipient_id q' = q_recipient_id q /\
    q_retired q' = q_retired q /\ q_recipient_key q' = q_recipient_key q.
Proof.
  intros Hq. unfold ready_db. destruct (q_sender_key q); [by exists q|].
  exists (if decide (bindable (q_sender_id q) q) then q_bind (ed25519_public (sn_key s)) q else q).
  split; [|by case_decide]. apply elem_of_sql_update. by exists q.
Qed.

(** C30: end to end, what one client sends the other receives. With a working driver,
    clocks in agreement, new nonces, and a live queue that is open or bound to this
    sender and has room, [Sender.Send] returns the identifier of a new message; a
    [Recipient.Recv] at any later moment before it expires, with nothing called in
    between, returns the messages that were live in the queue, in order, and after
    them exactly the bytes that were sent; as long as the reply is one the client can
    read. *)
Theorem client_send_then_receive (q : Queue) (s : Sender) (rc : Recipient) (ciphertext : bytes)
    (opts : SendOptions) (e e2 : Env) (w w2 : World) :
  let mid := fresh_id "msg_" (st_rnd (w_st w)) in
  let expires := sec (w_clock w + send_ttl opts) in
  let rid := rc_recipient_id rc in
  db_ok (w_db w) -> st_faults (w_st w) = [] -> (9 <= length (st_rnd (w_st w)))%nat ->
  q ∈ (w_db w).(queues) -> accepts q s -> plain (sn_sender_id s) -> in_time e (sn_sender_id s) w ->
  is_int64 (so_ttl opts) -> 0 < Z.of_nat (length ciphertext) <= maxPayloadBytes ->
  mid ∉ m_id <$> (w_db w).(messages) ->
  fits rid (Z.of_nat (length ciphertext)) (sec (w_clock w)) (w_db w) ->
  q_recipient_id q = rid -> q_recipient_key q = ed25519_public (rc_key rc) -> plain rid ->
  w_db w2 = w_db (Sender_Send (direct version) s ciphertext opts e w).2 -> st_faults (w_st w2) = [] ->
  in_time e2 rid w2 -> sec (w_clock w2) < expires ->
  Forall legible (live_messages rid (sec (w_clock w2)) (w_db w)) ->
  four_digit_year (sec (w_clock w)) -> four_digit_year expires ->
  Z.of_nat (String.length (body_text (recv_reply rid w2))) <= maxResponseBytes ->
  (Sender_Send (direct version) s ciphertext opts e w).1 = inr mid /\
  (Recipient_Recv (direct version) rc e2 w2).1 =
    inr ((client_message <$> live_messages rid (sec (w_clock w2)) (w_db w)) ++
         [mkClientMessage mid ciphertext (parseTime (rfc3339 (sec (w_clock w))))
            (parseTime (rfc3339 expires))]).
Proof.
  intros mid expires rid Hok Hf Hrnd Hq Ha Hps Ht Hread Hlen Hmid Hfit Hrid Hkey Hpr Hdb2 Hf2 Ht2 Hexp Hleg Hyear Hyear' Hsize.
  pose proof Ha as (_ & Hret & _). rewrite <- Hrid in Hfit.
  destruct (client_send q s ciphertext opts e w Hok Hf Hrnd Hq Ha Hps Ht Hread Hlen Hmid Hfit) as [Hres Hdb].
  split; [exact Hres|]. rewrite Hdb in Hdb2.
  assert (db_ok (w_db w2)) as Hok2.
  { rewrite Hdb2, <- Hdb. unfold Sender_Send, do, exchange, direct. destruct (new_request _ _ _ _ _ _) as [r|]; [|done].
    assert (db_ok (w_db (run (ServeHTTP version r) w).2)) as Hrun
      by (eapply db_steps_ok; [by apply run_steps|done]).
    destruct (run (ServeHTTP version r) w) as [resp w']. case_decide; [done|].
    by destruct (read_reply _ ≫= _). }
  destruct (queue_after_send q s (w_db w) Hq) as (q' & Hq' & Hid' & Hret' & Hkey').
  assert (q' ∈ (w_db w2).(queues)) as Hq2 by by rewrite Hdb2.
  assert (exists m, live_messages rid (sec (w_clock w2)) (w_db w2) =
    live_messages rid (sec (w_clock w2)) (w_db w) ++ [m] /\ legible m /\
    client_message m = mkClientMessage mid ciphertext (parseTime (rfc3339 (sec (w_clock w))))
      (parseTime (rfc3339 expires))) as (m & Hlive & Hm & Ecm).
  { exists (mkMessageRow (messages_seq (ready_db q s (w_db w)) + 1) mid rid ciphertext (sec (w_clock w)) expires).
    split; [|by split; [split_and!; [apply message_id_reply|done|done]|]].
    rewrite Hdb2, Hrid, live_messages_appended by (fold expires; lia).
    unfold ready_db. by destruct (q_sender_key q). }
  rewrite (client_recv q'); try (subst rid; first [done|congruence]);
    [|subst rid; rewrite Hlive; by apply Forall_app_2, Forall_singleton].
  rewrite decide_False by (fold rid; lia). fold rid. by rewrite Hlive, fmap_app, <- Ecm.
Qed.

(** ** Too much to receive *)

(** The client reads at most one mebibyte of a reply, and the server answers a
    receive with everything the queue holds: on a queue with more than 786432 live
    bytes, which the quotas allow, a receive that the server answers fails in the
    client, so that nothing can be read or acknowledged until enough has expired. *)
Theorem oversized_receive_fails (q : Queue) (rc : Recipient) (e : Env) (w : World) :
  db_ok (w_db w) -> st_faults (w_st w) = [] -> plain (rc_recipient_id rc) ->
  q ∈ (w_db w).(queues) -> q_recipient_id q = rc_recipient_id rc -> q_retired q = false ->
  q_recipient_key q = ed25519_public (rc_key rc) -> in_time e (rc_recipient_id rc) w ->
  Forall legible (live_messages (rc_recipient_id rc) (sec (w_clock w)) (w_db w)) ->
  queue_bytes (rc_recipient_id rc) (sec (w_clock w)) (w_db w) > 786432 ->
  (Recipient_Recv (direct version) rc e w).1 = inl ErrReply.
Proof.
  intros Hok Hf Hp Hq Hid Hret Hkey Ht Hleg Hbytes. rewrite (client_recv q) by done.
  rewrite decide_True; [done|]. revert Hbytes. unfold queue_bytes, recv_reply.
  fold (live_messages (rc_recipient_id rc) (sec (w_clock w)) (w_db w)).
  set (msgs := live_messages _ _ _). intros Hbytes.
  assert (Forall (fun v => exists b, mv_payload v = base64_std_encode b)
    ((fun m => to_message_view (to_message m)) <$> msgs)) as Hv
    by (apply Forall_fmap, Forall_true; intros m; by exists (m_payload m)).
  pose proof (messages_length _ Hv) as Hl. clear Hv. revert Hl. rewrite <- list_fmap_compose.
  assert (forall l, 4 * sql_sum m_size l <= 3 * Z.of_nat (sum_list
    ((fun m => String.length (mv_payload (to_message_view (to_message m)))) <$> l))) as Hsum.
  { induction l as [|m l IH]; [done|]. rewrite fmap_cons, sql_sum_cons.
    change (sum_list (?n :: ?k)) with (n + sum_list k)%nat.
    assert (4 * m_size m <= 3 * Z.of_nat (String.length (mv_payload (to_message_view (to_message m)))))
      by (pose proof (base64_length (m_payload m)) as Hb;
          change (4 * Z.of_nat (length (m_payload m)) <=
            3 * Z.of_nat (String.length (base64_std_encode (m_payload m)))); lia).
    lia. }
  specialize (Hsum msgs). change maxResponseBytes with 1048576. unfold compose. lia.
Qed.
End queues.

(** ** Evaluated on the small deployment *)

Section examples.
Import Web.

Definition env1 : Env := mkEnv (t0 + 9 * Second) (replicate 16 x30).
Definition admin : ClientDevice := mkClientDevice dev1 acc key1.
Definition admin_row : Device :=
  mkDevice dev1 acc (ed25519_public key1) "https://push/1" "" 1700000003 1700000003 false RoleAdmin 0.
Definition queue1 : Queue :=
  mkQueue rcp snd dev1 (ed25519_public qkey) (Some (ed25519_public skey)) 1700000005 false 0.
Definition account1 : Account := mkAccount acc 1700000000 "standard" "active" 67108864 AdminModeManaged.
Definition sender1 : Sender := mkSender snd skey.
Definition recipient1 : Recipient := mkRecipient rcp qkey.
Definition opts1 : SendOptions := mkSendOptions (60 * Second) false.

Lemma in_time1 (p : string) (w : World) :
  w_clock w = t0 + 10 * Second -> w_nonces w = ∅ -> in_time env1 p w.
Proof.
  intros Hc Hn. unfold in_time. rewrite Hc, Hn.
  split_and!; [by vm_compute; lia|by vm_compute..|by apply lookup_empty].
Qed.

Lemma queue1_in : queue1 ∈ db0.(queues).
Proof. apply (list_elem_of_lookup_2 _ 0). by vm_compute. Qed.
Lemma admin_in : admin_row ∈ db0.(devices).
Proof. apply (list_elem_of_lookup_2 _ 0). by vm_compute. Qed.
Lemma account1_in : account1 ∈ db0.(accounts).
Proof. apply (list_elem_of_lookup_2 _ 0). by vm_compute. Qed.

Lemma w_db_mk (db : DB) (clock : Z) (rnd : bytes) (nonces : gmap string Z) :
  w_db (mkWorld (mkSt db clock rnd []) nonces []) = db.
Proof. done. Qed.

Lemma fits1 (size : Z) : 0 <= size <= 60000000 -> fits rcp size 1700000010 db0.
Proof.
  intros Hs. exists queue1, admin_row, account1.
  split_and!; [apply queue1_in|done|apply admin_in|done|apply account1_in|done|by left|by left|right].
  assert (account_bytes (a_id account1) 1700000010 db0 = 5) as -> by by vm_compute.
  change (a_quota_bytes account1) with 67108864.
  rewrite wrap64_id; [lia|unfold is_int64; lia].
Qed.

Lemma client_request_admitted_witness :
  exists r seen, new_request (Some key1) "POST" "/v1/queues" (device_headers admin)
      (Some (JObj [("recipient_key"%string, JStr (b64 (ed25519_public qkey)))])) env1 = Some r /\
    r_method r = "POST"%string /\ r_segments r = ["v1"; "queues"]%string /\ r_clean r = true /\
    run (requireSignature handleCreateQueue r) w0 =
      run (handleCreateQueue admin_row
             (request_body (Some (JObj [("recipient_key"%string, JStr (b64 (ed25519_public qkey)))]))))
        (mkWorld (mkSt (seen_at dev1 (sec (w_clock w0)) (w_db w0)) (w_clock w0) (st_rnd (w_st w0)) [])
           seen (w_pings w0)).
Proof.
  apply (client_request_admitted admin admin_row "POST" ["v1"; "queues"]%string
    (Some (JObj [("recipient_key"%string, JStr (b64 (ed25519_public qkey)))])) env1 w0 handleCreateQueue).
  - apply db0_ok.
  - reflexivity.
  - apply admin_in.
  - reflexivity.
  - reflexivity.
  - by vm_compute.
  - reflexivity.
  - done.
  - apply (bool_decide_unpack _). by vm_compute.
  - by vm_compute.
  - by apply in_time1.
Defined.

Lemma legible_plain (l : list MessageRow) :
  Forall (fun m => Forall (fun c => (N_of_ascii c < 128)%N) (chars (m_id m)) /\
    (-62167219200 <= m_received_at m < 253402300800) /\ -62167219200 <= m_expires m < 253402300800) l ->
  Forall legible l.
Proof. intros Hl. eapply Forall_impl; [exact Hl|]. intros m (? & ? & ?). split_and!; [by apply utf8_ascii|done|done]. Qed.

Lemma legible0 : Forall legible (live_messages rcp 1700000010 db0).
Proof. apply legible_plain, (bool_decide_unpack _). by vm_compute. Qed.

(** The message that comes back ten seconds after it was sent. *)
Lemma client_send_then_receive_witness :
  let w1 := (Sender_Send (direct "v") sender1 hello opts1 env1 w0).2 in
  let w2 := mkWorld (mkSt (w_db w1) (t0 + 10 * Second) [] []) ∅ [] in
  (Sender_Send (direct "v") sender1 hello opts1 env1 w0).1 = inr (fresh_id "msg_" (rnd x08)) /\
  (Recipient_Recv (direct "v") recipient1 env1 w2).1 =
    inr ((client_message <$> live_messages rcp (sec (w_clock w2)) (w_db w0)) ++
         [mkClientMessage (fresh_id "msg_" (rnd x08)) hello (parseTime (rfc3339 (sec (w_clock w0))))
            (parseTime (rfc3339 (sec (w_clock w0 + send_ttl opts1))))]).
Proof.
  intros w1 w2.
  apply (client_send_then_receive "v" queue1 sender1 recipient1 hello opts1 env1 env1 w0 w2).
  - apply db0_ok.
  - reflexivity.
  - vm_compute. lia.
  - apply queue1_in.
  - split_and!; [done|done|by right].
  - apply (bool_decide_unpack _). by vm_compute.
  - by apply in_time1.
  - by vm_compute.
  - by vm_compute.
  - intros Hin. vm_compute in Hin. by apply list_elem_of_singleton in Hin.
  - by apply fits1.
  - reflexivity.
  - reflexivity.
  - apply (bool_decide_unpack _). by vm_compute.
  - unfold w2. by rewrite w_db_mk.
  - reflexivity.
  - by apply in_time1.
  - by vm_compute.
  - exact legible0.
  - by vm_compute.
  - by vm_compute.
  - by vm_compute.
Defined.

(** A queue with one large message on top. *)
Definition big : bytes := replicate (Z.to_nat 800000) x00.
Definition full_db : DB := appended_db "msg_big" rcp big 1700000010 1700003610 db0.

Lemma big_length : Z.of_nat (length big) = 800000.
Proof. unfold big. rewrite length_replicate. lia. Qed.

Lemma full_db_ok : db_ok full_db.
Proof.
  eapply (db_step_ok 1700000010); [apply db0_ok|]. apply step_append.
  - apply (bool_decide_unpack _). by vm_compute.
  - rewrite big_length. by apply fits1.
Qed.

Lemma full_db_bytes : queue_bytes rcp (sec (t0 + 10 * Second)) full_db > 786432.
Proof.
  unfold queue_bytes. fold (live_messages rcp (sec (t0 + 10 * Second)) full_db).
  unfold full_db. rewrite live_messages_appended, sql_sum_app by by vm_compute.
  pose proof (sql_sum_nonneg m_size (live_messages rcp (sec (t0 + 10 * Second)) db0) m_size_nonneg).
  assert (sql_sum m_size [mkMessageRow (messages_seq db0 + 1) "msg_big" rcp big 1700000010 1700003610] =
    Z.of_nat (length big)) as -> by (unfold sql_sum, m_size; cbn -[big]; lia).
  rewrite big_length. lia.
Qed.

Lemma oversized_receive_fails_witness :
  (Recipient_Recv (direct "v") recipient1 env1 (mkWorld (mkSt full_db (t0 + 10 * Second) [] []) ∅ [])).1 =
    inl ErrReply.
Proof.
  apply (oversized_receive_fails "v" queue1 recipient1 env1
    (mkWorld (mkSt full_db (t0 + 10 * Second) [] []) ∅ [])).
  - apply full_db_ok.
  - reflexivity.
  - apply (bool_decide_unpack _). by vm_compute.
  - exact queue1_in.
  - reflexivity.
  - reflexivity.
  - reflexivity.
  - by apply in_time1.
  - change (Forall legible (live_messages rcp 1700000010 full_db)). unfold full_db.
    rewrite live_messages_appended by by vm_compute. apply Forall_app_2; [exact legible0|].
    apply Forall_singleton. split_and!; [utf8_literal|by vm_compute|by vm_compute].
  - apply full_db_bytes.
Defined.
End examples.
