(* ===== verification/Replay.v ===== *)
(** * When a captured request passes again

    [Gate.replay_rejected] says for how long a captured request is refused. Here is when it
    is not: when its nonce is looked up after it has expired, although its timestamp was
    checked before - the body being read in between - and when the process has been started
    again, as the nonces are in memory. *)

From S2P Require Import Prelude Encoding Clock Sql Schema StoreM Crypto Sigauth Accounts Devices Queues Blobs.
From S2P Require Import Steps Invariants Evolution Refine Store Demo World Http Auth Push Transport DemoServer.
From S2P Require Import Gate Grain Recovery EndToEnd.

Local Open Scope Z_scope.

(** ** The gate, in two parts *)

Section gate.
Context `{Crypto}.

(** [authenticate] after the envelope of the request has been extracted. *)
Definition admit_envelope (r : Request) (env : sigEnvelope) : proc (option (Device * bytes)) :=
  dev ← call_store (OpGetDevice (header r HeaderDeviceID));
  match dev with
  | inl _ => mret None
  | inr dev =>
      if d_revoked dev then mret None else
      ok ← verifyAndRecord r env (header r HeaderDeviceID) (d_public_key dev);
      if negb ok then mret None else
      _ ← call_store (OpTouchLastSeen (header r HeaderDeviceID));
      mret (Some (dev, env_body env))
  end.

(** A request that has passed once reads the clock first, and whenever that is within the
    skew of its timestamp, comes to the second part with the same envelope. *)
Lemma passed_once (r : Request) (w : World) (dev : Device) (body : bytes) :
  (run (authenticate r) w).1 = Some (dev, body) ->
  exists k env, passed r w dev body /\ envelope_at (w_clock w) r env /\
    ed25519_verify (d_public_key dev)
      (SigningString (r_method r) (r_path r) (env_timestamp env) (env_nonce env) body) (env_signature env) = true /\
    authenticate r = Act AClock k /\
    forall now ts w', parse_rfc3339 (header r HeaderTimestamp) = Some ts ->
      - defaultClockSkew <= now - ts <= defaultClockSkew -> run (k now) w' = run (admit_envelope r env) w'.
Proof.
  intros Ha. pose proof (run_authenticate r w) as Hr. cbn zeta in Hr. rewrite Ha in Hr.
  destruct Hr as (_ & _ & Hp & _). pose proof Hp as (env & ts & He & _ & _ & _ & _ & _ & Hv & _).
  pose proof He as (ts' & Hts & _ & Hsig & Et & En & _ & Eb & Hrd).
  revert Ha. unfold authenticate. case_decide as Hid; [done|]. unfold extractSignature at 1 2.
  case_decide as Hh; [done|]. rewrite Hts, Hsig, Hrd. intros _.
  eexists _, env. split_and!; [done..|reflexivity|]. intros now ts0 w' [= <-] Hnow.
  cbn beta. rewrite decide_False by lia.
  destruct env as [t n sg b]. cbn in Et, En, Eb |- *. by rewrite Et, En, Eb.
Qed.

Lemma checkAndAdd_expired (key : string) (expiry now : Z) (seen : gmap string Z) :
  (forall e, seen !! key = Some e -> e <= now) -> (checkAndAdd key expiry now seen).1 = true.
Proof using.
  intros Hk. unfold checkAndAdd. destruct (filter _ seen !! key) as [e|] eqn:E; [|done].
  apply map_lookup_filter_Some in E as [E _]. rewrite decide_False; [done|]. specialize (Hk e E). lia.
Qed.

Lemma admitted (r : Request) (env : sigEnvelope) (dev : Device) (w : World) :
  db_ok (w_db w) -> st_faults (w_st w) = [] -> dev ∈ (w_db w).(devices) -> d_id dev = header r HeaderDeviceID ->
  live dev ->
  ed25519_verify (d_public_key dev)
    (SigningString (r_method r) (r_path r) (env_timestamp env) (env_nonce env) (env_body env)) (env_signature env) = true ->
  (forall e, w_nonces w !! nonce_key (d_id dev) (env_nonce env) = Some e -> e <= w_clock w) ->
  (run (admit_envelope r env) w).1 = Some (dev, env_body env).
Proof.
  intros Hok Hf Hd Hid Hl Hv Hn. unfold admit_envelope. run_step.
  rewrite <- Hid, GetDevice_found by (done || apply Hok). cbn [fst snd].
  unfold live in Hl. rewrite Hl. unfold verifyAndRecord. rewrite Hv. cbn [negb]. run_step. run_step.
  pose proof (checkAndAdd_expired _ (default 0 (parse_rfc3339 (env_timestamp env)) + defaultClockSkew) _ _ Hn) as Hc.
  unfold w_clock in Hc |- *. cbn [w_st w_nonces] in *.
  destruct (checkAndAdd _ _ _ _) as [ok seen]. cbn in Hc. subst ok. cbn [negb]. by run_step.
Qed.

(** The device of an earlier time, later. *)
Lemma device_later (db db' : DB) (dev : Device) :
  evolves db db' -> dev ∈ db.(devices) ->
  exists dev', dev' ∈ db'.(devices) /\ d_id dev' = d_id dev /\ d_account_id dev' = d_account_id dev /\
    d_public_key dev' = d_public_key dev.
Proof using.
  intros He Hd. destruct (ev_devices _ _ He dev Hd) as (dev' & Hd' & Hid & Ha & Hk & _). by exists dev'.
Qed.

(** The captured request comes to the second part of the gate in a later world in which its
    device is live, the driver works and its nonce is not remembered past now. *)
Lemma passes_again (r : Request) (w w' : World) (dev : Device) (body : bytes) (now ts : Z) :
  (run (authenticate r) w).1 = Some (dev, body) -> parse_rfc3339 (header r HeaderTimestamp) = Some ts ->
  - defaultClockSkew <= now - ts <= defaultClockSkew ->
  evolves (w_db w) (w_db w') -> db_ok (w_db w') -> st_faults (w_st w') = [] ->
  (forall d, d ∈ (w_db w').(devices) -> d_id d = d_id dev -> live d) ->
  (forall e, w_nonces w' !! nonce_key (d_id dev) (header r HeaderNonce) = Some e -> e <= w_clock w') ->
  exists k dev', authenticate r = Act AClock k /\ (run (k now) w').1 = Some (dev', body) /\
    d_id dev' = d_id dev /\ d_account_id dev' = d_account_id dev.
Proof.
  intros Ha Hts Hnow He Hok Hf Hlive Hn.
  destruct (passed_once r w dev body Ha) as (k & env & Hp & Henv & Hv & Hk & Hrun).
  destruct Hp as (_ & _ & _ & _ & Hbody & Hd & Hid & _).
  destruct Henv as (_ & _ & _ & _ & _ & En & _ & Eb & _).
  destruct (device_later _ _ dev He Hd) as (dev' & Hd' & Hid' & Hacc & Hkey).
  exists k, dev'. split_and!; [done| |done|done]. rewrite (Hrun now ts w' Hts Hnow), Hbody, <- Eb.
  apply admitted; try done; [congruence|by apply Hlive|by rewrite Hkey, Eb, <- Hbody|by rewrite Hid', En].
Qed.


(** C39: the replay protection does not survive a restart. After a request has passed the
    gate, let the process be stopped and started again, at any moment of any run. While
    the timestamp of the request is still within the clock skew, and its device is not
    revoked, the same request passes the gate of the new process. *)
Theorem restart_admits_replay (r : Request) (w w2 w3 : World) (ts : Z) (dev : Device) (body : bytes)
    (ps ps2 : list (proc Response)) :
  db_ok (w_db w) -> (run (authenticate r) w).1 = Some (dev, body) ->
  parse_rfc3339 (header r HeaderTimestamp) = Some ts ->
  rtc coarse_life ((run (authenticate r) w).2, ps) (w2, ps2) -> restarted w2 w3 ->
  w_clock w3 <= ts + defaultClockSkew -> st_faults (w_st w3) = [] ->
  (forall d, d ∈ (w_db w3).(devices) -> d_id d = d_id dev -> live d) ->
  exists dev', (run (authenticate r) w3).1 = Some (dev', body) /\
    d_id dev' = d_id dev /\ d_account_id dev' = d_account_id dev.
Proof.
  intros Hok Ha Hts H2 (Hc3 & Hdb3 & Hn3 & _) Hc Hf Hlive.
  destruct (run_steps (authenticate r) w Hok) as [Hd1 Hc1]. pose proof (db_steps_ok _ _ Hd1 Hok) as Hok1.
  destruct (coarse_lives_ok _ _ H2 Hok1) as (Hok2 & He2 & Hle2). cbn [fst] in *.
  destruct (passed_once r w dev body Ha) as (_ & env & _ & (ts' & Hts' & Hskew & _) & _).
  rewrite Hts in Hts'. injection Hts' as <-.
  destruct (passes_again r w w3 dev body (w_clock w3) ts) as (k & dev' & Hk & Hrun & Hids); try done; [lia|..].
  - rewrite Hdb3. etrans; [by apply db_steps_evolves|done].
  - by rewrite Hdb3.
  - intros e. unfold newNonceCache in Hn3. by rewrite Hn3, lookup_empty.
  - exists dev'. split; [|done]. by rewrite Hk.
Qed.
End gate.

(** ** On the demonstration server *)

Section examples.
Import Web.

(** The device that signs [create_queue]. *)
Definition signer : Device :=
  mkDevice Demo.dev1 Demo.acc (ed25519_public (Crypto := Toy.toy_crypto) Demo.key1)
    "https://push/1" "" 1700000003 1700000003 false RoleAdmin 0.



(** The world after [create_queue] has passed. *)
Definition passed_world : World := (run (authenticate create_queue) w0).2.

Lemma signer_live (db : DB) :
  forallb (fun d => negb (bool_decide (d_id d = d_id signer) && d_revoked d)) db.(devices) = true ->
  forall d, d ∈ db.(devices) -> d_id d = d_id signer -> live d.
Proof.
  intros Hall d Hd Hid. rewrite forallb_forall in Hall. specialize (Hall d (proj1 (list_elem_of_In _ _) Hd)).
  rewrite bool_decide_eq_true_2 in Hall by done. unfold live. by destruct (d_revoked d).
Qed.



(** The process started again a second after the request has passed. *)
Definition restart_world (w : World) : World :=
  mkWorld (mkSt (w_db w) (w_clock w + Second) [] []) newNonceCache (w_pings w).

Lemma restart_restarted (w : World) : restarted w (restart_world w).
Proof. unfold restarted, restart_world, w_clock, Second. cbn. split_and!; [lia|done..]. Qed.

Lemma restart_admits_replay_witness :
  exists dev', (run (authenticate create_queue) (restart_world passed_world)).1 = Some (dev', r_body create_queue) /\
    d_id dev' = Demo.dev1 /\ d_account_id dev' = Demo.acc.
Proof.
  apply (restart_admits_replay create_queue w0 passed_world (restart_world passed_world) Demo.t0 signer
    (r_body create_queue) [] []).
  - apply Demo.db0_ok.
  - by vm_compute.
  - by vm_compute.
  - apply rtc_refl.
  - apply restart_restarted.
  - by vm_compute.
  - reflexivity.
  - apply signer_live. by vm_compute.
Defined.
End examples.
