(* ===== verification/Tenancy.v ===== *)
(** * Tenant isolation and roles at the API

    A management request changes nothing outside the account of the device that
    signed it, and administrative acts take an admin. *)

From S2P Require Import Prelude Encoding Clock Sql Schema StoreM Crypto Sigauth Accounts Devices.
From S2P Require Import Queues Blobs Steps Invariants Evolution Refine Store Capacity Demo Isolation.
From S2P Require Import World Json Http Auth Push Management Transport Router DemoServer Gate Planes.

Local Open Scope Z_scope.

Section tenancy.
Context `{Crypto}.

(** Running [p] at [w] leaves what account [B] owns as it was. *)
Definition spares {A} (B : string) (p : proc A) (w : World) : Prop :=
  tenant B (w_db (run p w).2) = tenant B (w_db w).

Lemma spares_idle {A} (B : string) (p : proc A) (w : World) : idle p -> spares B p w.
Proof. intros Hp. unfold spares. by rewrite Hp. Qed.

Lemma spares_bind {A C} (B : string) (p : proc A) (k : A -> proc C) (w : World) :
  db_ok (w_db w) -> spares B p w ->
  (forall a w', db_ok (w_db w') -> evolves (w_db w) (w_db w') -> spares B (k a) w') ->
  spares B (p ≫= k) w.
Proof.
  intros Hok Hp Hk. unfold spares in *. rewrite run_bind.
  destruct (run_steps p w Hok) as [Hs _]. destruct (run p w) as [a w']. cbn in *.
  rewrite Hk; [done|by eapply db_steps_ok|by apply db_steps_evolves].
Qed.

(** A store call that concerns another account. *)
Lemma spares_call {A} (B : string) (op : store_op A) (w : World) :
  db_ok (w_db w) -> (forall ev, op_event op ev -> ~ touches B (w_db w) ev) ->
  spares B (call_store op) w.
Proof.
  intros Hok Hev. unfold spares, call_store. rewrite run_act. simpl.
  destruct (run_op_outcome op (w_st w) (ok_integrity _ Hok)) as (_ & _ & Ho).
  unfold w_db in *. destruct (run_op op (w_st w)) as [r s]. cbn in *.
  destruct Ho as [(_ & _ & ->)|[[->|(ev & Hstep & Hop)] _]]; [done|done|].
  eapply db_step_isolated; [exact Hok|exact Hstep|by apply Hev].
Qed.

Lemma ping_devices_idle (except : string) (devs : list Device) : idle (ping_devices except devs).
Proof.
  induction devs as [|d devs IH]; [apply idle_ret|]. cbn [ping_devices]. case_decide; [done|].
  by apply idle_bind.
Qed.

Lemma wakeAccountDevices_idle (acc except : string) : idle (wakeAccountDevices acc except).
Proof.
  apply idle_bind; [by apply idle_read|]. intros [e|devs]; [apply idle_ret|apply ping_devices_idle].
Qed.

(** The handlers behind the gate. *)
Inductive management : (Device -> bytes -> proc Response) -> Prop :=
  | m_list_devices : management handleListDevices
  | m_revoke id : management (handleRevoke id)
  | m_set_role id : management (handleSetRole id)
  | m_get_bundle id : management (handleGetBundle id)
  | m_set_bundle : management handleSetBundle
  | m_create_invitation : management handleCreateInvitation
  | m_list_invitations : management handleListInvitations
  | m_revoke_invitation id : management (handleRevokeInvitation id)
  | m_update_push : management handleUpdatePush
  | m_get_quota : management handleGetQuota
  | m_append_statement : management handleAppendStatement
  | m_list_statements since : management (handleListStatements since)
  | m_create_queue : management handleCreateQueue.

(** A call on behalf of a device of another account than [B]. *)
Ltac elsewhere :=
  apply spares_call; [done|]; intros []; simpl; try done; intros; destr; subst; congruence.

(** Work through the branches of a handler. *)
Ltac branches :=
  repeat match goal with
  | |- spares _ (mret _) _ => by apply spares_idle, idle_ret
  | |- spares _ (wakeAccountDevices _ _) _ => apply spares_idle, wakeAccountDevices_idle
  | |- spares _ (dispatchPing _ _) _ => by apply spares_idle
  | |- spares _ (match ?d with _ => _ end) _ => destruct d
  | |- spares _ (_ ≫= _) _ => apply spares_bind; [done| |intros ? ? ? ?]
  end.

(** The target of a revocation is looked up first, and must be of the same account. *)
Lemma handleRevoke_spares (id B : string) (dev : Device) (body : bytes) (w : World) :
  db_ok (w_db w) -> d_account_id dev <> B -> spares B (handleRevoke id dev body) w.
Proof.
  intros Hok Hne. unfold handleRevoke, spares. run_step.
  destruct (GetDevice_result id (w_st w)) as (Hdb & _ & Hd).
  destruct (GetDevice id (w_st w)) as [[e|target] s1]; cbn in Hdb, Hd; cbn [fst snd];
    [by destruct e; unfold w_db; cbn; rewrite Hdb|].
  destruct (Hd target eq_refl) as [Hin Hid]. set (w1 := mkWorld s1 (w_nonces w) (w_pings w)).
  assert (w_db w1 = w_db w) as Hw1 by exact Hdb. rewrite <- Hw1.
  case_decide as Hacc; [done|]. case_decide; [done|].
  assert (device_account id (w_db w1) <> Some B) as HnB.
  { rewrite <- Hid, device_account_in; [congruence|rewrite Hw1; apply Hok|by rewrite Hw1]. }
  assert (db_ok (w_db w1)) as Hok1 by by rewrite Hw1.
  match goal with |- tenant _ (w_db (run ?p _).2) = _ => change (spares B p w1) end.
  branches. elsewhere.
Qed.

Lemma management_spares (next : Device -> bytes -> proc Response) (B : string) (dev : Device)
    (body : bytes) (w : World) :
  management next -> db_ok (w_db w) -> device_account (d_id dev) (w_db w) = Some (d_account_id dev) ->
  d_account_id dev <> B -> spares B (next dev body) w.
Proof.
  intros Hm Hok Hd Hne. assert (device_account (d_id dev) (w_db w) <> Some B) as HnB by congruence.
  destruct Hm.
  - unfold handleListDevices. branches; elsewhere.
  - by apply handleRevoke_spares.
  - unfold handleSetRole. branches; elsewhere.
  - unfold handleGetBundle. branches; elsewhere.
  - unfold handleSetBundle. branches; elsewhere.
  - unfold handleCreateInvitation. branches; elsewhere.
  - unfold handleListInvitations. branches; elsewhere.
  - unfold handleRevokeInvitation. branches; elsewhere.
  - unfold handleUpdatePush. branches; elsewhere.
  - unfold handleGetQuota. branches; elsewhere.
  - unfold handleAppendStatement. branches; elsewhere.
  - unfold handleListStatements. branches; elsewhere.
  - unfold handleCreateQueue. branches; elsewhere.
Qed.
(** C11: tenants are isolated: if a management request, whichever its handler, changes
    anything account [B] owns (its devices, invitations, queues, messages, bundles or
    log), then it passed the gate with the signature of a live device of [B]. *)
Theorem tenant_isolation (next : Device -> bytes -> proc Response) (r : Request) (w : World) (B : string) :
  management next -> db_ok (w_db w) ->
  tenant B (w_db (run (requireSignature next r) w).2) <> tenant B (w_db w) ->
  exists dev, passed r w dev (limited_body r) /\ d_account_id dev = B.
Proof.
  intros Hm Hok Hch. destruct (gate_cases next r w) as [(_ & Hdb & _)|(dev & body & w1 & Hp & Ht & _ & _ & Hout)].
  { by rewrite Hdb in Hch. }
  pose proof Hp as (env & ts & _ & _ & Hb & Hin & _). exists dev. rewrite <- Hb. split; [done|].
  apply dec_stable. intros Hne. apply Hch. rewrite Hout.
  assert (db_ok (w_db w1) /\ evolves (w_db w) (w_db w1) /\ tenant B (w_db w1) = tenant B (w_db w))
    as (Hok1 & He & Htn).
  { destruct Ht as [->|Hdb]; [done|].
    assert (db_step (sec (w_clock w)) (w_db w) (EvUpdateDevice (d_id dev)) (w_db w1)) as Hs
      by (rewrite Hdb; by apply step_update_device).
    split_and!; [by eapply db_step_ok|by eapply db_step_evolves|].
    eapply db_step_isolated; [done|done|]. simpl.
    rewrite device_account_in; [congruence|apply Hok|done]. }
  rewrite <- Htn. apply management_spares; try done.
  rewrite (device_account_evolves (w_db w)); [apply device_account_in|..]; try done; try apply Hok; try apply Hok1.
  by apply list_elem_of_fmap_2.
Qed.

(** ** Roles *)

(** What a device without authority over others can change: nothing of any other
    device, no role, no account, no invitation but to revoke it, no statement. *)
Record modest (me : string) (db db' : DB) : Prop := mkModest {
  mod_accounts : db'.(accounts) = db.(accounts);
  mod_invitations : i_token_hash <$> db'.(invitations) = i_token_hash <$> db.(invitations);
  mod_statements : db'.(statements) = db.(statements);
  mod_devices : forall d, d_id d <> me -> d ∈ db'.(devices) <-> d ∈ db.(devices);
  mod_roles : (fun d => (d_id d, d_role d)) <$> db'.(devices) =
              (fun d => (d_id d, d_role d)) <$> db.(devices);
}.

#[export] Instance modest_preorder (me : string) : PreOrder (modest me).
Proof.
  split; [intros db; by split|]. intros db db' db'' [] []. split; try congruence.
  intros d Hd. rewrite mod_devices1 by done. by apply mod_devices0.
Qed.

(** The events a member's requests perform. *)
Definition own_event (me : string) (ev : event) : Prop :=
  match ev with
  | EvUpdateDevice id | EvBundle id | EvRevoke _ id => id = me
  | EvRevokeInvitation _ | EvCreateQueue _ _ => True
  | _ => False
  end.

Lemma update_modest (me : string) (P : Device -> Prop) `{!forall d, Decision (P d)}
    (f : Device -> Device) (t : list Device) :
  (forall d, P d -> d_id d = me) -> (forall d, d_id (f d) = d_id d /\ d_role (f d) = d_role d) ->
  (forall d, d_id d <> me -> d ∈ sql_update P f t <-> d ∈ t) /\
  (fun d => (d_id d, d_role d)) <$> sql_update P f t = (fun d => (d_id d, d_role d)) <$> t.
Proof.
  intros HP Hf. split.
  - intros d Hd. rewrite elem_of_sql_update. split.
    + intros (x & Hx & ->). case_decide as Hp; [|done]. destruct Hd. rewrite (proj1 (Hf x)). by apply HP.
    + intros Hx. exists d. rewrite decide_False; [done|]. intros Hp. by apply Hd, HP.
  - apply sql_update_fmap. intros x _. by destruct (Hf x) as [-> ->].
Qed.

Lemma own_event_modest (me : string) (now : Z) (db : DB) (ev : event) (db' : DB) :
  db_step now db ev db' -> own_event me ev -> modest me db db'.
Proof.
  intros Hs Hev. destruct Hs as [| |id acc| |id P HP f Hf HPid| |caller id Hc| | | | | | | |b db' n Hu|];
    simpl in Hev; try done.
  - split; try done. simpl. by apply sql_update_fmap.
  - subst id. destruct (update_modest me P f (devices db)) as [Hd Hr]; [done|by intros d; destruct (Hf d) as (? & _ & _ & ? & _)|].
    by split.
  - subst id. destruct (update_modest me (fun d => d_id d = me) dev_revoke (devices db)) as [Hd Hr]; [done|done|].
    by split.
  - subst. unfold upsert_bundle in Hu. case_decide; simplify_eq. by split.
Qed.

(** Every effect of [p] run at [w] keeps a member in its place. *)
Definition stays_modest {A} (me : string) (p : proc A) (w : World) : Prop :=
  modest me (w_db w) (w_db (run p w).2).

Lemma modest_idle {A} (me : string) (p : proc A) (w : World) : idle p -> stays_modest me p w.
Proof. intros Hp. unfold stays_modest. by rewrite Hp. Qed.

Lemma modest_bind {A C} (me : string) (p : proc A) (k : A -> proc C) (w : World) :
  db_ok (w_db w) -> stays_modest me p w ->
  (forall a w', db_ok (w_db w') -> stays_modest me (k a) w') -> stays_modest me (p ≫= k) w.
Proof.
  intros Hok Hp Hk. unfold stays_modest in *. rewrite run_bind.
  destruct (run_steps p w Hok) as [Hs _]. destruct (run p w) as [a w']. cbn in *.
  etrans; [exact Hp|]. apply Hk. by eapply db_steps_ok.
Qed.

Lemma modest_call {A} (me : string) (op : store_op A) (w : World) :
  db_ok (w_db w) -> (forall ev, op_event op ev -> own_event me ev) ->
  stays_modest me (call_store op) w.
Proof.
  intros Hok Hev. unfold stays_modest, call_store. rewrite run_act. simpl.
  destruct (run_op_outcome op (w_st w) (ok_integrity _ Hok)) as (_ & _ & Ho).
  unfold w_db in *. destruct (run_op op (w_st w)) as [r s]. cbn in *.
  destruct Ho as [(_ & _ & ->)|[[->|(ev & Hstep & Hop)] _]]; [done|done|].
  eapply own_event_modest; [exact Hstep|by apply Hev].
Qed.

Ltac own_call := apply modest_call; [done|]; intros []; simpl; try done; intros; destr; subst; done.

Ltac modest_branches :=
  repeat match goal with
  | |- stays_modest _ (mret _) _ => by apply modest_idle, idle_ret
  | |- stays_modest _ (wakeAccountDevices _ _) _ => apply modest_idle, wakeAccountDevices_idle
  | |- stays_modest _ (dispatchPing _ _) _ => by apply modest_idle
  | |- stays_modest _ (match ?d with _ => _ end) _ => destruct d eqn:?
  | |- stays_modest _ (_ ≫= _) _ => apply modest_bind; [done| |intros ? ? ?]
  end.

Lemma management_modest (next : Device -> bytes -> proc Response) (dev : Device) (body : bytes) (w : World) :
  management next -> db_ok (w_db w) -> d_role dev <> RoleAdmin -> stays_modest (d_id dev) (next dev body) w.
Proof.
  intros Hm Hok Hr. assert (RequireAdmin dev <> None) as Hra.
  { unfold RequireAdmin. by rewrite decide_True. }
  destruct Hm.
  - unfold handleListDevices. modest_branches; own_call.
  - unfold handleRevoke. modest_branches; try own_call.
    destruct (decide (id = d_id dev)) as [->|Hne]; [own_call|]. exfalso. auto.
  - unfold handleSetRole. by rewrite decide_True.
  - unfold handleGetBundle. modest_branches; own_call.
  - unfold handleSetBundle. modest_branches; own_call.
  - unfold handleCreateInvitation. by rewrite decide_True.
  - unfold handleListInvitations. modest_branches; own_call.
  - unfold handleRevokeInvitation. modest_branches; own_call.
  - unfold handleUpdatePush. modest_branches; own_call.
  - unfold handleGetQuota. modest_branches; own_call.
  - unfold handleAppendStatement. by rewrite decide_True.
  - unfold handleListStatements. modest_branches; own_call.
  - unfold handleCreateQueue. modest_branches; own_call.
Qed.

(** C12: a member has no authority over others: whatever management request a device
    that is not an admin signs, no other device's row, no role, no account and no
    statement changes, and no invitation is minted. *)
Theorem member_has_no_authority (next : Device -> bytes -> proc Response) (r : Request) (w : World)
    (dev : Device) :
  management next -> db_ok (w_db w) -> dev ∈ (w_db w).(devices) ->
  d_id dev = header r HeaderDeviceID -> d_role dev <> RoleAdmin ->
  modest (d_id dev) (w_db w) (w_db (run (requireSignature next r) w).2).
Proof.
  intros Hm Hok Hin Hid Hr.
  destruct (gate_cases next r w) as [(_ & Hdb & _)|(d & body & w1 & Hp & Ht & _ & _ & Hout)];
    [by rewrite Hdb|]. rewrite Hout.
  assert (d = dev) as ->.
  { destruct Hp as (env & ts & _ & _ & _ & Hd & Hdid & _).
    eapply (NoDup_fmap_inj d_id); [apply Hok|..]; congruence. }
  assert (db_ok (w_db w1) /\ modest (d_id dev) (w_db w) (w_db w1)) as [Hok1 Hmod].
  { destruct Ht as [->|Hdb]; [done|].
    assert (db_step (sec (w_clock w)) (w_db w) (EvUpdateDevice (d_id dev)) (w_db w1)) as Hs
      by (rewrite Hdb; by apply step_update_device).
    split; [by eapply db_step_ok|by eapply own_event_modest]. }
  etrans; [exact Hmod|]. by apply management_modest.
Qed.
End tenancy.

Section examples.
Import Web.

Definition role_change (key : bytes) (id : string) : Request :=
  signed "POST" ["v1"; "devices"; dev2; "role"]%string key id 1700000000 "n" ∅ 
    (json_body [("role", RoleAdmin)]%string).

Definition demo_device (id : string) (key : bytes) (push role : string) (created : Z) : Device :=
  mkDevice id acc (ed25519_public key) push "" created created false role 0.

(** The admin promotes the member: its account changes, and it is the admin's. *)
Lemma tenant_isolation_witness :
  exists dev, passed (role_change key1 dev1) w0 dev (limited_body (role_change key1 dev1)) /\
    d_account_id dev = acc.
Proof.
  apply (tenant_isolation (handleSetRole dev2) (role_change key1 dev1) w0 acc).
  - apply m_set_role.
  - apply db0_ok.
  - intros E. apply (f_equal (fun t => d_role <$> t_devices t)) in E. vm_compute in E. done.
Defined.

(** The member cannot promote itself. *)
Lemma member_has_no_authority_witness :
  modest dev2 (w_db w0) (w_db (run (requireSignature (handleSetRole dev2) (role_change key2 dev2)) w0).2).
Proof.
  apply (member_has_no_authority (handleSetRole dev2) (role_change key2 dev2) w0
    (demo_device dev2 key2 "https://push/2" RoleMember 1700000004)).
  - apply m_set_role.
  - apply db0_ok.
  - vm_compute. right. left.
  - by vm_compute.
  - by vm_compute.
Defined.
(** A revocation does not stop a request of the same device that has already
    passed the gate: here a queue is created, live, for a device that is revoked, and a
    receive on it is served. *)
Theorem queue_created_after_revocation :
  let revoke := signed "POST" ["v1"; "devices"; dev1; "revoke"]%string key1 dev1 1700000000 "n" ∅ [] in
  let rcp' := fresh_id "rcp_" (rnd x08) in
  let recv := signed "GET" ["v1"; "recv"; rcp']%string qkey "" 1700000000 "n" ∅ [] in
  let c := schedule (replicate 5 (Go 0) ++ replicate 20 (Go 1) ++ replicate 5 (Go 0))
             (w0, [ServeHTTP "v" create_queue; ServeHTTP "v" revoke]) in
  c.2 = [Ret (writeJSON StatusCreated (BQueue rcp' (fresh_id "snd_" (rnd x08))));
         Ret (writeJSON StatusOK BRevoked)] /\
  (forall d, d ∈ (w_db c.1).(devices) -> d_id d = dev1 -> d_revoked d = true) /\
  (run (ServeHTTP "v" recv) c.1).1 = writeJSON StatusOK (BMessages []).
Proof.
  intros revoke rcp' recv c. split; [by vm_compute|]. split; [|by vm_compute].
  assert (Forall (fun d => d_id d = dev1 -> d_revoked d = true) (w_db c.1).(devices)) as Hd
    by (apply (bool_decide_unpack _); by vm_compute).
  by rewrite Forall_forall in Hd.
Qed.
End examples.
