(* ===== verification/Wire.v ===== *)
(** * Formats, dispatch and notification

    The text formats on the wire and in the database, the router's table, what a
    receive returns, which devices are woken, and the background purge. *)

From S2P Require Import Prelude Encoding Clock Sql Schema StoreM Crypto Sigauth Accounts Devices.
From S2P Require Import Queues Blobs Steps Invariants Evolution Refine Store Demo Delivery World Http.
From S2P Require Import Auth Push Management Transport Router DemoServer Gate Planes.

Local Open Scope Z_scope.

(** ** Times and binary data as text *)

(** The times the store writes as RFC 3339 text compare as text the way they
    compare as times, so the expiry conditions of its queries mean what they say, and
    are read back to the second; for every time in the years 0 to 9999. *)
Theorem stored_times_ordered (s t : Z) :
  four_digit_year s -> four_digit_year t ->
  (text_lt (rfc3339 s) (rfc3339 t) <-> s < t) /\ (rfc3339 s = rfc3339 t <-> s = t) /\
  parse_rfc3339 (rfc3339 s) = Some (s * Second).
Proof.
  intros Hs Ht. split_and!; [by apply text_lt_rfc3339| |by apply parse_rfc3339_format].
  split; [by apply rfc3339_inj|by intros ->].
Qed.

Lemma stored_times_ordered_witness :
  (text_lt (rfc3339 1700000000) (rfc3339 1700003600) <-> 1700000000 < 1700003600) /\
  (rfc3339 1700000000 = rfc3339 1700003600 <-> 1700000000 = 1700003600) /\
  parse_rfc3339 (rfc3339 1700000000) = Some (1700000000 * Second).
Proof. apply (stored_times_ordered 1700000000 1700003600); by vm_compute. Defined.

(** ** Receiving *)

(** What a receive answers, with a working driver: exactly the live messages of
    the queue in the order they were stored, each with its payload in an encoding that
    decodes to the bytes stored. *)
Theorem receive_returns_live_messages `{Crypto} (q : Queue) (body : bytes) (w : World) :
  db_ok (w_db w) -> st_faults (w_st w) = [] ->
  let live := live_messages (q_recipient_id q) (sec (w_clock w)) (w_db w) in
  let views := (fun m => to_message_view (to_message m)) <$> live in
  (run (recv_queue q body) w).1 = writeJSON StatusOK (BMessages views) /\
  (fun v => (mv_id v, base64_std_decode (mv_payload v))) <$> views =
    (fun m => (m_id m, Some (m_payload m))) <$> live.
Proof.
  intros Hok Hf live views. split.
  - unfold recv_queue. run_step. destruct w as [[db clock rnd faults] nonces pings]. simpl in *. subst faults.
    rewrite (proj1 (drain_total (q_recipient_id q) db clock rnd (ok_integrity _ Hok))).
    simpl. subst views. by rewrite <- list_fmap_compose.
  - subst views. rewrite <- list_fmap_compose. apply list_fmap_ext. intros i m _. simpl.
    by rewrite base64_std_decode_encode.
Qed.

Lemma receive_returns_live_messages_witness :
  let q := mkQueue Demo.rcp Demo.snd Demo.dev1 Demo.qkey None 0 false 0 in
  let live := live_messages (q_recipient_id q) (sec (w_clock Web.w0)) (w_db Web.w0) in
  let views := (fun m => to_message_view (to_message m)) <$> live in
  length views = 1%nat /\
  (run (H := Toy.toy_crypto) (recv_queue q []) Web.w0).1 = writeJSON StatusOK (BMessages views) /\
  (fun v => (mv_id v, base64_std_decode (mv_payload v))) <$> views =
    (fun m => (m_id m, Some (m_payload m))) <$> live.
Proof.
  intros q live views. split; [by vm_compute|].
  apply (receive_returns_live_messages (H := Toy.toy_crypto) q [] Web.w0).
  - apply Demo.db0_ok.
  - reflexivity.
Defined.

(** ** Waking devices *)

(** Waking an account pings exactly its live devices that have an endpoint, other
    than the one excepted, once each, at normal priority, and changes nothing else;
    if the device list cannot be read, no one is pinged. *)
Theorem wake_account_targets `{Crypto} (acc except : string) (w : World) :
  let out := (run (wakeAccountDevices acc except) w).2 in
  w_db out = w_db w /\ w_nonces out = w_nonces w /\
  (w_pings out = w_pings w \/
   exists devs, devs ≡ₚ filter (fun d => d_account_id d = acc) (w_db w).(devices) /\
     w_pings out = w_pings w ++ wake_targets except devs) /\
  (st_faults (w_st w) = [] ->
   exists devs, devs ≡ₚ filter (fun d => d_account_id d = acc) (w_db w).(devices) /\
     w_pings out = w_pings w ++ wake_targets except devs).
Proof.
  unfold wakeAccountDevices. cbn zeta. run_step. unfold ListDevices, query, db_call.
  destruct (st_faults (w_st w)) as [|[] fs]; cbn [fst snd].
  - rewrite run_ping_devices. cbn. split_and!; [done|done|right|intros _];
      (eexists; split; [|reflexivity]; apply sql_order_Permutation).
  - cbn. split_and!; [done|done|by left|done].
  - rewrite run_ping_devices. cbn. split_and!; [done|done|right|done].
    eexists; split; [|reflexivity]; apply sql_order_Permutation.
Qed.

(** ** Dispatch *)

(** Some path matches both patterns. *)
Fixpoint overlap (p q : list segment) : bool :=
  match p, q with
  | [], [] => true
  | Lit s :: p, Lit t :: q => bool_decide (s = t) && overlap p q
  | _ :: p, _ :: q => overlap p q
  | _, _ => false
  end.

Lemma match_overlap (p q : list segment) (segs vs vs' : list string) :
  match_segments p segs = Some vs -> match_segments q segs = Some vs' -> overlap p q = true.
Proof.
  revert q segs vs vs'. induction p as [|[s|] p IH]; intros [|[t|] q] [|x segs] vs vs' Hp Hq;
    simpl in *; try done; repeat case_decide; simplify_eq; try done;
    repeat match goal with Hb : (_ ≫= _) = Some _ |- _ => apply bind_Some in Hb as (? & ? & ?) end;
    rewrite ?bool_decide_true by done; by eapply IH.
Qed.

(** Two table entries that some request matches both of. *)
Definition clash (a b : string * list segment) : bool :=
  overlap a.2 b.2 &&
  (bool_decide (a.1 = b.1) ||
   (bool_decide (a.1 = "GET"%string) && bool_decide (b.1 = "HEAD"%string)) ||
   (bool_decide (a.1 = "HEAD"%string) && bool_decide (b.1 = "GET"%string))).

Fixpoint unambiguous (l : list (string * list segment)) : bool :=
  match l with
  | [] => true
  | a :: l => forallb (fun b => negb (clash a b || clash b a)) l && unambiguous l
  end.

Lemma unambiguous_lookup (l : list (string * list segment)) (i j : nat) (a b : string * list segment) :
  unambiguous l = true -> l !! i = Some a -> l !! j = Some b -> clash a b = true ->
  clash b a = true -> i = j.
Proof.
  assert (forall l i a b, forallb (fun b => negb (clash a b || clash b a)) l = true -> l !! i = Some b ->
    clash a b = true \/ clash b a = true -> False) as Hhead.
  { intros k n x y Hk Hy Hc. rewrite forallb_forall in Hk.
    specialize (Hk y (proj1 (list_elem_of_In _ _) (list_elem_of_lookup_2 _ _ _ Hy))).
    destruct Hc as [Hc|Hc]; rewrite Hc in Hk; [done|by rewrite orb_true_r in Hk]. }
  revert i j. induction l as [|c l IH]; intros i j Hu Hi Hj Hab Hba; [done|].
  simpl in Hu. apply andb_true_iff in Hu as [Hc Hu].
  destruct i as [|i], j as [|j]; simpl in *; simplify_eq; [done|..].
  - exfalso. eapply Hhead; eauto.
  - exfalso. eapply Hhead; eauto.
  - f_equal. by eapply IH.
Qed.

Lemma method_clash (a b m : string) :
  method_matches a m = true -> method_matches b m = true ->
  bool_decide (a = b) || (bool_decide (a = "GET"%string) && bool_decide (b = "HEAD"%string)) ||
    (bool_decide (a = "HEAD"%string) && bool_decide (b = "GET"%string)) = true.
Proof.
  unfold method_matches. repeat case_bool_decide; simpl; intros; try done; subst; done.
Qed.

(** The routing table is unambiguous: whatever its method and path, at most one
    route handles a request, so the order of the table does not matter. *)
Theorem routes_unambiguous `{Crypto} (version : string) (r : Request) (i j : nat) (a b : route)
    (vs vs' : list string) :
  routes version !! i = Some a -> routes version !! j = Some b ->
  match_segments (rt_pattern a) (r_segments r) = Some vs ->
  match_segments (rt_pattern b) (r_segments r) = Some vs' ->
  method_matches (rt_method a) (r_method r) = true ->
  method_matches (rt_method b) (r_method r) = true -> i = j.
Proof.
  intros Hi Hj Ha Hb Hma Hmb.
  apply (unambiguous_lookup ((fun rt => (rt_method rt, rt_pattern rt)) <$> routes version) i j
    (rt_method a, rt_pattern a) (rt_method b, rt_pattern b)).
  - by vm_compute.
  - by rewrite list_lookup_fmap, Hi.
  - by rewrite list_lookup_fmap, Hj.
  - unfold clash. simpl. by rewrite (match_overlap _ _ _ _ _ Ha Hb), (method_clash _ _ _ Hma Hmb).
  - unfold clash. simpl. by rewrite (match_overlap _ _ _ _ _ Hb Ha), (method_clash _ _ _ Hmb Hma).
Qed.

Section examples.
Import Web.

Lemma routes_unambiguous_witness :
  let r := mkRequest "POST" ["v1"; "devices"; "register"]%string true ∅ [] false in
  1%nat = 1%nat.
Proof.
  intros r.
  apply (routes_unambiguous "v" r 1 1
    (mkRoute "POST" [Lit "v1"; Lit "devices"; Lit "register"] (fun _ => handleRegister))
    (mkRoute "POST" [Lit "v1"; Lit "devices"; Lit "register"] (fun _ => handleRegister)) [] []);
    reflexivity.
Defined.
End examples.

(** ** The background purge *)

Lemma purge_tick (s : St) :
  st_faults s = [] ->
  (PurgeExpired s).2 = mkSt (set_messages (filter (fun m => m_expires m > sec (st_clock s))
                               (st_db s).(messages)) (st_db s)) (st_clock s) (st_rnd s) [].
Proof.
  destruct s as [db clock rnd faults]. intros Hf. simpl in Hf. subst faults.
  unfold PurgeExpired, exec, db_call, mbind, M_bind. simpl. unfold with_db, with_faults. simpl.
  do 2 f_equal. apply list_filter_iff. intros m. simpl. lia.
Qed.

(** After any number of ticks of the purge loop on a working driver, no message
    that has expired is left, every other message is, in order, and nothing else has
    changed. *)
Theorem purge_loop_clears `{Crypto} (ticks : nat) (w : World) :
  st_faults (w_st w) = [] -> (0 < ticks)%nat ->
  w_db (run (RunPurgeLoop ticks) w).2 =
    set_messages (filter (fun m => m_expires m > sec (w_clock w)) (w_db w).(messages)) (w_db w).
Proof.
  intros Hf Ht. destruct ticks as [|ticks]; [lia|]. clear Ht. revert w Hf.
  induction ticks as [|ticks IH]; intros w Hf; cbn [RunPurgeLoop] in *; run_step.
  - rewrite run_ret. unfold w_db. cbn. by rewrite purge_tick.
  - rewrite IH by (cbn; by rewrite purge_tick).
    unfold w_db, w_clock. cbn [w_st]. rewrite purge_tick by done. cbn.
    unfold set_messages. cbn. f_equal. rewrite list_filter_filter. apply list_filter_iff. tauto.
Qed.

Lemma purge_loop_clears_witness :
  let w := mkWorld (mkSt Demo.db0 (Demo.t0 + 2 * Hour) [] []) ∅ [] in
  w_db (run (H := Toy.toy_crypto) (RunPurgeLoop 2) w).2 =
    set_messages (filter (fun m => m_expires m > sec (w_clock w)) (w_db w).(messages)) (w_db w).
Proof.
  intros w. apply (purge_loop_clears (H := Toy.toy_crypto) 2 w); [reflexivity|lia].
Defined.
