(* ===== verification/Host.v ===== *)
(** * The host: files, clock and randomness

    What [internal/tlsid] uses of [os]: files by path, each call of the operating
    system able to fail, a write also half way. *)

From S2P Require Import Prelude Encoding Schema.

Local Open Scope Z_scope.

(** [h_clock] is [time.Now()] in nanoseconds, [h_draws] what each use of [crypto/rand]
    returns. [h_faults] says for each call of the operating system to come whether it
    fails: [Some n] is a failure, of a write after [n] bytes. An empty schedule is a
    host that works. *)
Record Host := mkHost {
  h_files : gmap string bytes;
  h_clock : Z;
  h_draws : list bytes;
  h_faults : list (option nat);
}.

Definition with_files (fs : gmap string bytes) (h : Host) : Host :=
  mkHost fs (h_clock h) (h_draws h) (h_faults h).

Definition HM (A : Type) : Type := Host -> (error + A) * Host.

#[export] Instance HM_ret : MRet HM := fun A a h => (inr a, h).
#[export] Instance HM_bind : MBind HM := fun A B k m h =>
  match m h with
  | (inl e, h') => (inl e, h')
  | (inr a, h') => k a h'
  end.

Definition fails {A} (e : error) : HM A := fun h => (inl e, h).
Definition of_option {A} (e : error) (o : option A) : HM A := fun h =>
  (match o with Some a => inr a | None => inl e end, h).

(** The continuation of [if err == nil] and of what follows it. *)
Definition attempt {A} (m : HM A) : HM (option A) := fun h =>
  let '(r, h') := m h in (inr (match r with inl _ => None | inr a => Some a end), h').

Definition now : HM Z := fun h => (inr (h_clock h), h).

(** One use of the random source. *)
Definition draw : HM bytes := fun h =>
  match h_draws h with
  | [] => (inl ErrRand, h)
  | r :: rs => (inr r, mkHost (h_files h) (h_clock h) rs (h_faults h))
  end.

(** One call of the operating system: whether it fails, and the rest of the schedule. *)
Definition next_call (h : Host) : option nat * Host :=
  (default None (head (h_faults h)),
   mkHost (h_files h) (h_clock h) (h_draws h) (tail (h_faults h))).

(** [os.MkdirAll], of a directory that can be made. *)
Definition MkdirAll : HM unit := fun h =>
  let '(f, h) := next_call h in
  (match f with Some _ => inl (Errorf "mkdir") | None => inr tt end, h).

(** [os.Stat] says there is a file. *)
Definition fileExists (path : string) : HM bool := fun h =>
  let '(f, h) := next_call h in
  (inr (match f with
        | Some _ => false
        | None => bool_decide (is_Some (h_files h !! path))
        end), h).

Definition ReadFile (path : string) : HM bytes := fun h =>
  let '(f, h) := next_call h in
  (match f, h_files h !! path with
   | None, Some b => inr b
   | _, _ => inl (Errorf "read")
   end, h).

(** [os.OpenFile] with [O_CREATE|O_TRUNC|O_WRONLY]. *)
Definition OpenFile (path : string) : HM unit := fun h =>
  let '(f, h) := next_call h in
  match f with
  | Some _ => (inl (Errorf "open"), h)
  | None => (inr tt, with_files (<[path := []]> (h_files h)) h)
  end.

(** Writing a file opened empty. *)
Definition Write (path : string) (b : bytes) : HM unit := fun h =>
  let '(f, h) := next_call h in
  match f with
  | Some n => (inl (Errorf "write"), with_files (<[path := take n b]> (h_files h)) h)
  | None => (inr tt, with_files (<[path := b]> (h_files h)) h)
  end.

(** ** Reasoning about what a computation leaves *)

Definition hp {A} (m : HM A) (h : Host) (Q : error + A -> Host -> Prop) : Prop :=
  Q (m h).1 (m h).2.

Lemma hp_mono {A} (m : HM A) (h : Host) (Q Q' : error + A -> Host -> Prop) :
  hp m h Q -> (forall r h', Q r h' -> Q' r h') -> hp m h Q'.
Proof. unfold hp. auto. Qed.

Lemma hp_run {A} (m : HM A) (h : Host) (Q : error + A -> Host -> Prop) (r : error + A) (h' : Host) :
  hp m h Q -> m h = (r, h') -> Q r h'.
Proof. unfold hp. intros H E. by rewrite E in H. Qed.

Lemma hp_bind {A B} (m : HM A) (k : A -> HM B) (h : Host) (Q : error + B -> Host -> Prop) :
  hp m h (fun r h' => match r with inl e => Q (inl e) h' | inr a => hp (k a) h' Q end) ->
  hp (m ≫= k) h Q.
Proof.
  unfold hp. intros H. change ((m ≫= k) h) with (HM_bind A B k m h). unfold HM_bind.
  by destruct (m h) as [[e|a] h'].
Qed.

Lemma hp_ret {A} (a : A) (h : Host) (Q : error + A -> Host -> Prop) : Q (inr a) h -> hp (mret a) h Q.
Proof. done. Qed.

Lemma hp_attempt {A} (m : HM A) (h : Host) (Q : error + option A -> Host -> Prop) :
  hp m h (fun r h' => Q (inr (match r with inl _ => None | inr a => Some a end)) h') ->
  hp (attempt m) h Q.
Proof. unfold hp, attempt. by destruct (m h). Qed.

(** A computation that writes no file. *)
Definition pure {A} (m : HM A) : Prop :=
  forall h, hp m h (fun _ h' => h_files h' = h_files h /\ h_clock h' = h_clock h).

Lemma hp_fileExists (path : string) (h : Host) (Q : error + bool -> Host -> Prop) :
  (forall b h', h_files h' = h_files h -> h_clock h' = h_clock h ->
    (b = true -> is_Some (h_files h !! path)) -> Q (inr b) h') ->
  hp (fileExists path) h Q.
Proof.
  intros HQ. unfold hp, fileExists, next_call. cbn. apply HQ; [done..|].
  destruct (head (h_faults h)) as [[n|]|]; cbn; [done|apply bool_decide_eq_true..].
Qed.

Lemma hp_ReadFile (path : string) (h : Host) (Q : error + bytes -> Host -> Prop) :
  (forall r h', h_files h' = h_files h -> h_clock h' = h_clock h ->
    (forall b, r = inr b -> h_files h !! path = Some b) -> Q r h') ->
  hp (ReadFile path) h Q.
Proof.
  intros HQ. unfold hp, ReadFile, next_call. cbn. apply HQ; [done..|].
  intros b. destruct (default None _); [done|]. destruct (h_files h !! path); [|done].
  by intros [= ->].
Qed.

(** Opening and writing a file: it is as it was, or holds a first part of what was to be
    written, all of it on success. *)
Lemma hp_overwrite (path : string) (b : bytes) (h : Host) (Q : error + unit -> Host -> Prop) :
  (forall r h', h_clock h' = h_clock h ->
    (exists e, r = inl e /\ h_files h' = h_files h) \/
    (exists n, h_files h' = <[path := take n b]> (h_files h) /\ (r = inr tt -> take n b = b)) ->
    Q r h') ->
  hp (_ ← OpenFile path; Write path b) h Q.
Proof.
  intros HQ. apply hp_bind. unfold hp, OpenFile, next_call. cbn.
  destruct (default None (head (h_faults h))) as [n|]; cbn.
  { apply HQ; [done|]. left. by eexists. }
  unfold Write, next_call. cbn. destruct (default None _) as [n|]; cbn; rewrite insert_insert_eq.
  - apply HQ; [done|]. right. by exists n.
  - apply HQ; [done|]. right. exists (length b). by rewrite take_ge.
Qed.

Lemma hp_draw (h : Host) (Q : error + bytes -> Host -> Prop) :
  (forall r h', h_files h' = h_files h -> h_clock h' = h_clock h -> Q r h') -> hp draw h Q.
Proof. intros HQ. unfold hp, draw. destruct (h_draws h); by apply HQ. Qed.

Lemma hp_MkdirAll (h : Host) (Q : error + unit -> Host -> Prop) :
  let h' := mkHost (h_files h) (h_clock h) (h_draws h) (tail (h_faults h)) in
  Q (inl (Errorf "mkdir")) h' -> Q (inr tt) h' -> hp MkdirAll h Q.
Proof. intros h' ??. unfold hp, MkdirAll, next_call. cbn. by destruct (default None _). Qed.

Lemma hp_draw_head (d : bytes) (h : Host) (Q : error + bytes -> Host -> Prop) :
  head (h_draws h) = Some d -> (forall h', Q (inr d) h') -> hp draw h Q.
Proof. intros Hd HQ. unfold hp, draw. destruct (h_draws h); [done|]. injection Hd as ->. apply HQ. Qed.

Lemma hp_of_option {A} (e : error) (o : option A) (h : Host) (Q : error + A -> Host -> Prop) :
  (o = None -> Q (inl e) h) -> (forall a, o = Some a -> Q (inr a) h) -> hp (of_option e o) h Q.
Proof. intros Hn Hs. unfold hp, of_option. destruct o; cbn; auto. Qed.

Lemma hp_now (h : Host) (Q : error + Z -> Host -> Prop) : Q (inr (h_clock h)) h -> hp now h Q.
Proof. done. Qed.

(** One step of symbolic execution, and the frame of what writes no file. *)
Ltac hp_step :=
  lazymatch goal with
  | |- hp (mret _) _ _ => apply hp_ret
  | |- hp (mbind _ _) _ _ => apply hp_bind
  | |- hp (attempt _) _ _ => apply hp_attempt
  | |- hp now _ _ => apply hp_now
  | |- hp draw _ _ => apply hp_draw; intros [?|?] ?h ?Hfiles ?Hclock
  | |- hp (of_option _ _) _ _ => apply hp_of_option; [intros ?Ho|intros ? ?Ho]
  | |- hp (fileExists _) _ _ => apply hp_fileExists; intros ?b ?h ?Hfiles ?Hclock ?Hb
  | |- hp (ReadFile _) _ _ => apply hp_ReadFile; intros [?|?] ?h ?Hfiles ?Hclock ?Hr
  end; cbn beta iota.
