(* ===== verification/X509.v ===== *)
(** * Certificates

    [crypto/ecdsa], [crypto/x509] and [encoding/pem] as an interface: the operations
    [internal/tlsid] calls, and as a separate class what it relies on. *)

From S2P Require Import Prelude Encoding Schema Clock.

Local Open Scope Z_scope.

(** The fields of [x509.Certificate] a template sets. Times in nanoseconds. *)
Record Template := mkTemplate {
  tm_serial : bytes;
  tm_common_name : string;
  tm_not_before : Z;
  tm_not_after : Z;
  tm_is_ca : bool;
  tm_cert_sign : bool;
  tm_server_auth : bool;
  tm_dns_names : list string;
  tm_ip_addresses : list string;
}.

Class X509 := {
  (** [*ecdsa.PrivateKey], its public part, and [*x509.Certificate]. *)
  PrivateKey : Type;
  PublicKey : Type;
  Certificate : Type;
  public : PrivateKey -> PublicKey;
  GenerateKey : bytes -> PrivateKey;
  (** [Raw], [RawSubjectPublicKeyInfo], [NotBefore] and [NotAfter]. *)
  cert_raw : Certificate -> bytes;
  cert_spki : Certificate -> bytes;
  cert_not_before : Certificate -> Z;
  cert_not_after : Certificate -> Z;
  (** The [RawSubjectPublicKeyInfo] of a public key. *)
  spki : PublicKey -> bytes;
  (** The random bytes, the template, the parent ([None] for the template itself), the
      subject's key and the signer's. *)
  CreateCertificate : bytes -> Template -> option Certificate -> PublicKey -> PrivateKey -> option bytes;
  ParseCertificate : bytes -> option Certificate;
  (** [c.CheckSignatureFrom(parent)]. *)
  CheckSignatureFrom : Certificate -> Certificate -> bool;
  (** [c.Verify] with these roots and intermediates for server authentication, at a time. *)
  Verify : Certificate -> list Certificate -> list Certificate -> Z -> bool;
  MarshalPKCS8PrivateKey : PrivateKey -> option bytes;
  (** [None] inside is a key that is not ECDSA. *)
  ParsePKCS8PrivateKey : bytes -> option (option PrivateKey);
  pem_Encode : string -> bytes -> bytes;
  (** The bytes of the first block. *)
  pem_Decode : bytes -> option bytes;
}.

(** [c] was issued on [t] for [key]: by [signer] under [parent], which is itself when
    there is none. *)
Definition issued `{X509} (t : Template) (parent : option Certificate) (key : PublicKey)
    (signer : PrivateKey) (c : Certificate) : Prop :=
  exists r der, CreateCertificate r t parent key signer = Some der /\ ParseCertificate der = Some c.

Class X509Laws `(X509) := {
  pem_round_trip (typ : string) (b : bytes) : pem_Decode (pem_Encode typ b) = Some b;
  (** A part of a block is no other block. *)
  pem_truncated (typ : string) (b b' : bytes) (n : nat) :
    pem_Decode (take n (pem_Encode typ b)) = Some b' -> b' = b;
  pkcs8_round_trip (k : PrivateKey) (b : bytes) :
    MarshalPKCS8PrivateKey k = Some b -> ParsePKCS8PrivateKey b = Some (Some k);
  parse_raw (b : bytes) (c : Certificate) : ParseCertificate b = Some c -> cert_raw c = b;
  issued_parses (r : bytes) (t : Template) (p : option Certificate) (key : PublicKey)
      (s : PrivateKey) (b : bytes) :
    CreateCertificate r t p key s = Some b -> exists c, ParseCertificate b = Some c;
  (** A certificate keeps its template's dates, at second precision, and its key. *)
  issued_fields (t : Template) (p : option Certificate) (key : PublicKey) (s : PrivateKey)
      (c : Certificate) :
    issued t p key s c ->
    cert_not_before c = sec (tm_not_before t) * Second /\
    cert_not_after c = sec (tm_not_after t) * Second /\ cert_spki c = spki key;
  (** A certificate issued under a self-signed CA by the CA's key is signed by the CA. *)
  issued_signed (tca t : Template) (ca c : Certificate) (kca : PrivateKey) (key : PublicKey) :
    tm_is_ca tca = true -> tm_cert_sign tca = true ->
    issued tca None (public kca) kca ca -> issued t (Some ca) key kca c ->
    CheckSignatureFrom c ca = true;
  (** ... and verifies under it for server authentication while both are valid. *)
  issued_verifies (tca t : Template) (ca c : Certificate) (kca : PrivateKey) (key : PublicKey)
      (inters : list Certificate) (now : Z) :
    tm_is_ca tca = true -> tm_cert_sign tca = true -> tm_server_auth t = true ->
    issued tca None (public kca) kca ca -> issued t (Some ca) key kca c ->
    cert_not_before ca <= now <= cert_not_after ca ->
    cert_not_before c <= now <= cert_not_after c ->
    Verify c [ca] inters now = true;
  (** A certificate issued for servers verifies as its own root. *)
  issued_verifies_self (t : Template) (p : option Certificate) (key : PublicKey) (s : PrivateKey)
      (c : Certificate) (inters : list Certificate) (now : Z) :
    tm_server_auth t = true -> issued t p key s c ->
    cert_not_before c <= now <= cert_not_after c -> Verify c [c] inters now = true;
  (** What verifies chains to a root by signatures, and is in its time. *)
  verify_chain (c : Certificate) (roots inters : list Certificate) (now : Z) :
    Verify c roots inters now = true ->
    cert_not_before c <= now <= cert_not_after c /\
    exists root, root ∈ roots /\ rtc (fun x y => CheckSignatureFrom x y = true) c root;
}.

(** A concrete instance, to evaluate the definitions on examples: a key is a string of
    bytes and its own public part, a certificate lists its fields and who signed it. *)
Module ToyX509.

#[export] Instance byte_countable : Countable byte :=
  inj_countable Byte.to_N Byte.of_N Byte.of_to_N.

Record cert := mkCert {
  c_key : bytes;
  c_from : Z;
  c_to : Z;
  c_ca : bool;
  c_server : bool;
  c_signer : bytes;
}.

Definition fields (c : cert) : bytes * Z * Z * bool * bool * bytes :=
  (c_key c, c_from c, c_to c, c_ca c, c_server c, c_signer c).
Definition of_fields (f : bytes * Z * Z * bool * bool * bytes) : cert :=
  let '(k, a, b, ca, sv, s) := f in mkCert k a b ca sv s.

#[export] Instance cert_eq_dec : EqDecision cert.
Proof. solve_decision. Defined.
#[export] Instance cert_countable : Countable cert.
Proof. apply (inj_countable' fields of_fields). by intros []. Defined.

Fixpoint bits (p : positive) : bytes :=
  match p with
  | xH => []
  | xO p => x00 :: bits p
  | xI p => x01 :: bits p
  end.
Fixpoint of_bits (b : bytes) : positive :=
  match b with
  | [] => xH
  | x00 :: b => xO (of_bits b)
  | _ :: b => xI (of_bits b)
  end.

Lemma of_bits_bits (p : positive) : of_bits (bits p) = p.
Proof. induction p; cbn; congruence. Qed.

Definition der (c : cert) : bytes := bits (encode c).
Definition parse (b : bytes) : option cert :=
  c ← decode (of_bits b); if decide (der c = b) then Some c else None.

Lemma parse_der (c : cert) : parse (der c) = Some c.
Proof. unfold parse, der. rewrite of_bits_bits, decode_encode. cbn. by rewrite decide_True. Qed.

(** A block is its bytes, each after a mark, and an end. *)
Fixpoint block (b : bytes) : bytes :=
  match b with [] => [x00] | x :: b => x01 :: x :: block b end.
Fixpoint unblock (b : bytes) : option bytes :=
  match b with
  | x01 :: x :: b => y ← unblock b; Some (x :: y)
  | x00 :: _ => Some []
  | _ => None
  end.

Lemma unblock_block (b : bytes) : unblock (block b) = Some b.
Proof. induction b as [|x b IH]; cbn; [done|]. by rewrite IH. Qed.

Lemma unblock_take (b b' : bytes) (n : nat) : unblock (take n (block b)) = Some b' -> b' = b.
Proof.
  revert b' n. induction b as [|x b IH]; intros b' [|[|n]]; cbn; try done; [by intros [= ->]..|].
  destruct (unblock (take n (block b))) as [y|] eqn:E; [|done]. intros [= <-]. f_equal. by eapply IH.
Qed.

Definition create (t : Template) (signer key : bytes) : cert :=
  mkCert key (sec (tm_not_before t) * Second) (sec (tm_not_after t) * Second)
    (tm_is_ca t && tm_cert_sign t) (tm_server_auth t) signer.

Definition signed_by (c p : cert) : bool := c_ca p && bool_decide (c_signer c = c_key p).
Definition in_time (c : cert) (now : Z) : bool := (c_from c <=? now) && (now <=? c_to c).

#[export] Instance toy_x509 : X509 := {|
  PrivateKey := bytes; PublicKey := bytes; Certificate := cert;
  public k := k;
  GenerateKey r := r;
  cert_raw := der;
  cert_spki := c_key;
  cert_not_before := c_from;
  cert_not_after := c_to;
  spki k := k;
  CreateCertificate _ t _ key signer := Some (der (create t signer key));
  ParseCertificate := parse;
  CheckSignatureFrom := signed_by;
  Verify c roots _ now := in_time c now && c_server c &&
    existsb (fun r => bool_decide (r = c) || in_time r now && signed_by c r) roots;
  MarshalPKCS8PrivateKey k := Some (x00 :: k);
  ParsePKCS8PrivateKey b := match b with x00 :: k => Some (Some k) | _ => None end;
  pem_Encode _ := block;
  pem_Decode := unblock;
|}.

Lemma toy_issued (t : Template) (p : option cert) (key s : bytes) (c : cert) :
  issued t p key s c -> c = create t s key.
Proof. intros (r & b & [= <-] & E). cbn in E. rewrite parse_der in E. by injection E. Qed.

#[export] Instance toy_x509_laws : X509Laws toy_x509.
Proof.
  split; cbn.
  - intros _. apply unblock_block.
  - intros _. apply unblock_take.
  - by intros k b [= <-].
  - intros b c. unfold parse. destruct (decode (of_bits b)); cbn; [|done]. case_decide; [|done].
    by intros [= <-].
  - intros _ t _ key s b [= <-]. eexists. apply parse_der.
  - by intros t p key s c ->%toy_issued.
  - intros tca t ca c kca key Hca Hcs ->%toy_issued ->%toy_issued. unfold signed_by, create. cbn.
    rewrite Hca, Hcs. by apply bool_decide_eq_true.
  - intros tca t ca c kca key _ now Hca Hcs Hsv Hi ->%toy_issued Ht Ht'.
    assert (signed_by (create t kca key) ca = true) as Hs.
    { apply toy_issued in Hi as ->. unfold signed_by, create. cbn. rewrite Hca, Hcs.
      by apply bool_decide_eq_true. }
    unfold in_time. rewrite !(proj2 (Z.leb_le _ _)), Hs by tauto. cbn. by rewrite Hsv, orb_true_r.
  - intros t p key s c _ now Hsv ->%toy_issued Ht. unfold in_time. cbn in *.
    by rewrite Hsv, !(proj2 (Z.leb_le _ _)), bool_decide_true by tauto.
  - intros c roots _ now. unfold in_time.
    intros [[[H1 H2]%andb_true_iff _]%andb_true_iff Hex]%andb_true_iff.
    split; [lia|]. apply existsb_exists in Hex as (r & Hr & Hs).
    exists r. split; [by apply list_elem_of_In|].
    apply orb_true_iff in Hs as [->%bool_decide_eq_true|[_ Hs]%andb_true_iff]; [done|by apply rtc_once].
Qed.

End ToyX509.
