(* ===== verification/Tlsid.v ===== *)
(** * The TLS identity ([internal/tlsid/tlsid.go])

    The pinned offline CA and the leaf it signs: loading them from their directory and
    making what is missing, and the client's check of a presented chain against the
    pin. One [Load] sees one [time.Now()]. *)

From S2P Require Import Prelude Encoding Clock Schema Crypto Host X509.

Local Open Scope Z_scope.

Definition caValidity : Z := 10 * 365 * 24 * Hour.
Definition leafValidity : Z := 397 * 24 * Hour.

Definition ErrIdentity : error := Errorf "tls: server identity does not match the pin".

(** [filepath.Join] of a clean directory and a file name. *)
Definition Join (dir name : string) : string :=
  if decide (dir = ""%string) then name else (dir +:+ "/" +:+ name)%string.

Section tlsid.
Context `{Crypto, X509}.

(** [tls.Certificate]. *)
Record TLSCertificate := mkTLSCertificate {
  tc_certificate : list bytes;
  tc_private_key : PrivateKey;
  tc_leaf : Certificate;
}.

Record Identity := mkIdentity {
  id_ca : Certificate;
  id_serverChain : TLSCertificate;
  id_Fingerprint : string;
}.

(** ** Files *)

Definition readCert (path : string) : HM Certificate :=
  pemBytes ← ReadFile path;
  block ← of_option (Errorf "no PEM certificate") (pem_Decode pemBytes);
  of_option (Errorf "x509: certificate") (ParseCertificate block).

Definition readKey (path : string) : HM PrivateKey :=
  pemBytes ← ReadFile path;
  block ← of_option (Errorf "no PEM key") (pem_Decode pemBytes);
  k ← of_option (Errorf "x509: key") (ParsePKCS8PrivateKey block);
  of_option (Errorf "key is not ECDSA") k.

Definition writePEM (path typ : string) (der : bytes) : HM unit :=
  _ ← OpenFile path; Write path (pem_Encode typ der).

Definition writeCertPEM (path : string) (der : bytes) : HM unit := writePEM path "CERTIFICATE" der.

Definition writeKeyPEM (path : string) (key : PrivateKey) : HM unit :=
  der ← of_option (Errorf "x509: marshal key") (MarshalPKCS8PrivateKey key);
  writePEM path "PRIVATE KEY" der.

Definition randSerial : HM bytes := draw.
Definition generateKey : HM PrivateKey := r ← draw; mret (GenerateKey r).

(** [SPKIFingerprint]. *)
Definition SPKIFingerprint (c : Certificate) : string := hex_encode (sha256 (cert_spki c)).

(** ** The CA *)

Definition ca_template (serial : bytes) (now : Z) : Template := {|
  tm_serial := serial;
  tm_common_name := "Sund Offline CA";
  tm_not_before := now - Hour;
  tm_not_after := now + caValidity;
  tm_is_ca := true;
  tm_cert_sign := true;
  tm_server_auth := false;
  tm_dns_names := [];
  tm_ip_addresses := [];
|}.

Definition createCA (certPath keyPath : string) : HM (Certificate * PrivateKey) :=
  key ← generateKey;
  serial ← randSerial;
  t ← now;
  r ← draw;
  der ← of_option (Errorf "x509: create") (CreateCertificate r (ca_template serial t) None (public key) key);
  _ ← writeCertPEM certPath der;
  _ ← writeKeyPEM keyPath key;
  cert ← of_option (Errorf "x509: certificate") (ParseCertificate der);
  mret (cert, key).

(** [fileExists(certPath) && fileExists(keyPath)]. *)
Definition bothExist (certPath keyPath : string) : HM bool :=
  b ← fileExists certPath;
  if b : bool then fileExists keyPath else mret false.

Definition loadOrCreateCA (certPath keyPath : string) : HM (Certificate * PrivateKey) :=
  both ← bothExist certPath keyPath;
  if both : bool then
    cert ← readCert certPath;
    key ← readKey keyPath;
    mret (cert, key)
  else createCA certPath keyPath.

(** ** The leaf *)

Definition leaf_template (serial : bytes) (now : Z) : Template := {|
  tm_serial := serial;
  tm_common_name := "Sund";
  tm_not_before := now - Hour;
  tm_not_after := now + leafValidity;
  tm_is_ca := false;
  tm_cert_sign := false;
  tm_server_auth := true;
  tm_dns_names := ["localhost"%string];
  tm_ip_addresses := ["127.0.0.1"; "::1"]%string;
|}.

Definition loadLeaf (certPath keyPath : string) (ca : Certificate) : HM TLSCertificate :=
  leaf ← readCert certPath;
  key ← readKey keyPath;
  if negb (CheckSignatureFrom leaf ca) then fails (Errorf "x509: signature") else
  t ← now;
  if decide (t > cert_not_after leaf) then fails (Errorf "leaf certificate expired") else
  mret (mkTLSCertificate [cert_raw leaf; cert_raw ca] key leaf).

Definition createLeaf (certPath keyPath : string) (ca : Certificate) (caKey : PrivateKey)
    : HM TLSCertificate :=
  key ← generateKey;
  serial ← randSerial;
  t ← now;
  r ← draw;
  der ← of_option (Errorf "x509: create")
    (CreateCertificate r (leaf_template serial t) (Some ca) (public key) caKey);
  _ ← writeCertPEM certPath der;
  _ ← writeKeyPEM keyPath key;
  leaf ← of_option (Errorf "x509: certificate") (ParseCertificate der);
  mret (mkTLSCertificate [der; cert_raw ca] key leaf).

Definition loadOrCreateLeaf (certPath keyPath : string) (ca : Certificate) (caKey : PrivateKey)
    : HM TLSCertificate :=
  both ← bothExist certPath keyPath;
  if both : bool then
    chain ← attempt (loadLeaf certPath keyPath ca);
    match chain with
    | Some chain => mret chain
    | None => createLeaf certPath keyPath ca caKey
    end
  else createLeaf certPath keyPath ca caKey.

Definition Load (dir : string) : HM Identity :=
  _ ← MkdirAll;
  let caCertPath := Join dir "ca.crt" in
  let caKeyPath := Join dir "ca.key" in
  let leafCertPath := Join dir "server.crt" in
  let leafKeyPath := Join dir "server.key" in
  '(ca, caKey) ← loadOrCreateCA caCertPath caKeyPath;
  chain ← loadOrCreateLeaf leafCertPath leafKeyPath ca caKey;
  mret (mkIdentity ca chain (SPKIFingerprint ca)).

(** ** Configurations *)

(** What the source sets of [tls.Config]; [VerifyPeerCertificate] of the presented
    certificates, at a time. *)
Record tlsConfig := mkTLSConfig {
  Certificates : list TLSCertificate;
  MinVersion : Z;
  InsecureSkipVerify : bool;
  VerifyPeerCertificate : option (Z -> list bytes -> option error);
  ServerName : string;
}.

Definition VersionTLS12 : Z := 771.

(** The check at time [now]: [None] is success. *)
Definition verifyPinned (now : Z) (rawCerts : list bytes) (fingerprint : string) : option error :=
  match rawCerts with
  | [] => Some ErrIdentity
  | _ =>
    match mapM ParseCertificate rawCerts with
    | None => Some ErrIdentity
    | Some certs =>
      match head (filter (fun c => SPKIFingerprint c = fingerprint) certs), certs with
      | Some pinned, leaf :: inters =>
          if Verify leaf [pinned] inters now then None else Some ErrIdentity
      | _, _ => Some ErrIdentity
      end
    end
  end.

Definition ServerTLSConfig (id : Identity) : tlsConfig :=
  mkTLSConfig [id_serverChain id] VersionTLS12 false None "".

Definition ClientTLSConfig (fingerprint : string) : tlsConfig :=
  mkTLSConfig [] VersionTLS12 true
    (Some (fun now rawCerts => verifyPinned now rawCerts fingerprint)) "".

End tlsid.
