(* ===== verification/Identity.v ===== *)
(** * The identity survives

    Starting the server any number of times, with any failures of the host and the leaf
    rotated in between, keeps the pinned identity, and what is served passes the
    client's check of the pin. *)

From S2P Require Import Prelude Encoding Clock Schema Crypto Host X509 Tlsid.

Local Open Scope Z_scope.

(** Up to the writing of the files, which is one step ([hp_write_pair]). *)
Ltac until_write :=
  repeat lazymatch goal with
  | |- hp (mbind _ (writeCertPEM _ _)) _ _ => fail
  | |- _ => hp_step
  end.

Section identity.
Context `{Crypto} `{X : X509} `{!X509Laws X}.
Implicit Types (h : Host) (fs : gmap string bytes) (c ca : Certificate) (k : PrivateKey).

(** ** The pin check *)

Lemma filter_head_elem {A} (P : A -> Prop) `{!forall x, Decision (P x)} (l : list A) (x : A) :
  head (filter P l) = Some x -> P x /\ x ∈ l.
Proof. intros E%head_elem_of. by apply list_elem_of_filter in E. Qed.

(** The check of the pin is sound: a chain it accepts starts with a certificate that is in
    its time and that a chain of signatures links to one of the presented certificates
    whose key has the pinned fingerprint; and it accepts nothing when the server presents
    no certificate. *)
Lemma pinned_chain (now : Z) (raws : list bytes) (fp : string) :
  verifyPinned now raws fp = None ->
  exists leaf pinned raw, head raws = Some raw /\ ParseCertificate raw = Some leaf /\
    cert_raw pinned ∈ raws /\ SPKIFingerprint pinned = fp /\
    rtc (fun x y => CheckSignatureFrom x y = true) leaf pinned /\
    cert_not_before leaf <= now <= cert_not_after leaf.
Proof.
  unfold verifyPinned. destruct raws as [|raw raws]; [done|].
  destruct (mapM ParseCertificate (raw :: raws)) as [certs|] eqn:Ec; [|done].
  destruct (head (filter _ certs)) as [pinned|] eqn:Ep; [|done].
  destruct certs as [|leaf inters]; [done|].
  destruct (Verify leaf [pinned] inters now) eqn:Ev; [|done]. intros _.
  apply filter_head_elem in Ep as [Hfp Hin]. apply mapM_Some in Ec.
  apply verify_chain in Ev as (Ht & root & ->%list_elem_of_singleton & Hrtc).
  exists leaf, pinned, raw. split_and!; [done| | |done|done|lia..].
  - by apply Forall2_cons in Ec as [? _].
  - apply list_elem_of_lookup in Hin as [i Hi].
    destruct (Forall2_lookup_r _ _ _ _ _ Ec Hi) as (b & Hb & Hp).
    rewrite (parse_raw b) by done. by eapply list_elem_of_lookup_2.
Qed.

(** ** Writing a certificate and its key *)

Definition cert_pem (der : bytes) : bytes := pem_Encode "CERTIFICATE" der.
Definition key_pem (kb : bytes) : bytes := pem_Encode "PRIVATE KEY" kb.

(** What a certificate and a key written one after the other leave: all of it when
    [ok], a first part otherwise. *)
Inductive written (cp kp : string) (der : bytes) (k : PrivateKey) fs
    : bool -> gmap string bytes -> Prop :=
  | written_none : written cp kp der k fs false fs
  | written_cert n : written cp kp der k fs false (<[cp := take n (cert_pem der)]> fs)
  | written_both n kb ok :
      MarshalPKCS8PrivateKey k = Some kb -> (ok = true -> take n (key_pem kb) = key_pem kb) ->
      written cp kp der k fs ok (<[kp := take n (key_pem kb)]> (<[cp := cert_pem der]> fs)).

Lemma hp_write_pair {A} (cp kp : string) (der : bytes) c k (f : Certificate -> A) h
    (Q : error + A -> Host -> Prop) :
  ParseCertificate der = Some c ->
  (forall r h', h_clock h' = h_clock h ->
    written cp kp der k (h_files h) (if r is inr _ then true else false) (h_files h') ->
    (forall a, r = inr a -> a = f c) -> Q r h') ->
  hp (_ ← writeCertPEM cp der; _ ← writeKeyPEM kp k;
      cert ← of_option (Errorf "x509: certificate") (ParseCertificate der); mret (f cert)) h Q.
Proof.
  intros Hp HQ. rewrite Hp. apply hp_bind. unfold writeCertPEM, writePEM. apply hp_overwrite.
  intros r h1 Hc1 [(e & -> & Hf1)|(n & Hf1 & Hok)].
  { apply HQ; [done|rewrite Hf1; constructor|done]. }
  destruct r as [e|[]]; [apply HQ; [done|rewrite Hf1; constructor|done]|].
  specialize (Hok eq_refl). change (take n (cert_pem der) = cert_pem der) in Hok.
  change (h_files h1 = <[cp := take n (cert_pem der)]> (h_files h)) in Hf1.
  apply hp_bind. unfold writeKeyPEM, writePEM. apply hp_bind, hp_of_option.
  { intros _. apply HQ; [done|rewrite Hf1; constructor|done]. }
  intros kb Hk. apply hp_overwrite. intros r h2 Hc2 Hf2. rewrite Hf1, Hok in Hf2.
  destruct Hf2 as [(e & -> & Hf2)|(m & Hf2 & Hok2)].
  { apply HQ; [congruence| |done]. rewrite Hf2, <- Hok. constructor. }
  destruct r as [e|[]].
  - apply HQ; [congruence| |done]. rewrite Hf2. by apply written_both.
  - apply hp_bind, hp_of_option; [done|]. intros _ [= <-]. apply hp_ret, HQ; [congruence| |by intros a [= ->]]. rewrite Hf2. apply written_both; [done|].
    intros _. by apply Hok2.
Qed.

(** ** The directory *)

Variable dir : string.
Let cacrt := Join dir "ca.crt".
Let cakey := Join dir "ca.key".
Let crt := Join dir "server.crt".
Let key := Join dir "server.key".

Definition ca_of k ca : Prop := exists serial t, issued (ca_template serial t) None (public k) k ca.
Definition leaf_of ca k leaf : Prop :=
  exists serial t pub, issued (leaf_template serial t) (Some ca) pub k leaf.

(** [server.crt] is missing, or holds a first part of a leaf of the CA. *)
Definition leaf_file ca k fs : Prop :=
  forall b, fs !! crt = Some b ->
  exists leaf n, leaf_of ca k leaf /\ b = take n (cert_pem (cert_raw leaf)).

(** The CA is in place: the certificate, and at least a first part of its key. *)
Definition in_place_with ca k fs : Prop :=
  fs !! cacrt = Some (cert_pem (cert_raw ca)) /\ ca_of k ca /\
  (exists kb n, MarshalPKCS8PrivateKey k = Some kb /\ fs !! cakey = Some (take n (key_pem kb))) /\
  leaf_file ca k fs.
Definition in_place ca fs : Prop := exists k, in_place_with ca k fs.

Definition dir_ok fs : Prop :=
  (fs !! cakey = None /\ fs !! crt = None) \/ exists ca, in_place ca fs.

Lemma Join_inj (n n' : string) : Join dir n = Join dir n' -> n = n'.
Proof.
  unfold Join. case_decide; [done|]. intros E. by do 2 apply (inj (String.append _)) in E.
Qed.

Lemma issued_raw t p pub k c : issued t p pub k c -> ParseCertificate (cert_raw c) = Some c.
Proof. intros (r & der & _ & E). by rewrite (parse_raw der c E). Qed.

Lemma in_place_unique ca ca' fs : in_place ca fs -> in_place ca' fs -> ca = ca'.
Proof.
  intros (k1 & H1 & (s1 & t1 & P1) & _) (k2 & H2 & (s2 & t2 & P2) & _).
  apply issued_raw in P1, P2. rewrite H1 in H2. injection H2 as E.
  apply (f_equal pem_Decode) in E. unfold cert_pem in E. rewrite !pem_round_trip in E. congruence.
Qed.

(** ** Each part of [Load] *)

Lemma hp_readCert (p : string) h (Q : error + Certificate -> Host -> Prop) :
  (forall r h', h_files h' = h_files h -> h_clock h' = h_clock h ->
    (forall c, r = inr c -> exists b d, h_files h !! p = Some b /\ pem_Decode b = Some d /\
      ParseCertificate d = Some c) -> Q r h') ->
  hp (readCert p) h Q.
Proof.
  intros HQ. unfold readCert. repeat hp_step; try (apply HQ; by congruence).
  apply HQ; [done..|]. intros c [= <-]. naive_solver.
Qed.

Lemma hp_readKey (p : string) h (Q : error + PrivateKey -> Host -> Prop) :
  (forall r h', h_files h' = h_files h -> h_clock h' = h_clock h ->
    (forall k, r = inr k -> exists b d, h_files h !! p = Some b /\ pem_Decode b = Some d /\
      ParsePKCS8PrivateKey d = Some (Some k)) -> Q r h') ->
  hp (readKey p) h Q.
Proof.
  intros HQ. unfold readKey. repeat hp_step; try (apply HQ; by congruence).
  apply HQ; [done..|]. intros k [= <-]. naive_solver.
Qed.

Definition is_inr {A B} (r : A + B) : bool := if r is inr _ then true else false.

Lemma hp_createCA (cp kp : string) h (Q : error + (Certificate * PrivateKey) -> Host -> Prop) :
  (forall r h', h_clock h' = h_clock h ->
    (is_inr r = false /\ h_files h' = h_files h) \/
    (exists k ca, ca_of k ca /\ written cp kp (cert_raw ca) k (h_files h) (is_inr r) (h_files h') /\
      (forall a, r = inr a -> a = (ca, k))) -> Q r h') ->
  hp (createCA cp kp) h Q.
Proof.
  intros HQ. unfold createCA, generateKey, randSerial.
  until_write; try (apply HQ; [congruence|left; split; [done|congruence]]).
  destruct (issued_parses _ _ _ _ _ _ Ho) as [ca Hca].
  eapply (hp_write_pair _ _ _ ca _ (fun c => (c, _))); [done|].
  intros r h' Hc Hw Ha. apply HQ; [congruence|]. right. eexists _, ca. split_and!; [| |exact Ha].
  - eexists _, _, _, _. by eauto.
  - rewrite (parse_raw _ _ Hca). rewrite <- Hfiles, <- Hfiles0, <- Hfiles1. by destruct r.
Qed.

Lemma hp_createLeaf (cp kp : string) ca k h (Q : error + TLSCertificate -> Host -> Prop) :
  (forall r h', h_clock h' = h_clock h ->
    (is_inr r = false /\ h_files h' = h_files h) \/
    (exists key leaf, leaf_of ca k leaf /\ h_clock h <= cert_not_after leaf /\
      written cp kp (cert_raw leaf) key (h_files h) (is_inr r) (h_files h') /\
      (forall a, r = inr a -> a = mkTLSCertificate [cert_raw leaf; cert_raw ca] key leaf)) -> Q r h') ->
  hp (createLeaf cp kp ca k) h Q.
Proof.
  intros HQ. unfold createLeaf, generateKey, randSerial.
  until_write; try (apply HQ; [congruence|left; split; [done|congruence]]).
  destruct (issued_parses _ _ _ _ _ _ Ho) as [leaf Hl].
  eapply (hp_write_pair _ _ _ leaf _ (fun c => mkTLSCertificate [_; _] _ c)); [done|].
  intros r h' Hc Hw Ha. apply HQ; [congruence|]. right. eexists _, leaf. split_and!.
  - eexists _, _, _, _, _. by eauto.
  - edestruct issued_fields as (_ & -> & _); [by eexists _, _|]. cbn.
    unfold leafValidity, sec, Hour, Minute, Second. rewrite <- Hclock, <- Hclock0. dmlia.
  - rewrite (parse_raw _ _ Hl), <- Hfiles, <- Hfiles0, <- Hfiles1. by destruct r.
  - rewrite (parse_raw _ _ Hl). exact Ha.
Qed.

Lemma hp_bothExist (cp kp : string) h (Q : error + bool -> Host -> Prop) :
  (forall b h', h_files h' = h_files h -> h_clock h' = h_clock h -> Q (inr b) h') ->
  hp (bothExist cp kp) h Q.
Proof.
  intros HQ. unfold bothExist. apply hp_bind, hp_fileExists. intros b h1 Hf1 Hc1 _.
  destruct b; [|by apply hp_ret, HQ]. apply hp_fileExists. intros b h2 Hf2 Hc2 _. apply HQ; congruence.
Qed.

(** What is served for the CA at an instant: its certificate after a leaf it issued,
    which has not expired. *)
Definition served ca k (t : Z) (tc : TLSCertificate) : Prop :=
  exists leaf kl, leaf_of ca k leaf /\ t <= cert_not_after leaf /\
    tc = mkTLSCertificate [cert_raw leaf; cert_raw ca] kl leaf.

Lemma hp_loadLeaf ca k h (Q : error + TLSCertificate -> Host -> Prop) :
  leaf_file ca k (h_files h) ->
  (forall r h', h_files h' = h_files h -> h_clock h' = h_clock h ->
    (forall tc, r = inr tc -> served ca k (h_clock h) tc) -> Q r h') ->
  hp (loadLeaf crt key ca) h Q.
Proof.
  intros Hl HQ. unfold loadLeaf. apply hp_bind, hp_readCert. intros [e|leaf] h1 Hf1 Hc1 Hr1.
  { by apply HQ. }
  apply hp_bind, hp_readKey. intros [e|kl] h2 Hf2 Hc2 _; [apply HQ; by congruence|].
  destruct (CheckSignatureFrom leaf ca); cbn [negb]; [|apply HQ; cbn; by congruence].
  repeat hp_step. case_decide as Ht; (apply HQ; [cbn; congruence..|]); [done|].
  intros tc [= <-]. exists leaf, kl. split_and!; [|rewrite Hc2, Hc1 in Ht; lia|done].
  destruct (Hr1 leaf eq_refl) as (b & d & Hb & Hd & Hp).
  destruct (Hl b Hb) as (leaf' & n & Hlo & ->). apply pem_truncated in Hd as ->.
  destruct Hlo as (s & t & pub & Hi). rewrite (issued_raw _ _ _ _ _ Hi) in Hp. simplify_eq.
  by eexists _, _, _.
Qed.

Lemma written_leaf_file ca k leaf kl fs ok fs' :
  leaf_of ca k leaf -> leaf_file ca k fs -> written crt key (cert_raw leaf) kl fs ok fs' ->
  leaf_file ca k fs' /\ (forall p, p <> crt -> p <> key -> fs' !! p = fs !! p).
Proof.
  intros Hl Hf Hw. assert (crt <> key) as Hne by (by intros E%Join_inj).
  destruct Hw as [|n|n kb ok]; [done|..]; split;
    try (by intros p ??; rewrite !lookup_insert_ne by done); intros b.
  - rewrite lookup_insert_eq. intros [= <-]. by exists leaf, n.
  - rewrite lookup_insert_ne, lookup_insert_eq by done. intros [= <-].
    exists leaf, (length (cert_pem (cert_raw leaf))). by rewrite take_ge.
Qed.

Lemma hp_createLeaf_served ca k h (Q : error + TLSCertificate -> Host -> Prop) :
  leaf_file ca k (h_files h) ->
  (forall r h', h_clock h' = h_clock h -> leaf_file ca k (h_files h') ->
    (forall p, p <> crt -> p <> key -> h_files h' !! p = h_files h !! p) ->
    (forall tc, r = inr tc -> served ca k (h_clock h) tc) -> Q r h') ->
  hp (createLeaf crt key ca k) h Q.
Proof.
  intros Hl HQ. apply hp_createLeaf. intros r h' Hc [[Hr Hf]|(kl & leaf & Hlo & Ht & Hw & Ha)].
  - apply HQ; rewrite ?Hf; try done. by intros tc ->.
  - destruct (written_leaf_file ca k leaf kl _ _ _ Hlo Hl Hw) as [Hl' Hp]. apply HQ; [done..|].
    intros tc Hr. exists leaf, kl. by rewrite (Ha tc Hr).
Qed.

Lemma hp_loadOrCreateLeaf ca k h (Q : error + TLSCertificate -> Host -> Prop) :
  leaf_file ca k (h_files h) ->
  (forall r h', h_clock h' = h_clock h -> leaf_file ca k (h_files h') ->
    (forall p, p <> crt -> p <> key -> h_files h' !! p = h_files h !! p) ->
    (forall tc, r = inr tc -> served ca k (h_clock h) tc) -> Q r h') ->
  hp (loadOrCreateLeaf crt key ca k) h Q.
Proof.
  intros Hl HQ.
  assert (forall h1, h_files h1 = h_files h -> h_clock h1 = h_clock h ->
    hp (createLeaf crt key ca k) h1 Q) as Hcreate.
  { intros h1 Hf1 Hc1. apply hp_createLeaf_served; [by rewrite Hf1|]. rewrite Hf1, Hc1. exact HQ. }
  unfold loadOrCreateLeaf. apply hp_bind, hp_bothExist. intros b h1 Hf1 Hc1.
  destruct b; [|by apply Hcreate]. apply hp_bind, hp_attempt, (hp_loadLeaf ca k); [by rewrite Hf1|].
  intros r h2 Hf2 Hc2 Hr. destruct r as [e|tc]; [apply Hcreate; congruence|].
  apply hp_ret, HQ; [congruence|by rewrite Hf2, Hf1|intros; by rewrite Hf2, Hf1|].
  intros tc' [= <-]. rewrite <- Hc1. by apply Hr.
Qed.

(** ** [Load] *)

(** The calls that look for the CA's two files, the second and third of [Load], do not
    fail. *)
Definition stats_work (faults : list (option nat)) : Prop :=
  forall n : nat, faults !! 1%nat <> Some (Some n) /\ faults !! 2%nat <> Some (Some n).

Lemma bothExist_works (cp kp : string) h :
  (forall n : nat, h_faults h !! 0%nat <> Some (Some n) /\ h_faults h !! 1%nat <> Some (Some n)) ->
  exists h', h_files h' = h_files h /\ h_clock h' = h_clock h /\
    bothExist cp kp h = (inr (bool_decide (is_Some (h_files h !! cp) /\ is_Some (h_files h !! kp))), h').
Proof.
  intros Hn. destruct h as [fs t ds faults]. cbn in *.
  assert (default None (head faults) = None) as E0.
  { destruct faults as [|[n|] l]; [done| |done]. by destruct (Hn n) as [[] _]. }
  assert (default None (head (tail faults)) = None) as E1.
  { destruct faults as [|f [|[n|] l]]; [done|done| |done]. by destruct (Hn n) as [_ []]. }
  unfold bothExist, mbind, HM_bind, fileExists, next_call. cbn. rewrite E0.
  case_bool_decide as Hc; cbn.
  - rewrite E1. exists (mkHost fs t ds (tail (tail faults))). split_and!; [done|done|]. do 2 f_equal.
    apply bool_decide_ext. tauto.
  - exists (mkHost fs t ds (tail faults)). split_and!; [done|done|].
    by rewrite bool_decide_false by tauto.
Qed.

Lemma readCert_in_place (ca0 ca1 : Certificate) k fs b d :
  in_place_with ca0 k fs -> fs !! cacrt = Some b -> pem_Decode b = Some d ->
  ParseCertificate d = Some ca1 -> ca1 = ca0.
Proof.
  intros (Hc & (s & t & Hi) & _) Hb Hd Hp. rewrite Hc in Hb. simplify_eq.
  unfold cert_pem in Hd. rewrite pem_round_trip in Hd. simplify_eq.
  rewrite (issued_raw _ _ _ _ _ Hi) in Hp. by simplify_eq.
Qed.

Lemma readKey_in_place ca k k1 fs b d :
  in_place_with ca k fs -> fs !! cakey = Some b -> pem_Decode b = Some d ->
  ParsePKCS8PrivateKey d = Some (Some k1) -> k1 = k.
Proof.
  intros (_ & _ & (kb & n & Hm & Hk) & _) Hb Hd Hp. rewrite Hk in Hb. simplify_eq.
  apply pem_truncated in Hd as ->. rewrite (pkcs8_round_trip k kb Hm) in Hp. by simplify_eq.
Qed.

Lemma written_in_place ca k fs ok fs' :
  fs !! cakey = None -> fs !! crt = None -> ca_of k ca ->
  written cacrt cakey (cert_raw ca) k fs ok fs' ->
  dir_ok fs' /\ (ok = true -> in_place_with ca k fs').
Proof.
  intros Hk Hl Hca Hw. assert (cacrt <> cakey /\ cacrt <> crt /\ cakey <> crt) as (N1 & N2 & N3)
    by (split_and!; by intros E%Join_inj).
  destruct Hw as [|n|n kb ok Hm Hok]; [split; [by left|done]|split; [left|done]|].
  - by rewrite !lookup_insert_ne.
  - set (fs' := insert cakey _ _). assert (in_place_with ca k fs') as Hin.
    { split_and!; [|done|exists kb, n; split; [done|unfold fs'; by rewrite lookup_insert_eq]|].
      - unfold fs'. by rewrite lookup_insert_ne, lookup_insert_eq by done.
      - intros b. unfold fs'. by rewrite !lookup_insert_ne, Hl by done. }
    split; [right; by exists ca, k|done].
Qed.

Lemma hp_loadOrCreateCA h (Q : error + (Certificate * PrivateKey) -> Host -> Prop) :
  dir_ok (h_files h) ->
  (forall n : nat, h_faults h !! 0%nat <> Some (Some n) /\ h_faults h !! 1%nat <> Some (Some n)) ->
  (forall r h', h_clock h' = h_clock h -> dir_ok (h_files h') ->
    (forall ca, in_place ca (h_files h) -> in_place ca (h_files h')) ->
    (forall ca k, r = inr (ca, k) -> in_place_with ca k (h_files h')) -> Q r h') ->
  hp (loadOrCreateCA cacrt cakey) h Q.
Proof.
  intros Hd Hs HQ. unfold loadOrCreateCA. apply hp_bind.
  destruct (bothExist_works cacrt cakey h Hs) as (h1 & Hf1 & Hc1 & E). unfold hp at 1. rewrite E. cbn [fst snd].
  destruct Hd as [[Hk Hl]|[ca [k Hin]]].
  - rewrite bool_decide_false by (rewrite Hk; by intros [_ [? ?]]). apply hp_createCA.
    intros r h2 Hc2 [[Hr Hf2]|(k & ca & Hca & Hw & Ha)].
    + rewrite Hf1 in Hf2. apply HQ; [congruence|left; by rewrite Hf2|by rewrite Hf2|]. by intros ?? ->.
    + rewrite Hf1 in Hw. destruct (written_in_place ca k _ _ _ Hk Hl Hca Hw) as [Hd' Hin].
      apply HQ; [congruence|done| |].
      * intros ca' [k' (_ & _ & (kb & n & _ & Hk') & _)]. congruence.
      * intros ca' k' Hr. specialize (Ha _ Hr). simplify_eq. by apply Hin.
  - rewrite bool_decide_true.
    2: { destruct Hin as (-> & _ & (? & ? & _ & ->) & _). done. }
    assert (forall r h2, h_files h2 = h_files h1 -> h_clock h2 = h_clock h1 ->
      (forall ca' k', r = inr (ca', k') -> ca' = ca /\ k' = k) -> Q r h2) as HQ'.
    { intros r h2 Hf2 Hc2 Hr. apply HQ; [congruence|rewrite Hf2, Hf1; right; by exists ca, k| |].
      - by rewrite Hf2, Hf1.
      - intros ca' k' E'. destruct (Hr _ _ E') as [-> ->]. by rewrite Hf2, Hf1. }
    apply hp_bind, hp_readCert. intros [e|ca'] h2 Hf2 Hc2 Hr2; [by apply HQ'|].
    apply hp_bind, hp_readKey. intros [e|k'] h3 Hf3 Hc3 Hr3; [apply HQ'; by congruence|].
    apply hp_ret, HQ'; [congruence..|]. intros ? ? [= <- <-].
    destruct (Hr2 _ eq_refl) as (b & d & Hb & Hpd & Hpc). destruct (Hr3 _ eq_refl) as (b' & d' & Hb' & Hpd' & Hpk).
    rewrite Hf1 in Hb. rewrite Hf2, Hf1 in Hb'.
    split; [by eapply readCert_in_place|by eapply readKey_in_place].
Qed.

Lemma in_place_frame ca k fs fs' :
  in_place_with ca k fs -> leaf_file ca k fs' ->
  (forall p, p <> crt -> p <> key -> fs' !! p = fs !! p) -> in_place_with ca k fs'.
Proof.
  intros (Hc & Hca & Hk & _) Hl Hp.
  assert (cacrt <> crt /\ cacrt <> key /\ cakey <> crt /\ cakey <> key) as (?&?&?&?)
    by (split_and!; by intros E%Join_inj).
  split_and!; [by rewrite Hp|done| |done]. by rewrite Hp.
Qed.

Lemma hp_Load h (Q : error + Identity -> Host -> Prop) :
  dir_ok (h_files h) -> stats_work (h_faults h) ->
  (forall r h', dir_ok (h_files h') ->
    (forall ca, in_place ca (h_files h) -> in_place ca (h_files h')) ->
    (forall id, r = inr id -> in_place (id_ca id) (h_files h') /\
      id_Fingerprint id = SPKIFingerprint (id_ca id) /\
      exists k, ca_of k (id_ca id) /\ served (id_ca id) k (h_clock h) (id_serverChain id)) -> Q r h') ->
  hp (Load dir) h Q.
Proof.
  intros Hd Hs HQ. unfold Load. apply hp_bind, hp_MkdirAll; [by apply HQ|].
  apply hp_bind, hp_loadOrCreateCA; [done| |].
  { intros n. specialize (Hs n). cbn. by destruct (h_faults h). }
  cbn. intros [e|[ca k]] h1 Hc1 Hd1 Hp1 Hr1; [by apply HQ|].
  pose proof (Hr1 ca k eq_refl) as Hin. pose proof Hin as (_ & Hca & _ & Hl).
  apply hp_bind, (hp_loadOrCreateLeaf ca k); [done|].
  intros r h2 Hc2 Hl2 Hf2 Hr2. pose proof (in_place_frame _ _ _ _ Hin Hl2 Hf2) as Hin2.
  assert (forall r, (forall id, r = inr id -> in_place (id_ca id) (h_files h2) /\
      id_Fingerprint id = SPKIFingerprint (id_ca id) /\
      exists k, ca_of k (id_ca id) /\ served (id_ca id) k (h_clock h) (id_serverChain id)) -> Q r h2) as HQ2.
  { intros r' Hr'. apply HQ; [right; by exists ca, k| |exact Hr'].
    intros ca' Hca'. apply Hp1 in Hca'. rewrite (in_place_unique ca' ca (h_files h1)); [by exists k|done|by exists k]. }
  destruct r as [e|tc]; [by apply HQ2|]. apply hp_ret, HQ2. intros id [= <-]. cbn.
  split_and!; [by exists k|done|]. exists k. split; [done|]. rewrite <- Hc1. by apply Hr2.
Qed.

(** ** Histories *)

(** What happens to the directory: the server starts, with the time, the random bytes
    and the failures it meets, or the operator deletes the leaf to rotate it. *)
Inductive event : Type :=
  | Start (clock : Z) (draws : list bytes) (faults : list (option nat))
  | RotateLeaf.

Definition working (e : event) : Prop :=
  match e with Start _ _ faults => stats_work faults | RotateLeaf => True end.

(** The directory after an event, and the identity a successful start serves, with its
    time. *)
Definition run_event (e : event) fs : gmap string bytes * list (Z * Identity) :=
  match e with
  | Start clock draws faults =>
      let '(r, h) := Load dir (mkHost fs clock draws faults) in
      (h_files h, match r with inr id => [(clock, id)] | inl _ => [] end)
  | RotateLeaf => (delete crt (delete key fs), [])
  end.

Fixpoint history (es : list event) fs : gmap string bytes * list (Z * Identity) :=
  match es with
  | [] => (fs, [])
  | e :: es =>
      let '(fs, ids) := run_event e fs in
      let '(fs, ids') := history es fs in (fs, ids ++ ids')
  end.

(** An identity served at [t] from a directory left as [fs]. *)
Definition good fs (tid : Z * Identity) : Prop :=
  in_place (id_ca tid.2) fs /\ id_Fingerprint tid.2 = SPKIFingerprint (id_ca tid.2) /\
  exists k, ca_of k (id_ca tid.2) /\ served (id_ca tid.2) k tid.1 (id_serverChain tid.2).

Lemma run_event_good (e : event) fs :
  dir_ok fs -> working e ->
  dir_ok (run_event e fs).1 /\ (forall ca, in_place ca fs -> in_place ca (run_event e fs).1) /\
  Forall (good (run_event e fs).1) (run_event e fs).2.
Proof.
  intros Hd Hw. destruct e as [t ds faults|].
  - unfold run_event. pose proof (hp_Load (mkHost fs t ds faults) (fun r h' =>
      dir_ok (h_files h') /\ (forall ca, in_place ca fs -> in_place ca (h_files h')) /\
      (forall id, r = inr id -> good (h_files h') (t, id))) Hd Hw) as HL.
    unfold hp in HL. destruct (Load dir _) as [r h']. cbn in *.
    destruct HL as (H1 & H2 & H3); [done|]. split_and!; [done..|].
    destruct r as [e|id]; [constructor|]. apply Forall_singleton. by apply H3.
  - cbn. assert (forall ca, in_place ca fs -> in_place ca (delete crt (delete key fs))) as Hp.
    { intros ca [k Hin]. exists k. eapply in_place_frame; [exact Hin| |].
      - intros b. by rewrite lookup_delete_eq.
      - intros p ??. by rewrite !lookup_delete_ne. }
    split_and!; [|done|constructor]. destruct Hd as [[Hk Hl]|[ca Hin]]; [left|right; exists ca; by apply Hp].
    split; [|by rewrite lookup_delete_eq]. rewrite !lookup_delete_ne; [done|by intros E%Join_inj..].
Qed.

Lemma history_good (es : list event) fs :
  dir_ok fs -> Forall working es ->
  (forall ca, in_place ca fs -> in_place ca (history es fs).1) /\
  Forall (good (history es fs).1) (history es fs).2.
Proof.
  intros Hd Hw. revert fs Hd. induction Hw as [|e es He _ IH]; intros fs Hd; [done|]. cbn.
  destruct (run_event_good e fs Hd He) as (Hd1 & Hp1 & Hg1).
  destruct (run_event e fs) as [fs1 ids1]. cbn in *. destruct (IH fs1 Hd1) as (Hp2 & Hg2).
  destruct (history es fs1) as [fs2 ids2]. cbn in *. split; [auto|]. apply Forall_app. split; [|done].
  eapply Forall_impl; [exact Hg1|]. intros tid (Hin & Hr). split; [auto|done].
Qed.

Lemma served_verifies ca k t tc (now : Z) :
  ca_of k ca -> served ca k t tc ->
  cert_not_before ca <= now <= cert_not_after ca ->
  cert_not_before (tc_leaf tc) <= now <= cert_not_after (tc_leaf tc) ->
  verifyPinned now (tc_certificate tc) (SPKIFingerprint ca) = None.
Proof.
  intros (s & tt & Hca) (leaf & kl & (sl & tl & pub & Hl) & _ & ->) Hwc Hwl. cbn in *.
  unfold verifyPinned.
  rewrite (issued_raw _ _ _ _ _ Hl), (issued_raw _ _ _ _ _ Hca).
  cbn [mbind option_bind mret option_ret].
  rewrite !filter_cons. case_decide as Hf; cbn.
  - assert (Verify leaf [leaf] [ca] now = true) as ->; [|done].
    by apply (issued_verifies_self _ _ _ _ _ _ _ (eq_refl : tm_server_auth (leaf_template sl tl) = true) Hl).
  - rewrite decide_True by done. cbn.
    assert (Verify leaf [ca] [ca] now = true) as ->; [|done].
    eapply (issued_verifies (ca_template s tt) (leaf_template sl tl)); done.
Qed.

(** C24: the identity is stable: start the server any number of times in a directory that
    was empty, at any times, with a host that fails any calls but those that look for
    the CA's files - writes half way too - and with the leaf rotated in between; then
    all the starts that succeed have the same fingerprint, none serves an expired
    leaf, and what each serves is accepted by a client that pinned the fingerprint of
    any of them, as long as the CA and that leaf are valid. *)
Theorem identity_stable (es : list event) (Hw : Forall working es) (t t' : Z) (id id' : Identity) :
  (t, id) ∈ (history es ∅).2 -> (t', id') ∈ (history es ∅).2 ->
  id_Fingerprint id = id_Fingerprint id' /\ t <= cert_not_after (tc_leaf (id_serverChain id)) /\
  forall now, cert_not_before (id_ca id) <= now <= cert_not_after (id_ca id) ->
    cert_not_before (tc_leaf (id_serverChain id)) <= now <= cert_not_after (tc_leaf (id_serverChain id)) ->
    exists check, VerifyPeerCertificate (ClientTLSConfig (id_Fingerprint id')) = Some check /\
      Forall (fun tc => check now (tc_certificate tc) = None) (Certificates (ServerTLSConfig id)).
Proof.
  intros Hid Hid'. destruct (history_good es ∅) as [_ Hg]; [left; by rewrite !lookup_empty|done|].
  rewrite Forall_forall in Hg. destruct (Hg _ Hid) as (Hin & Hf & k & Hk & Hs).
  destruct (Hg _ Hid') as (Hin' & Hf' & _). cbn in *.
  pose proof (in_place_unique _ _ _ Hin Hin') as E. assert (id_Fingerprint id = id_Fingerprint id') as Efp
    by congruence.
  split_and!; [done|by destruct Hs as (leaf & kl & _ & ? & ->)|]. intros now Hc Hl.
  eexists. split; [done|]. apply Forall_singleton. rewrite <- Efp, Hf. by eapply served_verifies.
Qed.

End identity.

(** ** At the edges *)

Section edges.
Context `{Crypto} `{X : X509} `{!X509Laws X}.

Lemma createCA_key (cp kp : string) (h : Host) (d : bytes) :
  head (h_draws h) = Some d ->
  hp (createCA cp kp) h (fun r _ =>
    forall ca k, r = inr (ca, k) -> cert_spki ca = spki (public (GenerateKey d))).
Proof.
  intros Hd. unfold createCA, generateKey, randSerial. apply hp_bind, hp_bind, (hp_draw_head d); [done|].
  intros h1. apply hp_ret.
  until_write; try done. destruct (issued_parses _ _ _ _ _ _ Ho) as [ca Hca].
  apply (hp_write_pair _ _ _ ca _ (fun c => (c, _))); [done|]. intros r h' _ _ Ha ca' k' E.
  specialize (Ha _ E). simplify_eq. edestruct issued_fields as (_ & _ & ->); [|done].
  by eexists _, _.
Qed.

Lemma bothExist_misses (cp kp : string) (h : Host) :
  h_files h !! cp = None \/ h_files h !! kp = None \/
    (exists n, h_faults h !! 0%nat = Some (Some n) \/ h_faults h !! 1%nat = Some (Some n)) ->
  hp (bothExist cp kp) h (fun r h' => r = inr false /\ h_draws h' = h_draws h).
Proof.
  destruct h as [fs t ds faults]. cbn. intros Hm. unfold bothExist. apply hp_bind.
  unfold hp, fileExists, next_call. cbn.
  destruct faults as [|[n|] [|[n'|] faults]]; cbn; repeat case_bool_decide; cbn; try done;
    repeat case_bool_decide; try done; exfalso;
    repeat match goal with Hs : is_Some _ |- _ => destruct Hs as [? Hs] end;
    destruct Hm as [E|[E|[m [E|E]]]]; cbn in *; congruence.
Qed.

(** When [ca.crt] or [ca.key] is not found - it is missing, or looking for it fails -
    a start that succeeds serves a new identity, made from the first random bytes it
    draws, whatever the other file holds: the pin the clients have is replaced without
    an error. An operator who keeps [ca.key] off the server does this at every start. *)
Theorem unfound_ca_replaces_identity (dir : string) (h : Host) (d : bytes) (id : Identity) :
  h_files h !! Join dir "ca.crt" = None \/ h_files h !! Join dir "ca.key" = None \/
    (exists n : nat, h_faults h !! 1%nat = Some (Some n) \/ h_faults h !! 2%nat = Some (Some n)) ->
  head (h_draws h) = Some d ->
  (Load dir h).1 = inr id ->
  id_Fingerprint id = hex_encode (sha256 (spki (public (GenerateKey d)))).
Proof.
  intros Hm Hd. enough (hp (Load dir) h (fun r _ => forall id, r = inr id ->
    id_Fingerprint id = hex_encode (sha256 (spki (public (GenerateKey d)))))) as Hp.
  { intros E. unfold hp in Hp. by apply Hp. }
  clear id. unfold Load. apply hp_bind, hp_MkdirAll; [done|]. apply hp_bind. unfold loadOrCreateCA. apply hp_bind.
  eapply hp_mono; [apply bothExist_misses; cbn; by destruct (h_faults h)|].
  cbn. intros r h1 [-> Hd1]. eapply hp_mono; [apply (createCA_key _ _ _ d); congruence|].
  cbn. intros [e|[ca k]] h2 Hr; [done|]. apply hp_bind. unfold hp.
  destruct (loadOrCreateLeaf _ _ _ _ h2) as [[e|tc] h3]; [done|]. cbn. intros id [= <-]. cbn.
  unfold SPKIFingerprint. by rewrite (Hr ca k).
Qed.

End edges.

Section examples.
Import Toy ToyX509.

(** The tenth of January 1970, a fresh start, and a restart 398 days later. *)
Definition day : Z := 24 * Hour.
Definition first_start : event := Start (10 * day) [[x01]; [x02]; [x03]; [x04]; [x05]; [x06]] [].

Definition ca0 : Certificate := create (ca_template [] (10 * day)) [x01] [x01].
Definition leaf0 : Certificate := create (leaf_template [] (10 * day)) [x01] [x04].
Definition chain0 : list bytes := [cert_raw leaf0; cert_raw ca0].

Lemma chain0_accepted : verifyPinned (10 * day) chain0 (SPKIFingerprint ca0) = None.
Proof. by vm_compute. Qed.

(** A year and a month later the leaf has expired; its renewal fails after the
    certificate, and the server is started again. *)
Definition renewal (faults : list (option nat)) : event :=
  Start (408 * day) [[x07]; [x08]; [x09]] faults.
Definition restart : event := Start (409 * day) [] [].

(** The key is opened in the twelfth call. *)
Definition key_lost : list (option nat) := replicate 11 None ++ [Some 0%nat].

Definition starts (es : list event) : list (Z * Identity) := (history "tls" es ∅).2.

(** The instant and the identity of the [n]-th successful start. *)
Definition nth_start (n : nat) (es : list event) : Z * Identity :=
  default (0, mkIdentity ca0 (mkTLSCertificate [] [] ca0) "") (starts es !! n).

Definition rotated : list event := [first_start; renewal []; RotateLeaf; Start (409 * day) [[x07]; [x08]; [x09]] []].

Lemma rotated_working : Forall working rotated.
Proof. repeat (apply Forall_cons; split; [by try intros n|]). apply Forall_nil_2. Qed.

Lemma nth_start_in (n : nat) (es : list event) :
  is_Some (starts es !! n) -> nth_start n es ∈ starts es.
Proof. unfold nth_start. intros [x Hx]. rewrite Hx. by eapply list_elem_of_lookup_2. Qed.

Lemma identity_stable_witness :
  let '(t, id) := nth_start 0 rotated in let '(t', id') := nth_start 2 rotated in
  id_Fingerprint id = id_Fingerprint id' /\ t <= cert_not_after (tc_leaf (id_serverChain id)) /\
  forall now, cert_not_before (id_ca id) <= now <= cert_not_after (id_ca id) ->
    cert_not_before (tc_leaf (id_serverChain id)) <= now <= cert_not_after (tc_leaf (id_serverChain id)) ->
    exists check, VerifyPeerCertificate (ClientTLSConfig (id_Fingerprint id')) = Some check /\
      Forall (fun tc => check now (tc_certificate tc) = None) (Certificates (ServerTLSConfig id)).
Proof.
  pose proof (nth_start_in 0 rotated ltac:(apply (bool_decide_unpack _); by vm_compute)) as H0.
  pose proof (nth_start_in 2 rotated ltac:(apply (bool_decide_unpack _); by vm_compute)) as H2.
  revert H0 H2. unfold starts. destruct (nth_start 0 rotated) as [t id], (nth_start 2 rotated) as [t' id'].
  intros H0 H2.
  exact (identity_stable "tls" rotated rotated_working t t' id id' H0 H2).
Defined.

(** The directory after the first start, without [ca.key]. *)
Definition no_key : Host :=
  mkHost (delete "tls/ca.key"%string (history "tls" [first_start] ∅).1) (11 * day)
    [[x0a]; [x0b]; [x0c]; [x0d]; [x0e]; [x0f]] [].

Definition new_id : Identity :=
  match (Load "tls" no_key).1 with
  | inr id => id
  | inl _ => mkIdentity ca0 (mkTLSCertificate [] [] ca0) ""
  end.

Lemma unfound_ca_replaces_identity_witness :
  (Load "tls" no_key).1 = inr new_id /\
  id_Fingerprint new_id <> id_Fingerprint (nth_start 0 [first_start]).2 /\
  id_Fingerprint new_id = hex_encode (sha256 (spki (public (GenerateKey [x0a])))).
Proof.
  assert ((Load "tls" no_key).1 = inr new_id) as E.
  { assert (is_inr (Load "tls" no_key).1 = true) as Hs by by vm_compute.
    unfold new_id. revert Hs. by destruct (Load "tls" no_key).1. }
  assert (h_files no_key !! Join "tls" "ca.key" = None) as Hk by by vm_compute.
  split; [exact E|]. split; [by vm_compute|].
  exact (unfound_ca_replaces_identity "tls" no_key [x0a] new_id (or_intror (or_introl Hk)) eq_refl E).
Defined.

(** A renewal that fails between the two files leaves an identity that is served and
    does not work: the leaf expired, the new [server.crt] was written and [server.key]
    could not be opened; the next start, with nothing failing, serves the new
    certificate with the old key. The client's check of the pin accepts the chain, but
    the key is not the certificate's, so no handshake succeeds, and the next starts
    load the same pair. *)
Theorem interrupted_renewal_serves_wrong_key :
  exists es id, Forall working es /\ (409 * day, id) ∈ (history "tls" es ∅).2 /\
    verifyPinned (409 * day) (tc_certificate (id_serverChain id)) (id_Fingerprint id) = None /\
    cert_spki (tc_leaf (id_serverChain id)) <> spki (public (tc_private_key (id_serverChain id))).
Proof.
  exists [first_start; renewal key_lost; restart], (nth_start 1 [first_start; renewal key_lost; restart]).2.
  split_and!; [|  |by vm_compute|by vm_compute].
  { repeat (apply Forall_cons; split; [by try intros n|]). apply Forall_nil_2. }
  assert ((nth_start 1 [first_start; renewal key_lost; restart]).1 = 409 * day) as <- by by vm_compute.
  rewrite <- surjective_pairing. apply nth_start_in. apply (bool_decide_unpack _). by vm_compute.
Qed.

End examples.
