(* ===== verification/Duration.v ===== *)
(** * Integers and durations as flag texts ([strconv], [time])

    [strconv.ParseInt] in the base a number's prefix says, [time.ParseDuration] with its
    64-bit and floating-point arithmetic, and [time.Duration.String]. *)

From Stdlib Require Import SpecFloat.
From S2P Require Import Prelude Encoding Clock Decimal.

Local Open Scope Z_scope.

(** ** Characters *)

Definition code (c : ascii) : Z := Z.of_N (N_of_ascii c).

(** [c | ('x' - 'X')]. *)
Definition lower (c : ascii) : ascii := ascii_of_N (N.lor (N_of_ascii c) 32).

Definition is_digit (c : ascii) : bool := bool_decide (is_Some (dec_digit c)).
Definition is_hex_letter (c : ascii) : bool := bool_decide (97 <= code (lower c) <= 102).

(** ** [strconv.ParseInt(s, 0, 64)] *)

(** What was seen last: the beginning, a digit or the base prefix, an underscore, or
    something else. *)
Inductive saw : Type := SBegin | SDigit | SUnderscore | SOther.

Fixpoint underscores_ok (hex : bool) (s : saw) (t : string) : bool :=
  match t with
  | EmptyString => match s with SUnderscore => false | _ => true end
  | String c t =>
      if is_digit c || (hex && is_hex_letter c) then underscores_ok hex SDigit t
      else if bool_decide (c = "_"%char) then
        match s with SDigit => underscores_ok hex SUnderscore t | _ => false end
      else match s with SUnderscore => false | _ => underscores_ok hex SOther t end
  end.

(** The base of a prefix letter. *)
Definition prefix_base (c : ascii) : option Z :=
  if decide (lower c = "b"%char) then Some 2 else
  if decide (lower c = "o"%char) then Some 8 else
  if decide (lower c = "x"%char) then Some 16 else None.

Definition underscoreOK (s : string) : bool :=
  let s := match s with String ("-" | "+") s => s | _ => s end in
  match lit "0" s with
  | Some (String c t) =>
      match prefix_base c with
      | Some b => underscores_ok (bool_decide (b = 16)) SDigit t
      | None => underscores_ok false SBegin s
      end
  | _ => underscores_ok false SBegin s
  end.

(** The base of an unsigned number, and its digits. *)
Definition based (s : string) : Z * string :=
  match lit "0" s with
  | Some (String c (String d t)) =>
      match prefix_base c with
      | Some b => (b, String d t)
      | None => (8, String c (String d t))
      end
  | Some t => (8, t)
  | None => (10, s)
  end.

(** A digit of any base: [0-9], then letters. *)
Definition digit_value (c : ascii) : option Z :=
  match dec_digit c with
  | Some d => Some d
  | None => if decide (97 <= code (lower c) <= 122) then Some (code (lower c) - 97 + 10) else None
  end.

(** The digits; underscores are passed over. A number of more than 64 bits is an error. *)
Fixpoint read_based (base n : Z) (s : string) : option Z :=
  match s with
  | EmptyString => Some n
  | String c s =>
      if decide (c = "_"%char) then read_based base n s else
      d ← digit_value c;
      if decide (d >= base) then None else
      let n := n * base + d in
      if decide (n >= 2 ^ 64) then None else read_based base n s
  end.

Fixpoint has_underscore (s : string) : bool :=
  match s with
  | EmptyString => false
  | String c s => bool_decide (c = "_"%char) || has_underscore s
  end.

Definition ParseUint0 (s : string) : option Z :=
  if decide (s = ""%string) then None else
  let '(base, t) := based s in
  n ← read_based base 0 t;
  if has_underscore t && negb (underscoreOK s) then None else Some n.

Definition ParseInt0 (s : string) : option Z :=
  if decide (s = ""%string) then None else
  let '(neg, t) := match s with
                   | String "+" t => (false, t)
                   | String "-" t => (true, t)
                   | _ => (false, s)
                   end in
  n ← ParseUint0 t;
  if neg : bool then (if decide (n > 2 ^ 63) then None else Some (- n))
  else (if decide (n >= 2 ^ 63) then None else Some n).

Example ParseInt0_example :
  ParseInt0 "0x1_0" = Some 16 /\ ParseInt0 "-0b101" = Some (-5) /\ ParseInt0 "017" = Some 15 /\
  ParseInt0 "1_000" = Some 1000 /\ ParseInt0 "1__0" = None /\ ParseInt0 "_1" = None /\ ParseInt0 "08" = None /\
  ParseInt0 "0x" = None /\ ParseInt0 "0" = Some 0 /\ ParseInt0 "9223372036854775808" = None /\
  ParseInt0 "-9223372036854775808" = Some (- 2 ^ 63).
Proof. by vm_compute. Qed.

(** ** [time.ParseDuration] *)

(** The digits in front; more than 63 bits are an error. *)
Fixpoint leadingInt (x : Z) (s : string) : option (Z * string) :=
  match s with
  | String c s' =>
      match dec_digit c with
      | Some d =>
          if decide (x > 2 ^ 63 / 10) then None else
          let x := x * 10 + d in
          if decide (x > 2 ^ 63) then None else leadingInt x s'
      | None => Some (x, s)
      end
  | EmptyString => Some (x, s)
  end.

(** [float64] arithmetic. *)
Definition float_of (z : Z) : spec_float := binary_normalize 53 1024 z 0 false.
Definition fmul : spec_float -> spec_float -> spec_float := SFmul 53 1024.
Definition fdiv : spec_float -> spec_float -> spec_float := SFdiv 53 1024.

(** [uint64(f)] of a float that is not negative: the fraction is dropped. *)
Definition truncate (f : spec_float) : Z :=
  match f with S754_finite false m e => Z.shiftl (Z.pos m) e | _ => 0 end.

(** The digits after the point and their scale; digits beyond 63 bits are passed over. *)
Fixpoint leadingFraction (x : Z) (scale : spec_float) (overflow : bool) (s : string) : Z * spec_float * string :=
  match s with
  | String c s' =>
      match dec_digit c with
      | Some d =>
          if overflow || bool_decide (x > (2 ^ 63 - 1) / 10) then leadingFraction x scale true s' else
          let y := x * 10 + d in
          if decide (y > 2 ^ 63) then leadingFraction x scale true s'
          else leadingFraction y (fmul scale (float_of 10)) false s'
      | None => (x, scale, s)
      end
  | EmptyString => (x, scale, s)
  end.

(** A unit: up to the next digit or point. *)
Fixpoint leading_unit (s : string) : string * string :=
  match s with
  | String c s' =>
      if is_digit c || bool_decide (c = "."%char) then (""%string, s)
      else let '(u, r) := leading_unit s' in (String c u, r)
  | EmptyString => (""%string, ""%string)
  end.

(** The micro sign and the Greek letter, in UTF-8. *)
Definition micro : string := String "194" (String "181" "").
Definition mu : string := String "206" (String "188" "").

Definition unit_of (u : string) : option Z :=
  if decide (u = "ns"%string) then Some 1 else
  if decide (u = "us"%string \/ u = micro +:+ "s" \/ u = mu +:+ "s") then Some 1000 else
  if decide (u = "ms"%string) then Some 1000000 else
  if decide (u = "s"%string) then Some Second else
  if decide (u = "m"%string) then Some Minute else
  if decide (u = "h"%string) then Some Hour else None.

(** The point and the digits after it, if there is one, and whether there were any. *)
Definition leading_point (s : string) : Z * spec_float * bool * string :=
  match lit "." s with
  | Some t => let '(f, scale, r) := leadingFraction 0 (float_of 1) false t in (f, scale, bool_decide (r <> t), r)
  | None => (0, float_of 1, false, s)
  end.

(** One number with its unit, in nanoseconds. *)
Definition leading_term (s : string) : option (Z * string) :=
  '(v, r) ← leadingInt 0 s;
  let pre := bool_decide (r <> s) in
  let '(f, scale, post, r) := leading_point r in
  if negb (pre || post) then None else
  let '(u, r) := leading_unit r in
  unit ← unit_of u;
  if decide (v > 2 ^ 63 / unit) then None else
  let v := v * unit in
  let v := if decide (f > 0) then v + truncate (fmul (float_of f) (fdiv (float_of unit) scale)) else v in
  if decide (v > 2 ^ 63) then None else Some (v, r).

(** The terms, as many as there are; every one takes a character. *)
Fixpoint read_terms (fuel : nat) (d : Z) (s : string) : option Z :=
  match fuel, s with
  | _, EmptyString => Some d
  | O, _ => None
  | S fuel, _ =>
      '(v, r) ← leading_term s;
      let d := (d + v) mod 2 ^ 64 in
      if decide (d > 2 ^ 63) then None else read_terms fuel d r
  end.

Definition ParseDuration (s : string) : option Z :=
  let '(neg, s) := match s with
                   | String "-" s => (true, s)
                   | String "+" s => (false, s)
                   | _ => (false, s)
                   end in
  if decide (s = "0"%string) then Some 0 else
  if decide (s = ""%string) then None else
  d ← read_terms (String.length s) 0 s;
  if neg : bool then Some (- d) else if decide (d > 2 ^ 63 - 1) then None else Some d.

Example ParseDuration_example :
  ParseDuration "15m" = Some (15 * Minute) /\ ParseDuration "1h30m" = Some (90 * Minute) /\
  ParseDuration "1.5h" = Some (90 * Minute) /\ ParseDuration ".3s" = Some 300000000 /\
  ParseDuration "-2m3.4s" = Some (- 123400000000) /\ ParseDuration "0" = Some 0 /\
  ParseDuration "15" = None /\ ParseDuration "." = None /\ ParseDuration "1.s" = Some Second /\
  ParseDuration "9223372036854775808ns" = None /\ ParseDuration "-9223372036854775808ns" = Some (- 2 ^ 63) /\
  ParseDuration "0.830103483285477580700h" = Some 2988372539827.
Proof. by vm_compute. Qed.

(** *** The terms come to an end *)

Lemma leadingInt_length (x v : Z) (s r : string) :
  leadingInt x s = Some (v, r) -> (String.length r <= String.length s)%nat /\ (r = s \/ (String.length r < String.length s)%nat).
Proof.
  revert x. induction s as [|c s IH]; intros x; cbn [leadingInt]; [intros [= _ <-]; by split; [|left]|].
  destruct (dec_digit c); [|intros [= _ <-]; by split; [|left]].
  repeat case_decide; try done. intros [? _]%IH. cbn. split; [lia|right; lia].
Qed.

Lemma leadingFraction_length (x y : Z) (f g : spec_float) (o : bool) (s r : string) :
  leadingFraction x f o s = (y, g, r) -> (String.length r <= String.length s)%nat.
Proof.
  revert x f o. induction s as [|c s IH]; intros x f o; cbn [leadingFraction]; [intros [= _ _ <-]; done|].
  destruct (dec_digit c); [|intros [= _ _ <-]; done].
  destruct (o || _); [|cbv zeta; case_decide]; intros Hr%IH; cbn; lia.
Qed.

Lemma leading_unit_length (s u r : string) : leading_unit s = (u, r) -> (String.length r <= String.length s)%nat.
Proof.
  revert u. induction s as [|c s IH]; intros u; cbn [leading_unit]; [intros [= _ <-]; done|].
  case_match; [intros [= _ <-]; done|]. destruct (leading_unit s) as [u' r'] eqn:E. intros [= _ <-].
  specialize (IH u' eq_refl). cbn. lia.
Qed.

Lemma leading_point_length (s r : string) (f : Z) (g : spec_float) (post : bool) :
  leading_point s = (f, g, post, r) ->
  (String.length r <= String.length s)%nat /\ (post = true -> (String.length r < String.length s)%nat).
Proof.
  unfold leading_point. destruct (lit "." s) as [t|] eqn:E; [|intros [= _ _ <- <-]; by split].
  destruct (leadingFraction 0 (float_of 1) false t) as [[f' g'] r'] eqn:Ef. intros [= _ _ _ <-].
  apply leadingFraction_length in Ef. destruct s as [|c s]; [done|]. cbn in E. case_decide; simplify_eq.
  cbn. split; [|intros _]; lia.
Qed.

(** A term takes a character and is below [2 ^ 63]. *)
Lemma leading_term_spec (s r : string) (v : Z) :
  leading_term s = Some (v, r) -> (String.length r < String.length s)%nat /\ v <= 2 ^ 63.
Proof.
  unfold leading_term. intros ([v0 r0] & Hi & E)%bind_Some. apply leadingInt_length in Hi as [Hle Hi].
  destruct (leading_point r0) as [[[f scale] post] r1] eqn:Ef. apply leading_point_length in Ef as [H1 Hpost].
  destruct (bool_decide (r0 <> s) || post) eqn:Hp; cbn [negb] in E; [|done].
  destruct (leading_unit r1) as [u r2] eqn:Eu. apply leading_unit_length in Eu.
  apply bind_Some in E as (unit & _ & E). repeat case_decide; simplify_eq; (split; [|lia]);
    (apply orb_true_iff in Hp as [Hp%bool_decide_eq_true|Hp]; [destruct Hi; [congruence|lia]|specialize (Hpost Hp); lia]).
Qed.

(** As many steps as characters are enough: another bound does not change the result. *)
Lemma read_terms_enough (n m : nat) (d : Z) (s : string) :
  (String.length s <= n)%nat -> (String.length s <= m)%nat -> read_terms n d s = read_terms m d s.
Proof.
  revert m d s. induction n as [|n IH]; intros m d s Hn Hm.
  { destruct s; [by destruct m|cbn in Hn; lia]. }
  destruct m as [|m]; [destruct s; [done|cbn in Hm; lia]|]. destruct s as [|c s]; [done|]. cbn [read_terms].
  destruct (leading_term (String c s)) as [[v r]|] eqn:E; [|done]. apply leading_term_spec in E as [Hl _].
  cbn [mbind option_bind]. case_decide; [done|]. apply IH; cbn in *; lia.
Qed.

Lemma read_terms_range (n : nat) (d e : Z) (s : string) :
  0 <= d <= 2 ^ 63 -> read_terms n d s = Some e -> 0 <= e <= 2 ^ 63.
Proof.
  revert d s. induction n as [|n IH]; intros d s Hd; destruct s as [|c s]; cbn [read_terms];
    [intros [= <-]; done|done|intros [= <-]; done|].
  intros ([v r] & _ & E)%bind_Some. case_decide as Hv; [done|]. apply IH in E; [done|].
  pose proof (Z.mod_pos_bound (d + v) (2 ^ 64)). lia.
Qed.

(** What is accepted fits an [int64]. *)
Lemma ParseDuration_int64 (s : string) (d : Z) : ParseDuration s = Some d -> is_int64 d.
Proof.
  unfold ParseDuration, is_int64. destruct (match s with String "-" _ => _ | _ => _ end) as [neg t].
  repeat case_decide; intros; simplify_eq; [lia|].
  match goal with H : _ = Some d |- _ => apply bind_Some in H as (e & He & H) end.
  apply read_terms_range in He; [|lia]. destruct neg; [simplify_eq; lia|]. case_decide; simplify_eq; lia.
Qed.

Lemma read_based_nonneg (base n k : Z) (s : string) :
  0 <= base -> 0 <= n -> read_based base n s = Some k -> 0 <= k.
Proof.
  intros Hb. revert n. induction s as [|c s IH]; intros n Hn; cbn [read_based]; [by intros [= <-]|].
  case_decide; [by apply IH|]. intros (d & Hd & E)%bind_Some. repeat case_decide; try done.
  apply IH in E; [done|]. enough (0 <= d) by nia. unfold digit_value, dec_digit in Hd.
  repeat case_decide; simplify_eq; lia.
Qed.

Lemma ParseInt0_int64 (s : string) (z : Z) : ParseInt0 s = Some z -> is_int64 z.
Proof.
  unfold ParseInt0, is_int64. case_decide; [done|].
  destruct (match s with String "+" _ => _ | _ => _ end) as [neg t]. intros (n & Hn & E)%bind_Some.
  assert (0 <= n).
  { unfold ParseUint0 in Hn. destruct (decide (t = ""%string)); [done|]. destruct (based t) as [b u] eqn:Eb.
    apply bind_Some in Hn as (m & Hm & Hn). apply read_based_nonneg in Hm; [|clear Hm|lia].
    - destruct (has_underscore u && _); [done|]. injection Hn as <-. exact Hm.
    - unfold based, prefix_base in Eb. destruct (lit "0" t) as [[|c [|d v]]|]; simplify_eq; try lia.
      repeat case_decide; simplify_eq; lia. }
  destruct neg; case_decide; simplify_eq; lia.
Qed.

(** ** [time.Duration.String] *)

(** The fraction of [v / 10 ^ prec] without trailing zeros, in front of [rest], and what is
    left of [v]. *)
Fixpoint fmtFrac (prec : nat) (v : Z) (print : bool) (rest : string) : string * Z :=
  match prec with
  | O => ((if print then String "." rest else rest), v)
  | S prec =>
      let digit := v mod 10 in
      let print := print || bool_decide (digit <> 0) in
      fmtFrac prec (v / 10) print (if print then String (dec_char digit) rest else rest)
  end.

Definition Duration_String (d : Z) : string :=
  let u := Z.abs d in
  let text :=
    if decide (u < Second) then
      if decide (u = 0) then "0s"%string else
      let '(prec, unit) :=
        if decide (u < 1000) then (0%nat, "ns"%string) else
        if decide (u < 1000000) then (3%nat, micro +:+ "s") else (6%nat, "ms"%string) in
      let '(frac, u) := fmtFrac prec u false unit in
      print_int u +:+ frac
    else
      let '(frac, u) := fmtFrac 9 u false "s" in
      let secs := print_int (u mod 60) +:+ frac in
      let u := u / 60 in
      if decide (u > 0) then
        let mins := print_int (u mod 60) +:+ "m" +:+ secs in
        let u := u / 60 in
        if decide (u > 0) then print_int u +:+ "h" +:+ mins else mins
      else secs in
  if decide (d < 0) then String "-" text else text.

Example Duration_String_example :
  Duration_String (15 * Minute) = "15m0s"%string /\ Duration_String (90 * Minute) = "1h30m0s"%string /\
  Duration_String 1500000 = "1.5ms"%string /\ Duration_String (- 1) = "-1ns"%string /\
  Duration_String 0 = "0s"%string /\ Duration_String (2 ^ 63 - 1) = "2562047h47m16.854775807s"%string.
Proof. by vm_compute. Qed.
