(* ===== verification/Flags.v ===== *)
(** * Command-line flags

    What [main.go] uses of the [flag] package: string, boolean, integer and duration
    flags, parsed up to the first argument that is not one. *)

From S2P Require Import Prelude Encoding Clock Decimal Duration Url.

Local Open Scope Z_scope.

Inductive kind : Type := KString | KBool | KInt64 | KDuration.

(** The value of a flag: text, or a number of its kind. *)
Inductive value : Type := VText (s : string) | VBool (b : bool) | VNum (z : Z).

(** The flags of a set by name, with their values so far. *)
Abbreviation flags := (gmap string (kind * value)).

(** [strconv.ParseBool]. *)
Definition parse_bool (s : string) : option bool :=
  if decide (s ∈ ["1"; "t"; "T"; "true"; "TRUE"; "True"]%string) then Some true else
  if decide (s ∈ ["0"; "f"; "F"; "false"; "FALSE"; "False"]%string) then Some false else None.

(** What an argument is. *)
Inductive arg : Type :=
  | Positional
  | Terminator
  | BadSyntax
  | Flag (name : string) (val : option string).

Definition flag_named (name : string) : arg :=
  match name with
  | EmptyString | String "-" _ | String "=" _ => BadSyntax
  | _ => let '(name, val) := cut "=" name in Flag name val
  end.

Definition classify (s : string) : arg :=
  match s with
  | "--"%string => Terminator
  | String "-" (String "-" name) => flag_named name
  | String "-" (String c name) => flag_named (String c name)
  | _ => Positional
  end.

Inductive parsed : Type :=
  | Parsed (fs : flags) (rest : list string)
  | Stopped (code : Z).

(** [Value.Set]. *)
Definition set_value (k : kind) (s : string) : option value :=
  match k with
  | KString => Some (VText s)
  | KBool => VBool <$> parse_bool s
  | KInt64 => VNum <$> ParseInt0 s
  | KDuration => VNum <$> ParseDuration s
  end.

(** [FlagSet.Parse] of a set that exits on error: with 2, or 0 when asked for help. *)
Fixpoint Parse (fs : flags) (args : list string) : parsed :=
  match args with
  | [] => Parsed fs []
  | s :: rest =>
    match classify s with
    | Positional => Parsed fs args
    | Terminator => Parsed fs rest
    | BadSyntax => Stopped 2
    | Flag name val =>
      match fs !! name with
      | None => Stopped (if decide (name = "help" \/ name = "h")%string then 0 else 2)
      | Some (KBool, _) =>
          match set_value KBool (default "true"%string val) with
          | Some v => Parse (<[name := (KBool, v)]> fs) rest
          | None => Stopped 2
          end
      | Some (k, _) =>
          match val with
          | Some s =>
              match set_value k s with
              | Some v => Parse (<[name := (k, v)]> fs) rest
              | None => Stopped 2
              end
          | None =>
              match rest with
              | [] => Stopped 2
              | s :: rest =>
                  match set_value k s with
                  | Some v => Parse (<[name := (k, v)]> fs) rest
                  | None => Stopped 2
                  end
              end
          end
      end
    end
  end.

(** Reading a flag of its kind. *)
Definition text_flag (fs : flags) (name : string) : string :=
  match fs !! name with Some (_, VText s) => s | _ => "" end.
Definition bool_flag (fs : flags) (name : string) : bool :=
  match fs !! name with Some (_, VBool b) => b | _ => false end.
Definition num_flag (fs : flags) (name : string) : Z :=
  match fs !! name with Some (_, VNum z) => z | _ => 0 end.

(** The flags end where a positional argument is. *)
Lemma Parse_positional (fs : flags) (s : string) (rest : list string) :
  classify s = Positional -> Parse fs (s :: rest) = Parsed fs (s :: rest).
Proof. intros E. cbn [Parse]. by rewrite E. Qed.

Lemma Parse_text (fs : flags) (s name v : string) (val : value) (rest : list string) :
  classify s = Flag name None -> fs !! name = Some (KString, val) ->
  Parse fs (s :: v :: rest) = Parse (<[name := (KString, VText v)]> fs) rest.
Proof. intros E Hn. cbn [Parse]. by rewrite E, Hn. Qed.
