(* ===== verification/Command.v ===== *)
(** * The command line ([main.go], and [Open] of [internal/store/store.go])

    The subcommands as computations over the host: the environment, the database files,
    the files of the TLS identity, what is printed, pinged and served. *)

From S2P Require Import Prelude Encoding Clock Decimal Duration Sql Schema StoreM Crypto Accounts Devices.
From S2P Require Import Queues Blobs Store World Http Json Push Management Url Flags.
From S2P Require Import Host X509 Tlsid.

Local Open Scope Z_scope.

(** ** Opening a database *)

(** [strings.Contains]. *)
Fixpoint contains (s t : string) : bool :=
  String.prefix t s || match s with String _ s => contains s t | EmptyString => false end.

Definition isMemory (path : string) : bool :=
  bool_decide (path = "" \/ path = ":memory:")%string || contains path ":memory:".

Definition pragmas : string := "_pragma=busy_timeout(5000)&_pragma=foreign_keys(1)".

Definition dsn (path : string) (memory : bool) : string :=
  if memory then "file::memory:?" +:+ pragmas
  else "file:" +:+ path +:+ "?" +:+ pragmas +:+ "&_pragma=journal_mode(WAL)".

(** ** The machine a command runs on *)

Section command.
Context `{Crypto} `{X509}.

(** A listener: its address, its TLS configuration if any, and the database behind
    it. *)
Record service := mkService {
  sv_addr : string;
  sv_tls : option tlsConfig;
  sv_db : string;
}.

(** [os_dbs] holds the database files by data source name. [os_mem] is the database of an
    in-memory data source of this process. [os_faults] are the failures of the SQLite
    driver, [os_hfaults] those of the operating system. [os_listen] says which addresses
    can be listened on and [os_probe] what a GET of a URL answers. *)
Record OS := mkOS {
  os_env : gmap string string;
  os_dbs : gmap string DB;
  os_mem : DB;
  os_clock : Z;
  os_rnd : bytes;
  os_faults : list bool;
  os_files : gmap string bytes;
  os_draws : list bytes;
  os_hfaults : list (option nat);
  os_listen : string -> bool;
  os_probe : string -> option Z;
  os_pings : list (string * Priority);
  os_out : list string;
  os_log : list string;
  os_services : list service;
}.

(** How a command ends early: the process exits, or the command returns an error. *)
Inductive stop : Type := Exit (code : Z) | Err (e : error).

Definition Cmd (A : Type) : Type := OS -> (stop + A) * OS.

#[export] Instance Cmd_ret : MRet Cmd := fun A a os => (inr a, os).
#[export] Instance Cmd_bind : MBind Cmd := fun A B k m os =>
  match m os with
  | (inl e, os') => (inl e, os')
  | (inr a, os') => k a os'
  end.

Definition halt {A} (s : stop) : Cmd A := fun os => (inl s, os).
Definition returned {A} (r : error + A) : Cmd A := fun os =>
  (match r with inl e => inl (Err e) | inr a => inr a end, os).

Definition Println (line : string) : Cmd unit := fun os =>
  (inr tt, mkOS (os_env os) (os_dbs os) (os_mem os) (os_clock os) (os_rnd os) (os_faults os)
    (os_files os) (os_draws os) (os_hfaults os) (os_listen os) (os_probe os) (os_pings os)
    (os_out os ++ [line]) (os_log os) (os_services os)).

Definition Logf (line : string) : Cmd unit := fun os =>
  (inr tt, mkOS (os_env os) (os_dbs os) (os_mem os) (os_clock os) (os_rnd os) (os_faults os)
    (os_files os) (os_draws os) (os_hfaults os) (os_listen os) (os_probe os) (os_pings os)
    (os_out os) (os_log os ++ [line]) (os_services os)).

Definition parse_args (fs : flags) (args : list string) : Cmd (flags * list string) :=
  match Parse fs args with
  | Parsed fs rest => mret (fs, rest)
  | Stopped code => halt (Exit code)
  end.

(** An open [*store.Store]: the data source, and whether it is in memory. *)
Record handle := mkHandle { h_dsn : string; h_memory : bool }.

Definition db_of (st : handle) (os : OS) : DB :=
  if h_memory st then os_mem os else default empty_db (os_dbs os !! h_dsn st).

(** The state with another database behind a handle, and what using it left. *)
Definition with_world (st : handle) (w : World) (os : OS) : OS :=
  mkOS (os_env os)
    (if h_memory st then os_dbs os else <[h_dsn st := w_db w]> (os_dbs os))
    (if h_memory st then w_db w else os_mem os)
    (os_clock os) (st_rnd (w_st w)) (st_faults (w_st w))
    (os_files os) (os_draws os) (os_hfaults os) (os_listen os) (os_probe os)
    (os_pings os ++ w_pings w) (os_out os) (os_log os) (os_services os).

Definition world_of (st : handle) (os : OS) : World :=
  mkWorld (mkSt (db_of st os) (os_clock os) (os_rnd os) (os_faults os)) ∅ [].

(** [Open]: an in-memory database is empty, a file is created if it is not there;
    connecting and migrating may fail in the driver. *)
Definition Open (path : string) : Cmd handle := fun os =>
  let memory := isMemory path in
  let st := mkHandle (dsn path memory) memory in
  let os := mkOS (os_env os) (os_dbs os) (if memory then empty_db else os_mem os) (os_clock os)
    (os_rnd os) (os_faults os) (os_files os) (os_draws os) (os_hfaults os) (os_listen os)
    (os_probe os) (os_pings os) (os_out os) (os_log os) (os_services os) in
  let '(r, s) := db_call (fun db => (inr tt, db)) (w_st (world_of st os)) in
  (match r with inl e => inl (Err e) | inr _ => inr st end,
   with_world st (mkWorld s ∅ []) os).

(** What is done with an open store. *)
Definition on_store {A} (st : handle) (p : proc A) : Cmd A := fun os =>
  let '(a, w) := run p (world_of st os) in (inr a, with_world st w os).

Definition store_call {A} (st : handle) (op : store_op A) : Cmd A :=
  r ← on_store st (call_store op); returned r.

(** [tlsid.Load]. *)
Definition load_identity (dir : string) : Cmd Identity := fun os =>
  let '(r, h) := Load dir (mkHost (os_files os) (os_clock os) (os_draws os) (os_hfaults os)) in
  (match r with inl e => inl (Err e) | inr id => inr id end,
   mkOS (os_env os) (os_dbs os) (os_mem os) (os_clock os) (os_rnd os) (os_faults os)
    (h_files h) (h_draws h) (h_faults h) (os_listen os) (os_probe os) (os_pings os)
    (os_out os) (os_log os) (os_services os)).

(** [Server.Run] and [Server.RunTLS], until they are told to stop. *)
Definition serve_on (addr : string) (tls : option tlsConfig) (st : handle) : Cmd unit := fun os =>
  if os_listen os addr then
    (inr tt, mkOS (os_env os) (os_dbs os) (os_mem os) (os_clock os) (os_rnd os) (os_faults os)
      (os_files os) (os_draws os) (os_hfaults os) (os_listen os) (os_probe os) (os_pings os)
      (os_out os) (os_log os) (os_services os ++ [mkService addr tls (h_dsn st)]))
  else (inl (Err (Errorf "listen")), os).

(** ** Environment and addresses *)

Definition version : string := "0.0.0-dev".
Definition defaultTLSDir : string := "tls".

(** [os.Getenv], and the default where it gives nothing. *)
Definition env_value (key def : string) (os : OS) : string :=
  let v := default ""%string (os_env os !! key) in
  if decide (v <> ""%string) then v else def.

Definition envOr (key def : string) : Cmd string := fun os => (inr (env_value key def os), os).

Definition portSuffix (addr : string) : string := default ""%string (from_last ":" addr).

Definition healthURL (addr : string) (plainHTTP : bool) : string :=
  let host := if String.prefix ":" addr then ("127.0.0.1" +:+ addr)%string else addr in
  if plainHTTP then "http://" +:+ host +:+ "/health" else "https://" +:+ host +:+ "/health".

Definition checkHealth (url : string) : Cmd unit := fun os =>
  (match os_probe os url with
   | None => inl (Err (Errorf "health"))
   | Some status => if decide (status <> 200) then inl (Err (Errorf "unhealthy")) else inr tt
   end, os).

(** ** Subcommands *)

Definition db_default : Cmd string := envOr "SUND_DB" "sund.db".

Definition serve_flags (addr dbPath tlsDir http : string) : flags :=
  {[ "addr" := (KString, VText addr); "db" := (KString, VText dbPath);
     "tls-dir" := (KString, VText tlsDir);
     "http" := (KBool, VBool (bool_decide (http <> ""%string))) ]}%string.

Definition runServe (args : list string) : Cmd unit :=
  addr ← envOr "SUND_ADDR" ":5870";
  dbPath ← db_default;
  tlsDir ← envOr "SUND_TLS_DIR" defaultTLSDir;
  http ← envOr "SUND_HTTP" "";
  '(fs, _) ← parse_args (serve_flags addr dbPath tlsDir http) args;
  st ← Open (text_flag fs "db");
  let addr := text_flag fs "addr" in
  if bool_flag fs "http" then
    _ ← Logf ("sund " +:+ version +:+ " listening on " +:+ addr +:+ " (plain http, db=" +:+ text_flag fs "db" +:+ ")");
    _ ← Logf "no transport security of its own: expect a TLS-terminating proxy in front (WebPKI mode)";
    serve_on addr None st
  else
    id ← load_identity (text_flag fs "tls-dir");
    _ ← Logf ("sund " +:+ version +:+ " listening on " +:+ addr +:+ " (https, pinned, db=" +:+ text_flag fs "db" +:+ ")");
    _ ← Logf ("pinned address: sund://<host>" +:+ portSuffix addr +:+ "#" +:+ id_Fingerprint id);
    serve_on addr (Some (ServerTLSConfig id)) st.

Definition cert_flags (tlsDir : string) : flags :=
  {[ "tls-dir" := (KString, VText tlsDir); "host" := (KString, VText "") ]}%string.

Definition runCert (args : list string) : Cmd unit :=
  match args with
  | [] => halt (Err (Errorf "usage"))
  | what :: args =>
      if decide (what <> "fingerprint"%string) then halt (Err (Errorf "usage")) else
      dir ← envOr "SUND_TLS_DIR" "certs";
      '(fs, _) ← parse_args (cert_flags dir) args;
      id ← load_identity (text_flag fs "tls-dir");
      if decide (text_flag fs "host" <> ""%string)
      then Println ("sund://" +:+ text_flag fs "host" +:+ "#" +:+ id_Fingerprint id)
      else Println (id_Fingerprint id)
  end.

(** The loop of [pingAccount] is [ping_devices]; failed pings are warnings. *)
Definition pingAccount (st : handle) (accountID exceptID : string) : Cmd unit :=
  devs ← on_store st (call_store (OpListDevices accountID));
  match devs with
  | inl _ => Logf "warning: could not list devices to ping"
  | inr devs => on_store st (ping_devices exceptID devs)
  end.

Definition db_flag (dbPath : string) : flags := {[ "db" := (KString, VText dbPath) ]}%string.

Definition runAdminDevicePromote (args : list string) : Cmd unit :=
  dbPath ← db_default;
  '(fs, rest) ← parse_args (db_flag dbPath) args;
  match rest with
  | [] => halt (Err (Errorf "usage"))
  | deviceID :: _ =>
      st ← Open (text_flag fs "db");
      dev ← store_call st (OpGetDevice deviceID);
      _ ← store_call st (OpPromoteDevice deviceID);
      _ ← pingAccount st (d_account_id dev) "";
      Println (deviceID +:+ ": promoted to admin")
  end.

Definition runAdminDeviceQuota (args : list string) : Cmd unit :=
  dbPath ← db_default;
  '(fs, rest) ← parse_args (db_flag dbPath) args;
  match rest with
  | [] => halt (Err (Errorf "usage"))
  | deviceID :: rest =>
      st ← Open (text_flag fs "db");
      dev ← store_call st (OpGetDevice deviceID);
      match rest with
      | [] =>
          used ← store_call st (OpDeviceStoredBytes deviceID);
          if decide (d_quota_bytes dev = 0)
          then Println (deviceID +:+ ": no ceiling; " +:+ print_int used +:+ " bytes stored")
          else Println (deviceID +:+ ": " +:+ print_int (d_quota_bytes dev) +:+ " bytes ceiling; " +:+
                        print_int used +:+ " bytes stored")
      | text :: _ =>
          match ParseInt text with
          | None => halt (Err (Errorf "bytes"))
          | Some bytes =>
              if decide (bytes < 0) then halt (Err (Errorf "bytes")) else
              _ ← store_call st (OpSetDeviceQuota deviceID bytes);
              _ ← (if decide (d_push_endpoint dev <> ""%string)
                   then on_store st (dispatchPing (d_push_endpoint dev) Normal) else mret tt);
              if decide (bytes = 0)
              then Println (deviceID +:+ ": ceiling removed")
              else Println (deviceID +:+ ": ceiling set to " +:+ print_int bytes +:+ " bytes")
          end
      end
  end.

Definition create_flags (dbPath : string) : flags :=
  {[ "db" := (KString, VText dbPath); "quota" := (KString, VText "standard");
     "quota-bytes" := (KInt64, VNum 0); "admin-mode" := (KString, VText AdminModeFlat);
     "ttl" := (KDuration, VNum (15 * Minute)); "json" := (KBool, VBool false) ]}%string.

Definition runAdminAccountCreate (args : list string) : Cmd unit :=
  dbPath ← db_default;
  '(fs, _) ← parse_args (create_flags dbPath) args;
  st ← Open (text_flag fs "db");
  acc ← store_call st (OpCreateAccount (text_flag fs "quota") (num_flag fs "quota-bytes")
                         (text_flag fs "admin-mode"));
  '(token, _) ← store_call st (OpCreateInvitation (a_id acc) (num_flag fs "ttl") RoleAdmin);
  if bool_flag fs "json" then
    Println (print (JObj [("account_id", JStr (a_id acc)); ("invitation_token", JStr token)]%string))
  else
    _ ← Println ("account:    " +:+ a_id acc +:+ "  (administration: " +:+ a_admin_mode acc +:+ ")");
    Println ("invitation: " +:+ token +:+ "  (single-use, expires in " +:+
             Duration_String (num_flag fs "ttl") +:+ ")").

Definition runAdmin (args : list string) : Cmd unit :=
  match args with
  | noun :: verb :: args =>
      if decide (noun = "account" /\ verb = "create")%string then runAdminAccountCreate args else
      if decide (noun = "device" /\ verb = "quota")%string then runAdminDeviceQuota args else
      if decide (noun = "device" /\ verb = "promote")%string then runAdminDevicePromote args else
      halt (Err (Errorf "usage"))
  | _ => halt (Err (Errorf "usage"))
  end.

Definition runHealth (args : list string) : Cmd unit :=
  addr ← envOr "SUND_ADDR" ":5870";
  http ← envOr "SUND_HTTP" "";
  '(fs, _) ← parse_args {[ "addr" := (KString, VText addr);
    "http" := (KBool, VBool (bool_decide (http <> ""%string))) ]}%string args;
  checkHealth (healthURL (text_flag fs "addr") (bool_flag fs "http")).

(** The process: its exit code, and the host it leaves. [log.Fatalf] exits with 1. *)
Definition finish (m : Cmd unit) (os : OS) : Z * OS :=
  match m os with
  | (inr _, os) => (0, os)
  | (inl (Exit code), os) => (code, os)
  | (inl (Err _), os) => (1, os)
  end.

(** [main], of the arguments after the program's name. *)
Definition main (args : list string) (os : OS) : Z * OS :=
  match args with
  | [] => (2, os)
  | cmd :: args =>
      if decide (cmd = "serve"%string) then finish (runServe args) os else
      if decide (cmd = "admin"%string) then finish (runAdmin args) os else
      if decide (cmd = "cert"%string) then finish (runCert args) os else
      if decide (cmd = "health"%string) then finish (runHealth args) os else
      if decide (cmd = "version"%string) then finish (Println version) os else (2, os)
  end.

End command.
