(* ===== verification/Operator.v ===== *)
(** * What the operator's commands do

    The commands go through the store's methods, so they keep every database as the
    server's requests do; and what each of them is for. *)

From S2P Require Import Prelude Encoding Clock Decimal Duration Sql Schema StoreM Crypto Accounts Devices.
From S2P Require Import Queues Blobs Steps Invariants Evolution Refine Store Demo Enrolment World Http Json Push.
From S2P Require Import Management Url Flags Host X509 Tlsid Command.

Local Open Scope Z_scope.

Section operator.
Context `{Crypto} `{X509}.
Implicit Types (os : OS) (st : handle).

(** ** Running commands *)

Lemma cmd_bind {A B} (m : Cmd A) (k : A -> Cmd B) os :
  (m ≫= k) os = match m os with (inl e, os') => (inl e, os') | (inr a, os') => k a os' end.
Proof. done. Qed.

Lemma bind_ok {A B} (m : Cmd A) (k : A -> Cmd B) os (b : B) os' :
  (m ≫= k) os = (inr b, os') -> exists a os1, m os = (inr a, os1) /\ k a os1 = (inr b, os').
Proof. rewrite cmd_bind. destruct (m os) as [[e|a] os1]; [done|]. eauto. Qed.

(** The contents of a database file. *)
Definition file (d : string) os : DB := default empty_db (os_dbs os !! d).

Lemma db_of_with_world st (w : World) os : db_of st (with_world st w os) = w_db w.
Proof. unfold db_of, with_world. destruct (h_memory st); cbn; [done|]. by rewrite lookup_insert_eq. Qed.

Lemma file_with_world st (w : World) (d : string) os :
  file d (with_world st w os) = if decide (h_memory st = false /\ d = h_dsn st) then w_db w else file d os.
Proof.
  unfold file, with_world. destruct (h_memory st); cbn; [by rewrite decide_False by naive_solver|].
  case_decide as Hd; [destruct Hd as [_ ->]; by rewrite lookup_insert_eq|].
  rewrite lookup_insert_ne; [done|]. intros E. by destruct Hd.
Qed.

(** ** Every command goes through the store *)

Definition os_ok os : Prop := db_ok (os_mem os) /\ forall d, db_ok (file d os).

(** Every file moves by the store's events. *)
Definition advances os os' : Prop := forall d, db_steps (file d os) (file d os').

Definition safe {A} (m : Cmd A) : Prop := forall os, os_ok os -> os_ok (m os).2 /\ advances os (m os).2.

Lemma advances_refl os : advances os os.
Proof. constructor. Qed.

Lemma safe_bind {A B} (m : Cmd A) (k : A -> Cmd B) : safe m -> (forall a, safe (k a)) -> safe (m ≫= k).
Proof.
  intros Hm Hk os Hok. rewrite cmd_bind. destruct (Hm os Hok) as [Hok1 Ha].
  destruct (m os) as [[e|a] os1]; [done|]. cbn in *. destruct (Hk a os1 Hok1) as [Hok2 Ha2].
  split; [done|]. intros d. by eapply db_steps_trans.
Qed.

(** A command that leaves the databases alone. *)
Lemma safe_same {A} (m : Cmd A) :
  (forall os, os_mem (m os).2 = os_mem os /\ os_dbs (m os).2 = os_dbs os) -> safe m.
Proof.
  intros Hm os [Hmem Hf]. destruct (Hm os) as [Em Ed]. unfold os_ok, advances, file in *.
  rewrite Em, Ed. split; [done|constructor].
Qed.

Lemma world_of_ok st os : os_ok os -> db_ok (w_db (world_of st os)).
Proof. intros [Hm Hf]. unfold world_of, w_db, db_of. cbn. destruct (h_memory st); [done|apply Hf]. Qed.

Lemma safe_world st (w : World) os :
  os_ok os -> db_steps (db_of st os) (w_db w) ->
  os_ok (with_world st w os) /\ advances os (with_world st w os).
Proof.
  intros Hok Hs. assert (db_ok (w_db w)) as Hw by (eapply db_steps_ok; [done|by apply (world_of_ok st)]).
  destruct Hok as [Hm Hf]. split.
  - split; [unfold with_world; cbn; by destruct (h_memory st)|]. intros d. rewrite file_with_world.
    by case_decide.
  - intros d. rewrite file_with_world. case_decide as Hd; [|constructor].
    destruct Hd as [Hmem ->]. unfold db_of in Hs. by rewrite Hmem in Hs.
Qed.

Lemma safe_on_store {A} st (p : proc A) : safe (on_store st p).
Proof.
  intros os Hok. unfold on_store. pose proof (run_steps p (world_of st os) (world_of_ok st os Hok)) as [Hs _].
  destruct (run p (world_of st os)) as [a w]. cbn. by apply safe_world.
Qed.

Lemma safe_Open (path : string) : safe (Open path).
Proof.
  intros os Hok. unfold Open. set (os1 := mkOS _ _ _ _ _ _ _ _ _ _ _ _ _ _ _).
  assert (os_ok os1 /\ advances os os1) as [Hok1 Ha].
  { destruct Hok as [Hm Hf]. unfold os1, os_ok, advances, file in *. cbn.
    split; [split; [by case_match; [apply ok_empty|]|done]|constructor]. }
  set (st := mkHandle _ _).
  assert (st_db (db_call (fun db => (inr tt : error + unit, db)) (w_st (world_of st os1))).2 = db_of st os1) as E.
  { unfold db_call. cbn. by destruct (os_faults os) as [|[] fs]. }
  destruct (db_call _ _) as [r s]. cbn in *.
  destruct (safe_world st (mkWorld s ∅ []) os1 Hok1) as [Hok2 Ha2]; [unfold w_db; cbn; rewrite E; constructor|].
  split; [done|]. intros d. by eapply db_steps_trans.
Qed.

Lemma safe_returned {A} (r : error + A) : safe (returned r).
Proof. by apply safe_same. Qed.

Lemma safe_store_call {A} st (op : store_op A) : safe (store_call st op).
Proof. apply safe_bind; [apply safe_on_store|intros r; apply safe_returned]. Qed.

Lemma safe_parse (fs : flags) (args : list string) : safe (parse_args fs args).
Proof. unfold parse_args. destruct (Parse fs args); by apply safe_same. Qed.

Lemma safe_envOr (key def : string) : safe (envOr key def).
Proof. by apply safe_same. Qed.

Lemma safe_load (dir : string) : safe (load_identity dir).
Proof. apply safe_same. intros os. unfold load_identity. by destruct (Load dir _). Qed.

Lemma safe_serve (addr : string) (tls : option tlsConfig) st : safe (serve_on addr tls st).
Proof. apply safe_same. intros os. unfold serve_on. by destruct (os_listen os addr). Qed.

(** One step through a command. *)
Ltac safe_step :=
  first [ apply safe_bind; [|intros ?] | apply safe_envOr | apply safe_parse | apply safe_Open
        | apply safe_store_call | apply safe_on_store | apply safe_load | apply safe_serve
        | apply safe_same; done | progress cbn beta iota zeta
        | match goal with |- safe (if ?x then _ else _) => destruct x end
        | match goal with |- safe (match ?x with _ => _ end) => destruct x end ].

Lemma safe_finish (m : Cmd unit) os :
  safe m -> os_ok os -> os_ok (finish m os).2 /\ advances os (finish m os).2.
Proof. intros Hm Hok. specialize (Hm os Hok). unfold finish. by destruct (m os) as [[[]|] os']. Qed.

(** No command, with any arguments and on any machine, can do to a database file what
    the store's abstract events do not do, and every file stays well formed: the
    command line is a client of the store like the server, on its own files. A command
    that fails half way has moved each file by some of the events, or not at all. *)
Theorem commands_refine_events (args : list string) os :
  os_ok os ->
  os_ok (main args os).2 /\ forall d, db_steps (file d os) (file d (main args os).2).
Proof.
  intros Hok.
  assert (forall m, safe m -> os_ok (finish m os).2 /\ forall d, db_steps (file d os) (file d (finish m os).2)) as Hf
    by (intros m Hm; by apply safe_finish).
  assert (forall r os1, os1 = os -> os_ok ((r : Z), os1).2 /\ forall d, db_steps (file d os) (file d (r, os1).2)) as Hs
    by (intros r os1 ->; split; [done|constructor]).
  unfold main. destruct args as [|cmd args]; [by apply Hs|]. repeat case_decide; try (by apply Hs); apply Hf.
  all: unfold runServe, runAdmin, runCert, runHealth, runAdminAccountCreate, runAdminDeviceQuota,
    runAdminDevicePromote, pingAccount, db_default, store_call; repeat safe_step.
Qed.

(** ** What a store call leaves *)

Lemma store_call_ok {A} st (op : store_op A) os (a : A) os' :
  store_call st op os = (inr a, os') ->
  exists s', run_op op (w_st (world_of st os)) = (inr a, s') /\ os' = with_world st (mkWorld s' ∅ []) os.
Proof.
  intros (r & os1 & E & Er)%bind_ok. unfold on_store, call_store in E. rewrite run_act in E.
  cbn [do_action] in E. destruct (run_op op _) as [r' s'] eqn:Eop. injection E as <- <-.
  unfold returned in Er. destruct r' as [e|a']; [done|]. injection Er as <- <-. eauto.
Qed.

(** What a successful [Open] gives: the file, or an empty database in memory. *)
Lemma Open_ok (path : string) st os os' :
  Open path os = (inr st, os') ->
  st = mkHandle (dsn path (isMemory path)) (isMemory path) /\
  db_of st os' = (if isMemory path then empty_db else file (dsn path (isMemory path)) os) /\
  os_clock os' = os_clock os /\ os_rnd os' = os_rnd os /\ os_out os' = os_out os /\ os_pings os' = os_pings os /\
  (os_faults os = [] -> os_faults os' = []).
Proof.
  unfold Open. set (os1 := mkOS _ _ _ _ _ _ _ _ _ _ _ _ _ _ _). set (st0 := mkHandle _ _).
  unfold db_call. cbn [w_st world_of st_faults st_db].
  assert (db_of st0 os1 = if isMemory path then empty_db else file (dsn path (isMemory path)) os) as Edb.
  { unfold db_of, st0, os1. cbn. by destruct (isMemory path). }
  destruct (os_faults os1) as [|[] fs] eqn:Ef; cbn; intros [= <- <-];
    (split; [done|]); rewrite db_of_with_world; unfold w_db; cbn; rewrite Edb, app_nil_r;
    (split; [done|]); (split_and!; try done); intros E; unfold os1 in Ef; cbn in Ef; congruence.
Qed.

Lemma parse_args_ok (fs0 : flags) (args : list string) os (fs : flags) (rest : list string) os' :
  parse_args fs0 args os = (inr (fs, rest), os') -> Parse fs0 args = Parsed fs rest /\ os' = os.
Proof. unfold parse_args. destruct (Parse fs0 args); [|done]. by intros [= <- <- <-]. Qed.

(** ** Provisioning an account *)

Lemma created_account (class mode : string) (n : Z) (s : St) (a : Account) :
  integrity (st_db s) -> (CreateAccount class n mode s).1 = inr a ->
  let db := st_db (CreateAccount class n mode s).2 in
  db_step (sec (st_clock s)) (st_db s) (EvCreateAccount (a_id a)) db /\
  Forall (fun d => d_account_id d <> a_id a) db.(devices).
Proof.
  intros Hi Ha. pose proof (CreateAccount_spec class mode n s) as Hs. unfold wp in Hs.
  destruct (CreateAccount class n mode s) as [r s']. cbn in *. subst r.
  destruct Hs as (_ & _ & [(? & _)|Hs]); [done|]. cbn in Hs. split; [done|].
  inversion Hs as [b Hb Hm Hq Eid Edb| | | | | | | | | | | | | | |]; subst.
  cbn. eapply Forall_impl; [apply Hi|]. cbn. intros d Hd Ed.
  apply list_elem_of_fmap in Hd as (x & Hx & Hin). rewrite Forall_forall in Hb. apply (Hb x Hin). congruence.
Qed.

(** What [account create] prints. *)
Definition create_lines (fs : flags) (a : Account) (token : string) : list string :=
  if bool_flag fs "json"
  then [print (JObj [("account_id", JStr (a_id a)); ("invitation_token", JStr token)]%string)]
  else ["account:    " +:+ a_id a +:+ "  (administration: " +:+ a_admin_mode a +:+ ")";
        "invitation: " +:+ token +:+ "  (single-use, expires in " +:+
          Duration_String (num_flag fs "ttl") +:+ ")"].

Lemma create_ok (args : list string) os os' :
  runAdminAccountCreate args os = (inr tt, os') ->
  exists fs rest st os1 a s2 token inv s3,
    Parse (create_flags (env_value "SUND_DB" "sund.db" os)) args = Parsed fs rest /\
    Open (text_flag fs "db") os = (inr st, os1) /\
    CreateAccount (text_flag fs "quota") (num_flag fs "quota-bytes") (text_flag fs "admin-mode")
      (w_st (world_of st os1)) = (inr a, s2) /\
    CreateInvitation (a_id a) (num_flag fs "ttl") RoleAdmin
      (mkSt (st_db s2) (os_clock os1) (st_rnd s2) (st_faults s2)) = (inr (token, inv), s3) /\
    db_of st os' = st_db s3 /\ os_out os' = os_out os1 ++ create_lines fs a token.
Proof.
  intros (db & os0 & E0 & E)%bind_ok. injection E0 as <- <-.
  apply bind_ok in E as ([fs rest] & os0 & [Ep ->]%parse_args_ok & E).
  apply bind_ok in E as (st & os1 & Eo & E).
  apply bind_ok in E as (a & os2 & (s2 & Ea & ->)%store_call_ok & E).
  apply bind_ok in E as ([token inv] & os3 & (s3 & Ei & ->)%store_call_ok & E).
  exists fs, rest, st, os1, a, s2, token, inv, s3. split_and!; [done|done|done| |..].
  - rewrite <- Ei. cbn [run_op]. f_equal. unfold world_of. rewrite db_of_with_world. done.
  - pose proof (db_of_with_world st (mkWorld s3 ∅ []) (with_world st (mkWorld s2 ∅ []) os1)) as Hdb.
    revert E. destruct (bool_flag fs "json"); cbn; intros [= <-]; exact Hdb.
  - revert E. unfold create_lines. destruct (bool_flag fs "json"); cbn; intros [= <-]; cbn; [done|].
    by rewrite <- app_assoc.
Qed.

(** C25: the token [account create] prints founds the account: when the command succeeds -
    whatever its flags, the administration mode and the driver - it has printed an
    account and a token, and a device that registers with the token before it expires
    becomes an admin of that account. *)
Theorem founding_token_enrols_admin (args : list string) os os' :
  os_ok os -> runAdminAccountCreate args os = (inr tt, os') ->
  exists fs rest a token, Parse (create_flags (env_value "SUND_DB" "sund.db" os)) args = Parsed fs rest /\
    os_out os' = os_out os ++ create_lines fs a token /\
    let db := db_of (mkHandle (dsn (text_flag fs "db") (isMemory (text_flag fs "db")))
                       (isMemory (text_flag fs "db"))) os' in
    forall pub push caps clock rnd, length pub = PublicKeySize -> (9 <= length rnd)%nat ->
      fresh_id "dev_" rnd ∉ d_id <$> db.(devices) -> sec clock < sec (os_clock os + num_flag fs "ttl") ->
      exists d, (RegisterDevice token pub push caps (mkSt db clock rnd [])).1 = inr d /\
        d_account_id d = a_id a /\ d_role d = RoleAdmin.
Proof.
  intros Hok Hrun.
  destruct (create_ok args os os' Hrun) as (fs & rest & st & os1 & a & s2 & token & inv & s3 & Hp & Ho & Ha & Hi & Hdb & Hout).
  pose proof (safe_Open (text_flag fs "db") os Hok) as [Hok1 _]. rewrite Ho in Hok1. cbn in Hok1.
  pose proof (Open_ok _ _ _ _ Ho) as (-> & _ & Hclock & _ & Hout1 & _).
  exists fs, rest, a, token. split_and!; [done|by rewrite Hout, Hout1|]. cbn zeta. rewrite Hdb.
  intros pub push caps clock rnd Hk Hr Hid Hexp. set (st := mkHandle _ _) in *.
  pose proof (world_of_ok st os1 Hok1) as Hw.
  pose proof (created_account (text_flag fs "quota") (text_flag fs "admin-mode") (num_flag fs "quota-bytes")
    (w_st (world_of st os1)) a (ok_integrity _ Hw)) as Hc. rewrite Ha in Hc. destruct (Hc eq_refl) as [Hs2 Hnone].
  cbn in Hs2, Hnone. pose proof (db_step_ok _ _ _ _ Hw Hs2) as Hok2.
  set (s := mkSt (st_db s2) _ _ _) in Hi.
  pose proof (CreateInvitation_spec (a_id a) RoleAdmin (num_flag fs "ttl") s) as Hsp. unfold wp in Hsp.
  rewrite Hi in Hsp. destruct Hsp as (_ & _ & [(? & _)|Hinv]); [done|]. cbn in Hinv.
  destruct Hinv as (b & _ & _ & _ & _ & Hexp' & _ & _ & _ & Hdb3). cbn in *.
  destruct (minted_token_enrols (a_id a) RoleAdmin token push caps (num_flag fs "ttl") clock pub rnd inv s)
    as (b' & _ & _ & Hreg); try done.
  - by rewrite Hi.
  - by rewrite Hdb3 in Hid.
  - rewrite Hexp', Hclock. done.
  - rewrite Hi in Hreg. cbn in Hreg. rewrite Hreg. eexists. split; [done|]. cbn. split; [done|].
    case_decide; [|done]. rewrite decide_True; [done|]. by rewrite Hdb3.
Qed.

(** ** Arguments after the first that is no flag *)

Lemma main_promote (args : list string) os :
  main ("admin" :: "device" :: "promote" :: args)%string os = finish (runAdminDevicePromote args) os.
Proof. reflexivity. Qed.

Lemma main_quota (args : list string) os :
  main ("admin" :: "device" :: "quota" :: args)%string os = finish (runAdminDeviceQuota args) os.
Proof. reflexivity. Qed.

(** The flags of a command end at its first argument that is not one. [device promote]
    ignores what follows the device, a [--db] too: it acts on the database of the
    environment or the default, not the one named. *)
Theorem promote_ignores_trailing_arguments (dev : string) (rest : list string) os :
  classify dev = Positional ->
  main ("admin" :: "device" :: "promote" :: dev :: rest)%string os =
  main ["admin"; "device"; "promote"; dev]%string os.
Proof.
  intros Hd. rewrite !main_promote. unfold finish, runAdminDevicePromote, db_default, envOr.
  rewrite !cmd_bind. unfold parse_args. by rewrite !Parse_positional.
Qed.

(** Nothing printed, pinged or changed. *)
Definition unchanged os os' : Prop :=
  os_out os' = os_out os /\ os_pings os' = os_pings os /\ forall d, file d os' = file d os.

Definition quiet {A} (m : Cmd A) : Prop :=
  forall os, unchanged os (m os).2 /\ forall c, (m os).1 <> inl (Exit c).

(** Ends in an error, with nothing done. *)
Definition failing {A} (m : Cmd A) : Prop :=
  forall os, unchanged os (m os).2 /\ exists e, (m os).1 = inl (Err e).

Lemma unchanged_trans os os1 os2 : unchanged os os1 -> unchanged os1 os2 -> unchanged os os2.
Proof. intros (E1 & E2 & E3) (E4 & E5 & E6). split_and!; [congruence..|]. intros d. by rewrite E6. Qed.

Lemma failing_bind {A B} (m : Cmd A) (k : A -> Cmd B) :
  quiet m -> (forall a, failing (k a)) -> failing (m ≫= k).
Proof.
  intros Hm Hk os. rewrite cmd_bind. destruct (Hm os) as [Hu Hx]. destruct (m os) as [[[c|e]|a] os1]; cbn in *.
  - by destruct (Hx c).
  - eauto.
  - destruct (Hk a os1) as [Hu1 He]. split; [by eapply unchanged_trans|done].
Qed.

Lemma unchanged_world st (w : World) os :
  w_db w = db_of st os -> w_pings w = [] -> unchanged os (with_world st w os).
Proof.
  intros Hw Hp. split_and!; [done|by cbn; rewrite Hp, app_nil_r|]. intros d. rewrite file_with_world.
  case_decide as Hd; [|done]. destruct Hd as [Hm ->]. rewrite Hw. unfold db_of. by rewrite Hm.
Qed.

Lemma quiet_Open (path : string) : quiet (Open path).
Proof.
  intros os. unfold Open. set (os1 := mkOS _ _ _ _ _ _ _ _ _ _ _ _ _ _ _). set (st := mkHandle _ _).
  assert (forall s, st_db s = db_of st os1 -> unchanged os (with_world st (mkWorld s ∅ []) os1)) as Hu.
  { intros s Hs. apply (unchanged_world st (mkWorld s ∅ []) os1 Hs eq_refl). }
  unfold db_call. cbn [w_st world_of st_faults st_db].
  destruct (os_faults os1) as [|[] fs]; cbn; (split; [by apply Hu|done]).
Qed.

Lemma quiet_read {A} st (op : store_op A) : read_op op = true -> quiet (store_call st op).
Proof.
  intros Hop os. unfold store_call, on_store, call_store. rewrite cmd_bind, run_act. cbn [do_action].
  pose proof (read_op_db op (w_st (world_of st os)) Hop) as Hdb.
  destruct (run_op op _) as [r s]. cbn in *. split; [|by destruct r].
  assert (unchanged os (with_world st (mkWorld s ∅ []) os)) as Hu by by apply unchanged_world.
  by destruct r.
Qed.

(** [device quota] takes what follows the device for the byte count, so the [--db] its
    usage text puts there fails the command: for anything there that is not a
    non-negative number it exits with 1, having printed and pinged nothing and changed
    no database. *)
Theorem quota_refuses_bad_count (dev text : string) (rest : list string) os :
  classify dev = Positional -> from_option (fun n => n < 0) True (ParseInt text) ->
  let out := main ("admin" :: "device" :: "quota" :: dev :: text :: rest)%string os in
  out.1 = 1 /\ os_out out.2 = os_out os /\ os_pings out.2 = os_pings os /\
  forall d, file d out.2 = file d os.
Proof.
  intros Hd Hn. cbn zeta. rewrite main_quota. unfold finish, runAdminDeviceQuota, db_default, envOr.
  rewrite cmd_bind. unfold parse_args. rewrite Parse_positional by done. rewrite cmd_bind. cbn [mret Cmd_ret].
  match goal with |- context [(Open ?p ≫= ?k) os] =>
    assert (failing (Open p ≫= k)) as Hf; [|destruct (Hf os) as [Hu [e E]]] end.
  - apply failing_bind; [apply quiet_Open|intros st]. apply failing_bind; [by apply quiet_read|intros d].
    destruct (ParseInt text) as [n|]; cbn in Hn; [rewrite decide_True by done|];
      (intros os1; split; [done|by eexists]).
  - destruct ((Open _ ≫= _) os) as [r os']. cbn in *. subst r. by destruct Hu as (? & ? & ?).
Qed.

(** ** Promoting a device *)

Lemma GetDevice_ok (id : string) (s s' : St) (d : Device) :
  GetDevice id s = (inr d, s') ->
  d ∈ (st_db s).(devices) /\ d_id d = id /\ st_db s' = st_db s /\ (st_faults s = [] -> st_faults s' = []).
Proof.
  unfold GetDevice, on_no_rows, query_row, db_call. intros E.
  destruct (st_faults s) as [|[] fs]; cbn in E; [|done|];
    (destruct (sql_first _ _) as [x|] eqn:Ex; [|done]); simplify_eq; cbn;
    apply sql_first_Some in Ex as [? ?]; by split_and!.
Qed.

Lemma ListDevices_works (acc : string) (s : St) :
  st_faults s = [] ->
  exists devs s', ListDevices acc s = (inr devs, s') /\ st_db s' = st_db s /\
    devs ≡ₚ filter (fun d => d_account_id d = acc) (st_db s).(devices).
Proof.
  intros Hf. unfold ListDevices, query, db_call. rewrite Hf. eexists _, _. split_and!; [done|done|].
  apply sql_order_Permutation.
Qed.

Lemma pingAccount_works st (acc except : string) os :
  os_faults os = [] ->
  exists os' devs, pingAccount st acc except os = (inr tt, os') /\ db_of st os' = db_of st os /\
    os_out os' = os_out os /\
    devs ≡ₚ filter (fun d => d_account_id d = acc) (db_of st os).(devices) /\
    os_pings os' = os_pings os ++ wake_targets except devs.
Proof.
  intros Hf. destruct (ListDevices_works acc (w_st (world_of st os)) Hf) as (devs & s' & E & Hdb & Hp).
  unfold pingAccount, on_store. rewrite cmd_bind. unfold call_store. rewrite run_act. cbn [do_action run_op].
  rewrite E. cbn beta iota. rewrite run_ping_devices. eexists _, devs. split_and!; [done| |done|done|].
  - rewrite db_of_with_world. unfold w_db, world_of. cbn [w_st st_db]. rewrite db_of_with_world.
    unfold w_db. cbn. by rewrite Hdb.
  - cbn. by rewrite app_nil_r.
Qed.

Lemma promoted (id : string) (s s' : St) (d : Device) :
  integrity (st_db s) -> d ∈ (st_db s).(devices) -> d_id d = id ->
  PromoteDevice id s = (inr tt, s') ->
  d_revoked d = false /\ dev_set_role RoleAdmin d ∈ (st_db s').(devices) /\
  (st_faults s = [] -> st_faults s' = []).
Proof.
  intros Hi Hd Hid E. pose proof (PromoteDevice_spec id s) as Hs. unfold wp in Hs. rewrite E in Hs. cbn in Hs.
  destruct Hs as (_ & Hf & [(? & _)|(acc & Hs)]); [done|].
  inversion Hs as [| | | | |acc' id' role d' a Hr Ha Haid Hm Hd' Hid' Hacc Hlive Hla E1 E2| | | | | | | | | |]; subst.
  assert (d' = d) as -> by (eapply (NoDup_fmap_inj d_id); [apply Hi|done..]).
  split_and!; [exact Hlive| |done]. cbn. apply elem_of_sql_update. exists d. by rewrite decide_True.
Qed.

(** A promotion by the operator is announced: when [device promote] succeeds on a
    working driver, the device is a live admin, and every live device of its account
    that has an endpoint has been pinged once, the promoted one too. The host does not
    hold a silent act. *)
Theorem promotion_is_announced (args : list string) os os' :
  os_ok os -> os_faults os = [] -> runAdminDevicePromote args os = (inr tt, os') ->
  exists fs id rest d devs, Parse (db_flag (env_value "SUND_DB" "sund.db" os)) args = Parsed fs (id :: rest) /\
    let db := db_of (mkHandle (dsn (text_flag fs "db") (isMemory (text_flag fs "db")))
                       (isMemory (text_flag fs "db"))) os' in
    d ∈ db.(devices) /\ d_id d = id /\ live d /\ d_role d = RoleAdmin /\
    devs ≡ₚ filter (fun x => d_account_id x = d_account_id d) db.(devices) /\
    os_pings os' = os_pings os ++ wake_targets "" devs /\
    os_out os' = os_out os ++ [(id +:+ ": promoted to admin")%string].
Proof.
  intros Hok Hf (db & os0 & E0 & E)%bind_ok. injection E0 as <- <-.
  apply bind_ok in E as ([fs rest] & os0 & [Ep ->]%parse_args_ok & E).
  destruct rest as [|id rest]; [done|]. apply bind_ok in E as (st & os1 & Eo & E).
  pose proof (safe_Open (text_flag fs "db") os Hok) as [Hok1 _]. rewrite Eo in Hok1. cbn in Hok1.
  pose proof (Open_ok _ _ _ _ Eo) as (Hst & _ & _ & _ & Hout1 & Hp1 & Hf1). specialize (Hf1 Hf).
  apply bind_ok in E as (d & os2 & (s2 & Ed & ->)%store_call_ok & E).
  apply bind_ok in E as ([] & os3 & (s3 & Epr & ->)%store_call_ok & E).
  cbn [run_op] in Ed, Epr. apply GetDevice_ok in Ed as (Hd & Hid & Hdb2 & Hf2).
  unfold world_of in Epr. rewrite db_of_with_world in Epr. unfold w_db in Epr. cbn in Epr.
  pose proof (world_of_ok st os1 Hok1) as Hw. cbn in Hd.
  apply promoted with (d := d) in Epr as (Hlive & Hd3 & Hf3); cbn;
    [|rewrite Hdb2; apply Hw|by rewrite Hdb2|done].
  set (os3 := with_world st (mkWorld s3 ∅ []) _) in E.
  destruct (pingAccount_works st (d_account_id d) "" os3) as (os4 & devs & Epi & Hdb4 & Hout4 & Hdevs & Hp4).
  { unfold os3. cbn. by apply Hf3, Hf2. }
  rewrite cmd_bind, Epi in E. cbn in E. injection E as <-. cbn.
  assert (db_of st os3 = st_db s3) as Edb by (unfold os3; by rewrite db_of_with_world).
  exists fs, id, rest, (dev_set_role RoleAdmin d), devs. split; [done|]. cbn zeta. rewrite <- Hst.
  assert (forall l, db_of st (mkOS (os_env os4) (os_dbs os4) (os_mem os4) (os_clock os4) (os_rnd os4) (os_faults os4)
    (os_files os4) (os_draws os4) (os_hfaults os4) (os_listen os4) (os_probe os4) (os_pings os4) l
    (os_log os4) (os_services os4)) = st_db s3) as Ef by (intros l; by rewrite <- Edb, <- Hdb4).
  rewrite Ef. rewrite Edb in Hdevs. split_and!; [done|done|exact Hlive|done|done| |].
  - rewrite Hp4. unfold os3. cbn. by rewrite !app_nil_r, Hp1.
  - rewrite Hout4. unfold os3. cbn. by rewrite Hout1.
Qed.

End operator.
