(* ===== verification/Deploy.v ===== *)
(** * Deploying: the server's identity as the operator sees it, and examples

    The fingerprint the command line prints and the one the server presents; and the
    commands on a small deployment. *)

From S2P Require Import Prelude Encoding Clock Decimal Duration Sql Schema StoreM Crypto Accounts Devices.
From S2P Require Import Queues Blobs Steps Invariants Store Demo World Http Json Push.
From S2P Require Import Management Url Flags Host X509 Tlsid Identity Command Operator.

Local Open Scope Z_scope.

Section deploy.
Context `{Crypto} `{X : X509} `{!X509Laws X}.
Implicit Types (os : OS).






End deploy.

(** ** Examples *)

Section examples.
Import Demo ToyX509.

(** A new machine, and one where the small deployment's database is the default file. *)
Definition machine (dbs : gmap string DB) : OS :=
  mkOS ∅ dbs empty_db (t0 + 10 * Second) (replicate 128 x08) [] ∅
    [[x01]; [x02]; [x03]; [x04]; [x05]; [x06]; [x07]; [x08]; [x09]; [x0a]; [x0b]; [x0c]] []
    (fun _ => true) (fun _ => None) [] [] [] [].
Definition fresh : OS := machine ∅.
Definition deployed : OS := machine {[dsn "sund.db" false := db0]}.

Lemma fresh_ok : os_ok fresh.
Proof. split; [apply ok_empty|]. intros d. unfold file. cbn. rewrite lookup_empty. apply ok_empty. Qed.

Lemma deployed_ok : os_ok deployed.
Proof.
  split; [apply ok_empty|]. intros d. unfold file, deployed, machine. cbn [os_dbs].
  destruct (decide (d = dsn "sund.db" false)) as [->|Hne];
    [rewrite lookup_singleton_eq; apply db0_ok|rewrite lookup_singleton_ne by done; apply ok_empty].
Qed.

Lemma commands_refine_events_witness :
  let args := ["admin"; "device"; "promote"; dev2]%string in
  os_ok deployed /\ os_ok (main args deployed).2 /\
  forall d, db_steps (file d deployed) (file d (main args deployed).2).
Proof. cbv zeta. split; [apply deployed_ok|]. exact (commands_refine_events _ deployed deployed_ok). Defined.

(** The state a command leaves when it succeeds. *)
Lemma ran {A} (m : Cmd A) (a : A) (os : OS) : (m os).1 = inr a -> m os = (inr a, (m os).2).
Proof. intros <-. apply surjective_pairing. Qed.

Definition managed : list string := ["--admin-mode"; "managed"; "--ttl=15m"]%string.

Lemma founding_token_enrols_admin_witness :
  let os' := (runAdminAccountCreate managed fresh).2 in
  runAdminAccountCreate managed fresh = (inr tt, os') /\
  exists fs rest a token, Parse (create_flags (env_value "SUND_DB" "sund.db" fresh)) managed = Parsed fs rest /\
    os_out os' = os_out fresh ++ create_lines fs a token /\
    let db := db_of (mkHandle (dsn (text_flag fs "db") (isMemory (text_flag fs "db")))
                       (isMemory (text_flag fs "db"))) os' in
    forall pub push caps clock rnd, length pub = PublicKeySize -> (9 <= length rnd)%nat ->
      fresh_id "dev_" rnd ∉ d_id <$> db.(devices) -> sec clock < sec (os_clock fresh + num_flag fs "ttl") ->
      exists d, (RegisterDevice token pub push caps (mkSt db clock rnd [])).1 = inr d /\
        d_account_id d = a_id a /\ d_role d = RoleAdmin.
Proof.
  assert (runAdminAccountCreate managed fresh = (inr tt, (runAdminAccountCreate managed fresh).2)) as E
    by (apply ran; by vm_compute).
  split; [exact E|]. exact (founding_token_enrols_admin managed fresh _ fresh_ok E).
Defined.

Lemma promote_ignores_trailing_arguments_witness :
  classify dev2 = Positional /\
  main ["admin"; "device"; "promote"; dev2; "--db"; "other.db"]%string deployed =
  main ["admin"; "device"; "promote"; dev2]%string deployed.
Proof.
  split; [by vm_compute|].
  apply (promote_ignores_trailing_arguments dev2 ["--db"; "other.db"]%string deployed). by vm_compute.
Defined.

Lemma quota_refuses_bad_count_witness :
  let out := main ["admin"; "device"; "quota"; dev2; "--db"; "other.db"]%string deployed in
  out.1 = 1 /\ os_out out.2 = os_out deployed /\ os_pings out.2 = os_pings deployed /\
  forall d, file d out.2 = file d deployed.
Proof.
  apply (quota_refuses_bad_count dev2 "--db" ["other.db"%string] deployed); [by vm_compute|].
  assert (ParseInt "--db" = None) as -> by by vm_compute. exact I.
Defined.

Lemma promotion_is_announced_witness :
  let os' := (runAdminDevicePromote [dev2] deployed).2 in
  runAdminDevicePromote [dev2] deployed = (inr tt, os') /\
  exists fs id rest d devs, Parse (db_flag (env_value "SUND_DB" "sund.db" deployed)) [dev2] = Parsed fs (id :: rest) /\
    let db := db_of (mkHandle (dsn (text_flag fs "db") (isMemory (text_flag fs "db")))
                       (isMemory (text_flag fs "db"))) os' in
    d ∈ db.(devices) /\ d_id d = id /\ live d /\ d_role d = RoleAdmin /\
    devs ≡ₚ filter (fun x => d_account_id x = d_account_id d) db.(devices) /\
    os_pings os' = os_pings deployed ++ wake_targets "" devs /\
    os_out os' = os_out deployed ++ [(id +:+ ": promoted to admin")%string].
Proof.
  assert (runAdminDevicePromote [dev2] deployed = (inr tt, (runAdminDevicePromote [dev2] deployed).2)) as E
    by (apply ran; by vm_compute).
  split; [exact E|]. exact (promotion_is_announced [dev2] deployed _ deployed_ok eq_refl E).
Defined.





(** Run with their defaults, [serve] and [cert fingerprint] use different directories:
    after [serve] has logged its pinned address, [cert fingerprint] exits with 0 and
    prints the fingerprint of another, newly made identity, which the server does not
    present. *)
Theorem cert_fingerprint_default_directory :
  let out := main ["cert"; "fingerprint"]%string (main ["serve"]%string fresh).2 in
  exists fp fp', last (os_log (main ["serve"]%string fresh).2) = Some ("pinned address: sund://<host>:5870#" +:+ fp)%string /\
    out.1 = 0 /\ os_out out.2 = [fp'] /\ fp <> fp'.
Proof.
  exists (hex_encode (sha256 [x01])), (hex_encode (sha256 [x07])). split_and!; by vm_compute.
Qed.

End examples.
