(* ===== verification/Admin.v ===== *)
(** * What each command line does to the databases, and whom it wakes

    A command line read as the errand it is ([ask]), the exact effect of each errand
    ([performed]), and that the commands of [main.go] have it, with a driver that may
    fail at any statement. *)

From S2P Require Import Prelude Encoding Clock Decimal Duration Sql Schema StoreM Crypto Accounts Devices.
From S2P Require Import Queues Blobs Steps Invariants Evolution Refine Store Demo Enrolment World Http Json Push.
From S2P Require Import Management Url Flags Host X509 Tlsid Command Operator Deploy.

Local Open Scope Z_scope.

(** ** The store methods the commands call, exactly *)

Definition live_device (id : string) (db : DB) (d : Device) : Prop :=
  d ∈ db.(devices) /\ d_id d = id /\ live d.

(** The account a command creates. *)
Definition account_row (class mode : string) (n : Z) (id : string) (now : Z) : Account :=
  mkAccount id now class "active" (if decide (n <= 0) then QuotaBytesForClass class else n)
    (if decide (mode = ""%string) then AdminModeFlat else mode).

Definition known_mode (mode : string) : Prop :=
  mode = ""%string \/ mode = AdminModeFlat \/ mode = AdminModeManaged.

(** A live device of a managed account. *)
Definition promotable (id : string) (db : DB) (d : Device) : Prop :=
  live_device id db d /\
  exists a, a ∈ db.(accounts) /\ a_id a = d_account_id d /\ a_admin_mode a = AdminModeManaged.

Section methods.
Context `{Crypto}.
Implicit Types s : St.

Lemma GetDevice_exact (id : string) s :
  wp (GetDevice id) s (outcome s (fun r db' => db' = st_db s /\ match r with
    | inl _ => forall d, d ∈ (st_db s).(devices) -> d_id d <> id
    | inr d => d ∈ (st_db s).(devices) /\ d_id d = id
    end)).
Proof.
  unfold GetDevice. wp_step. wp_step; [by wp_fault|]. simpl.
  destruct (sql_first _ _) as [d|] eqn:E; wp_done; (split; [done|]);
    [by apply sql_first_Some in E as [? ?]|].
  apply sql_first_None in E. by rewrite Forall_forall in E.
Qed.

Lemma SetDeviceQuota_exact (id : string) (n : Z) s :
  wp (SetDeviceQuota id n) s (outcome s (fun r db' => match r with
    | inl _ => db' = st_db s /\ forall d, ~ live_device id (st_db s) d
    | inr _ => (exists d, live_device id (st_db s) d) /\
        db' = set_devices (sql_update (fun d => d_id d = id /\ d_revoked d = false) (dev_set_quota n)
                             (st_db s).(devices)) (st_db s)
    end)).
Proof.
  unfold SetDeviceQuota. wp_step. wp_step; [by wp_fault|]. simpl. apply wp_if; intros Hk; wp_step; wp_done.
  - rewrite sql_update_none, set_devices_id by done. split; [done|]. intros d (Hd & Hid & Hl).
    apply sql_count_zero in Hk. rewrite Forall_forall in Hk. by apply (Hk d Hd).
  - split; [|done]. match type of Hk with ~ ?c = 0 => assert (0 < c) as Hp by (unfold sql_count in *; lia) end.
    apply sql_count_pos in Hp as (d & Hd & Hid & Hl). by exists d.
Qed.

Lemma PromoteDevice_exact (id : string) s :
  integrity (st_db s) ->
  wp (PromoteDevice id) s (outcome s (fun r db' => match r with
    | inl _ => db' = st_db s /\ forall d, ~ promotable id (st_db s) d
    | inr _ => (exists d, promotable id (st_db s) d) /\
        db' = set_devices (sql_update (fun d => d_id d = id) (dev_set_role RoleAdmin) (st_db s).(devices)) (st_db s)
    end)).
Proof.
  intros Hi. unfold PromoteDevice. wp_step. wp_step. wp_step; [by wp_fault|]. simpl.
  set (l := d ← _; _).
  assert (forall mode, mode ∈ l <-> exists d a, live_device id (st_db s) d /\ a ∈ (st_db s).(accounts) /\
    a_id a = d_account_id d /\ a_admin_mode a = mode) as Hl.
  { intros mode. unfold l, live_device, live. setoid_rewrite list_elem_of_bind.
    setoid_rewrite list_elem_of_bind. setoid_rewrite list_elem_of_singleton.
    setoid_rewrite list_elem_of_filter. split.
    - intros (d & (a & -> & ? & ?) & (? & ?) & ?). by exists d, a.
    - intros (d & a & (? & ? & ?) & ? & ? & ?). exists d. split; [by exists a|done]. }
  destruct (head l) as [mode|] eqn:E; [apply head_elem_of, Hl in E as (d & a & Hd & Ha & Haid & <-)|].
  - apply wp_if; intros Hm; wp_step; [wp_done|wp_step; [by wp_fault|]; simpl; wp_step; wp_done].
    + split; [done|]. intros d' ((Hd' & Hid' & _) & a' & Ha' & Haid' & Hm'). apply Hm. rewrite <- Hm'.
      destruct Hd as (Hd & Hid & _).
      assert (d' = d) as -> by (eapply (NoDup_fmap_inj d_id); [apply Hi|done..|congruence]).
      f_equal. eapply (NoDup_fmap_inj a_id); [apply Hi|done..|congruence].
    + apply dec_stable in Hm. split; [|done]. exists d. split; [done|]. by exists a.
  - wp_done. split; [done|]. intros d (Hd & a & Ha & Haid & Hm). apply head_None in E.
    assert (AdminModeManaged ∈ l) as Hin by (apply Hl; by exists d, a). rewrite E in Hin.
    by apply elem_of_nil in Hin.
Qed.

Lemma CreateAccount_exact (class mode : string) (n : Z) s :
  wp (CreateAccount class n mode) s (outcome s (fun r db' => match r with
    | inl _ => db' = st_db s
    | inr a => a = account_row class mode n (a_id a) (sec (st_clock s)) /\
        (a_id a ∉ (a_id <$> (st_db s).(accounts))) /\ known_mode mode /\
        db' = set_accounts ((st_db s).(accounts) ++ [a]) (st_db s)
    end)).
Proof.
  unfold CreateAccount, account_row. cbv zeta.
  set (q := if decide (n <= 0) then _ else _). set (m := if decide (mode = _) then _ else _).
  apply wp_if; intros Hm; [wp_go; by wp_done|].
  wp_step. wp_step; [by wp_done|]. wp_step. wp_step. wp_step. wp_step; [by wp_fault|].
  simpl. unfold insert_account.
  destruct (sql_insert _ _ _) as [t|] eqn:E; simpl; [|by wp_done].
  apply sql_insert_Some in E as [-> Hf]. wp_step. wp_done. split_and!; try done.
  - intros (x & Ex & Hx)%list_elem_of_fmap. rewrite Forall_forall in Hf. by apply (Hf x Hx).
  - pose proof (not_and_not _ _ Hm) as Hm'. unfold known_mode, m in *. case_decide; tauto.
Qed.

(** On a working driver it creates the account, if its identifier is not taken. *)
Lemma CreateAccount_works (class mode : string) (n : Z) s :
  st_faults s = [] -> known_mode mode -> (9 <= length (st_rnd s))%nat ->
  (fresh_id "acc_" (st_rnd s) ∉ (a_id <$> (st_db s).(accounts))) ->
  wp (CreateAccount class n mode) s (fun r s' => exists a, r = inr a /\ s' =
    mkSt (set_accounts ((st_db s).(accounts) ++ [a]) (st_db s)) (st_clock s) (drop 9 (st_rnd s)) []).
Proof.
  intros Hf Hm Hr Hid. unfold CreateAccount. cbv zeta. apply wp_if; intros Hno.
  { exfalso. destruct Hno as [H1 H2]. destruct Hm as [->|[->| ->]]; case_decide; by try done. }
  wp_step. wp_step; [lia|]. wp_step. wp_step. wp_step. wp_step; [done|]. simpl in *. unfold insert_account.
  match goal with |- context [sql_insert ?P ?x ?t] =>
    assert (sql_insert P x t = Some (t ++ [x])) as E end.
  { apply sql_insert_Some. split; [done|]. apply Forall_forall. cbn. intros x Hx Ex. apply Hid.
    apply list_elem_of_fmap. by exists x. }
  rewrite E. simpl. wp_step. eexists. split; [done|]. destruct s. cbn in *. by rewrite (Hfs Hf).
Qed.

(** And it hands out the token, if its hash is not taken. *)
Lemma CreateInvitation_works (acc : string) (ttl : Z) s :
  st_faults s = [] -> (41 <= length (st_rnd s))%nat ->
  (acc ∈ (a_id <$> (st_db s).(accounts))) ->
  (hashToken (base64_rawurl_encode (take 32 (st_rnd s))) ∉ (i_token_hash <$> (st_db s).(invitations))) ->
  wp (CreateInvitation acc ttl RoleAdmin) s (fun r _ => exists ti, r = inr ti).
Proof.
  intros Hf Hr Hacc Hh. unfold CreateInvitation. wp_step. wp_step; [lia|]. wp_step.
  wp_step; [cbn in Hrnd0; rewrite length_drop in Hrnd0; lia|]. cbv zeta. wp_step. wp_step. wp_step; [done|]. simpl.
  destruct (sql_first _ _) as [a|] eqn:Ea; cbn; cycle 1.
  { apply sql_first_None in Ea. rewrite Forall_forall in Ea.
    apply list_elem_of_fmap in Hacc as (a & -> & Ha). by destruct (Ea a Ha). }
  wp_step. wp_step. wp_step. wp_step; [exfalso; cbn in *; by auto|]. simpl.
  unfold insert_invitation. cbn. rewrite decide_True by done.
  match goal with |- context [sql_insert ?P ?x ?t] => assert (sql_insert P x t = Some (t ++ [x])) as E end.
  { apply sql_insert_Some. split; [done|]. apply Forall_forall. cbn. intros x Hx Ex. apply Hh.
    apply list_elem_of_fmap. by exists x. }
  rewrite E. simpl. wp_step. by eexists.
Qed.

(** An invitation to be an admin grants what it asks for. *)
Lemma CreateInvitation_admin (acc : string) (ttl : Z) s :
  wp (CreateInvitation acc ttl RoleAdmin) s (outcome s (fun r db' => match r with
    | inl _ => db' = st_db s
    | inr ti => inv_grants_role ti.2 = RoleAdmin /\ invited acc ttl s ti db'
    end)).
Proof.
  assert (wp (CreateInvitation acc ttl RoleAdmin) s (fun r _ =>
    match r with inr ti => inv_grants_role ti.2 = RoleAdmin | inl _ => True end)) as Hg.
  { unfold CreateInvitation. wp_step. wp_step; [done|]. wp_step. wp_step; [done|].
    cbv zeta. wp_step. wp_step. wp_step; [done|]. simpl. destruct (_ <$> sql_first _ _) as [mode|]; [|done].
    wp_step. wp_step. wp_step. wp_step; [done|]. simpl.
    destruct (insert_invitation _ _) as [[db k]|]; simpl; [|done]. wp_step. cbn. by case_decide. }
  pose proof (CreateInvitation_spec acc RoleAdmin ttl s) as Hs. unfold wp, outcome in *.
  destruct (CreateInvitation _ _ _ _) as [[e|ti] s']; cbn in *; [done|].
  destruct Hs as (Hc & Hf & [(? & _)|Hs]); [done|]. auto.
Qed.

End methods.

(** ** Errands *)

(** What an operator can ask for. *)
Inductive errand : Type :=
  | Provision (class mode : string) (n ttl : Z)
  | Promote (id : string)
  | Cap (id : string) (n : Z).

Section admin.
Context `{Crypto} `{X509}.
Implicit Types (os : OS) (st : handle).

(** A command line as an errand and the path of the database it is for. All others
    - reports, usage errors, [serve], [cert], [health] - are for none. *)
Definition ask (args : list string) os : option (string * errand) :=
  let db := env_value "SUND_DB" "sund.db" os in
  if decide (take 3 args = ["admin"; "account"; "create"])%string then
    match Parse (create_flags db) (drop 3 args) with
    | Parsed fs _ =>
        Some (text_flag fs "db", Provision (text_flag fs "quota") (text_flag fs "admin-mode")
                                   (num_flag fs "quota-bytes") (num_flag fs "ttl"))
    | Stopped _ => None
    end
  else if decide (take 3 args = ["admin"; "device"; "promote"])%string then
    match Parse (db_flag db) (drop 3 args) with
    | Parsed fs (id :: _) => Some (text_flag fs "db", Promote id)
    | _ => None
    end
  else if decide (take 3 args = ["admin"; "device"; "quota"])%string then
    match Parse (db_flag db) (drop 3 args) with
    | Parsed fs (id :: text :: _) =>
        match ParseInt text with
        | Some n => if decide (n < 0) then None else Some (text_flag fs "db", Cap id n)
        | None => None
        end
    | _ => None
    end
  else None.

(** The database behind a path, when it is opened. *)
Definition database (path : string) os : DB :=
  if isMemory path then empty_db else file (dsn path false) os.

(** The ping of one device, if it can be pinged. *)
Definition wake_one (d : Device) : list (string * Priority) :=
  if decide (d_push_endpoint d = ""%string) then [] else [(d_push_endpoint d, Normal)].

(** Nothing stands in the way of an account and its first invitation: the mode is one of the
    two, the driver and the random source work, and neither the account's identifier nor the
    token's hash is taken. *)
Definition provisionable (mode : string) os (db : DB) : Prop :=
  os_faults os = [] /\ known_mode mode /\ (50 <= length (os_rnd os))%nat /\
  (fresh_id "acc_" (os_rnd os) ∉ (a_id <$> db.(accounts))) /\
  (hashToken (base64_rawurl_encode (take 32 (drop 9 (os_rnd os)))) ∉ (i_token_hash <$> db.(invitations))).

(** The exit code of an errand on the machine [os] and the database [db], the database it
    leaves and the pings it sends. An account without an invitation is left when the
    driver, the random source or the clash of two hashes keeps the invitation out. *)
Definition performed (e : errand) os (db : DB) (code : Z) (db' : DB) (pings : list (string * Priority)) : Prop :=
  let now := os_clock os in
  let fine := os_faults os = [] in
  match e with
  | Provision class mode n ttl =>
      pings = [] /\ (provisionable mode os db -> code = 0) /\
      ((code = 1 /\ db' = db) \/
       exists a, a = account_row class mode n (a_id a) (sec now) /\ known_mode mode /\
         (a_id a ∉ (a_id <$> db.(accounts))) /\
         let db1 := set_accounts (db.(accounts) ++ [a]) db in
         ((code = 1 /\ db' = db1) \/
          (code = 0 /\ exists ti, inv_grants_role ti.2 = RoleAdmin /\
             invited (a_id a) ttl (mkSt db1 now [] []) ti db')))
  | Promote id =>
      (code = 1 /\ db' = db /\ pings = [] /\ (fine -> forall d, ~ promotable id db d)) \/
      (code = 0 /\ exists d, promotable id db d /\
         db' = set_devices (sql_update (fun x => d_id x = id) (dev_set_role RoleAdmin) db.(devices)) db /\
         ((~ fine /\ pings = []) \/
          exists devs, devs ≡ₚ filter (fun x => d_account_id x = d_account_id d) db'.(devices) /\
            pings = wake_targets "" devs))
  | Cap id n =>
      (code = 1 /\ db' = db /\ pings = [] /\ (fine -> forall d, ~ live_device id db d)) \/
      (code = 0 /\ exists d, live_device id db d /\
         db' = set_devices (sql_update (fun x => d_id x = id /\ d_revoked x = false) (dev_set_quota n)
                              db.(devices)) db /\
         pings = wake_one d)
  end.

(** ** What using a store leaves *)

(** [db] is now behind the handle, [pings] have been sent, and nothing else has changed. *)
Definition moved st (db : DB) (pings : list (string * Priority)) os os' : Prop :=
  db_of st os' = db /\ os_pings os' = os_pings os ++ pings /\ os_clock os' = os_clock os /\
  (os_faults os = [] -> os_faults os' = []) /\
  forall d, file d os' = if decide (h_memory st = false /\ d = h_dsn st) then db else file d os.

Lemma moved_trans st (db1 db2 : DB) (p1 p2 : list (string * Priority)) os os1 os2 :
  moved st db1 p1 os os1 -> moved st db2 p2 os1 os2 -> moved st db2 (p1 ++ p2) os os2.
Proof.
  intros (_ & P1 & C1 & F1 & D1) (E2 & P2 & C2 & F2 & D2). split_and!; [done| |congruence|auto|].
  - by rewrite P2, P1, app_assoc.
  - intros d. specialize (D1 d). rewrite D2. by destruct (decide (h_memory st = false /\ d = h_dsn st)).
Qed.

Lemma moved_world st (w : World) (db : DB) (pings : list (string * Priority)) os :
  w_db w = db -> w_pings w = pings -> (os_faults os = [] -> st_faults (w_st w) = []) ->
  moved st db pings os (with_world st w os).
Proof. intros <- <- Hf. split_and!; [apply db_of_with_world|done|done|exact Hf|]. intros d. apply file_with_world. Qed.

Lemma store_call_run {A} st (op : store_op A) os :
  store_call st op os =
  (match (run_op op (w_st (world_of st os))).1 with inl e => inl (Err e) | inr a => inr a end,
   with_world st (mkWorld (run_op op (w_st (world_of st os))).2 ∅ []) os).
Proof.
  unfold store_call, on_store, call_store. rewrite cmd_bind, run_act. cbn [do_action].
  by destruct (run_op op _) as [[e|a] s].
Qed.

(** A store method under a specification. *)
Lemma store_call_moved {A} st (op : store_op A) os (R : error + A -> DB -> Prop) :
  wp (run_op op) (w_st (world_of st os)) (outcome (w_st (world_of st os)) R) ->
  exists r db os', store_call st op os = (match r with inl e => inl (Err e) | inr a => inr a end, os') /\
    moved st db [] os os' /\ ((r = inl ErrDriver /\ os_faults os <> [] /\ db = db_of st os) \/ R r db).
Proof.
  unfold wp, outcome. intros (_ & Hf & HR). rewrite store_call_run.
  exists (run_op op (w_st (world_of st os))).1, (st_db (run_op op (w_st (world_of st os))).2).
  eexists. split_and!; [done|by apply moved_world|done].
Qed.

Lemma Open_moved (path : string) os :
  let st := mkHandle (dsn path (isMemory path)) (isMemory path) in
  exists os', moved st (database path os) [] os os' /\
    ((Open path os = (inr st, os') /\ os_rnd os' = os_rnd os) \/ (os_faults os <> [] /\ exists e, Open path os = (inl (Err e), os'))).
Proof.
  cbn zeta. unfold Open. set (os1 := mkOS _ _ _ _ _ _ _ _ _ _ _ _ _ _ _). set (st := mkHandle _ _).
  assert (db_of st os1 = database path os) as E.
  { unfold db_of, st, os1, database, file. cbn. by destruct (isMemory path). }
  assert (forall s, st_db s = db_of st os1 -> (os_faults os = [] -> st_faults s = []) ->
    moved st (database path os) [] os (with_world st (mkWorld s ∅ []) os1)) as Hm.
  { intros s Hs Hf. rewrite <- E. exact (moved_world st (mkWorld s ∅ []) _ _ os1 Hs eq_refl Hf). }
  unfold db_call. cbn [w_st world_of st_faults st_db].
  destruct (os_faults os1) as [|[] fs] eqn:Ef; change (os_faults os1) with (os_faults os) in Ef; cbn;
    (eexists; split; [|first [left; split; reflexivity|right; split; [congruence|eexists; reflexivity]]]);
    (apply Hm; [done|cbn; congruence]).
Qed.

(** A command has performed an errand. *)
Definition has_performed (path : string) (e : errand) os (out : Z * OS) : Prop :=
  exists db' pings, moved (mkHandle (dsn path (isMemory path)) (isMemory path)) db' pings os out.2 /\
    performed e os (database path os) out.1 db' pings.

Lemma database_ok (path : string) os : os_ok os -> db_ok (database path os).
Proof. intros [_ Hf]. unfold database. destruct (isMemory path); [apply ok_empty|apply Hf]. Qed.

(** A printed line ends a command. *)
Lemma moved_Println st (db : DB) (pings : list (string * Priority)) (line : string) os os' :
  moved st db pings os os' -> exists os'', Println line os' = (inr tt, os'') /\ moved st db pings os os''.
Proof. intros Hm. by eexists. Qed.

Lemma finish_bind {A} (m : Cmd A) (k : A -> Cmd unit) os :
  finish (m ≫= k) os =
  match m os with
  | (inl (Exit code), os') => (code, os')
  | (inl (Err _), os') => (1, os')
  | (inr a, os') => finish (k a) os'
  end.
Proof. unfold finish. rewrite cmd_bind. by destruct (m os) as [[[]|] ?]. Qed.

(** The commands on a device open the database and look the device up first. *)
Lemma with_device (path id : string) (e : errand) (k : handle -> Device -> Cmd unit) os :
  let st := mkHandle (dsn path (isMemory path)) (isMemory path) in
  let db := database path os in
  (forall os', moved st db [] os os' ->
     os_faults os <> [] \/ (forall d, d ∈ db.(devices) -> d_id d <> id) -> has_performed path e os (1, os')) ->
  (forall d os', moved st db [] os os' -> d ∈ db.(devices) -> d_id d = id ->
     has_performed path e os (finish (k st d) os')) ->
  has_performed path e os (finish (st ← Open path; dev ← store_call st (OpGetDevice id); k st dev) os).
Proof.
  cbn zeta. intros Hfail Hk. set (st := mkHandle (dsn path (isMemory path)) (isMemory path)) in *.
  rewrite finish_bind. destruct (Open_moved path os) as (os1 & M1 & [[E Hrnd]|(Hf & e' & E)]); rewrite E; [|by apply Hfail; auto].
  fold st in E, M1 |- *. pose proof M1 as (Edb1 & _ & _ & Hf1 & _).
  destruct (store_call_moved st (OpGetDevice id) os1 _ (GetDevice_exact id _)) as (r & db & os2 & E2 & M2 & HR).
  rewrite finish_bind, E2. clear E2.
  assert (db = database path os) as -> by (rewrite <- Edb1; by destruct HR as [(_ & _ & ->)|[-> _]]).
  pose proof (moved_trans _ _ _ _ _ _ _ _ M1 M2) as M12. destruct r as [e'|d].
  - apply Hfail; [done|]. destruct HR as [(_ & Hf & _)|[_ Hno]]; [auto|]. right.
    intros d Hd. apply Hno. cbn. by rewrite Edb1.
  - destruct HR as [(? & _)|[_ [Hd Hid]]]; [done|]. cbn in Hd. rewrite Edb1 in Hd. by apply Hk.
Qed.

Lemma ListDevices_exact (acc : string) (s : St) :
  wp (ListDevices acc) s (outcome s (fun r db' => db' = st_db s /\ match r with
    | inl _ => False
    | inr devs => devs ≡ₚ filter (fun d => d_account_id d = acc) (st_db s).(devices)
    end)).
Proof.
  unfold ListDevices. wp_step; [by wp_fault|]. wp_done. split; [done|]. apply sql_order_Permutation.
Qed.

(** Who is pinged: nobody, if the driver fails to list the devices. *)
Lemma pingAccount_moved st (acc except : string) os :
  exists os' pings, pingAccount st acc except os = (inr tt, os') /\ moved st (db_of st os) pings os os' /\
    ((os_faults os <> [] /\ pings = []) \/
     exists devs, devs ≡ₚ filter (fun d => d_account_id d = acc) (db_of st os).(devices) /\
       pings = wake_targets except devs).
Proof.
  unfold pingAccount, on_store. rewrite cmd_bind. unfold call_store. rewrite run_act. cbn [do_action run_op].
  pose proof (ListDevices_exact acc (w_st (world_of st os))) as HL. unfold wp, outcome in HL.
  destruct (ListDevices acc _) as [r s]. cbn in HL. destruct HL as (_ & Hf & HR).
  assert (moved st (db_of st os) [] os (with_world st (mkWorld s ∅ []) os)) as M.
  { apply moved_world; [by destruct HR as [(_ & _ & ?)|[? _]]|done..]. }
  destruct r as [e|devs].
  - destruct HR as [(_ & Hne & _)|[_ []]]. eexists _, []. split_and!; [done| |by left]. exact M.
  - destruct HR as [(? & _)|[_ Hd]]; [done|]. rewrite run_ping_devices. eexists _, (wake_targets except devs).
    split_and!; [done| |right; by exists devs]. rewrite <- (app_nil_l (wake_targets _ _)).
    eapply moved_trans; [exact M|]. pose proof M as (E & _ & _ & _ & _).
    apply moved_world; [exact E|done|by cbn].
Qed.

(** *** Promoting *)

Lemma promote_performed (args : list string) (fs : flags) (id : string) (rest : list string) os :
  os_ok os -> Parse (db_flag (env_value "SUND_DB" "sund.db" os)) args = Parsed fs (id :: rest) ->
  has_performed (text_flag fs "db") (Promote id) os (finish (runAdminDevicePromote args) os).
Proof.
  intros Hok Hp. unfold runAdminDevicePromote, db_default, envOr, parse_args.
  rewrite !finish_bind, Hp. cbn [mret Cmd_ret]. set (path := text_flag fs "db").
  pose proof (database_ok path os Hok) as Hdb.
  assert (forall os', moved (mkHandle (dsn path (isMemory path)) (isMemory path)) (database path os) [] os os' ->
    os_faults os <> [] \/ (forall d, ~ promotable id (database path os) d) ->
    has_performed path (Promote id) os (1, os')) as Hfail.
  { intros os' Hm Hno. exists (database path os), []. split; [done|]. left. split_and!; try done.
    intros Hf. by destruct Hno. }
  apply with_device.
  { intros os' M Hno. apply Hfail; [done|]. destruct Hno as [?|Hno]; [auto|].
    right. intros d ((Hd & Hid & _) & _). by apply (Hno d). }
  intros d os2 M12 Hd Hid. set (st := mkHandle _ _) in *. pose proof M12 as (Edb2 & _ & _ & Hf2 & _).
  assert (integrity (st_db (w_st (world_of st os2)))) as Hi by (cbn; rewrite Edb2; apply Hdb).
  destruct (store_call_moved st (OpPromoteDevice id) os2 _ (PromoteDevice_exact id _ Hi)) as (r & db & os3 & E3 & M3 & HR).
  rewrite finish_bind, E3. clear E3. pose proof (moved_trans _ _ _ _ _ _ _ _ M12 M3) as M13.
  cbn in HR. rewrite Edb2 in HR. destruct r as [e|[]].
  { assert (db = database path os) as -> by (by destruct HR as [(_ & _ & ->)|[-> _]]).
    apply Hfail; [done|]. destruct HR as [(_ & Hf & _)|[_ Hno]]; auto. }
  destruct HR as [(? & _)|[(d' & Hd') ->]]; [done|].
  assert (d' = d) as ->.
  { destruct Hd' as ((? & ? & _) & _). eapply (NoDup_fmap_inj d_id); [apply (ok_integrity _ Hdb)|done..|congruence]. }
  rewrite finish_bind. destruct (pingAccount_moved st (d_account_id d) "" os3) as (os4 & pings & E4 & M4 & Hp4).
  rewrite E4. cbn. pose proof M13 as (Edb3 & _ & _ & Hf3 & _). rewrite Edb3 in M4, Hp4.
  pose proof (moved_trans _ _ _ _ _ _ _ _ M13 M4) as M14.
  eexists _, pings. split; [exact M14|]. right. split; [done|]. exists d. split_and!; [done|done|].
  destruct Hp4 as [[Hf ->]|Hp4]; [left|by right]. split; [|done]. intros Hnf. by apply Hf, Hf3.
Qed.

(** *** Capping *)

Lemma wake_one_moved st (db : DB) (pings : list (string * Priority)) (d : Device) os os1 :
  moved st db pings os os1 ->
  exists os2, (if decide (d_push_endpoint d <> ""%string)
    then on_store st (dispatchPing (d_push_endpoint d) Normal) else mret tt) os1 = (inr tt, os2) /\
    moved st db (pings ++ wake_one d) os os2.
Proof.
  intros M. unfold wake_one. destruct (decide (d_push_endpoint d = ""%string)) as [He|He].
  - rewrite decide_False by tauto. exists os1. by rewrite app_nil_r.
  - rewrite decide_True by done. unfold on_store, dispatchPing. rewrite run_act. cbn [do_action].
    eexists. split; [done|]. eapply moved_trans; [exact M|]. apply moved_world; [by destruct M|done..].
Qed.

Lemma cap_performed (args : list string) (fs : flags) (id text : string) (rest : list string) (n : Z) os :
  os_ok os -> Parse (db_flag (env_value "SUND_DB" "sund.db" os)) args = Parsed fs (id :: text :: rest) ->
  ParseInt text = Some n -> 0 <= n ->
  has_performed (text_flag fs "db") (Cap id n) os (finish (runAdminDeviceQuota args) os).
Proof.
  intros Hok Hp Hn Hpos. unfold runAdminDeviceQuota, db_default, envOr, parse_args.
  rewrite !finish_bind, Hp. cbn [mret Cmd_ret]. set (path := text_flag fs "db").
  pose proof (database_ok path os Hok) as Hdb.
  assert (forall os', moved (mkHandle (dsn path (isMemory path)) (isMemory path)) (database path os) [] os os' ->
    os_faults os <> [] \/ (forall d, ~ live_device id (database path os) d) ->
    has_performed path (Cap id n) os (1, os')) as Hfail.
  { intros os' Hm Hno. exists (database path os), []. split; [done|]. left. split_and!; try done.
    intros Hf. by destruct Hno. }
  apply with_device.
  { intros os' M Hno. apply Hfail; [done|]. destruct Hno as [?|Hno]; [auto|].
    right. intros d (Hd & Hid & _). by apply (Hno d). }
  intros d os2 M12 Hd Hid. set (st := mkHandle _ _) in *. pose proof M12 as (Edb2 & _ & _ & Hf2 & _).
  rewrite Hn, decide_False by lia.
  destruct (store_call_moved st (OpSetDeviceQuota id n) os2 _ (SetDeviceQuota_exact id n _)) as (r & db & os3 & E3 & M3 & HR).
  rewrite finish_bind, E3. clear E3. pose proof (moved_trans _ _ _ _ _ _ _ _ M12 M3) as M13.
  cbn in HR. rewrite Edb2 in HR. destruct r as [e|[]].
  { assert (db = database path os) as -> by (by destruct HR as [(_ & _ & ->)|[-> _]]).
    apply Hfail; [done|]. destruct HR as [(_ & Hf & _)|[_ Hno]]; auto. }
  destruct HR as [(? & _)|[(d' & Hd') ->]]; [done|].
  assert (d' = d) as ->.
  { destruct Hd' as (? & ? & _). eapply (NoDup_fmap_inj d_id); [apply (ok_integrity _ Hdb)|done..|congruence]. }
  destruct (wake_one_moved _ _ _ d _ _ M13) as (os4 & E4 & M4). rewrite finish_bind, E4.
  destruct (decide (n = 0)); (eexists _, (wake_one d); split; [exact M4|right; split; [done|by exists d]]).
Qed.

(** *** Provisioning *)

(** With nothing in its way it succeeds. *)
Lemma provision_works (args : list string) (fs : flags) (rest : list string) os :
  Parse (create_flags (env_value "SUND_DB" "sund.db" os)) args = Parsed fs rest ->
  provisionable (text_flag fs "admin-mode") os (database (text_flag fs "db") os) ->
  (finish (runAdminAccountCreate args) os).1 = 0.
Proof.
  intros Hp (Hf & Hm & Hr & Hid & Hh). unfold runAdminAccountCreate, db_default, envOr, parse_args.
  rewrite !finish_bind, Hp. cbn [mret Cmd_ret]. rewrite finish_bind.
  destruct (Open_moved (text_flag fs "db") os) as (os1 & (Edb & _ & _ & Hf1 & _) & [[-> Hrnd]|(? & _)]); [|done].
  set (st := mkHandle _ _) in *. specialize (Hf1 Hf). rewrite <- Edb in Hid, Hh. rewrite <- Hrnd in Hid, Hh, Hr.
  destruct (CreateAccount_works (text_flag fs "quota") (text_flag fs "admin-mode") (num_flag fs "quota-bytes")
    (w_st (world_of st os1))) as (a & Ea & Es); [done|done|cbn; lia|done|].
  rewrite finish_bind, store_call_run. cbn [run_op]. rewrite Ea, Es.
  set (os2 := with_world _ _ _).
  destruct (CreateInvitation_works (a_id a) (num_flag fs "ttl") (w_st (world_of st os2))) as [ti Ei].
  - done.
  - cbn. rewrite length_drop. lia.
  - cbn. unfold os2. rewrite db_of_with_world. cbn. rewrite fmap_app. apply elem_of_app. right. by left.
  - cbn. unfold os2. by rewrite db_of_with_world.
  - rewrite finish_bind, store_call_run. cbn [run_op]. rewrite Ei. destruct ti as [token inv].
    by destruct (bool_flag fs "json").
Qed.

Lemma provision_performed (args : list string) (fs : flags) (rest : list string) os :
  Parse (create_flags (env_value "SUND_DB" "sund.db" os)) args = Parsed fs rest ->
  has_performed (text_flag fs "db") (Provision (text_flag fs "quota") (text_flag fs "admin-mode")
    (num_flag fs "quota-bytes") (num_flag fs "ttl")) os (finish (runAdminAccountCreate args) os).
Proof.
  intros Hp. pose proof (provision_works args fs rest os Hp) as Hworks. revert Hworks.
  unfold runAdminAccountCreate, db_default, envOr, parse_args.
  rewrite !finish_bind, Hp. cbn [mret Cmd_ret]. set (path := text_flag fs "db").
  set (st := mkHandle (dsn path (isMemory path)) (isMemory path)). rewrite finish_bind.
  destruct (Open_moved path os) as (os1 & M1 & [[E Hrnd]|(Hf & e' & E)]); rewrite E; intros Hworks.
  2: { exists (database path os), []. split; [done|]. split; [done|]. split; [by intros []|by left]. }
  fold st in M1, Hworks |- *. pose proof M1 as (Edb1 & _ & Hc1 & _). revert Hworks.
  destruct (store_call_moved st (OpCreateAccount (text_flag fs "quota") (num_flag fs "quota-bytes")
    (text_flag fs "admin-mode")) os1 _ (CreateAccount_exact _ _ _ _)) as (r & db & os2 & E2 & M2 & HR).
  rewrite finish_bind, E2. clear E2. pose proof (moved_trans _ _ _ _ _ _ _ _ M1 M2) as M12.
  cbn in HR. rewrite Edb1, Hc1 in HR. destruct r as [e|a]; intros Hworks.
  { exists db, []. split; [done|]. split; [done|]. split; [done|]. left. split; [done|].
    by destruct HR as [(_ & _ & ->)| ->]. }
  destruct HR as [(? & _)|(Ha & Hfresh & Hmode & ->)]; [done|]. set (db1 := set_accounts _ _) in *.
  pose proof M12 as (Edb2 & _ & Hc2 & _).
  revert Hworks. rewrite finish_bind.
  destruct (store_call_moved st (OpCreateInvitation (a_id a) (num_flag fs "ttl") RoleAdmin) os2 _
    (CreateInvitation_admin _ _ _)) as (r & db & os3 & E3 & M3 & HR).
  rewrite E3. clear E3. pose proof (moved_trans _ _ _ _ _ _ _ _ M12 M3) as M13.
  unfold invited in HR. cbn [st_db st_clock w_st world_of] in HR. rewrite Edb2, Hc2 in HR.
  assert (forall code db' os', (code = 1 /\ db' = db1) \/ (code = 0 /\ exists ti, inv_grants_role ti.2 = RoleAdmin /\
      invited (a_id a) (num_flag fs "ttl") (mkSt db1 (os_clock os) [] []) ti db') ->
    moved st db' [] os os' ->
    (provisionable (text_flag fs "admin-mode") os (database path os) -> code = 0) ->
    has_performed path (Provision (text_flag fs "quota")
      (text_flag fs "admin-mode") (num_flag fs "quota-bytes") (num_flag fs "ttl")) os (code, os')) as Hdone.
  { intros code db' os' Hi M Hw. exists db', []. split; [done|]. split; [done|]. split; [done|]. right. by exists a. }
  destruct r as [e|[token inv]]; intros Hworks.
  - apply (Hdone 1 db); [|done|done]. left. split; [done|]. by destruct HR as [(_ & _ & ?)| ?].
  - destruct HR as [(? & _)|HR]; [done|].
    destruct (bool_flag fs "json"); (apply (Hdone 0 db); [right; split; [done|by exists (token, inv)]|done|done]).
Qed.

(** ** Everything else *)

Definition still {A} (m : Cmd A) : Prop :=
  forall os, os_pings (m os).2 = os_pings os /\ forall d, file d (m os).2 = file d os.

Lemma still_bind {A B} (m : Cmd A) (k : A -> Cmd B) : still m -> (forall a, still (k a)) -> still (m ≫= k).
Proof.
  intros Hm Hk os. rewrite cmd_bind. destruct (Hm os) as [Hp Hf]. destruct (m os) as [[e|a] os1]; [done|].
  destruct (Hk a os1) as [Hp' Hf']. cbn in *. split; [congruence|]. intros d. by rewrite Hf'.
Qed.

Lemma still_quiet {A} (m : Cmd A) : quiet m -> still m.
Proof. intros Hm os. destruct (Hm os) as [(_ & ? & ?) _]. done. Qed.

Lemma still_same {A} (m : Cmd A) :
  (forall os, os_pings (m os).2 = os_pings os /\ os_dbs (m os).2 = os_dbs os) -> still m.
Proof. intros Hm os. destruct (Hm os) as [? Hd]. split; [done|]. intros d. unfold file. by rewrite Hd. Qed.

Lemma still_parse (fs : flags) (args : list string) : still (parse_args fs args).
Proof. unfold parse_args. destruct (Parse fs args); by apply still_same. Qed.

Lemma still_load (dir : string) : still (load_identity dir).
Proof. apply still_same. intros os. unfold load_identity. by destruct (Load dir _). Qed.

Lemma still_serve (addr : string) (tls : option tlsConfig) st : still (serve_on addr tls st).
Proof. apply still_same. intros os. unfold serve_on. by destruct (os_listen os addr). Qed.

(** One step through a command that leaves everything as it is. *)
Ltac still_step :=
  first [ apply still_quiet, quiet_read; reflexivity | apply still_quiet, quiet_Open
        | apply still_bind; [|intros ?] | apply still_parse | apply still_load | apply still_serve
        | apply still_same; done | progress cbn beta iota zeta
        | match goal with |- still (if ?x then _ else _) => destruct x end
        | match goal with |- still (match ?x with _ => _ end) => destruct x end ].

(** What becomes of the machine when a command is not for a database. *)
Definition left_alone os (out : Z * OS) : Prop :=
  os_pings out.2 = os_pings os /\ forall d, file d out.2 = file d os.

Lemma still_finish (m : Cmd unit) os : still m -> left_alone os (finish m os).
Proof. intros Hm. destruct (Hm os) as [Hp Hf]. unfold finish. by destruct (m os) as [[[]|] ?]. Qed.

Lemma promote_left_alone (args : list string) os :
  (forall fs id rest, Parse (db_flag (env_value "SUND_DB" "sund.db" os)) args <> Parsed fs (id :: rest)) ->
  left_alone os (finish (runAdminDevicePromote args) os).
Proof.
  intros Hp. unfold runAdminDevicePromote, db_default, envOr, parse_args. rewrite !finish_bind.
  destruct (Parse _ args) as [fs [|id rest]|code] eqn:E; [done|by destruct (Hp fs id rest)|done].
Qed.

Lemma create_left_alone (args : list string) os code :
  Parse (create_flags (env_value "SUND_DB" "sund.db" os)) args = Stopped code ->
  left_alone os (finish (runAdminAccountCreate args) os).
Proof.
  intros Hp. unfold runAdminAccountCreate, db_default, envOr, parse_args. by rewrite !finish_bind, Hp.
Qed.

Lemma quota_left_alone (args : list string) os :
  (forall fs id text rest n, Parse (db_flag (env_value "SUND_DB" "sund.db" os)) args = Parsed fs (id :: text :: rest) ->
     ParseInt text = Some n -> n < 0) ->
  left_alone os (finish (runAdminDeviceQuota args) os).
Proof.
  intros Hp. unfold runAdminDeviceQuota, db_default, envOr, parse_args. rewrite !finish_bind.
  destruct (Parse _ args) as [fs [|id rest]|code] eqn:E; [done| |done]. cbn [mret Cmd_ret].
  apply still_finish. destruct rest as [|text rest]; [repeat still_step|].
  destruct (ParseInt text) as [n|] eqn:En; [|repeat still_step].
  destruct (decide (n < 0)) as [?|Hge]; [repeat still_step|]. destruct Hge. by eapply Hp.
Qed.

(** ** Every command line *)

Lemma ask_none (args : list string) os :
  (forall noun verb rest, args <> ("admin" :: noun :: verb :: rest)%string) -> ask args os = None.
Proof.
  intros Ha. unfold ask. rewrite !decide_False; [done|..];
    destruct args as [|? [|? [|? args]]]; try done; intros [= -> -> ->]; by eapply Ha.
Qed.

Lemma admin_as_asked (noun verb : string) (args : list string) os :
  os_ok os ->
  match ask ("admin" :: noun :: verb :: args)%string os with
  | None => left_alone os (finish (runAdmin (noun :: verb :: args)) os)
  | Some (path, e) => has_performed path e os (finish (runAdmin (noun :: verb :: args)) os)
  end.
Proof.
  intros Hok. unfold ask, runAdmin. cbv zeta. cbn [take drop]. rewrite !drop_0.
  destruct (decide (noun = "account" /\ verb = "create")%string) as [[-> ->]|Hc].
  { rewrite decide_True by done. destruct (Parse _ args) as [fs rest|code] eqn:E.
    - by eapply provision_performed.
    - by eapply create_left_alone. }
  rewrite decide_False by (intros [= -> ->]; tauto).
  destruct (decide (noun = "device" /\ verb = "quota")%string) as [[-> ->]|Hq].
  { rewrite decide_False, decide_True by done. destruct (Parse _ args) as [fs rest|code] eqn:E.
    2: { apply quota_left_alone. congruence. }
    destruct rest as [|id [|text rest]]; [apply quota_left_alone; congruence..|].
    destruct (ParseInt text) as [n|] eqn:En; [case_decide as Hn|]; [apply quota_left_alone; congruence| |].
    - eapply cap_performed; [done|done|done|lia].
    - apply quota_left_alone. congruence. }
  destruct (decide (noun = "device" /\ verb = "promote")%string) as [[-> ->]|Hp].
  { rewrite decide_True by done. destruct (Parse _ args) as [fs [|id rest]|code] eqn:E.
    - apply promote_left_alone. congruence.
    - by eapply promote_performed.
    - apply promote_left_alone. congruence. }
  rewrite !decide_False by (intros [= -> ->]; tauto). done.
Qed.

(** C5: every command line does exactly what it asks for. One that asks for an account, a
    promotion or a ceiling acts on the database its flags or the environment name, or on
    none: [account create] adds exactly the account of its flags and then exactly one
    invitation to be its admin, [device promote] sets exactly the role of a live device of
    a managed account and pings the account's devices, [device quota] sets exactly the
    ceiling of a live device and pings it; each exits with 0 when it has done so, and with
    1 having done nothing - or having left the account without its invitation - which, on
    a working driver, happens only where there is no such device, or the account's mode is
    unknown, the random source fails or one of its draws is taken. Every other command line,
    usage errors and negative counts included, changes no database and pings nobody; of
    [serve] this is the start: the requests it then serves are not the command's. Every
    file stays well formed. *)
Theorem commands_do_as_asked (args : list string) os :
  os_ok os ->
  let out := main args os in
  os_ok out.2 /\
  match ask args os with
  | None => left_alone os out
  | Some (path, e) => has_performed path e os out
  end.
Proof.
  intros Hok. cbn zeta. split; [by apply commands_refine_events|].
  destruct args as [|cmd args]; [done|]. unfold main.
  destruct (decide (cmd = "admin"%string)) as [->|Hcmd].
  - rewrite (decide_False (P := "admin"%string = "serve"%string)) by done.
    destruct args as [|noun [|verb args]]; [by rewrite ask_none..|by apply admin_as_asked].
  - rewrite ask_none by congruence.
    repeat case_decide; try done; apply still_finish; unfold runServe, runCert, runHealth, db_default;
      repeat still_step.
Qed.

End admin.

(** ** Example *)

Section examples.
Import Demo ToyX509.

Definition capping : list string := ["admin"; "device"; "quota"; dev2; "4096"]%string.

Lemma commands_do_as_asked_witness :
  os_ok deployed /\ ask capping deployed = Some ("sund.db", Cap dev2 4096)%string /\
  (main capping deployed).1 = 0 /\ os_ok (main capping deployed).2 /\
  has_performed "sund.db" (Cap dev2 4096) deployed (main capping deployed).
Proof.
  assert (ask capping deployed = Some ("sund.db", Cap dev2 4096)%string) as Ha by by vm_compute.
  assert ((main capping deployed).1 = 0) as Hc by by vm_compute.
  destruct (commands_do_as_asked capping deployed deployed_ok) as [Hok Hp]. rewrite Ha in Hp.
  split_and!; [apply deployed_ok|exact Ha|exact Hc|exact Hok|exact Hp].
Defined.

End examples.
