(* ===== verification/Netaddr.v ===== *)
(** * URLs with a host, and IP addresses

    What the source uses of [net/url] and [net] on server addresses: [url.Parse] with
    [Hostname] and [Port] (as of Go 1.25.0, the version of [go.mod]), [net.ParseIP] and
    [net.JoinHostPort]. *)

From S2P Require Import Prelude Encoding Clock Decimal Url.

Local Open Scope Z_scope.

(** ** Characters *)

Definition code (c : ascii) : Z := Z.of_N (N_of_ascii c).
Definition between (lo hi c : ascii) : bool := (code lo <=? code c) && (code c <=? code hi).
Definition is_lower : ascii -> bool := between "a" "z".
Definition is_upper : ascii -> bool := between "A" "Z".
Definition is_digit : ascii -> bool := between "0" "9".

Definition to_lower (c : ascii) : ascii := if is_upper c then ascii_of_N (Z.to_N (code c + 32)) else c.
Fixpoint ToLower (s : string) : string :=
  match s with EmptyString => EmptyString | String c s => String (to_lower c) (ToLower s) end.

Definition all (P : ascii -> bool) (s : string) : bool := forallb P (String.list_ascii_of_string s).

(** What stands by itself in a host: letters, digits, and these. *)
Definition host_marks : list ascii := String.list_ascii_of_string "!$&'()*+,;=:[]<>-_.~" ++ ["034"%char].
Definition host_char (c : ascii) : bool :=
  is_lower c || is_upper c || is_digit c || bool_decide (c ∈ host_marks).

(** ** [url.Parse] *)

Inductive scheme_result : Type := NoScheme | BadScheme | Scheme (scheme rest : string).

(** [getScheme]: a letter, then letters, digits and [+-.], up to a colon. *)
Fixpoint get_scheme (first : bool) (s : string) : scheme_result :=
  match s with
  | EmptyString => NoScheme
  | String c t =>
      let more := match get_scheme false t with
                  | Scheme scheme rest => Scheme (String c scheme) rest
                  | r => r
                  end in
      if is_lower c || is_upper c then more else
      if is_digit c || bool_decide (c ∈ ["+"; "-"; "."]%char) then if first then NoScheme else more else
      if decide (c = ":"%char) then if first then BadScheme else Scheme EmptyString t else NoScheme
  end.

(** [unescape] of a host, or of the zone of an IPv6 address. *)
Fixpoint unescape_host (zone : bool) (s : string) : option string :=
  match s with
  | EmptyString => Some EmptyString
  | String c s1 =>
      if decide (c = "%"%char) then
        match s1 with
        | String a (String b s2) =>
            h ← unhex a; l ← unhex b;
            let v := ascii_of_N (Z.to_N (16 * h + l)) in
            let percent := bool_decide (a = "2"%char /\ b = "5"%char) in
            if negb zone && (h <? 8) && negb percent then None else
            if zone && negb percent && negb (bool_decide (v = " "%char)) && negb (host_char v) then None else
            t ← unescape_host zone s2; Some (String v t)
        | _ => None
        end
      else if (code c <? 128) && negb (host_char c) then None
      else t ← unescape_host zone s1; Some (String c t)
  end.

(** Nothing, or a colon and digits. *)
Definition validOptionalPort (port : string) : bool :=
  match port with
  | EmptyString => true
  | String c digits => bool_decide (c = ":"%char) && all is_digit digits
  end.

(** What comes before the last occurrence of a character. *)
Fixpoint before_last (c : ascii) (s : string) : string :=
  match s with
  | EmptyString => EmptyString
  | String a t =>
      match from_last c t with
      | Some _ => String a (before_last c t)
      | None => if decide (a = c) then EmptyString else s
      end
  end.

(** [strings.Index] of ["%25"]: what comes before it, and what starts there. *)
Fixpoint cut_zone (s : string) : option (string * string) :=
  if String.prefix "%25" s then Some (EmptyString, s) else
  match s with
  | EmptyString => None
  | String c t => '(a, b) ← cut_zone t; Some (String c a, b)
  end.

Definition parse_host (host : string) : option string :=
  if String.prefix "[" host then
    match from_last "]" host with
    | None => None
    | Some close =>
        let inside := before_last "]" host in
        if negb (validOptionalPort (match close with String _ p => p | _ => EmptyString end)) then None else
        match cut_zone inside with
        | Some (host1, zone) =>
            h1 ← unescape_host false host1; h2 ← unescape_host true zone; h3 ← unescape_host false close;
            Some (h1 +:+ h2 +:+ h3)
        | None => unescape_host false host
        end
    end
  else
    match from_last ":" host with
    | Some colonPort => if validOptionalPort colonPort then unescape_host false host else None
    | None => unescape_host false host
    end.

Record URL := mkURL {
  u_scheme : string;
  u_opaque : string;
  u_user : bool;
  u_host : string;
  u_path : string;
  u_raw_query : string;
  u_fragment : string;
}.

Definition has_char (c : ascii) (s : string) : bool :=
  bool_decide (c ∈ String.list_ascii_of_string s).

(** The part of [parse] after the scheme and the query: authority and path. [u_user] says
    that there is user information; what is wrong with it is not looked at. *)
Definition parse_rest (scheme rest query : string) : option URL :=
  if negb (String.prefix "/" rest) && negb (bool_decide (scheme = ""%string))
  then Some (mkURL scheme rest false "" "" query "") else
  if negb (String.prefix "/" rest) && has_char ":" (cut "/" rest).1 then None else
  match rest with
  | String "/" (String "/" authority) =>
      if bool_decide (scheme = ""%string) && String.prefix "/" authority
      then path ← unescape rest; Some (mkURL scheme "" false "" path query "") else
      let '(authority, path) := cut "/" authority in
      let path := match path with Some p => String "/" p | None => EmptyString end in
      let '(user, host) := match from_last "@" authority with
                           | Some (String _ host) => (true, host)
                           | _ => (false, authority)
                           end in
      host ← parse_host host; path ← unescape path;
      Some (mkURL scheme "" user host path query "")
  | _ => path ← unescape rest; Some (mkURL scheme "" false "" path query "")
  end.

(** [parse]: all but the fragment. *)
Definition url_base (u : string) : option URL :=
  if existsb is_ctl (String.list_ascii_of_string u) then None else
  if decide (u = "*"%string) then Some (mkURL "" "" false "" "*" "" "") else
  match get_scheme true u with
  | BadScheme => None
  | NoScheme => let '(rest, query) := cut "?" u in parse_rest "" rest (default ""%string query)
  | Scheme scheme rest =>
      let '(rest, query) := cut "?" rest in parse_rest (ToLower scheme) rest (default ""%string query)
  end.

(** [url.Parse]. *)
Definition url_Parse (s : string) : option URL :=
  let '(u, frag) := cut "#" s in
  url ← url_base u;
  match frag with
  | None | Some EmptyString => Some url
  | Some f =>
      f ← unescape f;
      Some (mkURL (u_scheme url) (u_opaque url) (u_user url) (u_host url) (u_path url) (u_raw_query url) f)
  end.

(** [splitHostPort]: the port if it is a valid one, and the host without brackets. *)
Definition split_host_port (hostPort : string) : string * string :=
  let '(host, port) := match from_last ":" hostPort with
                       | Some (String _ port as colonPort) =>
                           if validOptionalPort colonPort then (before_last ":" hostPort, port)
                           else (hostPort, EmptyString)
                       | _ => (hostPort, EmptyString)
                       end in
  match host with
  | String "[" inside =>
      match from_last "]" inside with
      | Some "]"%string => (before_last "]" inside, port)
      | _ => (host, port)
      end
  | _ => (host, port)
  end.

Definition Hostname (u : URL) : string := (split_host_port (u_host u)).1.
Definition Port (u : URL) : string := (split_host_port (u_host u)).2.

(** [net.JoinHostPort]. *)
Definition JoinHostPort (host port : string) : string :=
  if has_char ":" host then "[" +:+ host +:+ "]:" +:+ port else host +:+ ":" +:+ port.

(** ** [net.ParseIP], as far as whether there is one *)

(** A field of an IPv4 address: a byte in decimal, without leading zeros. *)
Definition ipv4_field (s : string) : bool :=
  all is_digit s && negb (bool_decide (s = ""%string)) &&
  (bool_decide (s = "0"%string) || negb (String.prefix "0" s)) &&
  bool_decide (default 256 (read_decimal 0 s) <= 255).

Definition ipv4 (s : string) : bool :=
  let fields := split "." s in
  bool_decide (length fields = 4%nat) && forallb ipv4_field fields.

Definition is_hex_digit (c : ascii) : bool := bool_decide (is_Some (unhex c)).

(** The leading hexadecimal digits, and what follows. *)
Fixpoint hex_run (s : string) : string * string :=
  match s with
  | EmptyString => (EmptyString, EmptyString)
  | String c t => if is_hex_digit c then let '(a, b) := hex_run t in (String c a, b) else (EmptyString, s)
  end.

(** The loop of [parseIPv6] with room for [room] more groups of two bytes; [ellipsis]
    says whether there has been one, which must stand for at least one group. *)
Fixpoint ipv6_groups (room : nat) (ellipsis : bool) (s : string) : bool :=
  match room with
  | O => false
  | S room' =>
      let '(group, rest) := hex_run s in
      if (String.length group =? 0)%nat || (4 <? String.length group)%nat then false else
      match rest with
      | EmptyString => if bool_decide (room' = O) then negb ellipsis else ellipsis
      | String "." _ =>
          ipv4 s && (if ellipsis then 2 <? room else room =? 2)%nat
      | String ":" EmptyString => false
      | String ":" (String ":" rest) =>
          if ellipsis then false else
          match rest with
          | EmptyString => negb (bool_decide (room' = O))
          | _ => ipv6_groups room' true rest
          end
      | String ":" rest => ipv6_groups room' ellipsis rest
      | _ => false
      end
  end.

Definition ipv6 (s : string) : bool :=
  match s with
  | "::"%string => true
  | String ":" (String ":" rest) => ipv6_groups 8 true rest
  | _ => ipv6_groups 8 false s
  end.

(** The first dot, colon or percent sign says what it may be; an address with a zone is
    none. *)
Fixpoint first_mark (s : string) : option ascii :=
  match s with
  | EmptyString => None
  | String c s => if bool_decide (c ∈ ["."; ":"; "%"]%char) then Some c else first_mark s
  end.

Definition ParseIP (s : string) : bool :=
  match first_mark s with
  | Some "."%char => ipv4 s
  | Some ":"%char => negb (has_char "%" s) && ipv6 s
  | _ => false
  end.

Example ParseIP_examples :
  ParseIP <$> ["192.168.1.10"; "::1"; "::"; "fe80::1"; "::ffff:1.2.3.4"; "1:2:3:4:5:6:7:8"; "1:2:3:4:5:6:1.2.3.4";
    "1::2:3:4:5:6:7"]%string = replicate 8 true /\
  ParseIP <$> ["example.org"; "1.2.3"; "1.2.3.04"; "1.2.3.256"; "fe80::1%en0"; "1:2:3:4:5:6:7"; "1::2::3";
    "1:2:3:4:5:6:7:8::"; "12345::"; "::1:"; "1:2:3:4:5:6:7::8"; ":1:2:3:4:5:6:7"; ""]%string =
  replicate 10 false ++ [false] ++ replicate 2 false.
Proof. by vm_compute. Qed.

Example url_Parse_examples :
  (fun s => (fun u => (u_scheme u, Hostname u, Port u, u_path u, u_fragment u)) <$> url_Parse s) <$>
    ["sund://relay.example:5870#ab"; "SUND://[::1]:5870/"; "sund://[fe80::1%25en0]:1#a%62";
     "sund+webpki://example.org:8443:443"; "sund://h:x"; "sund:opaque"]%string =
  [Some ("sund", "relay.example", "5870", "", "ab"); Some ("sund", "::1", "5870", "/", "");
   Some ("sund", "fe80::1%en0", "1", "", "ab");
   Some ("sund+webpki", "example.org:8443", "443", "", ""); None; Some ("sund", "", "", "", "")]%string.
Proof. by vm_compute. Qed.
