(* ===== verification/Address.v ===== *)
(** * Server addresses ([client/address.go])

    Parsing and printing of the address a client is given, and the TLS configuration it
    leads to; that an accepted address is well formed, states its own mode, and survives
    printing. *)

From S2P Require Import Prelude Encoding Clock Decimal Url Schema Crypto Host X509 Tlsid Netaddr.

Local Open Scope Z_scope.

Inductive Mode : Type := Pinned | WebPKI.

#[export] Instance mode_eq_dec : EqDecision Mode.
Proof. solve_decision. Defined.

Definition Mode_String (m : Mode) : string :=
  match m with Pinned => "pinned" | WebPKI => "webpki" end.

Record Address := mkAddress {
  ad_mode : Mode;
  ad_host : string;
  ad_port : Z;
  ad_fingerprint : string;
}.

#[export] Instance address_eq_dec : EqDecision Address.
Proof. solve_decision. Defined.

Definition validFingerprint (fp : string) : bool :=
  (String.length fp =? 64)%nat && all (fun c => is_digit c || between "a" "f" c) fp.

(** [strconv.Atoi] and the bounds of a port. *)
Definition read_port (s : string) : option Z :=
  match ParseInt s with
  | Some port => if decide (port < 1 \/ port > 65535) then None else Some port
  | None => None
  end.

Definition malformed : error := Errorf "sund: malformed address".

Definition ParseAddress (s : string) : error + Address :=
  match url_Parse s with
  | None => inl malformed
  | Some u =>
      if u_user u || (negb (bool_decide (u_path u = "")) && negb (bool_decide (u_path u = "/"))) ||
         negb (bool_decide (u_raw_query u = "")) || negb (bool_decide (u_opaque u = ""))
      then inl malformed else
      let host := Hostname u in
      if decide (host = ""%string) then inl malformed else
      if decide (u_scheme u = "sund"%string) then
        if decide (Port u = ""%string) then inl malformed else
        match read_port (Port u) with
        | None => inl malformed
        | Some port =>
            if negb (validFingerprint (u_fragment u)) then inl malformed else
            inr (mkAddress Pinned host port (u_fragment u))
        end
      else if decide (u_scheme u = "sund+webpki"%string) then
        if negb (bool_decide (u_fragment u = "")) || has_char "#" s then inl malformed else
        if ParseIP host then inl malformed else
        match (if decide (Port u = ""%string) then Some 443 else read_port (Port u)) with
        | None => inl malformed
        | Some port => inr (mkAddress WebPKI host port "")
        end
      else inl (Errorf "sund: unknown address scheme")
  end.

Definition Address_String (a : Address) : string :=
  match ad_mode a with
  | Pinned => "sund://" +:+ JoinHostPort (ad_host a) (print_int (ad_port a)) +:+ "#" +:+ ad_fingerprint a
  | WebPKI =>
      if decide (ad_port a = 443) then "sund+webpki://" +:+ ad_host a
      else "sund+webpki://" +:+ JoinHostPort (ad_host a) (print_int (ad_port a))
  end.

Definition BaseURL (a : Address) : string :=
  "https://" +:+ JoinHostPort (ad_host a) (print_int (ad_port a)).

(** The TLS configuration of [httpClient]: in pinned mode the check of the pin, in WebPKI
    mode the platform's verification of the host. *)
Definition httpClient `{Crypto, X509} (a : Address) : tlsConfig :=
  match ad_mode a with
  | Pinned => ClientTLSConfig (ad_fingerprint a)
  | WebPKI => mkTLSConfig [] VersionTLS12 false None (ad_host a)
  end.

(** ** What is accepted *)

(** An address as the contract has it. *)
Definition address_ok (a : Address) : Prop :=
  ad_host a <> ""%string /\ 1 <= ad_port a <= 65535 /\
  match ad_mode a with
  | Pinned => validFingerprint (ad_fingerprint a) = true
  | WebPKI => ad_fingerprint a = ""%string /\ ParseIP (ad_host a) = false
  end.

Lemma read_port_range (s : string) (n : Z) : read_port s = Some n -> 1 <= n <= 65535.
Proof. unfold read_port. destruct (ParseInt s); [|done]. case_decide; [done|]. intros [= <-]. lia. Qed.

Lemma cut_has_char (c : ascii) (s : string) : is_Some (cut c s).2 <-> has_char c s = true.
Proof.
  unfold has_char. rewrite bool_decide_eq_true. induction s as [|a s IH]; cbn.
  - split; [by intros [? ?]|by intros ?%not_elem_of_nil].
  - rewrite elem_of_cons. case_decide as Ha; [subst; split; [by left|done]|].
    destruct (cut c s) as [before after]. cbn in *. rewrite IH. split; [by right|intros [->|?]; done].
Qed.

Lemma url_base_fragment (b : string) (u : URL) : url_base b = Some u -> u_fragment u = ""%string.
Proof.
  assert (forall sc r q v, parse_rest sc r q = Some v -> u_fragment v = ""%string) as Hp.
  { intros sc r q v. unfold parse_rest. intros Ev.
    repeat (first [case_match|apply bind_Some in Ev as (? & ? & Ev)]; simplify_eq); done. }
  unfold url_base. destruct (existsb _ _); [done|]. case_decide; [by intros [= <-]|].
  destruct (get_scheme true b) as [| |sc rest]; [|done|]; destruct (cut "?" _) as [r q]; apply Hp.
Qed.

(** A URL is its base with the fragment, and only a fragment gives it one. *)
Lemma url_Parse_base (s : string) (u : URL) :
  url_Parse s = Some u ->
  exists url, url_base (cut "#" s).1 = Some url /\ u_scheme u = u_scheme url /\
    (u_fragment u <> ""%string -> has_char "#" s = true).
Proof.
  unfold url_Parse. intros E. pose proof (cut_has_char "#" s) as Hc.
  destruct (cut "#" s) as [b frag]. cbn in *. apply bind_Some in E as (url & Eu & E).
  exists url. split; [done|]. destruct frag as [[|c f]|].
  - injection E as ->. split; [done|]. intros _. by apply Hc.
  - apply bind_Some in E as (f' & _ & E). injection E as <-. split; [done|]. intros _. by apply Hc.
  - injection E as ->. split; [done|]. by rewrite (url_base_fragment b u).
Qed.

(** The scheme that states a mode. *)
Definition mode_scheme (m : Mode) : string := match m with Pinned => "sund" | WebPKI => "sund+webpki" end.

Lemma parse_address_spec (s : string) (a : Address) :
  ParseAddress s = inr a ->
  address_ok a /\ (ad_mode a = Pinned <-> has_char "#" s = true) /\
  exists url, url_base (cut "#" s).1 = Some url /\ u_scheme url = mode_scheme (ad_mode a).
Proof.
  unfold ParseAddress. destruct (url_Parse s) as [u|] eqn:Eu; [|done].
  destruct (url_Parse_base s u Eu) as (url & Hb & Hsc & Hfr).
  destruct (_ || negb (bool_decide (u_opaque u = ""%string))); [done|].
  case_decide as Hh; [done|]. case_decide as Hs.
  - case_decide; [done|]. destruct (read_port (Port u)) as [n|] eqn:En; [|done].
    destruct (validFingerprint (u_fragment u)) eqn:Ef; [|done]. intros [= <-].
    split; [split_and!; [done|by eapply read_port_range..|done]|]. split; [|exists url; by rewrite <- Hsc].
    split; [|done]. intros _. apply Hfr. intros E. by rewrite E in Ef.
  - case_decide; [|done]. destruct (negb _ || has_char "#" s) eqn:Ef; [done|].
    apply orb_false_iff in Ef as [_ Hn]. destruct (ParseIP (Hostname u)) eqn:Eip; [done|].
    destruct (if decide (Port u = ""%string) then _ else _) as [n|] eqn:En; [|done]. intros [= <-].
    assert (1 <= n <= 65535) by (revert En; case_decide; [intros [= <-]; lia|apply read_port_range]).
    split; [unfold address_ok; cbn [ad_host ad_port ad_mode ad_fingerprint]; split_and!; (done || lia)|]. split; [by rewrite Hn|]. exists url. by rewrite <- Hsc.
Qed.

(** An address [ParseAddress] accepts is well formed: it has a host, a port in range,
    and in pinned mode a fingerprint of 64 lower-case hexadecimal digits, in WebPKI mode
    none and a host that is no IP address. And it states its mode itself: exactly the
    pinned addresses have a fragment, and two accepted addresses that differ only in what
    follows the [#] have the same mode. So what is left of a pinned address when its
    fragment is deleted is refused, as a WebPKI address is to which one is added. *)
Theorem parse_address_well_formed (s : string) (a : Address) :
  ParseAddress s = inr a ->
  address_ok a /\ (ad_mode a = Pinned <-> has_char "#" s = true) /\
  forall s' a', (cut "#" s').1 = (cut "#" s).1 -> ParseAddress s' = inr a' -> ad_mode a' = ad_mode a.
Proof.
  intros (Ha & Hm & url & Hb & Hs)%parse_address_spec. split; [done|]. split; [done|].
  intros s' a' Ec (_ & _ & url' & Hb' & Hs')%parse_address_spec. rewrite Ec, Hb in Hb'. injection Hb' as <-.
  rewrite Hs in Hs'. by destruct (ad_mode a), (ad_mode a').
Qed.

(** ** Printing and parsing again *)

(** A character of a host that stands for itself, and is no bracket. *)
Definition literal (c : ascii) : bool :=
  ((128 <=? code c) || host_char c) && negb (bool_decide (c ∈ ["["; "]"]%char)).

(** A character of an authority as it is printed. *)
Definition printed (c : ascii) : bool := literal c || bool_decide (c ∈ ["["; "]"]%char).

Definition all_ascii : list ascii := ascii_of_nat <$> seq 0 256.

Lemma ascii_forall (P : ascii -> bool) : forallb P all_ascii = true -> forall c, P c = true.
Proof.
  intros Hf c. rewrite forallb_forall in Hf. apply Hf, list_elem_of_In. unfold all_ascii.
  apply list_elem_of_fmap. exists (nat_of_ascii c). split; [by rewrite ascii_nat_embedding|].
  apply elem_of_seq. pose proof (nat_ascii_bounded c). lia.
Qed.

Lemma printed_spec (c : ascii) :
  printed c = true ->
  c <> "#"%char /\ c <> "?"%char /\ c <> "/"%char /\ c <> "@"%char /\ c <> "%"%char /\ is_ctl c = false /\
  (code c <? 128) && negb (host_char c) = false.
Proof.
  set (P c := implb (printed c) (bool_decide (c <> "#"%char /\ c <> "?"%char /\ c <> "/"%char /\ c <> "@"%char /\
    c <> "%"%char /\ is_ctl c = false /\ (code c <? 128) && negb (host_char c) = false))).
  assert (forall c, P c = true) as HP by (apply ascii_forall; by vm_compute).
  specialize (HP c). unfold P in HP. intros Hc. rewrite Hc in HP. by apply bool_decide_eq_true in HP.
Qed.

Lemma digit_spec (c : ascii) : digit_char_ascii c -> is_digit c = true /\ literal c = true /\ c <> ":"%char.
Proof.
  set (P c := implb (bool_decide (digit_char_ascii c)) (is_digit c && literal c && negb (bool_decide (c = ":"%char)))).
  assert (forall c, P c = true) as HP by (apply ascii_forall; by vm_compute).
  specialize (HP c). unfold P in HP. intros Hc. rewrite bool_decide_true in HP by done.
  apply andb_true_iff in HP as [[? ?]%andb_true_iff Hn]. rewrite negb_true_iff, bool_decide_eq_false in Hn. done.
Qed.

Definition without (c : ascii) (s : string) : Prop := Forall (fun a => a <> c) (chars s).

Lemma from_last_none (c : ascii) (s : string) : without c s -> from_last c s = None.
Proof.
  induction s as [|a s IH]; [done|]. unfold without. cbn. intros [Ha Hs]%Forall_cons.
  by rewrite IH, decide_False.
Qed.

Lemma from_last_app (c : ascii) (s t : string) :
  without c t -> from_last c (s +:+ String c t) = Some (String c t) /\ before_last c (s +:+ String c t) = s.
Proof.
  intros Ht. induction s as [|a s [IH1 IH2]].
  - change ("" +:+ String c t) with (String c t). cbn. rewrite from_last_none by done. by rewrite !decide_True by done.
  - change (String a s +:+ String c t) with (String a (s +:+ String c t)). cbn [from_last before_last].
    rewrite IH1, IH2. split; [done|]. done.
Qed.

Lemma cut_app (c : ascii) (s t : string) : without c s -> cut c (s +:+ String c t) = (s, Some t).
Proof.
  induction s as [|a s IH].
  - intros _. change ("" +:+ String c t) with (String c t). cbn [cut]. by rewrite decide_True.
  - intros [Ha Hs]%Forall_cons. change (String a s +:+ String c t) with (String a (s +:+ String c t)).
    cbn [cut]. rewrite decide_False by done. by rewrite IH.
Qed.

Lemma printed_without (c : ascii) (s : string) :
  Forall (fun a => printed a = true) (chars s) -> c ∈ ["#"; "?"; "/"; "@"; "%"]%char -> without c s.
Proof.
  intros Hs Hc. unfold without. eapply Forall_impl; [exact Hs|]. intros a (?&?&?&?&?&_)%printed_spec.
  rewrite !elem_of_cons, elem_of_nil in Hc. naive_solver.
Qed.

Lemma unescape_host_printed (s : string) :
  Forall (fun a => printed a = true) (chars s) -> unescape_host false s = Some s.
Proof.
  induction s as [|a s IH]; [done|]. cbn [chars]. intros [(?&?&?&?&?&?&Ha)%printed_spec Hs]%Forall_cons.
  cbn [unescape_host]. rewrite decide_False by done. by rewrite Ha, IH.
Qed.

(** The base of a printed address, given what becomes of its authority. *)
Lemma url_base_printed (m : Mode) (auth : string) :
  Forall (fun a => printed a = true) (chars auth) ->
  url_base (mode_scheme m +:+ "://" +:+ auth) =
    (host ← parse_host auth; Some (mkURL (mode_scheme m) "" false host "" "" "")).
Proof.
  intros Ha. assert (existsb is_ctl (chars (mode_scheme m +:+ "://" +:+ auth)) = false) as Hctl.
  { apply not_true_iff_false. rewrite existsb_exists. intros (c & Hin & Hc). apply list_elem_of_In in Hin.
    rewrite !chars_app, !elem_of_app in Hin. destruct Hin as [Hin|[Hin|Hin]].
    - destruct m; cbn in Hin; repeat (apply elem_of_cons in Hin as [->|Hin]; [by vm_compute in Hc|]);
        by apply not_elem_of_nil in Hin.
    - cbn in Hin. repeat (apply elem_of_cons in Hin as [->|Hin]; [by vm_compute in Hc|]).
      by apply not_elem_of_nil in Hin.
    - rewrite Forall_forall in Ha. apply Ha, printed_spec in Hin as (_&_&_&_&_&?&_). congruence. }
  assert (cut "?" ("//" +:+ auth) = ("//" +:+ auth, None)%string) as Hq.
  { apply cut_none. rewrite chars_app. apply Forall_app. split; [repeat constructor; done|].
    apply printed_without; [done|]. apply (bool_decide_unpack _). by vm_compute. }
  assert (parse_rest (mode_scheme m) ("//" +:+ auth) "" =
    (host ← parse_host auth; Some (mkURL (mode_scheme m) "" false host "" "" ""))) as Hr.
  { change ("//" +:+ auth) with (String "/" (String "/" auth)). unfold parse_rest.
    assert (bool_decide (mode_scheme m = ""%string) = false) as -> by by destruct m.
    change (String.prefix "/" (String "/" (String "/" auth))) with true. cbn [negb andb].
    rewrite cut_none by (apply (printed_without "/"); [done|]; apply (bool_decide_unpack _); by vm_compute).
    rewrite from_last_none by (apply printed_without; [done|]; apply (bool_decide_unpack _); by vm_compute).
    done. }
  unfold url_base. rewrite Hctl, decide_False by by destruct m.
  assert (get_scheme true (mode_scheme m +:+ "://" +:+ auth) = Scheme (mode_scheme m) ("//" +:+ auth)) as ->
    by by destruct m.
  rewrite Hq. cbn [default]. assert (ToLower (mode_scheme m) = mode_scheme m) as -> by by destruct m.
  exact Hr.
Qed.

(** A host that starts with no bracket. *)
Lemma prefix_bracket (h s : string) : h <> ""%string -> without "[" h -> String.prefix "[" (h +:+ s) = false.
Proof.
  destruct h as [|c h]; [done|]. intros _ [Hc _]%Forall_cons.
  change (String c h +:+ s) with (String c (h +:+ s)). cbn [String.prefix].
  destruct (ascii_dec "["%char c); [congruence|done].
Qed.

Lemma prefix_one (c : ascii) (s : string) : String.prefix (String c "") (String c s) = true.
Proof. cbn [String.prefix]. destruct (ascii_dec c c); [by destruct s|done]. Qed.

Lemma match_bracket {A} (h : string) (x : string -> A) (y : A) :
  without "[" h -> match h with String "[" inside => x inside | _ => y end = y.
Proof.
  destruct h as [|c h]; [done|]. intros [Hc _]%Forall_cons.
  destruct c as [[] [] [] [] [] [] [] []]; first [reflexivity|by destruct Hc].
Qed.

Lemma literal_spec (c : ascii) : literal c = true -> printed c = true /\ c <> "["%char /\ c <> "]"%char.
Proof.
  unfold printed. intros Hc. rewrite Hc. split; [done|]. unfold literal in Hc.
  apply andb_true_iff in Hc as [_ Hc]. rewrite negb_true_iff, bool_decide_eq_false in Hc.
  split; intros ->; apply Hc; apply (bool_decide_unpack _); by vm_compute.
Qed.

Lemma cut_zone_none (s : string) : without "%" s -> cut_zone s = None.
Proof.
  induction s as [|c s IH]; [done|]. intros [Hc Hs]%Forall_cons. cbn [cut_zone].
  assert (String.prefix "%25" (String c s) = false) as ->.
  { cbn [String.prefix]. destruct (ascii_dec "%"%char c); [congruence|done]. }
  by rewrite IH.
Qed.

Section authority.
Variables (host port : string).
Hypothesis Hhost : Forall (fun a => literal a = true) (chars host).
Hypothesis Hne : host <> ""%string.
Hypothesis Hport : Forall digit_char_ascii (chars port).

Lemma host_printed : Forall (fun a => printed a = true) (chars host).
Proof. eapply Forall_impl; [exact Hhost|]. by intros a []%literal_spec. Qed.

Lemma host_no_bracket : without "[" host /\ without "]" host.
Proof. split; (eapply Forall_impl; [exact Hhost|]; by intros a (?&?&?)%literal_spec). Qed.

Lemma port_printed : Forall (fun a => printed a = true) (chars port) /\ without ":" port /\ without "]" port /\
  validOptionalPort (String ":" port) = true.
Proof.
  split_and!.
  - eapply Forall_impl; [exact Hport|]. intros c (_ & Hl & _)%digit_spec. by apply literal_spec.
  - eapply Forall_impl; [exact Hport|]. by intros c (_ & _ & ?)%digit_spec.
  - eapply Forall_impl; [exact Hport|]. intros c (_ & Hl & _)%digit_spec. by apply literal_spec.
  - cbn. apply forallb_forall. intros c Hc. apply list_elem_of_In in Hc. rewrite Forall_forall in Hport.
    by apply Hport, digit_spec in Hc as [? _].
Qed.

(** [host:port]. *)
Definition plain_authority : string := host +:+ String ":" port.

Lemma plain_authority_printed : Forall (fun a => printed a = true) (chars plain_authority).
Proof.
  unfold plain_authority. rewrite chars_app. apply Forall_app. split; [apply host_printed|].
  apply Forall_cons. split; [done|apply port_printed].
Qed.

Lemma parse_plain_authority :
  parse_host plain_authority = Some plain_authority /\ split_host_port plain_authority = (host, port).
Proof.
  destruct port_printed as (_ & Hp & _ & Hv). destruct (from_last_app ":" host port Hp) as [E1 E2].
  pose proof (unescape_host_printed _ plain_authority_printed) as Hu.
  unfold parse_host, split_host_port. unfold plain_authority in *. rewrite prefix_bracket by (done || apply host_no_bracket).
  rewrite E1, Hv, Hu, E2. split; [done|]. apply match_bracket, host_no_bracket.
Qed.

(** [[host]:port]. *)
Definition bracket_authority : string := "[" +:+ host +:+ String "]" (String ":" port).

Lemma bracket_authority_printed : Forall (fun a => printed a = true) (chars bracket_authority).
Proof.
  unfold bracket_authority. rewrite !chars_app. apply Forall_app. split; [by repeat constructor|].
  apply Forall_app. split; [apply host_printed|]. do 2 (apply Forall_cons; split; [done|]). apply port_printed.
Qed.

Lemma parse_bracket_authority :
  parse_host bracket_authority = Some bracket_authority /\ split_host_port bracket_authority = (host, port).
Proof.
  destruct port_printed as (_ & Hp & Hpb & Hv). destruct host_no_bracket as [_ Hb].
  pose proof (unescape_host_printed _ bracket_authority_printed) as Hu.
  assert (bracket_authority = String "[" host +:+ String "]" (String ":" port)) as E by done.
  destruct (from_last_app "]" (String "[" host) (String ":" port)) as [E1 E2].
  { apply Forall_cons. by split. }
  assert (bracket_authority = (String "[" host +:+ "]") +:+ String ":" port) as E'.
  { rewrite E. apply (eq_sym (str_app_assoc (String "[" host) "]" (String ":" port))). }
  split.
  - unfold parse_host. assert (String.prefix "[" bracket_authority = true) as -> by (rewrite E; apply prefix_one).
    rewrite E, E1, E2, Hv. cbn [negb]. rewrite cut_zone_none; [by rewrite <- E|].
    apply Forall_cons. split; [done|]. apply printed_without; [apply host_printed|].
    apply (bool_decide_unpack _); by vm_compute.
  - unfold split_host_port. destruct (from_last_app ":" (String "[" host +:+ "]") port Hp) as [E3 E4].
    rewrite E', E3, Hv, E4. change (String "[" host +:+ "]") with (String "[" (host +:+ "]")).
    change "]"%string with (String "]" ""). destruct (from_last_app "]" host "") as [E5 E6]; [constructor|].
    by rewrite E5, E6.
Qed.

Lemma parse_bare_host :
  without ":" host -> parse_host host = Some host /\ split_host_port host = (host, ""%string).
Proof.
  intros Hc. destruct host_no_bracket as [Hb _]. unfold parse_host, split_host_port.
  assert (String.prefix "[" host = false) as ->.
  { pose proof (prefix_bracket host "" Hne Hb) as Hp. by rewrite str_app_nil_r in Hp. }
  rewrite from_last_none by done. split; [apply unescape_host_printed, host_printed|by apply match_bracket].
Qed.

End authority.

(** The addresses that print as they should: the host stands for itself, and without
    brackets around it has no colon. *)
Definition printable (a : Address) : Prop :=
  address_ok a /\ Forall (fun c => literal c = true) (chars (ad_host a)) /\
  (ad_mode a = WebPKI -> has_char ":" (ad_host a) = false).

(** The authority an address prints, and the port in it. *)
Definition authority (a : Address) : string :=
  if decide (ad_mode a = WebPKI /\ ad_port a = 443) then ad_host a
  else JoinHostPort (ad_host a) (print_int (ad_port a)).
Definition port_text (a : Address) : string :=
  if decide (ad_mode a = WebPKI /\ ad_port a = 443) then "" else print_int (ad_port a).

Lemma has_char_without (c : ascii) (s : string) : has_char c s = false <-> without c s.
Proof.
  unfold has_char, without. rewrite bool_decide_eq_false, Forall_forall. split.
  - intros Hn a Ha ->. done.
  - intros Hf Hin. by apply (Hf c).
Qed.

Lemma print_port_digits (a : Address) :
  address_ok a -> Forall digit_char_ascii (chars (print_int (ad_port a))) /\ print_int (ad_port a) <> ""%string.
Proof. intros (_ & Hp & _). apply print_int_digits. lia. Qed.

Lemma authority_reads (a : Address) :
  printable a ->
  Forall (fun c => printed c = true) (chars (authority a)) /\
  parse_host (authority a) = Some (authority a) /\
  split_host_port (authority a) = (ad_host a, port_text a).
Proof.
  intros (Hok & Hh & Hw). pose proof Hok as (Hne & _ & _). destruct (print_port_digits a Hok) as [Hd _].
  unfold authority, port_text. case_decide as H443.
  - split; [by apply host_printed|]. apply parse_bare_host; [done..|]. by apply has_char_without, Hw, H443.
  - unfold JoinHostPort. destruct (has_char ":" (ad_host a)) eqn:Ec.
    + change ("[" +:+ ad_host a +:+ "]:" +:+ print_int (ad_port a))
        with (bracket_authority (ad_host a) (print_int (ad_port a))).
      split; [by apply bracket_authority_printed|by apply parse_bracket_authority].
    + change (ad_host a +:+ ":" +:+ print_int (ad_port a))
        with (plain_authority (ad_host a) (print_int (ad_port a))).
      split; [by apply plain_authority_printed|by apply parse_plain_authority].
Qed.

Lemma read_port_text (a : Address) :
  address_ok a -> read_port (print_int (ad_port a)) = Some (ad_port a).
Proof.
  intros (_ & Hp & _). unfold read_port. rewrite ParseInt_print_int by lia. rewrite decide_False by lia. done.
Qed.

Lemma fingerprint_plain (fp : string) :
  validFingerprint fp = true -> Forall plain_char (chars fp) /\ fp <> ""%string.
Proof.
  unfold validFingerprint. intros [Hl Hc]%andb_true_iff. split; [|by intros ->].
  unfold all in Hc. rewrite forallb_forall in Hc. apply Forall_forall. intros c Hin.
  apply list_elem_of_In, Hc in Hin.
  set (P c := implb (is_digit c || between "a" "f" c) (bool_decide (plain_char c))).
  assert (forall c, P c = true) as HP by (apply ascii_forall; by vm_compute).
  specialize (HP c). unfold P in HP. rewrite Hin in HP. by apply bool_decide_eq_true in HP.
Qed.

(** What a printed address parses to as a URL. *)
Lemma url_Parse_printed (a : Address) :
  printable a ->
  url_Parse (Address_String a) =
    Some (mkURL (mode_scheme (ad_mode a)) "" false (authority a) "" "" (ad_fingerprint a)) /\
  has_char "#" (Address_String a) = bool_decide (ad_mode a = Pinned).
Proof.
  intros Hp. destruct (authority_reads a Hp) as (Hpr & Hph & _).
  pose proof (url_base_printed (ad_mode a) (authority a) Hpr) as Hb. rewrite Hph in Hb. cbn [mbind option_bind] in Hb.
  assert (without "#" (mode_scheme (ad_mode a) +:+ "://" +:+ authority a)) as Hno.
  { unfold without. rewrite !chars_app. repeat (apply Forall_app; split).
    - destruct (ad_mode a); by repeat constructor.
    - by repeat constructor.
    - apply printed_without; [done|]. apply (bool_decide_unpack _). by vm_compute. }
  destruct Hp as ((_ & _ & Hm) & _ & _). unfold url_Parse. destruct a as [[] h p fp]; cbn [ad_mode ad_fingerprint] in *.
  - assert (Address_String (mkAddress Pinned h p fp) =
      ("sund" +:+ "://" +:+ authority (mkAddress Pinned h p fp)) +:+ String "#" fp) as ->.
    { unfold Address_String, authority. cbn [ad_mode ad_host ad_port ad_fingerprint]. rewrite decide_False by naive_solver.
      exact (eq_sym (str_app_assoc "sund://" (JoinHostPort h (print_int p)) (String "#" fp))). }
    destruct (fingerprint_plain fp Hm) as [Hfp Hfn]. split.
    + rewrite cut_app by exact Hno. cbn [mode_scheme] in Hb. rewrite Hb. cbn [mbind option_bind].
      rewrite unescape_plain by done. by destruct fp.
    + rewrite bool_decide_true by done. apply cut_has_char. by rewrite cut_app by exact Hno.
  - assert (Address_String (mkAddress WebPKI h p fp) =
      "sund+webpki" +:+ "://" +:+ authority (mkAddress WebPKI h p fp)) as ->.
    { unfold Address_String, authority. cbn [ad_mode ad_host ad_port]. destruct (decide (p = 443)) as [->|Hn];
        [by rewrite decide_True by done|by rewrite decide_False by naive_solver]. }
    destruct Hm as [-> _]. cbn [mode_scheme] in Hb, Hno. split.
    + rewrite cut_none by exact Hno. by rewrite Hb.
    + rewrite bool_decide_false by done. by apply has_char_without.
Qed.

(** C34: an address survives printing: for every well-formed address whose host stands for
    itself in a URL - a DNS name, an IPv4 address, in pinned mode also an IPv6 address
    without a zone - [ParseAddress] reads what [String] prints back as the same
    address. *)
Theorem parse_print_address (a : Address) : printable a -> ParseAddress (Address_String a) = inr a.
Proof.
  intros Hp. destruct (url_Parse_printed a Hp) as [Hu Hsharp].
  destruct (authority_reads a Hp) as (_ & _ & Hs). destruct Hp as (Hok & _ & _).
  pose proof (read_port_text a Hok) as Hr. destruct (print_port_digits a Hok) as [_ Hpn].
  destruct Hok as (Hne & _ & Hm). unfold ParseAddress. rewrite Hu.
  assert (Hostname (mkURL (mode_scheme (ad_mode a)) "" false (authority a) "" "" (ad_fingerprint a)) = ad_host a /\
    Port (mkURL (mode_scheme (ad_mode a)) "" false (authority a) "" "" (ad_fingerprint a)) = port_text a)
    as [Eh Ep] by (unfold Hostname, Port; cbn [u_host]; by rewrite Hs).
  cbn [u_user u_path u_raw_query u_opaque u_scheme u_fragment]. rewrite !bool_decide_true by done.
  cbn [negb orb andb]. rewrite Eh, Ep, decide_False by done. rewrite Hsharp. unfold port_text.
  destruct a as [[] h p fp]; cbn [ad_mode ad_host ad_port ad_fingerprint mode_scheme] in *.
  - rewrite decide_True by done. rewrite (decide_False (P := Pinned = WebPKI /\ p = 443)) by naive_solver.
    rewrite decide_False by done. by rewrite Hr, Hm.
  - destruct Hm as [-> Hip]. rewrite decide_False, decide_True by done.
    rewrite !bool_decide_true, bool_decide_false by done. cbn [negb orb]. rewrite Hip.
    destruct (decide (p = 443)) as [->|Hn].
    + rewrite (decide_True (P := WebPKI = WebPKI /\ 443 = 443)) by done. by rewrite decide_True by done.
    + rewrite (decide_False (P := WebPKI = WebPKI /\ p = 443)) by naive_solver. rewrite decide_False by done.
      by rewrite Hr.
Qed.

Example parse_address_examples :
  ParseAddress "sund+webpki://relay.example:8443" = inr (mkAddress WebPKI "relay.example" 8443 "") /\
  ParseAddress "sund+webpki://relay.example#" = inl malformed /\
  ParseAddress "sund+webpki://[::1]:443" = inl malformed /\
  ParseAddress "sund://relay.example:5870" = inl malformed /\
  ParseAddress "https://relay.example" = inl (Errorf "sund: unknown address scheme").
Proof. by vm_compute. Qed.

(** ** Witnesses, and what printing does not keep *)

Definition fp64 : string := "0123456789abcdef0123456789abcdef0123456789abcdef0123456789abcdef".
Definition ipv6_address : Address := mkAddress Pinned "fe80::1" 5870 fp64.

Lemma parse_address_well_formed_witness :
  let s := ("sund://[fe80::1]:5870#" +:+ fp64)%string in
  ParseAddress s = inr ipv6_address /\ address_ok ipv6_address /\
  (ad_mode ipv6_address = Pinned <-> has_char "#" s = true) /\
  forall s' a', (cut "#" s').1 = (cut "#" s).1 -> ParseAddress s' = inr a' -> ad_mode a' = ad_mode ipv6_address.
Proof.
  cbv zeta. assert (ParseAddress ("sund://[fe80::1]:5870#" +:+ fp64) = inr ipv6_address) as E by by vm_compute.
  split; [exact E|exact (parse_address_well_formed _ _ E)].
Defined.

Lemma parse_print_address_witness :
  printable ipv6_address /\ ParseAddress (Address_String ipv6_address) = inr ipv6_address.
Proof.
  assert (printable ipv6_address) as Hp.
  { unfold printable, address_ok. split; [|split; [|done]].
    - cbn [ad_host ad_port ad_mode ad_fingerprint ipv6_address]. split_and!; [done|lia|lia|by vm_compute].
    - apply (bool_decide_unpack _). by vm_compute. }
  split; [exact Hp|exact (parse_print_address ipv6_address Hp)].
Defined.

(** There are addresses that printing turns into others: with two colons after the
    scheme's slashes the last one is the port, so [sund+webpki://example.org:8443:443] is
    accepted, with the host [example.org:8443]; it is printed as the address of another
    port of [example.org], and that one is accepted too. *)
Theorem reprinted_address_differs :
  ParseAddress "sund+webpki://example.org:8443:443" = inr (mkAddress WebPKI "example.org:8443" 443 "") /\
  Address_String (mkAddress WebPKI "example.org:8443" 443 "") = "sund+webpki://example.org:8443"%string /\
  ParseAddress "sund+webpki://example.org:8443" = inr (mkAddress WebPKI "example.org" 8443 "").
Proof. by vm_compute. Qed.

(** An IPv6 address with a zone is accepted in both modes: in pinned mode it is printed
    with a bare percent sign, which is refused when it is read again, and its base URL is
    no URL, so that no request can be made; in WebPKI mode it passes for a DNS name, since
    [net.ParseIP] knows no zones. *)
Theorem zoned_address_accepted :
  ParseAddress ("sund://[fe80::1%25en0]:5870#" +:+ fp64) = inr (mkAddress Pinned "fe80::1%en0" 5870 fp64) /\
  ParseAddress (Address_String (mkAddress Pinned "fe80::1%en0" 5870 fp64)) = inl malformed /\
  url_Parse (BaseURL (mkAddress Pinned "fe80::1%en0" 5870 fp64)) = None /\
  ParseAddress "sund+webpki://[fe80::1%25en0]:443" = inr (mkAddress WebPKI "fe80::1%en0" 443 "").
Proof. by vm_compute. Qed.
