(* ===== verification/Conn.v ===== *)
(** * Connections ([client/conn.go])

    A client's connection to a server address: the TLS handshake, as far as it decides
    whom the client talks to, and round trips that may get lost on either side of the
    server. *)

From S2P Require Import Prelude Encoding Clock Decimal Sql Schema StoreM Crypto Sigauth Accounts Devices.
From S2P Require Import Queues Blobs Steps Invariants Store World Json Scanner Url Http Decoder Reply.
From S2P Require Import Router Demo DemoServer Client EndToEnd Host X509 Tlsid Identity Netaddr Address.

Local Open Scope Z_scope.

Definition DefaultTimeout : Z := 15 * Second.

(** [strings.TrimRight(s, "/")]. *)
Fixpoint trim_slashes (s : string) : string :=
  match s with
  | EmptyString => ""
  | String c s =>
      let s := trim_slashes s in
      if decide (c = "/"%char /\ s = ""%string) then "" else String c s
  end.

(** What happens to a request once the connection is there: it does not reach the server,
    it is answered, or it is handled and the response is lost. *)
Inductive delivery : Type := Unreached | Answered | Lost.

Section conn.
Context `{Crypto, X509}.

(** The platform's verification of a presented chain for a host, at a time. *)
Variable platform : string -> list bytes -> Z -> bool.

(** [cn_tls] is the TLS configuration of the HTTP client. *)
Record Conn := mkConn { cn_BaseURL : string; cn_tls : tlsConfig }.

Definition Connect (a : Address) : Conn := mkConn (BaseURL a) (httpClient a).

(** [http.DefaultClient]: the platform's verification of the host that is connected to. *)
Definition DefaultClient (host : string) : tlsConfig := mkTLSConfig [] VersionTLS12 false None host.

Definition NewConn (host baseURL : string) (hc : option tlsConfig) : Conn :=
  mkConn (trim_slashes baseURL) (default (DefaultClient host) hc).

(** The client's side of a handshake with a server that presents [rawCerts]. *)
Definition handshake (c : tlsConfig) (now : Z) (rawCerts : list bytes) : option transport_error :=
  if negb (InsecureSkipVerify c) && negb (platform (ServerName c) rawCerts now)
  then Some CertificateVerificationError else
  match VerifyPeerCertificate c with
  | Some check =>
      match check now rawCerts with
      | Some e => Some (if decide (e = ErrIdentity) then TlsidErrIdentity else OtherTransport)
      | None => None
      end
  | None => None
  end.

(** A connection at a time to a server presenting [rawCerts]. *)
Definition over (c : Conn) (now : Z) (rawCerts : list bytes) (d : delivery) (version : string) : network :=
  fun r w =>
    match handshake (cn_tls c) now rawCerts with
    | Some e => (inl e, w)
    | None =>
        match d with
        | Unreached => (inl OtherTransport, w)
        | Answered => direct version r w
        | Lost => (inl OtherTransport, (direct version r w).2)
        end
    end.

Lemma pinned_handshake (a : Address) (now : Z) (raws : list bytes) :
  ad_mode a = Pinned ->
  handshake (httpClient a) now raws =
    match verifyPinned now raws (ad_fingerprint a) with Some _ => Some TlsidErrIdentity | None => None end.
Proof.
  intros Hm. unfold handshake, httpClient. rewrite Hm. cbn.
  destruct (verifyPinned now raws (ad_fingerprint a)) as [e|] eqn:E; [|done].
  assert (e = ErrIdentity) as ->; [|by rewrite decide_True].
  revert E. unfold verifyPinned. repeat case_match; congruence.
Qed.

(** What [exchange] makes of a handshake that fails. *)
Lemma exchange_no_handshake (c : Conn) (now : Z) (raws : list bytes) (d : delivery) (version : string)
    key method path extra inp e w err :
  handshake (cn_tls c) now raws = Some err ->
  exchange (over c now raws d version) key method path extra inp e w =
    (inl (match new_request key method path extra inp e with None => ErrRequest | Some _ => wrapTransportErr err end), w).
Proof.
  intros Hh. unfold exchange. destruct (new_request key method path extra inp e) as [r|]; [|done].
  unfold over. by rewrite Hh.
Qed.

(** A network error other than one of identity. *)
Lemma exchange_identity (c : Conn) (now : Z) (raws : list bytes) (d : delivery) (version : string)
    key method path extra inp e w :
  handshake (cn_tls c) now raws = None ->
  (exchange (over c now raws d version) key method path extra inp e w).1 <> inl ErrServerIdentity.
Proof.
  intros Hh. unfold exchange. destruct (new_request key method path extra inp e) as [r|]; [|done].
  unfold over. rewrite Hh. unfold direct. destruct d; [done| |].
  - destruct (run (ServeHTTP version r) w) as [resp w']. by case_decide.
  - done.
Qed.

(** C23: in pinned mode the client talks to nobody else: whatever a call sends, and whoever
    answers at the address, either the server has presented a chain that leads from its
    leaf to the certificate whose key the address names, all at a time the leaf is valid;
    or nothing was sent, the state of whoever answered is as before, and the call fails -
    with [ErrServerIdentity], if its request could be built at all. And it fails with
    that error for no other reason. *)
Theorem pinned_client_talks_to_pin `{!X509Laws H0} (a : Address) (now : Z) (raws : list bytes) (d : delivery) (version : string)
    {A} key method path extra inp (out : json -> option A) e w :
  ad_mode a = Pinned ->
  let res := do (over (Connect a) now raws d version) key method path extra inp out e w in
  ((exists leaf pinned raw, head raws = Some raw /\ ParseCertificate raw = Some leaf /\
      cert_raw pinned ∈ raws /\ SPKIFingerprint pinned = ad_fingerprint a /\
      rtc (fun x y => CheckSignatureFrom x y = true) leaf pinned /\
      cert_not_before leaf <= now <= cert_not_after leaf) /\ res.1 <> inl ErrServerIdentity) \/
  (res.2 = w /\ res.1 = inl (match new_request key method path extra inp e with
                             | None => ErrRequest | Some _ => ErrServerIdentity end)).
Proof.
  intros Hm res. subst res. pose proof (pinned_handshake a now raws Hm) as Hh. unfold do.
  destruct (verifyPinned now raws (ad_fingerprint a)) as [err|] eqn:Ev.
  - right. rewrite (exchange_no_handshake _ _ _ _ _ _ _ _ _ _ _ _ TlsidErrIdentity) by exact Hh. done.
  - left. split; [by apply pinned_chain|].
    pose proof (exchange_identity (Connect a) now raws d version key method path extra inp e w Hh) as Hi.
    destruct (exchange _ key method path extra inp e w) as [[err|j] w']; [cbn in *; congruence|].
    by destruct (j ≫= out).
Qed.

End conn.

(** ** Examples *)

Section examples.
Import Web ToyX509.

Definition pinned_address : Address := mkAddress Pinned "relay.example" 5870 (SPKIFingerprint ca0).
Definition no_platform : string -> list bytes -> Z -> bool := fun _ _ _ => false.

(** The pinned server, and one with its leaf only. *)
Definition to_pinned (d : delivery) : network :=
  over no_platform (Connect pinned_address) (10 * day) chain0 d "v".
Definition to_other : network :=
  over no_platform (Connect pinned_address) (10 * day) [cert_raw leaf0] Answered "v".

Lemma pinned_client_talks_to_pin_witness :
  let res := do to_other None "GET" "/health" ∅ None Some env1 w0 in
  ((exists leaf pinned raw, head [cert_raw leaf0] = Some raw /\ ParseCertificate raw = Some leaf /\
      cert_raw pinned ∈ [cert_raw leaf0] /\ SPKIFingerprint pinned = SPKIFingerprint ca0 /\
      rtc (fun x y => CheckSignatureFrom x y = true) leaf pinned /\
      cert_not_before leaf <= 10 * day <= cert_not_after leaf) /\ res.1 <> inl ErrServerIdentity) \/
  (res.2 = w0 /\ res.1 = inl (match new_request None "GET" "/health" ∅ None env1 with
                             | None => ErrRequest | Some _ => ErrServerIdentity end)).
Proof.
  exact (pinned_client_talks_to_pin no_platform pinned_address (10 * day) [cert_raw leaf0] Answered "v"
    None "GET" "/health" ∅ None Some env1 w0 eq_refl).
Defined.

Example pinned_health :
  (Health (to_pinned Answered) env1 w0).1 = inr "v"%string /\
  (Health to_other env1 w0).1 = inl ErrServerIdentity /\ (Health (to_pinned Lost) env1 w0).1 = inl ErrNetwork.
Proof. by vm_compute. Qed.

(** A minute after [env1], with another nonce. *)
Definition env2 : Env := mkEnv (t0 + 69 * Second) (replicate 16 x31).
Definition lost_send : (client_error + string) * World :=
  Sender_Send (to_pinned Lost) sender1 hello opts1 env1 w0.
Definition repeated_send : (client_error + string) * World :=
  let '(mkWorld s nonces pings) := lost_send.2 in
  Sender_Send (to_pinned Answered) sender1 hello opts1 env2
    (mkWorld (mkSt (st_db s) (t0 + 70 * Second) (rnd x09) []) nonces pings).

(** A send whose response is lost has been stored: to the client it is a network error, and
    the send it makes instead, a new request, stores the message once more. Delivery is at
    least once, and telling the copies apart is left to the recipient. *)
Theorem lost_response_repeats_message :
  lost_send.1 = inl ErrNetwork /\ repeated_send.1 = inr (fresh_id "msg_" (rnd x09)) /\
  m_payload <$> (w_db repeated_send.2).(messages) = (m_payload <$> (w_db w0).(messages)) ++ [hello; hello].
Proof. by vm_compute. Qed.
End examples.
