(* ===== verification/Lifecycle.v ===== *)
(** * Running and stopping the server ([serve], [RunPurgeLoop] of
    [internal/server/server.go], [runServe] and [main] of [main.go])

    The serving process as a transition system of its goroutines: the main one, which is in
    [Serve] and then on its way out, the one of [serve] that watches the context, the purge
    loop and one per request. *)

From S2P Require Import Prelude Encoding Clock Sql Schema StoreM Crypto Sigauth Accounts Devices.
From S2P Require Import Queues Blobs Steps Invariants Evolution Refine Store Demo World Http Auth.
From S2P Require Import Json.
From S2P Require Import Push Management Transport Router DemoServer.

Local Open Scope Z_scope.

(** ** The goroutines *)

(** What [http.Server.Serve] returns; it never returns nil. *)
Inductive serve_error : Type := ErrServerClosed | ListenerError (e : error).

(** The end of [serve]: any error but [ErrServerClosed] is its own. *)
Definition serve_result (err : serve_error) : option error :=
  match err with ErrServerClosed => None | ListenerError e => Some e end.

(** The end of [main]: [log.Fatalf] exits with 1. *)
Definition exit_code (err : option error) : Z := match err with Some _ => 1 | None => 0 end.

(** Where the main goroutine is: [Serve] is accepting, or has returned; [serve] and
    [runServe] have returned; the process is gone, with whatever was in progress. *)
Inductive serving : Type :=
  | InServe
  | ServeReturned (err : serve_error)
  | RunReturned (err : option error)
  | Exited (code : Z).

(** The goroutine [serve] starts waits for the context, then for [Shutdown], which waits
    until the requests in progress are done or its own context, of five seconds, is. *)
Inductive watching : Type := AwaitsCancel | InShutdown (until : Z) | WatchEnded.

(** [RunPurgeLoop] waits at its [select] - for its ticker, due at [next], a tick of which
    may be pending - or has returned. *)
Inductive purging : Type := AtSelect (next : Z) (pending : bool) | Stopped.

(** [pr_requests]: the handlers in progress, and whether the client has sent the whole
    body. [pr_cancelled]: the context of [runServe] is done. [pr_shutdown]: [Shutdown] has
    been called, which closes the listener. [pr_failed]: what the listener failed with. *)
Record Process := mkProcess {
  pr_world : World;
  pr_requests : list (proc Response * bool);
  pr_cancelled : bool;
  pr_shutdown : bool;
  pr_failed : option error;
  pr_main : serving;
  pr_watch : watching;
  pr_purge : purging;
}.

(** [GPurge pick]: [pick] is the case [select] takes when both are ready, the tick if
    true. *)
Inductive goroutine : Type := GMain | GWatch | GPurge (pick : bool) | GRequest (i : nat).

(** What can happen next: a goroutine gets a turn, time passes, a request arrives - on a new
    connection or one accepted before -, the rest of the body of a request does, the context
    is cancelled, the listener fails. *)
Inductive happening : Type :=
  | Run (g : goroutine)
  | Passes (ns : Z) (rnd : bytes)
  | Arrive (p : proc Response)
  | BodyArrives (i : nat)
  | Cancel
  | ListenerFails (e : error).

Definition shutdown_timeout : Z := 5 * Second.

Definition reads_body {A} (e : action A) : bool := match e with AReadBody => true | _ => false end.

Section lifecycle.
Context `{Crypto}.

(** A turn of the main goroutine. [Serve] returns [ErrServerClosed] once [Shutdown] has been
    called, whatever closed the listener; [serve] looks at its error; [main] exits. *)
Definition run_main (s : Process) : serving :=
  match pr_main s with
  | InServe =>
      if pr_shutdown s then ServeReturned ErrServerClosed
      else match pr_failed s with Some e => ServeReturned (ListenerError e) | None => InServe end
  | ServeReturned err => RunReturned (serve_result err)
  | RunReturned err => Exited (exit_code err)
  | Exited code => Exited code
  end.

Definition is_ret {A} (p : proc A) : bool := match p with Ret _ => true | _ => false end.

(** A turn of the goroutine of [serve], with whether [Shutdown] has then been called. *)
Definition run_watch (s : Process) : watching * bool :=
  match pr_watch s with
  | AwaitsCancel =>
      if pr_cancelled s then (InShutdown (w_clock (pr_world s) + shutdown_timeout), true)
      else (AwaitsCancel, pr_shutdown s)
  | InShutdown until =>
      if forallb (fun r => is_ret r.1) (pr_requests s) || (until <=? w_clock (pr_world s))
      then (WatchEnded, pr_shutdown s) else (InShutdown until, pr_shutdown s)
  | WatchEnded => (WatchEnded, pr_shutdown s)
  end.

(** A turn of the purge loop: the context, if it is done, or the tick, if there is one. *)
Definition run_purge (pick : bool) (s : Process) : World * purging :=
  match pr_purge s with
  | AtSelect next pending =>
      if pending && (pick || negb (pr_cancelled s))
      then ((do_action (ACall OpPurgeExpired) (pr_world s)).2, AtSelect next false)
      else (pr_world s, if pr_cancelled s then Stopped else pr_purge s)
  | Stopped => (pr_world s, Stopped)
  end.

(** A turn of a request: its next effect. It cannot read its body before that has
    arrived, and there is no limit to how long that may take. *)
Definition run_request (i : nat) (s : Process) : World * list (proc Response * bool) :=
  match pr_requests s !! i with
  | Some (Act e k, arrived) =>
      if reads_body e && negb arrived then (pr_world s, pr_requests s)
      else let '(b, w) := do_action e (pr_world s) in (w, <[i := (k b, arrived)]> (pr_requests s))
  | _ => (pr_world s, pr_requests s)
  end.

(** The ticker of the purge loop at time [now]: a tick it has no room for is dropped. *)
Definition tick (now : Z) (p : purging) : purging :=
  match p with
  | AtSelect next pending =>
      if next <=? now then AtSelect (next + PurgeInterval * (1 + (now - next) / PurgeInterval)) true
      else AtSelect next pending
  | Stopped => Stopped
  end.

Definition exited (s : Process) : bool := match pr_main s with Exited _ => true | _ => false end.

(** One happening; one that cannot happen now changes nothing. *)
Definition happen (h : happening) (s : Process) : Process :=
  if exited s then s else
  let '(mkProcess w rs cancelled shutdown failed main watch purge) := s in
  match h with
  | Run GMain => mkProcess w rs cancelled shutdown failed (run_main s) watch purge
  | Run GWatch => mkProcess w rs cancelled (run_watch s).2 failed main (run_watch s).1 purge
  | Run (GPurge pick) =>
      mkProcess (run_purge pick s).1 rs cancelled shutdown failed main watch (run_purge pick s).2
  | Run (GRequest i) =>
      mkProcess (run_request i s).1 (run_request i s).2 cancelled shutdown failed main watch purge
  | Passes ns rnd =>
      let w := mkWorld (mkSt (w_db w) (w_clock w + Z.max 0 ns) rnd (st_faults (w_st w)))
                 (w_nonces w) (w_pings w) in
      mkProcess w rs cancelled shutdown failed main watch (tick (w_clock w) purge)
  | Arrive p => mkProcess w (rs ++ [(p, false)]) cancelled shutdown failed main watch purge
  | BodyArrives i =>
      mkProcess w (alter (fun r => (r.1, true)) i rs) cancelled shutdown failed main watch purge
  | Cancel => mkProcess w rs true shutdown failed main watch purge
  | ListenerFails e =>
      mkProcess w rs cancelled shutdown (if shutdown then failed else Some e) main watch purge
  end.

(** The process as [runServe] leaves it in [Serve]. *)
Definition serving_process (w : World) : Process :=
  mkProcess w [] false false None InServe AwaitsCancel (AtSelect (w_clock w + PurgeInterval) false).

(** ** Runs *)

(** The process after the first [n] happenings of a run. *)
Fixpoint after (n : nat) (run : nat -> happening) (s : Process) : Process :=
  match n with
  | O => s
  | S n => happen (run n) (after n run s)
  end.

(** Something happens again and again. *)
Definition recurs (run : nat -> happening) (h : happening) : Prop :=
  forall n, exists m, (n <= m)%nat /\ run m = h.

(** Something happens among the first [n]. *)
Definition before (n : nat) (run : nat -> happening) (h : happening) : Prop :=
  exists i, (i < n)%nat /\ run i = h.

Lemma happen_exited (h : happening) (s : Process) : exited s = true -> happen h s = s.
Proof. unfold happen. by intros ->. Qed.

Lemma happen_main (h : happening) (s : Process) :
  pr_main (happen h s) = match h with Run GMain => run_main s | _ => pr_main s end.
Proof.
  unfold happen, exited. destruct s as [w rs c d f m wa pu]. cbn.
  destruct m; cbn; by destruct h as [[]| | | | |].
Qed.

(** One that keeps leading on from any state of a kind that all happenings keep. *)
Lemma stays (P : Process -> Prop) (run : nat -> happening) (s : Process) (k n : nat) :
  (forall h s, P s -> P (happen h s)) -> P (after k run s) -> P (after (k + n) run s).
Proof.
  intros Hp Hs. induction n as [|n IH]; [by rewrite Nat.add_0_r|]. rewrite Nat.add_succ_r. cbn. auto.
Qed.

Lemma leads_on (P Q : Process -> Prop) (h : happening) (run : nat -> happening) (s : Process) :
  recurs run h -> (forall h' s, P s -> P (happen h' s)) -> (forall s, P s -> Q (happen h s)) ->
  (exists n, P (after n run s)) -> exists n, Q (after n run s).
Proof.
  intros Hr Hp Hq [n Hn]. destruct (Hr n) as (m & Hm & E). exists (S m). cbn. rewrite E. apply Hq.
  replace m with (n + (m - n))%nat by lia. by apply stays.
Qed.

(** ** What ended the process *)

(** [C]: the context has been cancelled. [F]: the listener has failed. *)
Definition accounted (C F : Prop) (s : Process) : Prop :=
  (pr_cancelled s = true -> C) /\ (pr_shutdown s = true -> C) /\ (pr_failed s <> None -> F) /\
  match pr_main s with
  | InServe => True
  | ServeReturned ErrServerClosed | RunReturned None => C
  | ServeReturned (ListenerError _) | RunReturned (Some _) => F
  | Exited code => (code = 0 /\ C) \/ (code = 1 /\ F)
  end.

Lemma accounted_kept (C F : Prop) (h : happening) (s : Process) :
  (h = Cancel -> C) -> (forall e, h = ListenerFails e -> F) -> accounted C F s -> accounted C F (happen h s).
Proof.
  intros HC HF Ha. destruct (exited s) eqn:Ex; [by rewrite happen_exited|].
  unfold happen. rewrite Ex. destruct s as [w rs c d f m wa pu]. destruct Ha as (Hc & Hd & Hf & Hm).
  cbn in Hc, Hd, Hf, Hm. unfold accounted. destruct h as [[]| | | | |e]; cbn; try (by split_and!; eauto).
  - split_and!; [done..|]. unfold run_main. cbn. destruct m as [|[|e]|[e|]|code]; cbn; auto.
    destruct d; [auto|]. destruct f; [by apply Hf|done].
  - split_and!; [done| |done|done]. unfold run_watch. cbn. repeat case_match; cbn; auto.
Qed.

Lemma run_accounted (n : nat) (run : nat -> happening) (w : World) :
  accounted (before n run Cancel) (exists e, before n run (ListenerFails e)) (after n run (serving_process w)).
Proof.
  assert (forall m, (m <= n)%nat ->
    accounted (before n run Cancel) (exists e, before n run (ListenerFails e)) (after m run (serving_process w))) as Hm;
    [|by apply Hm].
  induction m as [|m IH]; intros Hm; [by split_and!|]. cbn. apply accounted_kept; [| |apply IH; lia].
  - intros E. exists m. by split; [lia|].
  - intros e E. exists e, m. by split; [lia|].
Qed.

(** ** Stopping *)

(** The goroutine of [serve] has called [Shutdown], or still waits to. *)
Definition watched (s : Process) : Prop := pr_watch s = AwaitsCancel \/ pr_shutdown s = true.

(** The stages of a stop. *)
Definition stage (k : nat) (s : Process) : Prop :=
  watched s /\
  (exited s = true \/
   match k with
   | 0%nat => pr_cancelled s = true
   | 1%nat => pr_shutdown s = true \/ pr_failed s <> None \/ pr_main s <> InServe
   | 2%nat => pr_main s <> InServe
   | _ => match pr_main s with RunReturned _ => True | _ => False end
   end).

Lemma watched_kept (h : happening) (s : Process) : watched s -> watched (happen h s).
Proof.
  unfold watched, happen. destruct (exited s) eqn:Ex; [done|]. destruct s as [w rs c d f m wa pu]. cbn.
  intros Hw. destruct h as [[]| | | | |]; cbn; try done.
  unfold run_watch. cbn. destruct wa; [destruct c; cbn; auto|..]; destruct Hw as [|Hw]; try done; rewrite Hw;
    repeat case_match; auto.
Qed.

Lemma stage_kept (k : nat) (h : happening) (s : Process) : stage k s -> stage k (happen h s).
Proof.
  intros [Hw Hs]. split; [by apply watched_kept|].
  unfold happen. destruct (exited s) eqn:Ex; [left; done|]. destruct Hs as [?|Hs]; [done|].
  destruct s as [w rs c d f m wa pu]. unfold exited in *. cbn in *.
  all: destruct k as [|[|[|k]]]; destruct h as [[]| | | | |e]; cbn in *; try (by right).
  all: unfold run_main, run_watch in *; cbn in *; repeat (case_match; simplify_eq/=); intuition congruence.
Qed.

Lemma stage_next (k : nat) (s : Process) :
  stage k s ->
  match k with
  | 0%nat => stage 1 (happen (Run GWatch) s)
  | 1%nat => stage 2 (happen (Run GMain) s)
  | 2%nat => stage 3 (happen (Run GMain) s)
  | _ => exited (happen (Run GMain) s) = true
  end.
Proof.
  intros [Hw Hs]. destruct (exited s) eqn:Ex.
  { rewrite !happen_exited by done. unfold stage. destruct k as [|[|[|k]]]; auto. }
  destruct Hs as [?|Hs]; [done|]. unfold happen. rewrite Ex.
  assert (watched (happen (Run GWatch) s) /\ watched (happen (Run GMain) s)) as [Hw1 Hw2]
    by (split; by apply watched_kept).
  unfold happen in Hw1, Hw2. rewrite Ex in Hw1, Hw2.
  destruct s as [w rs c d f m wa pu]. unfold stage, watched, exited in *. cbn in *.
  destruct k as [|[|[|k]]]; [split; [done|]..|]; clear Hw1 Hw2.
  all: unfold run_main, run_watch; cbn; repeat (case_match; simplify_eq/=); intuition congruence.
Qed.

(** What begins a stop. *)
Lemma stage_cancel (s : Process) : watched s -> stage 0 (happen Cancel s).
Proof.
  intros Hw. split; [by apply watched_kept|]. unfold happen. destruct (exited s) eqn:Ex; [by left|].
  right. by destruct s.
Qed.

Lemma stage_fails (e : error) (s : Process) : watched s -> stage 1 (happen (ListenerFails e) s).
Proof.
  intros Hw. split; [by apply watched_kept|]. unfold happen. destruct (exited s) eqn:Ex; [by left|].
  right. destruct s as [w rs c [] f m wa pu]; cbn; auto.
Qed.

Lemma watched_run (n : nat) (run : nat -> happening) (w : World) : watched (after n run (serving_process w)).
Proof. induction n; [by left|by apply watched_kept]. Qed.

(** Something happens in a run. *)
Definition occurs (run : nat -> happening) (h : happening) : Prop := exists k, run k = h.

(** C35: a server serves until it is told to stop or its listener fails, and then ends:
    whatever requests arrive, stall or never finish and whatever the purge loop does, the
    process exits with 0 only after the context was cancelled, with 1 only after the
    listener failed, and with no other code; and once either has happened it does exit,
    if the goroutine of [main] and the one of [serve] get their turns again and again. *)
Theorem server_stops_when_told (run : nat -> happening) (w : World) :
  (forall n code, pr_main (after n run (serving_process w)) = Exited code ->
     (code = 0 /\ before n run Cancel) \/ (code = 1 /\ exists e, before n run (ListenerFails e))) /\
  (recurs run (Run GMain) -> recurs run (Run GWatch) ->
   occurs run Cancel \/ (exists e, occurs run (ListenerFails e)) ->
   exists n code, pr_main (after n run (serving_process w)) = Exited code).
Proof.
  split.
  - intros n code E. destruct (run_accounted n run w) as (_ & _ & _ & Hm). by rewrite E in Hm.
  - intros Hmain Hwatch Hstop. set (s0 := serving_process w).
    assert (exists n, stage 1 (after n run s0)) as H1.
    { destruct Hstop as [[k E]|(e & k & E)].
      - apply (leads_on (stage 0) _ (Run GWatch)); [done|apply stage_kept|apply (stage_next 0)|].
        exists (S k). cbn. rewrite E. by apply stage_cancel, watched_run.
      - exists (S k). cbn. rewrite E. by apply stage_fails, watched_run. }
    assert (exists n, exited (after n run s0) = true) as [n Hn].
    { apply (leads_on (stage 3) (fun s => exited s = true) (Run GMain)); [done|apply stage_kept|apply (stage_next 3)|].
      apply (leads_on (stage 2) _ (Run GMain)); [done|apply stage_kept|apply (stage_next 2)|].
      by apply (leads_on (stage 1) _ (Run GMain)); [|apply stage_kept|apply (stage_next 1)|]. }
    exists n. unfold exited in Hn. destruct (pr_main _); by eauto.
Qed.

(** ** Answering *)

Lemma happen_requests (h : happening) (s : Process) (i : nat) (p : proc Response) (arrived : bool) :
  pr_requests s !! i = Some (p, arrived) -> h <> Run (GRequest i) -> (h = BodyArrives i -> arrived = true) ->
  pr_requests (happen h s) !! i = Some (p, arrived).
Proof.
  intros Hp Hh Hb. unfold happen. destruct (exited s); [done|]. destruct s as [w rs c d f m wa pu]. cbn in *.
  destruct h as [[| | |j]| | |j| |]; cbn; try done.
  - unfold run_request. cbn. destruct (rs !! j) as [[[a|B e k] b]|] eqn:Ej; cbn; try done.
    destruct (reads_body e && negb b); cbn; [done|]. destruct (do_action e w) as [x w']. cbn.
    rewrite list_lookup_insert_ne; [done|]. by intros ->.
  - by apply lookup_app_l_Some.
  - rewrite list_lookup_alter. case_decide as E; [|done]. subst j. rewrite Hp. by rewrite Hb.
Qed.

(** It is where it was when its turn comes. *)
Lemma wait_turn (run : nat -> happening) (s : Process) (i m n : nat) (p : proc Response) :
  run (n + m)%nat = Run (GRequest i) -> pr_requests (after n run s) !! i = Some (p, true) ->
  exists n', run n' = Run (GRequest i) /\ pr_requests (after n' run s) !! i = Some (p, true).
Proof.
  revert n. induction m as [|m IH]; intros n Em Hp; [rewrite Nat.add_0_r in Em; by exists n|].
  assert (run n = Run (GRequest i) \/ run n <> Run (GRequest i)) as [E|E].
  { destruct (run n) as [[| | |j]| | | | |]; try (by right).
    destruct (decide (j = i)) as [->|Hne]; [by left|right; congruence]. }
  - by exists n.
  - apply (IH (S n)); [by rewrite Nat.add_succ_comm|]. cbn. by apply happen_requests.
Qed.

(** A request whose body has arrived waits for nothing but its turns: as long as the
    process is there, it comes to its response. *)
Lemma request_answered (run : nat -> happening) (s : Process) (i n : nat) (p : proc Response) :
  recurs run (Run (GRequest i)) -> (forall n, exited (after n run s) = false) ->
  pr_requests (after n run s) !! i = Some (p, true) ->
  exists n' r, pr_requests (after n' run s) !! i = Some (Ret r, true).
Proof.
  intros Hr Hx. revert n. induction p as [r|B e k IH]; intros n Hp; [by exists n, r|].
  destruct (Hr n) as (m & Hm & Em). destruct (wait_turn run s i (m - n) n (Act e k)) as (n' & En & Hn);
    [by replace (n + (m - n))%nat with m by lia|done|].
  assert (exists b, pr_requests (after (S n') run s) !! i = Some (k b, true)) as [b Hb].
  { cbn [after]. rewrite En. unfold happen. rewrite (Hx n').
    destruct (after n' run s) as [w rs c d f mn wa pu]. cbn in *. unfold run_request. cbn. rewrite Hn.
    rewrite andb_false_r. destruct (do_action e w) as [b w']. exists b. cbn.
    apply list_lookup_insert_eq. by eapply lookup_lt_Some. }
  by eapply IH.
Qed.

(** One whose body does not come is not answered, however long and however often it gets
    its turn: the server has no timeout for reading. *)
Lemma stalled_request_waits (run : nat -> happening) (s : Process) (i n : nat) (k : unit -> proc Response) :
  (forall n, run n <> BodyArrives i) -> pr_requests s !! i = Some (Act AReadBody k, false) ->
  pr_requests (after n run s) !! i = Some (Act AReadBody k, false).
Proof.
  intros Hb Hp. induction n as [|n IH]; [done|]. cbn.
  assert (run n = Run (GRequest i) \/ run n <> Run (GRequest i)) as [E|E].
  { destruct (run n) as [[| | |j]| | | | |]; try (by right).
    destruct (decide (j = i)) as [->|Hne]; [by left|right; congruence]. }
  - rewrite E. unfold happen. destruct (exited _); [done|].
    destruct (after n run s) as [w rs c d f mn wa pu]. cbn in *. unfold run_request. cbn. by rewrite IH.
  - apply happen_requests; [done|done|]. intros E'. by destruct (Hb n).
Qed.

End lifecycle.

(** ** Examples *)

Section examples.
Import Web.

(** One happening of a list after the other, and round again. *)
Definition rounds (hs : list happening) (n : nat) : happening := default Cancel (hs !! (n mod length hs)%nat).

Lemma rounds_recurs (hs : list happening) (h : happening) (i : nat) :
  hs !! i = Some h -> recurs (rounds hs) h.
Proof.
  intros Hi n. pose proof (lookup_lt_Some _ _ _ Hi) as Hl. exists (n * length hs + i)%nat. split; [nia|].
  unfold rounds. rewrite Nat.add_comm, Nat.Div0.mod_add, Nat.mod_small by done. by rewrite Hi.
Qed.

(** A send that never sends its body, a purge, and a signal. *)
Definition stopping : list happening :=
  [Arrive (handleSend snd send_hello); Run (GRequest 0); Passes Hour []; Run (GPurge true); Cancel; Run GWatch;
   Run GMain].

Lemma server_stops_when_told_witness :
  (exists n code, pr_main (after n (rounds stopping) (serving_process w0)) = Exited code) /\
  pr_main (after 21 (rounds stopping) (serving_process w0)) = Exited 0 /\
  before 21 (rounds stopping) Cancel.
Proof.
  destruct (server_stops_when_told (rounds stopping) w0) as [Hcode Hends].
  assert (pr_main (after 21 (rounds stopping) (serving_process w0)) = Exited 0) as E by by vm_compute.
  split_and!; [|exact E|].
  - apply Hends; [by apply (rounds_recurs stopping _ 6)|by apply (rounds_recurs stopping _ 5)|].
    left. by exists 4%nat.
  - by destruct (Hcode 21%nat 0 E) as [[_ ?]|[? _]].
Defined.

(** The first send on a queue, cut off by a shutdown. *)
Definition first_send : Request :=
  signed "POST" ["v1"; "send"; snd] skey "" 1700000000 "n"
    {[ HeaderSenderKey := base64_std_encode (ed25519_public skey) ]} (json_body [("payload", base64_std_encode hello)]%string).

Definition cut_off (turns : nat) : Process :=
  foldl (fun s h => happen h s)
    (serving_process (mkWorld (mkSt (run_calls (take 6 running) empty_db) (t0 + 10 * Second) (rnd x08) []) ∅ []))
    ([Arrive (handleSend snd first_send); BodyArrives 0] ++ replicate turns (Run (GRequest 0)) ++
     [Cancel; Run GWatch; Run GMain; Run GMain; Run GMain]).

(** What a cut-off request left behind: where the main goroutine and the one of [serve]
    are, whether the request has its response, whether the queue is bound to the sender's
    key, and how many messages the store holds. *)
Definition left_behind (s : Process) : serving * watching * bool * bool * nat :=
  let db := w_db (pr_world s) in
  (pr_main s, pr_watch s, forallb (fun r => is_ret r.1) (pr_requests s),
   bool_decide (Exists (fun q => q_sender_key q = Some (ed25519_public skey)) db.(queues)),
   length db.(messages)).

(** A shutdown does not wait for requests in progress: [Serve] returns as soon as
    [Shutdown] has been called, [serve] then returns nil and the process exits with 0 while
    [Shutdown] is still waiting. A first send cut off that way can leave the queue bound to
    its key with nothing stored, or its message stored - one the sender, who gets no
    response, will send again. *)
Theorem shutdown_abandons_requests :
  left_behind (cut_off 5) = (Exited 0, InShutdown (t0 + 15 * Second), false, true, 0%nat) /\
  left_behind (cut_off 6) = (Exited 0, InShutdown (t0 + 15 * Second), false, true, 1%nat).
Proof. vm_compute. auto. Qed.

End examples.
